(* ===== verification/_CoqProject ===== *)
-Q . S2P
Prelude.v
GoErrors.v
Ledger.v
Fs.v
Hex.v
GoParse.v
Http.v
Ingress.v
RateLimit.v
BruteForce.v
Auth.v
Catalogue.v
KeyStore.v
ManagedKeys.v
PgKeyStore.v
Evm.v
BlockArg.v
Config.v
ChainForms.v
Anchor.v
AbiLoad.v
EvmTools.v
Onboarding.v
SignerStores.v
Relay.v
Telemetry.v
AnchorTools.v
Resilient.v
PendingKeys.v
Admin.v
AdminServer.v
KeyMgmt.v
Purge.v
Server.v
Boot.v
Observe.v
Mail.v
Health.v
Stack.v
Dispatch.v
System.v
Keyless.v
Process.v
Seed.v
Survey.v
