(* ===== verification/Prelude.v ===== *)
(** * The NVNM Chain MCP server, verified

    This development models nvnm-mcp-server (Go) and proves what makes it correct.
    The server gives MCP clients typed access to an EVM chain: it reads blocks,
    balances and the anchor precompile's registries, prepares unsigned anchor
    transactions for the client to sign, and relays signed ones, under API keys
    or, in the keyless modes, under per-signer limits.

    ** Parts and files

    A request travels from the listener through the HTTP guards to the MCP server,
    from there to a tool, and from the tool to the node.

    - Shared layer. Prelude: strings, machine integers, [result], tactics and
      hints. GoErrors: error values with errors.Is and As, wrapping, curated
      errors and SafeForClient (internal/errors). Fs: files, locks and atomic
      writes with every state a crash can leave behind. Ledger: computations that
      log what they open and close, Go's defer, and the discipline of such a log.
      Hex, GoParse: the parts of encoding/hex, crypto, strconv and time the code
      uses. Http: requests, responses, handlers.
    - Perimeter (internal/mcp): Ingress has the client address, origin, CORS,
      forwarded-protocol and discovery guards; RateLimit the bucket cache and the
      three limiters, and BruteForce what the failure limiter grants to requests
      that overlap; Auth the validators, roles, tool policy and bearer
      middleware (internal/auth, auth.go, rbac.go, authpolicy.go). Server composes
      them as RunHTTP does (server.go); Dispatch is the MCP server behind them
      (NewServer, addtool.go, the SDK's dispatch); Catalogue what is registered
      there, with every hint, annotation and text.
    - Keys: KeyStore has entries, digests, the index, and the interface of a
      backend as two classes, [KeyStoreBackend] for its operations and
      [KeyStoreLaws] for what they promise; ManagedKeys (keys.go,
      managed_keys.go) and PgKeyStore (postgres_store.go) are its instances.
      PendingKeys is the self-serve queue and its endpoint, Admin the admin API's
      handlers and AdminServer the server around them, KeyMgmt the command
      cmd/key-mgmt, Mail the messages sent (smtp.go).
    - Chain: Evm is the RPC client (internal/evm), Resilient the breaker and the
      retries, Stack the two wrapped around each other with the tracing between, as
      main builds them; ChainForms and Anchor are the anchor client
      (internal/anchor), and AbiLoad its construction from an address and an ABI
      file. [evm_api], [evm_node] and [anchor_api] are the interfaces
      evm.Client and anchor.Client; [ClosedErrors] states what the tools rely on.
    - Tools: EvmTools with BlockArg, AnchorTools, Onboarding, and Relay, the
      broadcast tool; SignerStores has the tables behind Relay's gates.
    - Operation: Config (internal/config), Boot (cmd/nvnm-mcp-server: what run
      computes up to the transport), Telemetry (the providers, exporters and
      instruments of internal/telemetry), Process (run with everything it opens,
      defers and closes, migrations included, on every path), Purge (the retention
      goroutine), Health (readiness), Observe (metrics, redaction, log fan-out, the
      cap on node responses, the recorder of response statuses). System is the
      whole at work: the MCP endpoint, the admin server, approvals in flight,
      janitors and purge as the transitions of one labelled system over the key
      store, tables and queue they share, from the state Boot's run leaves; Keyless
      follows one signer through its histories.
    - Commands beside the server: KeyMgmt above, Seed (cmd/seed-test-data) and
      Survey (cmd/query-anchor), both over the anchor client's interface.

    A component's state is a Record, its operations are functions from a state and
    what the operation observes (clock, randomness, the outcome of each system
    call, statement or node call) to a result and a new state. An error is a value
    of [error]; [option] around a result marks a Go panic. Map iteration order, the
    order in which a database scans rows and the interleaving of concurrent calls
    are arguments, so the theorems hold for all of them. Definitions are executable;
    the witnesses evaluate them.

    ** What the theorems show

    - End to end: from the environment on and through any history, no transaction
      reaches the node without a key that is live then, and an acknowledged
      revocation is final (System); in a keyless deployment, a signer has no more
      broadcasts acknowledged in a window than its quota allows, but for those whose
      counter could not be read or written, and none after an acknowledged ban
      (Keyless); what overlapping requests add to the quota is bounded, and none
      passes without scope, ban list and quota, but for the gates configured to fail
      open (Relay); every request meets every guard (Server); a server that starts is
      guarded (Boot); what is prepared is exactly what was asked for and is accepted
      by the relay once signed (Anchor, AnchorTools).
    - Resources: whatever fails on the way, run closes what it opened, exactly once
      and in an order that leaves nothing working on what is closed, and returns
      what Boot computes; where the code falls short of that, the theorems say how
      far: which exporters a failed start leaves open, and on which ways out the
      purge loop is left on a closed pool (Process, Telemetry).
    - Accountability: every attempted broadcast that decodes has one audit row (Relay),
      every accepted change by an administrator one with the right identity
      (AdminServer), each as far as the audit table takes it; every
      tool call one sample (Dispatch), every attempt at the node one (Stack).
    - Confidentiality: whatever the node, the codec, the context put into an error,
      a reader sees one of a fixed list of texts, through the whole client (Stack);
      mail fields cannot inject headers (Mail).
    - Stores: mutations are atomic, in memory and on disk, across crashes; keys
      authenticate exactly while they should, on both backends and when minted by
      the command line; reviews and keys agree under every interleaving
      (ManagedKeys, PgKeyStore, KeyStore, PendingKeys, Admin, KeyMgmt).
    - Refinement: the breaker implements its three-state contract under every
      schedule (Resilient); listings and name lookups implement windows and
      searches of the chain's table (AnchorTools); a run of key-mgmt is one step
      of an abstract change (KeyMgmt); a seeding run follows its plan transaction by
      transaction, as far as each was mined (Seed).
    - Bounds and termination: quota, failed logins, attempts per call, calls per
      listing, batches per sweep; a purge backlog is worked off although sweeps
      fail (Relay, Keyless, BruteForce, Stack, AnchorTools, Purge).
    - Configuration: what Load accepts is well formed and nothing is coerced
      silently (Config); readiness says what the last probe saw (Health); an anchor
      client that says it is available has an ABI with methods, and either form of
      the file gives the same (AbiLoad).

    Some theorems and lemmas record that the code does otherwise than it says:
    accepted requests invisible to reviewers (Boot), command-line revocations
    undone by a running server (KeyMgmt), failed tool calls counted as successes
    (Dispatch), updates that leave no audit row (AdminServer), bans entered as bare
    hex that match no signer (Admin), a keys file that starts a server without
    authentication (Boot), a purge loop on a closed pool (Process). A theorem whose
    hypotheses leave such a case out names it.

    ** Bounds and fuel

    Loops of the code that are bounded by it carry that bound: the retry loop
    MaxTries attempts, a listing 50 pages of 200 rows and a name scan one call
    more, a sweep 200 batches of 5000 rows, the scan of the seeding command 100
    pages of 200 rows. Its wait for a receipt has a deadline of 30 seconds and
    sleeps two of them a round, so that 16 rounds are enough ([wait_enough]).
    Recursion that is not structural
    carries fuel that its callers make sufficient: [duration_terms] the length of
    its text plus one and [parseXFF_loop], [be_words] and [parse_message] the
    length of theirs, each round consuming at least a character; [sha256_blocks]
    the number of words; [hex_digits] the number of binary digits; [convert_byte]
    eight rounds, a byte having eight bits; [upper_run] six characters, where the
    code stops looking; [scan_value] and its companions twice the length of the
    text ([scan_enough]). Machine integers are Z with the wrap-around written out
    ([u64] and its signed and 32-bit kin); the breaker's generation counter is
    assumed not to have wrapped, which takes a schedule of 2^64 - 1 events.

    ** Interfaces to code that is not modelled

    [EthLib] and [AnchorLib] (github.com/defiweb/go-eth: transaction decoding,
    checksummed addresses, the ABI codec, serialisation), [Recoverer] (signature
    recovery), [TokenBucket] with its laws (golang.org/x/time/rate),
    [UnicodeText] (case tables), [AbiParser] and [Wallet] (go-eth's ABI parser and
    its signing), jwt.Parse and JWKS refresh, the JSON codec, net/mail's address
    syntax, smtp.SendMail, the SQL driver, goose, the exporters of OpenTelemetry.
    Each hypothesis about one of them is named where it is used and has an instance.

    Not modelled: the accept loops of the listeners and their timeouts; requests
    served at the same time (System takes one at a time, the phases of an approval
    apart, and the races that matter are modelled where they are: reviews in Admin,
    the quota check and the charge of broadcasts in Relay, the pre-check and the
    penalty of failing logins in BruteForce, calls in Resilient); the tickers of the
    limiters' janitor and of the probe (their ticks are, and Process has when the goroutines start and
    stop); spans, request ids and most log lines; the SQL of the migrations, which
    is the shape of the tables in SignerStores and PgKeyStore; JSON schemas of tool
    inputs; the SDK's methods besides tools/call; the text the commands print;
    tests/, which is a client of the server.

    ** Plan

    Still worth doing: probe ticks and Dispatch's metrics as parts of System;
    time.Parse's RFC 3339 layout in the admin API; the grantRole selector of Boot
    taken from AbiLoad's client. *)

From stdpp Require Export base strings list gmap sorting.
From Stdlib Require Export ZArith Lia Ascii.

#[global] Open Scope Z_scope.
#[global] Set Default Proof Using "Type".

(** ** Notations *)

Declare Scope go_scope.
Delimit Scope go_scope with go.
Infix "=s" := String.eqb (at level 70, no associativity) : go_scope.
#[global] Open Scope go_scope.

(** ** Tactics *)

(** Case analysis on the innermost scrutinee of a [match] or an [if]. *)
Ltac break_match_step :=
  match goal with
  | |- context [match ?x with _ => _ end] =>
      lazymatch x with
      | context [match _ with _ => _ end] => fail
      | _ => let E := fresh "Hm" in destruct x eqn:E
      end
  | H : context [match ?x with _ => _ end] |- _ =>
      lazymatch x with
      | context [match _ with _ => _ end] => fail
      | _ => let E := fresh "Hm" in destruct x eqn:E
      end
  end.

Ltac break_match := repeat (break_match_step; simplify_eq/=; try done).

(** Turn the boolean tests of the code into propositions. *)
Ltac bool_to_prop :=
  repeat match goal with
  | H : (_ && _)%bool = true |- _ => apply andb_true_iff in H as [? ?]
  | H : (_ || _)%bool = false |- _ => apply orb_false_iff in H as [? ?]
  | H : negb _ = true |- _ => apply negb_true_iff in H
  | H : negb _ = false |- _ => apply negb_false_iff in H
  | H : String.eqb _ _ = true |- _ => apply String.eqb_eq in H
  | H : String.eqb _ _ = false |- _ => apply String.eqb_neq in H
  | H : Z.ltb _ _ = true |- _ => apply Z.ltb_lt in H
  | H : Z.ltb _ _ = false |- _ => apply Z.ltb_ge in H
  | H : Z.leb _ _ = true |- _ => apply Z.leb_le in H
  | H : Z.leb _ _ = false |- _ => apply Z.leb_gt in H
  | H : Z.eqb _ _ = true |- _ => apply Z.eqb_eq in H
  | H : Z.eqb _ _ = false |- _ => apply Z.eqb_neq in H
  end.

(** Hint databases of the development: [go] closes side conditions of the
    components' lemmas, [go_rw] normalises the models' terms. *)
Create HintDb go discriminated.
Create Rewrite HintDb go_rw.

(** ** Machine integers *)

Definition u64_mod : Z := 18446744073709551616.
Definition u64 (x : Z) : Z := x mod u64_mod.
Definition is_u64 (x : Z) : Prop := 0 <= x < u64_mod.

Lemma u64_range x : is_u64 (u64 x).
Proof. unfold is_u64, u64, u64_mod. apply Z.mod_pos_bound. lia. Qed.

Lemma u64_small x : is_u64 x → u64 x = x.
Proof. intros H. apply Z.mod_small. exact H. Qed.

#[export] Hint Resolve u64_range u64_small : go.

(** ** Results: a Go function returning (value, error) *)

Inductive result (E A : Type) :=
| Ok (a : A)
| Err (e : E).
Arguments Ok {E A} & a.
Arguments Err {E A} & e.

Definition rbind {E A B} (m : result E A) (f : A → result E B) : result E B :=
  match m with Ok a => f a | Err e => Err e end.

Definition rmap_err {E F A} (f : E → F) (m : result E A) : result F A :=
  match m with Ok a => Ok a | Err e => Err (f e) end.

Notation "'let?' x := m 'in' k" := (rbind m (λ x, k))
  (at level 10, x pattern, m at level 100, k at level 200) : go_scope.

(** [guard? b else e in k] is the early return [if !b { return e }]. *)
Notation "'guard?' b 'else' e 'in' k" := (if b then k else Err e)
  (at level 10, b at level 100, e at level 100, k at level 200) : go_scope.

Lemma rbind_ok {E A B} (m : result E A) (f : A → result E B) b :
  rbind m f = Ok b ↔ ∃ a, m = Ok a ∧ f a = Ok b.
Proof. destruct m; simpl; naive_solver. Qed.

Lemma rbind_err {E A B} (m : result E A) (f : A → result E B) e :
  rbind m f = Err e ↔ m = Err e ∨ ∃ a, m = Ok a ∧ f a = Err e.
Proof. destruct m; simpl; naive_solver. Qed.

Definition is_ok {E A} (m : result E A) : bool :=
  match m with Ok _ => true | Err _ => false end.

(** ** Go strings: byte sequences *)

Definition slen (s : string) : Z := Z.of_nat (String.length s).

Fixpoint str_take (n : nat) (s : string) : string :=
  match n, s with
  | S n, String c s => String c (str_take n s)
  | _, _ => EmptyString
  end.

Fixpoint str_drop (n : nat) (s : string) : string :=
  match n, s with
  | S n, String _ s => str_drop n s
  | _, _ => s
  end.

(** strings.HasPrefix / TrimPrefix / HasSuffix / Contains *)
Fixpoint has_prefix (p s : string) : bool :=
  match p, s with
  | EmptyString, _ => true
  | String a p, String b s => Ascii.eqb a b && has_prefix p s
  | String _ _, EmptyString => false
  end.

Definition trim_prefix (p s : string) : string :=
  if has_prefix p s then str_drop (String.length p) s else s.

Fixpoint has_suffix (p s : string) : bool :=
  (p =s s) || match s with EmptyString => false | String _ s' => has_suffix p s' end.

Fixpoint contains (sub s : string) : bool :=
  has_prefix sub s || match s with EmptyString => false | String _ s' => contains sub s' end.

(** strings.ToLower and strings.ToUpper on ASCII text. *)
Definition is_upper (c : ascii) : bool :=
  let n := nat_of_ascii c in (65 <=? n)%nat && (n <=? 90)%nat.
Definition is_lower (c : ascii) : bool :=
  let n := nat_of_ascii c in (97 <=? n)%nat && (n <=? 122)%nat.
Definition lower_char (c : ascii) : ascii :=
  if is_upper c then ascii_of_nat (nat_of_ascii c + 32) else c.
Definition upper_char (c : ascii) : ascii :=
  if is_lower c then ascii_of_nat (nat_of_ascii c - 32) else c.

Fixpoint smap (f : ascii → ascii) (s : string) : string :=
  match s with EmptyString => EmptyString | String c s => String (f c) (smap f s) end.

(** strings.ToLower and ToUpper on ASCII. What they are applied to is ASCII
    (addresses, selectors, header names) or searched for ASCII phrases (error texts
    of the node), where Go differs only in the two characters beyond ASCII that fold
    into an ASCII letter (U+0130, U+212A); [UnicodeText] stands for the full tables
    where the code compares names. *)
Definition to_lower : string → string := smap lower_char.
Definition to_upper : string → string := smap upper_char.

(** strings.EqualFold on ASCII text. *)
Definition equal_fold (a b : string) : bool := to_lower a =s to_lower b.

(** strings.TrimSpace on ASCII text (tab, LF, VT, FF, CR, space). *)
Definition is_space (c : ascii) : bool :=
  let n := nat_of_ascii c in ((9 <=? n)%nat && (n <=? 13)%nat) || (n =? 32)%nat.

Fixpoint trim_left_by (f : ascii → bool) (s : string) : string :=
  match s with
  | String c s' => if f c then trim_left_by f s' else s
  | EmptyString => EmptyString
  end.

Fixpoint trim_right_by (f : ascii → bool) (s : string) : string :=
  match s with
  | EmptyString => EmptyString
  | String c s' =>
      match trim_right_by f s' with
      | EmptyString => if f c then EmptyString else String c EmptyString
      | t => String c t
      end
  end.

Definition trim_by (f : ascii → bool) (s : string) : string :=
  trim_right_by f (trim_left_by f s).
Definition trim_space : string → string := trim_by is_space.

(** strings.IndexByte; -1 when absent. *)
Fixpoint index_byte_from (i : Z) (c : ascii) (s : string) : Z :=
  match s with
  | EmptyString => -1
  | String d s' => if Ascii.eqb d c then i else index_byte_from (i + 1) c s'
  end.
Definition index_byte (s : string) (c : ascii) : Z := index_byte_from 0 c s.

(** strings.Join *)
Fixpoint join (sep : string) (l : list string) : string :=
  match l with
  | [] => ""
  | [x] => x
  | x :: l' => x +:+ sep +:+ join sep l'
  end.

(** ** Lemmas on strings and boolean lists *)

Lemma has_prefix_spec p s : has_prefix p s = true ↔ ∃ t, s = p +:+ t.
Proof.
  revert s. induction p as [|a p IH]; intros s; simpl.
  - split; [eauto|done].
  - destruct s as [|b s].
    + split; [done|]. intros [t Ht]. discriminate Ht.
    + rewrite andb_true_iff, IH, Ascii.eqb_eq. split.
      * intros [-> [t ->]]. by exists t.
      * intros [t Ht]. injection Ht as <- ->. eauto.
Qed.

Lemma str_take_app p t : str_take (String.length p) (p +:+ t) = p.
Proof.
  induction p as [|c p IH]; [by destruct t|].
  change (String c (str_take (String.length p) (p +:+ t)) = String c p). by rewrite IH.
Qed.

Lemma str_drop_app p t : str_drop (String.length p) (p +:+ t) = t.
Proof. induction p as [|a p IH]; [by destruct t|]. exact IH. Qed.

Lemma has_prefix_app p t : has_prefix p (p +:+ t) = true.
Proof. apply has_prefix_spec. eauto. Qed.

Lemma trim_prefix_app p t : trim_prefix p (p +:+ t) = t.
Proof. unfold trim_prefix. by rewrite has_prefix_app, str_drop_app. Qed.

Lemma trim_prefix_spec p s : has_prefix p s = true → s = p +:+ trim_prefix p s.
Proof. intros [t ->]%has_prefix_spec. by rewrite trim_prefix_app. Qed.

Lemma string_app_assoc (a b c : string) : (a +:+ b) +:+ c = a +:+ b +:+ c.
Proof.
  induction a as [|x a IH]; [done|].
  change (String x ((a +:+ b) +:+ c) = String x (a +:+ b +:+ c)). by rewrite IH.
Qed.

Lemma string_app_nil_r (a : string) : a +:+ "" = a.
Proof. induction a as [|x a IH]; [done|]. change (String x (a +:+ "") = String x a). by rewrite IH. Qed.

Lemma string_app_length s1 s2 :
  String.length (s1 +:+ s2) = (String.length s1 + String.length s2)%nat.
Proof. induction s1 as [|c s1 IH]; [done|]. cbn [String.append String.length Nat.add]. by rewrite <- IH. Qed.

Lemma string_app_nonempty (c : ascii) (a b : string) : (String c a +:+ b =s "") = false.
Proof. done. Qed.

Lemma if_same {A} (b : bool) (x : A) : (if b then x else x) = x.
Proof. by destruct b. Qed.

Lemma existsb_eqb_true x l : existsb (String.eqb x) l = true ↔ x ∈ l.
Proof.
  rewrite existsb_exists. setoid_rewrite String.eqb_eq. setoid_rewrite <- list_elem_of_In.
  naive_solver.
Qed.

Lemma existsb_eqb_false x l : existsb (String.eqb x) l = false ↔ x ∉ l.
Proof. rewrite <- existsb_eqb_true. by destruct (existsb _ _). Qed.

Lemma fmap_sublist {A B} (f : A → B) l1 l2 : l1 `sublist_of` l2 → f <$> l1 `sublist_of` f <$> l2.
Proof. induction 1; simpl; by constructor. Qed.

#[export] Hint Resolve has_prefix_app trim_prefix_spec : go.
#[export] Hint Rewrite str_drop_app has_prefix_app trim_prefix_app string_app_nil_r : go_rw.
