(* ===== verification/GoErrors.v ===== *)
(** Error values of the server (internal/errors/errors.go): the sentinels,
    the wrapping operators of Go ([fmt.Errorf] with %w, errors.Is), the curated
    error pair, and SafeForClient, the choke point every tool error goes
    through (internal/mcp/addtool.go). *)

From S2P Require Import Prelude.

(** A double quote, spelled without one inside a literal. *)
Definition dq : string := String (ascii_of_nat 34) "".

(** ** Sentinels

    One constructor per package-level [errors.New] value the model uses: the
    sentinels of internal/errors, those of internal/auth and internal/mcp, and
    the values of the standard library and the circuit breaker that the code
    compares against with errors.Is. *)
Inductive sentinel :=
| ErrInvalidAddress
| ErrInvalidBlockRef
| ErrInvalidTxHash
| ErrInvalidTopics
| ErrInvalidABI
| ErrInvalidSignature
| ErrInvalidHash
| ErrMissingRequired
| ErrInvalidRegistryID
| ErrInvalidRecordID
| ErrInvalidChecksum
| ErrInputTooLarge
| ErrTxDecode
| ErrRelayScopeRejected
| ErrPrecompileValidation
| ErrLogRangeTooWide
| ErrLogRangeInvalid
| ErrEmptyMetadataObject
| ErrInvalidMatchMode
| ErrInvalidFilterCombination
| ErrMatchWithoutName
| ErrInvalidCursor
| ErrInvalidHexData
| ErrInvalidRole
| ErrBlockBeyondHead
| ErrCallReverted
| ErrRelayValueRejected
| ErrTxNonceConflict
| ErrTxAlreadyKnown
| ErrTxChainIDMismatch
| ErrInsufficientFunds
| ErrBlockNotFound
| ErrTxNotFound
| ErrRegistryNotFound
| ErrRecordNotFound
| ErrAnchorABIMissing
| ErrAnchorABIMethodMissing
| ErrAnchorABIEmpty
| ErrInvalidChainID
| ErrEmptyTxHash
| ErrWriteDisabled
| ErrPermissionDenied
| ErrAuthRequired
| ErrUpstreamRPC
| ErrContractCallFailed
| ErrPrecompileCall
| ErrCircuitOpen
| ErrRateLimited
| ErrUnexpectedType
| ErrNodeResponseDecode
| ErrNodeResponseTooLarge
| ErrSafeCircuitOpen
| ErrSafeRateLimited
| ErrSafeUpstreamFail
| ErrInvalidAPIKey
| ErrKeyExpired
| ErrKeyRevoked
| ErrTokenInvalid
| ErrClaimsExtract
| ErrInvalidIssuer
| ErrInvalidAudience
| ErrSignerBlacklisted
| ErrSignerQuotaExceeded
| ErrClientExists
| ErrClientMissing
| ErrPendingNotFound
| ErrPendingNotPending
| ErrPendingEmptyPath
| ErrPendingInvalidStatus
| ErrPurgeNoPool
| ErrTTLNotPositive
| CtxDeadlineExceeded
| CtxCanceled
| FsErrNotExist
| ErrLegacyKeyWriteApproval
| IoEOF
| IoErrUnexpectedEOF
| BreakerErrOpenState
| BreakerErrTooManyRequests
| ErrAdminKeyEmptyID
| ErrAdminKeyEmptyKey
| ErrAdminKeyDuplicateID
| ErrAdminKeyDuplicateHash
| ErrAdminKeyNoneConfigured.

#[export] Instance sentinel_eq_dec : EqDecision sentinel.
Proof. solve_decision. Defined.

Definition sentinel_text (s : sentinel) : string :=
  match s with
  | ErrInvalidAddress => "invalid Ethereum address"
  | ErrInvalidBlockRef => "invalid block reference"
  | ErrInvalidTxHash => "invalid transaction hash"
  | ErrInvalidTopics => "invalid log topics"
  | ErrInvalidABI => "invalid ABI fragment"
  | ErrInvalidSignature => "invalid signature"
  | ErrInvalidHash => "invalid hash"
  | ErrMissingRequired => "missing required parameter"
  | ErrInvalidRegistryID => "invalid registry ID"
  | ErrInvalidRecordID => "invalid record ID"
  | ErrInvalidChecksum => "invalid checksum"
  | ErrInputTooLarge => "input exceeds maximum allowed size"
  | ErrTxDecode => "decode signed transaction"
  | ErrRelayScopeRejected => "transaction not relayed: this connector only broadcasts writes to the NVNM anchoring registry (reads of any data are unrestricted); other transaction destinations are rejected"
  | ErrPrecompileValidation => "precompile rejected input"
  | ErrLogRangeTooWide => "block range too wide: the upstream node caps the from_block-to_block distance for log queries; narrow the range and retry"
  | ErrLogRangeInvalid => "invalid block range: to_block must not exceed the current chain head and from_block must not exceed to_block; use to_block=" +:+ dq +:+ "latest" +:+ dq +:+ " or a block number at or below the head"
  | ErrEmptyMetadataObject => "metadata must not be the empty JSON object " +:+ dq +:+ "{}" +:+ dq +:+ " (the anchoring precompile rejects it); pass a non-empty value such as a short label or a JSON object with at least one field"
  | ErrInvalidMatchMode => "invalid match mode: must be exact, prefix, suffix, or contains"
  | ErrInvalidFilterCombination => "registry_id cannot be combined with name, match, offset, limit, or key: registry_id fetches a single registry by ID, which is a different query shape from a registry listing; drop the other parameters, or omit registry_id to list registries"
  | ErrMatchWithoutName => "match requires name: the match mode only applies to a name lookup; supply name, or omit match for a paged listing"
  | ErrInvalidCursor => "key must be the next_key from a previous unfiltered listing and cannot be combined with a non-zero offset, name, match, or registry_id: page with either key or offset, not both"
  | ErrInvalidHexData => "invalid hex data: must be 0x-prefixed hex with an even number of digits"
  | ErrInvalidRole => "invalid role: must be " +:+ dq +:+ "admin" +:+ dq +:+ " or " +:+ dq +:+ "editor" +:+ dq +:+ ""
  | ErrBlockBeyondHead => "block number is beyond the current chain head: use " +:+ dq +:+ "latest" +:+ dq +:+ " or a block number at or below the head (evm_get_chain_id reports it)"
  | ErrCallReverted => "contract call reverted: the target rejected the call (unknown function selector, malformed calldata, or a failed require/permission check); check `to` and `data`, and pass `from` if the function checks msg.sender"
  | ErrRelayValueRejected => "transaction not relayed: this connector only broadcasts zero-value calls to the NVNM anchoring registry and the signed transaction carries a non-zero value; re-prepare with the anchor_prepare_* tools (value is always 0) and re-sign"
  | ErrTxNonceConflict => "transaction rejected: nonce conflict -- the signed nonce is already used by a mined or pending transaction from this address; call the anchor_prepare_* tool again for a fresh nonce, re-sign, and re-broadcast"
  | ErrTxAlreadyKnown => "transaction already known to the network: this exact signed transaction is already pending or mined; do not re-broadcast -- poll evm_get_transaction_receipt with its hash instead"
  | ErrTxChainIDMismatch => "transaction signed for a different chain: sign with the chain_id returned by the anchor_prepare_* tool for this deployment"
  | ErrInsufficientFunds => "insufficient funds: the signer's balance does not cover gas for this transaction; fund the address (nvnm_setup_wizard explains how) and re-broadcast"
  | ErrBlockNotFound => "block not found"
  | ErrTxNotFound => "transaction not found"
  | ErrRegistryNotFound => "registry not found"
  | ErrRecordNotFound => "record not found"
  | ErrAnchorABIMissing => "anchor precompile ABI not loaded"
  | ErrAnchorABIMethodMissing => "anchor ABI method not found"
  | ErrAnchorABIEmpty => "anchor ABI has no methods"
  | ErrInvalidChainID => "invalid chain ID"
  | ErrEmptyTxHash => "empty transaction hash returned from broadcast"
  | ErrWriteDisabled => "write tools are not enabled"
  | ErrPermissionDenied => "permission denied"
  | ErrAuthRequired => "authentication required"
  | ErrUpstreamRPC => "upstream RPC error"
  | ErrContractCallFailed => "contract call failed"
  | ErrPrecompileCall => "precompile call failed"
  | ErrCircuitOpen => "circuit breaker is open"
  | ErrRateLimited => "upstream rate limit exceeded"
  | ErrUnexpectedType => "unexpected result type"
  | ErrNodeResponseDecode => "decode of node response failed"
  | ErrNodeResponseTooLarge => "node response exceeds maximum allowed size"
  | ErrSafeCircuitOpen => "service temporarily unavailable (circuit open)"
  | ErrSafeRateLimited => "service temporarily unavailable (rate limited)"
  | ErrSafeUpstreamFail => "upstream operation failed"
  | ErrInvalidAPIKey => "invalid API key"
  | ErrKeyExpired => "api key expired"
  | ErrKeyRevoked => "api key revoked"
  | ErrTokenInvalid => "token is not valid"
  | ErrClaimsExtract => "failed to extract claims"
  | ErrInvalidIssuer => "invalid issuer"
  | ErrInvalidAudience => "invalid audience: token not issued for this application"
  | ErrSignerBlacklisted => "signer is blacklisted"
  | ErrSignerQuotaExceeded => "per-signer write quota exceeded"
  | ErrClientExists => "client already exists"
  | ErrClientMissing => "client not found"
  | ErrPendingNotFound => "pending key request not found"
  | ErrPendingNotPending => "pending key request is not in 'pending' status"
  | ErrPendingEmptyPath => "pending key store: empty path"
  | ErrPendingInvalidStatus => "invalid decision status"
  | ErrPurgeNoPool => "retention purge requires a Postgres pool"
  | ErrTTLNotPositive => "ttl must be positive"
  | CtxDeadlineExceeded => "context deadline exceeded"
  | CtxCanceled => "context canceled"
  | FsErrNotExist => "file does not exist"
  | ErrLegacyKeyWriteApproval => "key store contains the retired write_approval field; remove it from every entry (server-side write approval was removed in Option 0). See docs/RUNBOOK.md#write-approval-removal"
  | IoEOF => "EOF"
  | IoErrUnexpectedEOF => "unexpected EOF"
  | BreakerErrOpenState => "circuit breaker is open"
  | BreakerErrTooManyRequests => "too many requests"
  | ErrAdminKeyEmptyID => "admin key entry has empty id"
  | ErrAdminKeyEmptyKey => "admin key entry has empty key"
  | ErrAdminKeyDuplicateID => "admin key entry has duplicate id"
  | ErrAdminKeyDuplicateHash => "admin key entry has duplicate key"
  | ErrAdminKeyNoneConfigured => "no admin keys configured (ADMIN_API_KEY empty and ADMIN_API_KEYS_FILE has no entries)"
  end.

(** The input-validation class of errors.go. *)
Definition inputErrors : list sentinel :=
  [ErrInvalidAddress; ErrInvalidBlockRef; ErrInvalidTxHash; ErrInvalidTopics;
   ErrInvalidABI; ErrInvalidSignature; ErrInvalidHash; ErrMissingRequired;
   ErrInvalidRegistryID; ErrInvalidRecordID; ErrInvalidChecksum; ErrInputTooLarge;
   ErrTxDecode; ErrRelayScopeRejected; ErrPrecompileValidation; ErrLogRangeTooWide;
   ErrLogRangeInvalid; ErrEmptyMetadataObject; ErrInvalidMatchMode; ErrInvalidFilterCombination;
   ErrMatchWithoutName; ErrInvalidCursor; ErrInvalidHexData; ErrInvalidRole;
   ErrBlockBeyondHead; ErrCallReverted; ErrRelayValueRejected; ErrTxNonceConflict;
   ErrTxAlreadyKnown; ErrTxChainIDMismatch; ErrInsufficientFunds].


(** ** Error values *)

Inductive error :=
| Sentinel (s : sentinel)
| Opaque (msg : string)                      (* a value of foreign code, no sentinel *)
| RPCError (code : Z) (msg : string)         (* *transport.RPCError: the node answered *)
| NetError (msg : string)                    (* a net.Error *)
| Wrap (pre : string) (e : error) (post : string)   (* fmt.Errorf("pre%wpost", e) *)
| Wrap2 (e1 : error) (mid : string) (e2 : error)    (* fmt.Errorf("%wmid%w", e1, e2) *)
| Permanent (e : error)                      (* *backoff.PermanentError *)
| Curated (safe raw : error).                (* *curatedError *)

Coercion Sentinel : sentinel >-> error.

(** e.Error() *)
Fixpoint error_text (e : error) : string :=
  match e with
  | Sentinel s => sentinel_text s
  | Opaque msg | RPCError _ msg | NetError msg => msg
  | Wrap pre e post => pre +:+ error_text e +:+ post
  | Wrap2 e1 mid e2 => error_text e1 +:+ mid +:+ error_text e2
  | Permanent e => error_text e
  | Curated safe _ => error_text safe
  end.

(** errors.Is: walks every Unwrap branch; both halves of a curated pair are
    reachable. *)
Fixpoint errors_Is (e : error) (t : sentinel) : bool :=
  match e with
  | Sentinel s => bool_decide (s = t)
  | Opaque _ | RPCError _ _ | NetError _ => false
  | Wrap _ e _ | Permanent e => errors_Is e t
  | Wrap2 e1 _ e2 => errors_Is e1 t || errors_Is e2 t
  | Curated safe raw => errors_Is safe t || errors_Is raw t
  end.

(** errors.As with a *transport.RPCError target, and with a net.Error target
    (context.DeadlineExceeded implements net.Error). *)
Fixpoint as_rpc_error (e : error) : bool :=
  match e with
  | RPCError _ _ => true
  | Sentinel _ | Opaque _ | NetError _ => false
  | Wrap _ e _ | Permanent e => as_rpc_error e
  | Wrap2 e1 _ e2 | Curated e1 e2 => as_rpc_error e1 || as_rpc_error e2
  end.

Fixpoint as_net_error (e : error) : bool :=
  match e with
  | NetError _ => true
  | Sentinel s => bool_decide (s = CtxDeadlineExceeded)
  | Opaque _ | RPCError _ _ => false
  | Wrap _ e _ | Permanent e => as_net_error e
  | Wrap2 e1 _ e2 | Curated e1 e2 => as_net_error e1 || as_net_error e2
  end.

Definition errors_Is_any (e : error) (ts : list sentinel) : bool :=
  existsb (errors_Is e) ts.

(** ** Classification *)

Definition Curate (safe : error) (raw : option error) : error :=
  match raw with None => safe | Some raw => Curated safe raw end.

(** errors.As with a *curatedError target: the first curated pair of a
    pre-order walk. *)
Fixpoint as_curated (e : error) : option (error * error) :=
  match e with
  | Curated safe raw => Some (safe, raw)
  | Sentinel _ | Opaque _ | RPCError _ _ | NetError _ => None
  | Wrap _ e _ | Permanent e => as_curated e
  | Wrap2 e1 _ e2 =>
      match as_curated e1 with Some p => Some p | None => as_curated e2 end
  end.

Definition RawCause (e : error) : error :=
  match as_curated e with Some (_, raw) => raw | None => e end.

Definition IsInputError (e : error) : bool := errors_Is_any e inputErrors.

Definition IsTransientError (e : error) : bool :=
  errors_Is e ErrUpstreamRPC || errors_Is e ErrContractCallFailed.

Definition IsNotFound (e : error) : bool :=
  errors_Is e ErrBlockNotFound || errors_Is e ErrTxNotFound ||
  errors_Is e ErrRegistryNotFound || errors_Is e ErrRecordNotFound.

Definition SafeForClient (err : option error) : option error :=
  match err with
  | None => None
  | Some e =>
      Some (if IsInputError e || IsNotFound e then e
            else if errors_Is e ErrAnchorABIMissing || errors_Is e ErrWriteDisabled then e
            else if errors_Is e ErrPermissionDenied then e
            else if errors_Is e ErrAuthRequired then e
            else if errors_Is e ErrCircuitOpen then Sentinel ErrSafeCircuitOpen
            else if errors_Is e ErrRateLimited then Sentinel ErrSafeRateLimited
            else Sentinel ErrSafeUpstreamFail)
  end.

(** sanitizeToolErr: a handler's result with its error made client-safe. *)
Definition sanitizeToolErr {A} (r : result error A) : result error A :=
  match r with
  | Ok a => Ok a
  | Err e => match SafeForClient (Some e) with Some e' => Err e' | None => Err e end
  end.

(** ** Theorems *)

(** The class whose text reaches clients verbatim. *)
Definition disclosed (e : error) : bool :=
  IsInputError e || IsNotFound e || errors_Is e ErrAnchorABIMissing ||
  errors_Is e ErrWriteDisabled || errors_Is e ErrPermissionDenied || errors_Is e ErrAuthRequired.

Definition disclosed_sentinels : list sentinel :=
  inputErrors ++ [ErrBlockNotFound; ErrTxNotFound; ErrRegistryNotFound; ErrRecordNotFound;
    ErrAnchorABIMissing; ErrWriteDisabled; ErrPermissionDenied; ErrAuthRequired].

Lemma errors_Is_any_app e l1 l2 :
  errors_Is_any e (l1 ++ l2) = errors_Is_any e l1 || errors_Is_any e l2.
Proof. apply existsb_app. Qed.

Lemma disclosed_any e : disclosed e = errors_Is_any e disclosed_sentinels.
Proof.
  unfold disclosed, disclosed_sentinels, IsInputError, IsNotFound.
  rewrite errors_Is_any_app. cbn [errors_Is_any existsb].
  by rewrite orb_false_r, !orb_assoc.
Qed.

Lemma SafeForClient_disclosed e : disclosed e = true → SafeForClient (Some e) = Some e.
Proof.
  unfold disclosed, SafeForClient.
  destruct (IsInputError e), (IsNotFound e), (errors_Is e ErrAnchorABIMissing),
    (errors_Is e ErrWriteDisabled), (errors_Is e ErrPermissionDenied),
    (errors_Is e ErrAuthRequired); done.
Qed.

Lemma SafeForClient_hidden e :
  disclosed e = false →
  SafeForClient (Some e) =
    Some (Sentinel (if errors_Is e ErrCircuitOpen then ErrSafeCircuitOpen
                    else if errors_Is e ErrRateLimited then ErrSafeRateLimited
                    else ErrSafeUpstreamFail)).
Proof.
  unfold disclosed, SafeForClient.
  destruct (IsInputError e), (IsNotFound e), (errors_Is e ErrAnchorABIMissing),
    (errors_Is e ErrWriteDisabled), (errors_Is e ErrPermissionDenied),
    (errors_Is e ErrAuthRequired), (errors_Is e ErrCircuitOpen),
    (errors_Is e ErrRateLimited); done.
Qed.

Definition wrap_in (ctx : list (string * string)) (e : error) : error :=
  foldr (λ p e, Wrap p.1 e p.2) e ctx.

Lemma errors_Is_wrap_in ctx e t : errors_Is (wrap_in ctx e) t = errors_Is e t.
Proof. by induction ctx. Qed.

Lemma errors_Is_any_wrap_in ctx e ts : errors_Is_any (wrap_in ctx e) ts = errors_Is_any e ts.
Proof.
  unfold errors_Is_any. induction ts as [|t ts IH]; simpl; [done|].
  by rewrite errors_Is_wrap_in, IH.
Qed.

Lemma disclosed_wrap_in ctx e : disclosed (wrap_in ctx e) = disclosed e.
Proof. by rewrite !disclosed_any, errors_Is_any_wrap_in. Qed.

Lemma disclosed_curated safe raw : disclosed safe = true → disclosed (Curated safe raw) = true.
Proof.
  rewrite !disclosed_any. unfold errors_Is_any.
  rewrite !existsb_exists. intros (t & Ht & H). exists t. simpl. by rewrite H.
Qed.

Lemma as_curated_wrap_in ctx e : as_curated (wrap_in ctx e) = as_curated e.
Proof. by induction ctx. Qed.

Lemma error_text_wrap_in_curated ctx safe raw1 raw2 :
  error_text (wrap_in ctx (Curated safe raw1)) = error_text (wrap_in ctx (Curated safe raw2)).
Proof. induction ctx as [|p ctx IH]; simpl; [done|]. by rewrite IH. Qed.

#[export] Hint Resolve SafeForClient_disclosed disclosed_curated : go.
#[export] Hint Rewrite errors_Is_wrap_in disclosed_wrap_in as_curated_wrap_in : go_rw.

(** Error disclosure. SafeForClient never changes an error of the
    disclosed classes (input, not-found, ABI/write capability, permission,
    authentication), and replaces every other error by one of three constant
    texts, chosen by errors.Is alone: no byte of an upstream or internal
    error's text reaches a client unless a disclosed sentinel is in its chain. *)
Theorem SafeForClient_no_leak e :
  ∃ e', SafeForClient (Some e) = Some e' ∧
    ((e' = e ∧ ∃ t, t ∈ disclosed_sentinels ∧ errors_Is e t = true) ∨
     ((∀ t, t ∈ disclosed_sentinels → errors_Is e t = false) ∧
      e' = Sentinel (if errors_Is e ErrCircuitOpen then ErrSafeCircuitOpen
                     else if errors_Is e ErrRateLimited then ErrSafeRateLimited
                     else ErrSafeUpstreamFail))).
Proof.
  destruct (disclosed e) eqn:Hd.
  - exists e. split; [auto with go|]. left. split; [done|].
    rewrite disclosed_any in Hd. apply existsb_exists in Hd as (t & ? & ?).
    exists t. by rewrite list_elem_of_In.
  - eexists. split; [by apply SafeForClient_hidden|]. right. split; [|done].
    intros t Ht. rewrite disclosed_any in Hd.
    destruct (errors_Is e t) eqn:E; [|done].
    assert (errors_Is_any e disclosed_sentinels = true) as Ht'; [|congruence].
    apply existsb_exists. exists t. by rewrite <- list_elem_of_In.
Qed.

(** Curated errors keep the node's text out of the client's sight and in
    the operator's: however a curated error is wrapped on its way out, the
    client-visible text does not depend on the raw cause, and RawCause gives
    the raw cause back for the audit log. *)
Theorem Curate_noninterference ctx safe raw1 raw2
    (Hsafe : disclosed safe = true) :
  let vis raw := error_text <$> SafeForClient (Some (wrap_in ctx (Curate safe (Some raw)))) in
  vis raw1 = vis raw2 ∧ RawCause (wrap_in ctx (Curate safe (Some raw1))) = raw1.
Proof.
  cbv zeta. unfold Curate. split.
  - rewrite !SafeForClient_disclosed by (autorewrite with go_rw; auto with go).
    cbn [fmap option_fmap option_map]. f_equal. apply error_text_wrap_in_curated.
  - unfold RawCause. autorewrite with go_rw. done.
Qed.

Lemma Curate_noninterference_witness :
  error_text <$> SafeForClient (Some (wrap_in [("send transaction: ", "")]
      (Curate ErrTxNonceConflict (Some (RPCError (-32000) "http://10.0.0.7: invalid nonce")))))
  = error_text <$> SafeForClient (Some (wrap_in [("send transaction: ", "")]
      (Curate ErrTxNonceConflict (Some (Opaque "other")))))
  ∧ RawCause (wrap_in [("send transaction: ", "")]
      (Curate ErrTxNonceConflict (Some (RPCError (-32000) "http://10.0.0.7: invalid nonce"))))
    = RPCError (-32000) "http://10.0.0.7: invalid nonce".
Proof.
  exact (Curate_noninterference [("send transaction: ", "")] ErrTxNonceConflict
    (RPCError (-32000) "http://10.0.0.7: invalid nonce") (Opaque "other") eq_refl).
Defined.
