(* ===== verification/Ledger.v ===== *)
(** The resources a process holds: a computation that logs what it opens and
    closes, Go's defer, and the discipline such a log keeps. Telemetry and Process
    are written with it. *)

From S2P Require Import Prelude GoErrors.

Variant pool_id := KeyStorePool | KeylessPool.
Variant exporter := OtlpTrace | StdoutTrace | Prometheus | OtlpMetric | StdoutMetric.

Inductive resource :=
  | SignalContext                               (* signal.NotifyContext *)
  | Exporter (x : exporter) | TracerProvider | MeterProvider
  | Pool (p : pool_id) | SqlDB (p : pool_id) | MigrationConn (p : pool_id) | MigrationLock (p : pool_id)
  | JWKSRefresh                                 (* a FusionAuth validator *)
  | EvmClient | HealthServer | AdminAPI
  | ClientJanitor | AnonJanitor | FailJanitor | RequestJanitor
  | ServeLoop.                                  (* RunStdio or RunHTTP *)

#[export] Instance pool_id_eq : EqDecision pool_id.
Proof. solve_decision. Defined.
#[export] Instance exporter_eq : EqDecision exporter.
Proof. solve_decision. Defined.
#[export] Instance resource_eq : EqDecision resource.
Proof. solve_decision. Defined.

(** The purge loop is started with the signal context and ends some time after its
    cancellation; nothing waits for it. *)
Inductive act :=
  | Open (r : resource) | Close (r : resource)
  | StartPurge | Cancel
  | SetTracerProvider | SetMeterProvider
  | Migrate (p : pool_id).

(** ** Computations that log *)

Definition M (E A : Type) : Type := result E A * list act.

Definition ret {E A} (a : A) : M E A := (Ok a, []).
Definition lift {E A} (r : result E A) : M E A := (r, []).
Definition emit {E A} (l : list act) (m : M E A) : M E A := (m.1, l ++ m.2).
Definition bind {E A B} (m : M E A) (k : A → M E B) : M E B :=
  match m.1 with Ok a => emit m.2 (k a) | Err e => (Err e, m.2) end.
Definition fail_with {E E' A} (f : E → E') (m : M E A) : M E' A := (rmap_err f m.1, m.2).

(** What was deferred runs when the function returns, whichever way. *)
Definition defer {E A} (cleanup : list act) (m : M E A) : M E A := (m.1, m.2 ++ cleanup).

(** A cleanup on the error path only. *)
Definition on_error {E A} (cleanup : list act) (m : M E A) : M E A :=
  match m.1 with Ok _ => m | Err _ => (m.1, m.2 ++ cleanup) end.

Notation "'let!' x := m 'in' k" := (bind m (λ x, k))
  (at level 10, x name, m at level 100, k at level 200) : go_scope.

(** ** The discipline *)

(** What a resource works on: closed only after it. The purge loop, which is no
    resource, is followed by [purge_of] below. *)
Definition uses (r r' : resource) : bool :=
  match r, r' with
  | TracerProvider, Exporter (OtlpTrace | StdoutTrace) => true
  | MeterProvider, Exporter (Prometheus | OtlpMetric | StdoutMetric) => true
  | SqlDB p, Pool p' | MigrationConn p, SqlDB p' | MigrationLock p, MigrationConn p' => bool_decide (p = p')
  | HealthServer, EvmClient => true
  | AdminAPI, Pool _ => true
  | ServeLoop, ServeLoop => false
  | ServeLoop, _ => true
  | _, _ => false
  end.

Definition drop_resource (r : resource) (held : list resource) : list resource := filter (λ x, x ≠ r) held.

(** Play a log from the resources held: nothing is opened twice, closed when it is
    not open, or closed under something that works on it; a migration runs under
    its lock, the purge starts on an open pool. The result is what is still held. *)
Definition play_act (user : resource → resource → bool) (a : act) (held : list resource) : option (list resource) :=
  match a with
  | Open r => if bool_decide (r ∈ held) then None else Some (r :: held)
  | Close r =>
      if bool_decide (r ∈ held) && forallb (λ x, negb (user x r)) (drop_resource r held)
      then Some (drop_resource r held) else None
  | StartPurge => if bool_decide (SignalContext ∈ held ∧ Pool KeylessPool ∈ held) then Some held else None
  | Cancel => if bool_decide (SignalContext ∈ held) then Some held else None
  | SetTracerProvider => if bool_decide (TracerProvider ∈ held) then Some held else None
  | SetMeterProvider => if bool_decide (MeterProvider ∈ held) then Some held else None
  | Migrate p => if bool_decide (MigrationLock p ∈ held) then Some held else None
  end.

Fixpoint play (user : resource → resource → bool) (l : list act) (held : list resource) : option (list resource) :=
  match l with
  | [] => Some held
  | a :: l => match play_act user a held with Some held => play user l held | None => None end
  end.

(** ** Lemmas *)

Lemma play_app user l1 l2 held :
  play user (l1 ++ l2) held = match play user l1 held with Some h => play user l2 h | None => None end.
Proof.
  revert held. induction l1 as [|a l1 IH]; intros held; [done|]. cbn [app play].
  destruct (play_act user a held); [apply IH|done].
Qed.

(** [held] becomes [after] by the log of [m]. *)
Definition leaves {E A} (held : list resource) (m : M E A) (after : result E A → list resource) : Prop :=
  play uses m.2 held = Some (after m.1).

Section Rules.
Context {E A B : Type}.

Lemma leaves_lift held (r : result E A) : leaves held (lift r) (λ _, held).
Proof using Type. done. Qed.

Lemma leaves_emit held mid l (m : M E A) after :
  play uses l held = Some mid → leaves mid m after → leaves held (emit l m) after.
Proof using Type. unfold leaves, emit. cbn [fst snd]. intros H1 H2. by rewrite play_app, H1. Qed.

Lemma leaves_bind held (m : M E A) (k : A → M E B) mid after :
  leaves held m mid → (∀ a, m.1 = Ok a → leaves (mid (Ok a)) (k a) after) →
  (∀ e, m.1 = Err e → mid (Err e) = after (Err e)) → leaves held (bind m k) after.
Proof using Type.
  unfold leaves, bind. intros Hm Hk He. destruct (m.1) as [a|e]; cbn [fst snd emit].
  - rewrite play_app, Hm. by apply Hk.
  - by rewrite Hm, He.
Qed.

Lemma leaves_defer held (m : M E A) cleanup mid after :
  leaves held m mid → play uses cleanup (mid m.1) = Some (after m.1) → leaves held (defer cleanup m) after.
Proof using Type. unfold leaves, defer. cbn [fst snd]. intros H1 H2. by rewrite play_app, H1. Qed.

Lemma leaves_fail_with {E'} held (f : E → E') (m : M E A) after after' :
  leaves held m after → after m.1 = after' (fail_with f m).1 → leaves held (fail_with f m) after'.
Proof using Type. unfold leaves, fail_with. cbn [fst snd]. intros -> ->. done. Qed.
End Rules.

(** Resources are opened in this order; what is held has smaller numbers than
    what is opened next, so it is fresh and used by nothing held. *)
Definition exporter_rank (x : exporter) : Z :=
  match x with OtlpTrace => 1 | StdoutTrace => 2 | Prometheus => 4 | OtlpMetric => 5 | StdoutMetric => 6 end.
Definition pool_rank (p : pool_id) : Z := match p with KeyStorePool => 10 | KeylessPool => 30 end.
Definition rank (r : resource) : Z :=
  match r with
  | SignalContext => 0 | Exporter x => exporter_rank x | TracerProvider => 3 | MeterProvider => 7
  | Pool p => pool_rank p | SqlDB p => pool_rank p + 1 | MigrationConn p => pool_rank p + 2
  | MigrationLock p => pool_rank p + 3
  | JWKSRefresh => 15 | EvmClient => 20 | HealthServer => 21 | AdminAPI => 41
  | ClientJanitor => 42 | AnonJanitor => 43 | FailJanitor => 44 | RequestJanitor => 45 | ServeLoop => 50
  end.

Lemma uses_rank r r' : uses r r' = true → rank r' < rank r.
Proof.
  destruct r as [|[]| | |[]|[]|[]|[]| | | | | | | | |]; try done;
    destruct r' as [|[]| | |[]|[]|[]|[]| | | | | | | | |]; done.
Qed.

Definition below (n : Z) (held : list resource) : Prop := Forall (λ r, rank r < n) held.

Lemma below_fresh r held : below (rank r) held → r ∉ held.
Proof. unfold below. rewrite Forall_forall. intros H Hin%H. lia. Qed.

Lemma below_mono n m held : n ≤ m → below n held → below m held.
Proof. intros Hle H. eapply Forall_impl; [exact H|]. intros r. cbn. lia. Qed.

Lemma below_cons r n held : rank r < n → below (rank r) held → below n (r :: held).
Proof. intros H1 H2. constructor; [done|]. eapply below_mono; [|done]. lia. Qed.

Lemma drop_fresh r held : r ∉ held → drop_resource r held = held.
Proof.
  unfold drop_resource. induction held as [|x held IH]; [done|]. rewrite not_elem_of_cons, filter_cons.
  intros [Hne Hin]. rewrite decide_True by congruence. by rewrite IH.
Qed.

Lemma drop_top r held : r ∉ held → drop_resource r (r :: held) = held.
Proof. intros H. unfold drop_resource. rewrite filter_cons_False; [by apply drop_fresh|]. intros Hn. by apply Hn. Qed.

Lemma below_unused r held : below (rank r) held → forallb (λ x, negb (uses x r)) held = true.
Proof.
  intros H. apply forallb_forall. intros x Hx%list_elem_of_In. unfold below in H. rewrite Forall_forall in H.
  specialize (H x Hx). destruct (uses x r) eqn:E; [|done]. apply uses_rank in E. lia.
Qed.

Lemma play_open r held : below (rank r) held → play uses [Open r] held = Some (r :: held).
Proof. intros H%below_fresh. cbn. by rewrite bool_decide_eq_false_2. Qed.

(** Closing what is neither at the top nor used. *)
Lemma play_close r held : r ∈ held → forallb (λ x, negb (uses x r)) (drop_resource r held) = true →
  play uses [Close r] held = Some (drop_resource r held).
Proof. intros H1 H2. cbn. by rewrite bool_decide_eq_true_2, H2. Qed.

Lemma play_close_top r held : below (rank r) held → play uses [Close r] (r :: held) = Some held.
Proof.
  intros H. rewrite play_close; rewrite ?drop_top by (by apply below_fresh); [done|by left|by apply below_unused].
Qed.

(** A resource opened and, whatever happens, closed at the end. *)
Definition scoped {E A} (r : resource) (m : M E A) : M E A := emit [Open r] (defer [Close r] m).

Lemma leaves_scoped {E A} r held (m : M E A) :
  below (rank r) held → leaves (r :: held) m (λ _, r :: held) → leaves held (scoped r m) (λ _, held).
Proof.
  intros Hb Hm. eapply leaves_emit; [by apply play_open|]. eapply leaves_defer; [exact Hm|]. by apply play_close_top.
Qed.

(** A log about resources from a number on plays the same over held ones below. *)
Definition act_from (n : Z) (a : act) : bool :=
  match a with
  | Open r | Close r => n <=? rank r
  | StartPurge | Cancel => false
  | SetTracerProvider => n <=? rank TracerProvider
  | SetMeterProvider => n <=? rank MeterProvider
  | Migrate p => n <=? rank (MigrationLock p)
  end.

Lemma drop_app r top held : r ∉ held → drop_resource r (top ++ held) = drop_resource r top ++ held.
Proof. intros H. unfold drop_resource. rewrite filter_app. f_equal. by apply drop_fresh. Qed.

Lemma play_act_frame n a top top' held : act_from n a = true → below n held →
  play_act uses a top = Some top' → play_act uses a (top ++ held) = Some (top' ++ held).
Proof.
  intros Ha Hb. assert (∀ r, n <= rank r → below (rank r) held) as Hr by (intros; by eapply below_mono).
  assert (∀ r, n <= rank r → (r ∈ top ++ held ↔ r ∈ top)) as Hin.
  { intros r Hle. rewrite elem_of_app. split; [|auto]. intros [H|H]; [done|]. by apply below_fresh in H; [|apply Hr]. }
  destruct a as [r|r| | | | |p]; cbn [play_act act_from] in *; try done; apply Z.leb_le in Ha.
  - rewrite (bool_decide_ext _ _ (Hin r Ha)). destruct (bool_decide _); [done|]. by intros [= <-].
  - rewrite (bool_decide_ext _ _ (Hin r Ha)). destruct (bool_decide _); [|done]. cbn [andb].
    rewrite drop_app by (by apply below_fresh, Hr). rewrite forallb_app, (below_unused r held) by auto.
    rewrite andb_true_r. destruct (forallb _ _); [|done]. by intros [= <-].
  - rewrite (bool_decide_ext _ _ (Hin _ Ha)). destruct (bool_decide _); [|done]. by intros [= <-].
  - rewrite (bool_decide_ext _ _ (Hin _ Ha)). destruct (bool_decide _); [|done]. by intros [= <-].
  - rewrite (bool_decide_ext _ _ (Hin _ Ha)). destruct (bool_decide _); [|done]. by intros [= <-].
Qed.

Lemma play_frame n l top top' held : forallb (act_from n) l = true → below n held →
  play uses l top = Some top' → play uses l (top ++ held) = Some (top' ++ held).
Proof.
  intros Hl Hb. revert top. induction l as [|a l IH]; intros top; cbn [play]; [by intros [= ->]|].
  cbn [forallb] in Hl. apply andb_true_iff in Hl as [Ha Hl].
  destruct (play_act uses a top) as [mid|] eqn:E; [|done]. rewrite (play_act_frame n a top mid held Ha Hb E). by apply IH.
Qed.

(** So it is enough to play it alone. *)
Lemma leaves_frame {E A} n held (m : M E A) after : forallb (act_from n) m.2 = true → below n held →
  leaves [] m after → leaves held m (λ r, after r ++ held).
Proof. unfold leaves. intros Hl Hb Hm. by apply (play_frame n m.2 [] (after m.1) held). Qed.

(** A computation that gives back what it takes. *)
Definition tidy {E A} (held : list resource) (m : M E A) : Prop := leaves held m (λ _, held).

Section Tidy.
Context {E A B : Type}.

Lemma tidy_lift_bind held (r : result E A) (k : A → M E B) :
  (∀ a, r = Ok a → tidy held (k a)) → tidy held (bind (lift r) k).
Proof using Type. intros Hk. apply (leaves_bind held _ _ (λ _, held)); [apply leaves_lift|exact Hk|done]. Qed.

(** Taking something with its cleanup function, then deferring that. *)
Lemma tidy_acquire held (m : M E (A * list act)) (k : A * list act → M E B) (extra : A → list resource) :
  leaves held m (λ r, match r with Ok x => extra x.1 ++ held | Err _ => held end) →
  (∀ x, m.1 = Ok x → play uses x.2 (extra x.1 ++ held) = Some held ∧ tidy (extra x.1 ++ held) (k x)) →
  tidy held (bind m (λ x, defer x.2 (k x))).
Proof using Type.
  intros Hm Hk. eapply leaves_bind; [exact Hm| |done]. intros x Hx. destruct (Hk x Hx) as [Hc Ht].
  eapply leaves_defer; [exact Ht|exact Hc].
Qed.

Lemma leaves_on_error held (m : M E A) cleanup after after' :
  leaves held m after → (∀ a, m.1 = Ok a → after (Ok a) = after' (Ok a)) →
  (∀ e, m.1 = Err e → play uses cleanup (after (Err e)) = Some (after' (Err e))) →
  leaves held (on_error cleanup m) after'.
Proof using Type.
  unfold leaves, on_error. intros Hm Hok Herr. destruct (m.1) as [a|e] eqn:E1; cbn [fst snd].
  - rewrite E1, Hm. by rewrite Hok.
  - rewrite play_app, Hm. by apply Herr.
Qed.
End Tidy.

(** ** Whether a log serves *)

Definition is_serve (a : act) : bool := match a with Open ServeLoop => true | _ => false end.
Definition serves (l : list act) : bool := existsb is_serve l.

Lemma serves_app l1 l2 : serves (l1 ++ l2) = serves l1 || serves l2.
Proof. apply existsb_app. Qed.

Lemma serves_closes rs : serves (Close <$> rs) = false.
Proof. by induction rs. Qed.

(** A computation that serves exactly when it succeeds. *)
Definition serves_ok {E A} (m : M E A) : Prop := serves m.2 = is_ok m.1.

Section Serves.
Context {E A B : Type}.

Lemma serves_lift_bind (r : result E A) (k : A → M E B) : (∀ a, serves_ok (k a)) → serves_ok (bind (lift r) k).
Proof using Type. intros Hk. unfold serves_ok, bind. destruct r; [apply Hk|done]. Qed.

Lemma serves_bind (m : M E A) (k : A → M E B) :
  serves m.2 = false → (∀ a, m.1 = Ok a → serves_ok (k a)) → serves_ok (bind m k).
Proof using Type.
  unfold serves_ok, bind. intros Hm Hk. destruct (m.1) as [a|e]; cbn [emit fst snd is_ok]; [|done].
  rewrite serves_app, Hm. by apply Hk.
Qed.

Lemma serves_emit l (m : M E A) : serves l = false → serves_ok m → serves_ok (emit l m).
Proof using Type. unfold serves_ok. cbn [emit fst snd]. intros Hl. by rewrite serves_app, Hl. Qed.

Lemma serves_defer l (m : M E A) : serves l = false → serves_ok m → serves_ok (defer l m).
Proof using Type. unfold serves_ok. cbn [defer fst snd]. intros Hl. by rewrite serves_app, Hl, orb_false_r. Qed.

Lemma serves_scoped r (m : M E A) : r ≠ ServeLoop → serves_ok m → serves_ok (scoped r m).
Proof using Type. intros Hr Hm. apply serves_emit; [by destruct r|]. by apply serves_defer; [destruct r|]. Qed.
End Serves.

(** ** The purge loop over a log

    Nothing joins the purge goroutine, so it is no resource that a log closes. It
    works on the keyless pool from its start on, and is told to stop by the
    cancellation of the signal context; if the pool closes before that, it is left
    running over a closed pool. *)

Variant purge_state := NoPurge | PurgeRunning | PurgeStopping | PurgeOrphaned.

Definition purge_step (s : purge_state) (a : act) : purge_state :=
  match s, a with
  | NoPurge, StartPurge => PurgeRunning
  | PurgeRunning, Cancel => PurgeStopping
  | PurgeRunning, Close (Pool KeylessPool) => PurgeOrphaned
  | _, _ => s
  end.

Definition purge_of (l : list act) : purge_state := foldl purge_step NoPurge l.

Definition starts_purge (l : list act) : bool := existsb (λ a, match a with StartPurge => true | _ => false end) l.

Lemma starts_purge_app l1 l2 : starts_purge (l1 ++ l2) = starts_purge l1 || starts_purge l2.
Proof. apply existsb_app. Qed.

Lemma starts_purge_closes rs : starts_purge (Close <$> rs) = false.
Proof. by induction rs. Qed.

(** Without a start nothing changes, except for a loop that runs. *)
Lemma purge_settled s l : s ≠ PurgeRunning → starts_purge l = false → foldl purge_step s l = s.
Proof.
  intros Hs. induction l as [|a l IH]; [done|]. cbn [foldl starts_purge existsb]. intros [Ha Hl]%orb_false_iff.
  assert (purge_step s a = s) as -> by (by destruct s, a). by apply IH.
Qed.

Lemma purge_of_between l1 l l2 : starts_purge l1 = false → starts_purge l2 = false → purge_of l ≠ PurgeRunning →
  purge_of (l1 ++ l ++ l2) = purge_of l.
Proof.
  intros H1 H2 Hs. unfold purge_of in *. rewrite !foldl_app, (purge_settled NoPurge l1) by done. by apply purge_settled.
Qed.
