(* ===== verification/Fs.v ===== *)
(** The file discipline shared by the two JSON stores (internal/mcp/keys.go,
    keys_pending.go): reading, the advisory lock, and the atomic write
    (temporary file, chmod, write, fsync, close, rename).

    A file holds either the serialisation of a value ([Parsed]) or other bytes
    ([Raw]); json.Unmarshal of what json.MarshalIndent wrote gives the value
    back. Which system calls fail is the oracle [os_fails]. [w_hist] records
    every state the file system goes through, latest first: a crash can leave
    any of them behind. *)

From S2P Require Import Prelude GoErrors.

Inductive content (A : Type) :=
| Parsed (a : A)
| Raw (bytes : string).
Arguments Parsed {A} _.
Arguments Raw {A} _.

Record world (A : Type) := mkWorld {
  w_files : gmap string (content A);
  w_hist : list (gmap string (content A))
}.
Arguments mkWorld {A} _ _.
Arguments w_files {A} _.
Arguments w_hist {A} _.

Inductive os_op :=
| OpRead | OpOpen | OpFlock | OpCreateTemp | OpChmod | OpWrite | OpSync | OpClose
| OpRename | OpRemove | OpStat | OpWriteFile.

Record os_env := mkOs {
  os_fails : os_op → string → bool;
  os_rand : string                     (* the random part of os.CreateTemp's name *)
}.

Section Files.
Context {A : Type} (env : os_env).

Definition io_error : error := Opaque "input/output error".

Definition set_files (m : gmap string (content A)) (w : world A) : world A :=
  mkWorld m (m :: w_hist w).

Definition ReadFile (path : string) (w : world A) : result error (content A) :=
  match w_files w !! path with
  | None => Err (Wrap ("open " +:+ path +:+ ": ") FsErrNotExist "")
  | Some c => if os_fails env OpRead path then Err io_error else Ok c
  end.

(** os.Stat(path) == nil *)
Definition stat_ok (path : string) (w : world A) : bool :=
  match w_files w !! path with Some _ => negb (os_fails env OpStat path) | None => false end.

Definition WriteFile (path : string) (c : content A) (w : world A) : option error * world A :=
  if os_fails env OpWriteFile path then (Some io_error, w)
  else (None, set_files (<[path := c]> (w_files w)) w).

Definition Remove (path : string) (w : world A) : world A :=
  if os_fails env OpRemove path then w else set_files (delete path (w_files w)) w.

Definition tmp_name (path : string) : string := path +:+ ".tmp-" +:+ os_rand env.

(** writeKeysAtomic / writePendingAtomic; [what] is the word of their messages. *)
Definition writeAtomic (what path : string) (data : A) (w : world A) : option error * world A :=
  let err verb := Some (Wrap (verb +:+ " temp " +:+ what +:+ " file: ") io_error "") in
  if os_fails env OpCreateTemp path then (err "create", w)
  else
    let tmp := tmp_name path in
    let w := set_files (<[tmp := Raw ""]> (w_files w)) w in
    let fail verb w := (err verb, Remove tmp w) in
    if os_fails env OpChmod tmp then fail "chmod" w
    else if os_fails env OpWrite tmp then
      fail "write" (set_files (<[tmp := Raw "partial"]> (w_files w)) w)
    else
      let w := set_files (<[tmp := Parsed data]> (w_files w)) w in
      if os_fails env OpSync tmp then fail "fsync" w
      else if os_fails env OpClose tmp then fail "close" w
      else if os_fails env OpRename path then fail "rename" w
      else (None, set_files (<[path := Parsed data]> (delete tmp (w_files w))) w).

Definition withExclusiveLock (path : string) (fn : world A → option error * world A)
    (w : world A) : option error * world A :=
  match w_files w !! path with
  | None => fn w
  | Some _ =>
      if os_fails env OpOpen path then (Some (Wrap "open keys file for lock: " io_error ""), w)
      else if os_fails env OpFlock path then
        (Some (Wrap "acquire exclusive lock on keys file (another process holds it?): " io_error ""), w)
      else fn w
  end.

(** SaveKeysFile and PendingKeyStore.save; json.MarshalIndent does not fail on
    these values. *)
Definition save_file (what path : string) (data : A) (w : world A) : option error * world A :=
  withExclusiveLock path (writeAtomic what path data) w.

(** ** Lemmas *)

Lemma tmp_name_ne path : tmp_name path ≠ path.
Proof.
  unfold tmp_name. intros H. apply (f_equal String.length) in H.
  rewrite !string_app_length in H. simpl in H. lia.
Qed.

Lemma Remove_lookup tmp path w : tmp ≠ path → w_files (Remove tmp w) !! path = w_files w !! path.
Proof. intros H. unfold Remove. destruct (os_fails _ _ _); [done|]. simpl. by rewrite lookup_delete_ne. Qed.

(** Everything but the temporary and the target is untouched, and the target
    is replaced exactly on success. *)
Lemma writeAtomic_spec what path data w err w' :
  writeAtomic what path data w = (err, w') →
  (∀ q, q ≠ path → q ≠ tmp_name path → w_files w' !! q = w_files w !! q) ∧
  w_files w' !! path = match err with None => Some (Parsed data) | Some _ => w_files w !! path end.
Proof.
  pose proof (tmp_name_ne path) as Hne. unfold writeAtomic, Remove. intros H.
  repeat case_match; simplify_eq/=; split; intros; by simplify_map_eq.
Qed.

Lemma save_file_spec what path data w err w' :
  save_file what path data w = (err, w') →
  (∀ q, q ≠ path → q ≠ tmp_name path → w_files w' !! q = w_files w !! q) ∧
  w_files w' !! path = match err with None => Some (Parsed data) | Some _ => w_files w !! path end.
Proof.
  unfold save_file, withExclusiveLock. intros H.
  destruct (w_files w !! path) eqn:E; [|rewrite <- E; by eapply writeAtomic_spec].
  destruct (os_fails env OpOpen path); [by simplify_eq|].
  destruct (os_fails env OpFlock path); [by simplify_eq|].
  rewrite <- E. by eapply writeAtomic_spec.
Qed.

(** The states between two worlds: everything pushed on the history. *)
Definition history_in (path : string) (cs : list (option (content A))) (w w' : world A) : Prop :=
  ∃ h, w_hist w' = h ++ w_hist w ∧ Forall (λ m, m !! path ∈ cs) h.

Lemma save_file_history what path data w err w' :
  save_file what path data w = (err, w') →
  history_in path (w_files w !! path :: match err with None => [Some (Parsed data)] | Some _ => [] end) w w'.
Proof.
  pose proof (tmp_name_ne path) as Hne.
  assert (∀ c (m : gmap string (content A)), (<[tmp_name path := c]> m) !! path = m !! path) as Hi
    by (intros; by apply lookup_insert_ne).
  assert (∀ (m : gmap string (content A)), delete (tmp_name path) m !! path = m !! path) as Hd
    by (intros; by apply lookup_delete_ne).
  unfold save_file, withExclusiveLock, writeAtomic, Remove, history_in. intros H.
  assert (∀ (cs : list (option (content A))) (h : list (gmap string (content A))), Forall (λ m, m !! path ∈ cs) h →
    ∃ h', h ++ w_hist w = h' ++ w_hist w ∧ Forall (λ m, m !! path ∈ cs) h') as Hex
    by (intros cs h Hh; by exists h).
  repeat (match type of H with context [match ?x with _ => _ end] => destruct x eqn:? end);
    simplify_eq/=.
  all: first [apply (Hex _ []) | apply (Hex _ [_]) | apply (Hex _ [_; _]) | apply (Hex _ [_; _; _])
    | apply (Hex _ [_; _; _; _])].
  all: rewrite ?Forall_cons, Forall_nil, ?elem_of_cons, ?Hi, ?Hd, ?lookup_insert_eq, ?Hi, ?Hd; tauto.
Qed.

End Files.
