(* ===== verification/Hex.v ===== *)
(** encoding/hex and crypto of the Go standard library, as far as the server
    uses them: hex encoding and decoding with its round trips, SHA-256 and
    HMAC-SHA-256 (internal/auth/keyhash.go, keyhasher.go), all executable. *)

From S2P Require Import Prelude.

Definition byte_val (c : ascii) : Z := Z.of_nat (nat_of_ascii c).
Definition byte_of (z : Z) : ascii := ascii_of_nat (Z.to_nat (z mod 256)).

(** ** encoding/hex *)

Definition hexd (z : Z) : ascii :=
  byte_of (if z <? 10 then 48 + z else 87 + z).

(** fromHexChar: digits of either case. *)
Definition unhexd (c : ascii) : option Z :=
  let v := byte_val c in
  if (48 <=? v) && (v <=? 57) then Some (v - 48)
  else if (97 <=? v) && (v <=? 102) then Some (v - 87)
  else if (65 <=? v) && (v <=? 70) then Some (v - 55)
  else None.

(** hex.EncodeToString *)
Fixpoint hex_encode (s : string) : string :=
  match s with
  | EmptyString => EmptyString
  | String c s' =>
      String (hexd (byte_val c / 16)) (String (hexd (byte_val c mod 16)) (hex_encode s'))
  end.

(** hex.DecodeString; [None] is an error (odd length or a bad digit). *)
Fixpoint hex_decode (s : string) : option string :=
  match s with
  | EmptyString => Some EmptyString
  | String a (String b s') =>
      match unhexd a, unhexd b, hex_decode s' with
      | Some x, Some y, Some r => Some (String (byte_of (16 * x + y)) r)
      | _, _, _ => None
      end
  | String _ EmptyString => None
  end.

(** The big-endian value of a byte string. *)
Definition be_val (s : string) : Z :=
  foldl (λ acc c, 256 * acc + byte_val c) 0 (String.list_ascii_of_string s).

(** ** SHA-256 (FIPS 180-4) on 32-bit words *)

Definition w32 (x : Z) : Z := Z.land x 4294967295.
Definition rotr (n x : Z) : Z := w32 (Z.lor (Z.shiftr x n) (Z.shiftl x (32 - n))).

Definition sha256_K : list Z :=
 [1116352408; 1899447441; 3049323471; 3921009573; 961987163; 1508970993; 2453635748; 2870763221;
  3624381080; 310598401; 607225278; 1426881987; 1925078388; 2162078206; 2614888103; 3248222580;
  3835390401; 4022224774; 264347078; 604807628; 770255983; 1249150122; 1555081692; 1996064986;
  2554220882; 2821834349; 2952996808; 3210313671; 3336571891; 3584528711; 113926993; 338241895;
  666307205; 773529912; 1294757372; 1396182291; 1695183700; 1986661051; 2177026350; 2456956037;
  2730485921; 2820302411; 3259730800; 3345764771; 3516065817; 3600352804; 4094571909; 275423344;
  430227734; 506948616; 659060556; 883997877; 958139571; 1322822218; 1537002063; 1747873779;
  1955562222; 2024104815; 2227730452; 2361852424; 2428436474; 2756734187; 3204031479; 3329325298].

Definition sha256_init : list Z :=
 [1779033703; 3144134277; 1013904242; 2773480762; 1359893119; 2600822924; 528734635; 1541459225].

Definition ssig0 x := Z.lxor (Z.lxor (rotr 7 x) (rotr 18 x)) (Z.shiftr x 3).
Definition ssig1 x := Z.lxor (Z.lxor (rotr 17 x) (rotr 19 x)) (Z.shiftr x 10).
Definition bsig0 x := Z.lxor (Z.lxor (rotr 2 x) (rotr 13 x)) (rotr 22 x).
Definition bsig1 x := Z.lxor (Z.lxor (rotr 6 x) (rotr 11 x)) (rotr 25 x).
Definition choose x y z := Z.lxor (Z.land x y) (Z.land (w32 (Z.lnot x)) z).
Definition major x y z := Z.lxor (Z.lxor (Z.land x y) (Z.land x z)) (Z.land y z).

(** The message schedule keeps its last 16 words, oldest first. *)
Fixpoint sha256_rounds (ks : list Z) (w : list Z) (st : list Z) : list Z :=
  match ks, w, st with
  | k :: ks', w0 :: rest, [a; b; c; d; e; f; g; h] =>
      let t1 := w32 (h + bsig1 e + choose e f g + k + w0) in
      let t2 := w32 (bsig0 a + major a b c) in
      let wn := w32 (ssig1 (nth 13 rest 0) + nth 8 rest 0 + ssig0 (nth 0 rest 0) + w0) in
      sha256_rounds ks' (rest ++ [wn]) [w32 (t1 + t2); a; b; c; w32 (d + t1); e; f; g]
  | _, _, _ => st
  end.

Definition sha256_block (st : list Z) (w : list Z) : list Z :=
  zip_with (λ a b, w32 (a + b)) st (sha256_rounds sha256_K w st).

Fixpoint be_words (fuel : nat) (s : string) : list Z :=
  match fuel, s with
  | S fuel, String a (String b (String c (String d s'))) =>
      (byte_val a * 16777216 + byte_val b * 65536 + byte_val c * 256 + byte_val d)
        :: be_words fuel s'
  | _, _ => []
  end.

Definition be_bytes (n : nat) (z : Z) : string :=
  foldr (λ i s, String (byte_of (Z.shiftr z (8 * Z.of_nat i))) s) EmptyString
    (reverse (seq 0 n)).

Fixpoint zeros (n : nat) : string :=
  match n with O => EmptyString | S n => String (byte_of 0) (zeros n) end.

Definition sha256_pad (s : string) : string :=
  let n := String.length s in
  s +:+ String (byte_of 128) (zeros (Nat.modulo (119 - Nat.modulo n 64) 64) +:+ be_bytes 8 (8 * Z.of_nat n)).

Fixpoint sha256_blocks (fuel : nat) (st : list Z) (ws : list Z) : list Z :=
  match fuel, ws with
  | S fuel, _ :: _ => sha256_blocks fuel (sha256_block st (take 16 ws)) (drop 16 ws)
  | _, _ => st
  end.

(** sha256.Sum256. Fuel: one unit per word, and a block consumes sixteen. *)
Definition sha256 (s : string) : string :=
  let p := sha256_pad s in
  let ws := be_words (String.length p) p in
  foldr (λ w acc, be_bytes 4 w +:+ acc) EmptyString (sha256_blocks (length ws) sha256_init ws).

(** hmac.New(sha256.New, key); mac.Write(msg); mac.Sum(nil) *)
Definition hmac_sha256 (key msg : string) : string :=
  let k0 := if (64 <? slen key) then sha256 key else key in
  let k := k0 +:+ zeros (64 - String.length k0) in
  let xor_with v := smap (λ c, byte_of (Z.lxor (byte_val c) v)) k in
  sha256 (xor_with 92 +:+ sha256 (xor_with 54 +:+ msg)).

(** Test vectors: FIPS 180-4 (empty, one block, two blocks), RFC 4231 case 2. *)
Example sha256_empty :
  hex_encode (sha256 "") = "e3b0c44298fc1c149afbf4c8996fb92427ae41e4649b934ca495991b7852b855".
Proof. vm_compute. reflexivity. Qed.
Example sha256_abc :
  hex_encode (sha256 "abc") = "ba7816bf8f01cfea414140de5dae2223b00361a396177a9cb410ff61f20015ad".
Proof. vm_compute. reflexivity. Qed.
Example sha256_two_blocks :
  hex_encode (sha256 "abcdbcdecdefdefgefghfghighijhijkijkljklmklmnlmnomnopnopq")
  = "248d6a61d20638b8e5c026930c3e6039a33ce45964ff2167f6ecedd419db06c1".
Proof. vm_compute. reflexivity. Qed.
Example hmac_jefe :
  hex_encode (hmac_sha256 "Jefe" "what do ya want for nothing?")
  = "5bdcc146bf60754e6a042426089575c75a003f089d2739839dec58b964ec3843".
Proof. vm_compute. reflexivity. Qed.

(** ** Lemmas *)

Lemma unhexd_hexd_byte c :
  unhexd (hexd (byte_val c / 16)) = Some (byte_val c / 16) ∧
  unhexd (hexd (byte_val c mod 16)) = Some (byte_val c mod 16) ∧
  byte_of (16 * (byte_val c / 16) + byte_val c mod 16) = c.
Proof. destruct c as [[][][][][][][][]]; vm_compute; auto. Qed.

(** hex.DecodeString inverts hex.EncodeToString. *)
Lemma hex_decode_encode s : hex_decode (hex_encode s) = Some s.
Proof.
  induction s as [|c s IH]; [done|]. cbn [hex_encode hex_decode].
  destruct (unhexd_hexd_byte c) as (-> & -> & Hb). by rewrite IH, Hb.
Qed.

#[export] Instance hex_encode_inj : Inj (=) (=) hex_encode.
Proof.
  intros s1 s2 H. apply (f_equal hex_decode) in H.
  rewrite !hex_decode_encode in H. congruence.
Qed.

Lemma length_hex_encode s : String.length (hex_encode s) = (2 * String.length s)%nat.
Proof. induction s as [|c s IH]; simpl; [done|]. rewrite IH. lia. Qed.

Lemma length_be_bytes n z : String.length (be_bytes n z) = n.
Proof.
  unfold be_bytes.
  assert (∀ l, String.length (foldr (λ i s, String (byte_of (Z.shiftr z (8 * Z.of_nat i))) s)
    EmptyString l) = length l) as ->.
  { induction l as [|i l IH]; simpl; [done|]. by rewrite IH. }
  by rewrite length_reverse, length_seq.
Qed.

Lemma length_sha256_rounds ks w st : length st = 8%nat → length (sha256_rounds ks w st) = 8%nat.
Proof.
  revert w st. induction ks as [|k ks IH]; intros w st Hst; [done|].
  destruct w as [|w0 rest]; [done|].
  do 9 (destruct st as [|? st]; try done). simpl. by apply IH.
Qed.

Lemma length_sha256_blocks fuel st ws :
  length st = 8%nat → length (sha256_blocks fuel st ws) = 8%nat.
Proof.
  revert st ws. induction fuel as [|fuel IH]; intros st ws Hst; [done|].
  destruct ws; [done|]. simpl. apply IH. unfold sha256_block.
  rewrite length_zip_with, length_sha256_rounds by done. lia.
Qed.

(** Every SHA-256 digest has 32 bytes, and so has every HMAC. *)
Lemma length_sha256 s : String.length (sha256 s) = 32%nat.
Proof.
  unfold sha256. cbv zeta.
  set (st := sha256_blocks _ _ _).
  assert (length st = 8%nat) as Hst by (by apply length_sha256_blocks).
  assert (∀ l, String.length (foldr (λ w acc, be_bytes 4 w +:+ acc) EmptyString l)
    = (4 * length l)%nat) as ->; [|by rewrite Hst].
  induction l as [|w l IH]; [done|]. cbn [foldr].
  rewrite string_app_length, length_be_bytes, IH. cbn [length]. lia.
Qed.

Lemma length_hmac_sha256 k m : String.length (hmac_sha256 k m) = 32%nat.
Proof. apply length_sha256. Qed.

#[export] Hint Rewrite hex_decode_encode length_hex_encode length_sha256 length_hmac_sha256 : go_rw.
