(* ===== verification/GoParse.v ===== *)
(** Text to values, as the configuration reads them from the environment:
    strconv's Atoi, ParseInt, ParseUint, ParseBool and ParseFloat, and
    time.ParseDuration. A float64 is a [spec_float] of the Standard Library at
    53 bits of precision; ParseFloat rounds the exact value of the text to the
    nearest float, ties to even. *)

From Stdlib Require Import Floats.SpecFloat.
From stdpp Require Import pretty.
From S2P Require Import Prelude Hex.

(** strconv.ErrSyntax, strconv.ErrRange, and time.ParseDuration's own errors. *)
Variant parse_error := ErrSyntax | ErrRange | ErrDuration.

(** ** Integers *)

Definition digit_of (c : ascii) : option Z :=
  let v := byte_val c - 48 in if (0 <=? v) && (v <=? 9) then Some v else None.

Fixpoint decimal (acc : Z) (s : string) : option Z :=
  match s with
  | EmptyString => Some acc
  | String c s' => v ← digit_of c; decimal (acc * 10 + v) s'
  end.

(** strconv.ParseUint(s, 10, bits) *)
Definition ParseUint (bits : Z) (s : string) : result parse_error Z :=
  if s =s "" then Err ErrSyntax
  else match decimal 0 s with
       | None => Err ErrSyntax
       | Some n => if n <? 2 ^ bits then Ok n else Err ErrRange
       end.

Definition split_sign (s : string) : bool * string :=
  match s with
  | String c s' => if Ascii.eqb c "-" then (true, s') else if Ascii.eqb c "+" then (false, s') else (false, s)
  | EmptyString => (false, s)
  end.

(** strconv.ParseInt(s, 10, bits) *)
Definition ParseInt (bits : Z) (s : string) : result parse_error Z :=
  let '(neg, u) := split_sign s in
  if u =s "" then Err ErrSyntax
  else match decimal 0 u with
       | None => Err ErrSyntax
       | Some n =>
           if neg then if n <=? 2 ^ (bits - 1) then Ok (- n) else Err ErrRange
           else if n <? 2 ^ (bits - 1) then Ok n else Err ErrRange
       end.

(** int is 64 bits wide on the platforms the server is built for. *)
Definition Atoi : string → result parse_error Z := ParseInt 64.

Definition ParseBool (s : string) : result parse_error bool :=
  if existsb (String.eqb s) ["1"; "t"; "T"; "true"; "TRUE"; "True"] then Ok true
  else if existsb (String.eqb s) ["0"; "f"; "F"; "false"; "FALSE"; "False"] then Ok false
  else Err ErrSyntax.

(** ** Floats *)

(** The float nearest to (-1)^neg * num / den. *)
Definition round64 (neg : bool) (num : Z) (den : positive) : spec_float :=
  match num with
  | Zpos n =>
      let '(q, e, l) := SFdiv_core_binary 53 1024 (Zpos n) 0 (Zpos den) 0 in
      binary_round_aux 53 1024 neg q e l
  | _ => S754_zero neg
  end.

Definition float_of_Z (n : Z) : spec_float := round64 (n <? 0) (Z.abs n) 1.

(** x <= y, x < y: false when an operand is NaN. *)
Definition fle (x y : spec_float) : bool := SFleb x y.
Definition flt (x y : spec_float) : bool := SFltb x y.
Definition float_zero : spec_float := S754_zero false.
Definition float_one : spec_float := float_of_Z 1.

(** uint64(x) for 0 <= x < 2^64. *)
Definition float_trunc (x : spec_float) : Z :=
  match x with
  | S754_finite _ m e => if 0 <=? e then Z.shiftl (Zpos m) e else Z.shiftr (Zpos m) (- e)
  | _ => 0
  end.

(** The digits of a mantissa: value, digits after the point (base 10 or 16). *)
Record mantissa := mkMantissa { mt_value : Z; mt_frac : Z; mt_sawdot : bool; mt_sawdigits : bool }.

Definition hex_digit (c : ascii) : option Z :=
  let c := lower_char c in
  match digit_of c with
  | Some v => Some v
  | None => let v := byte_val c - 87 in if (10 <=? v) && (v <=? 15) then Some v else None
  end.

Definition mantissa_digit (base : Z) (c : ascii) : option Z :=
  if base =? 16 then hex_digit c else digit_of c.

(** The loop of readFloat over digits, one '.', and underscores. *)
Fixpoint read_mantissa (base : Z) (m : mantissa) (s : string) : mantissa * string :=
  match s with
  | EmptyString => (m, s)
  | String c s' =>
      if Ascii.eqb c "_" then read_mantissa base m s'
      else if Ascii.eqb c "." then
        if mt_sawdot m then (m, s)
        else read_mantissa base (mkMantissa (mt_value m) (mt_frac m) true (mt_sawdigits m)) s'
      else match mantissa_digit base c with
           | Some v => read_mantissa base
               (mkMantissa (mt_value m * base + v) (if mt_sawdot m then mt_frac m + 1 else mt_frac m)
                  (mt_sawdot m) true) s'
           | None => (m, s)
           end
  end.

(** The exponent's digits; their value stops growing at 10000. *)
Fixpoint read_exponent (e : Z) (s : string) : Z * string :=
  match s with
  | EmptyString => (e, s)
  | String c s' =>
      if Ascii.eqb c "_" then read_exponent e s'
      else match digit_of c with
           | Some v => read_exponent (if e <? 10000 then e * 10 + v else e) s'
           | None => (e, s)
           end
  end.

(** underscoreOK: the state is the class of the last character seen. *)
Variant underscore_class := AtStart | AfterDigit | AfterUnderscore | AfterOther.
Fixpoint underscores_ok (hex : bool) (i : underscore_class) (s : string) : bool :=
  match s with
  | EmptyString => match i with AfterUnderscore => false | _ => true end
  | String c s' =>
      if match (if hex then hex_digit c else digit_of c) with Some _ => true | None => false end
      then underscores_ok hex AfterDigit s'
      else if Ascii.eqb c "_" then
        match i with AfterDigit => underscores_ok hex AfterUnderscore s' | _ => false end
      else match i with AfterUnderscore => false | _ => underscores_ok hex AfterOther s' end
  end.

Definition hex_prefixed (s : string) : bool := has_prefix "0x" (to_lower s).

Definition underscoreOK (unsigned : string) : bool :=
  if existsb (λ p, has_prefix p (to_lower unsigned)) ["0b"; "0o"; "0x"]
  then underscores_ok (hex_prefixed unsigned) AfterDigit (str_drop 2 unsigned)
  else underscores_ok false AtStart unsigned.

(** The value mant * 10^exp (or mant * 2^exp for a hexadecimal text), rounded;
    an exponent beyond the range of float64 decides the result alone. *)
Definition scaled (neg : bool) (base mant exp : Z) : spec_float :=
  if mant =? 0 then S754_zero neg
  else if 5000 <? exp then S754_infinity neg
  else if exp <? 0 then
    if exp + Z.log2 mant <? -20000 then S754_zero neg
    else round64 neg mant (Z.to_pos (base ^ (- exp)))
  else round64 neg (mant * base ^ exp) 1.

Definition special_float (s : string) : option spec_float :=
  let '(neg, u) := split_sign s in
  if (to_lower u =s "inf") || (to_lower u =s "infinity") then Some (S754_infinity neg)
  else if to_lower s =s "nan" then Some S754_nan
  else None.

(** strconv.ParseFloat(s, 64) *)
Definition ParseFloat (s : string) : result parse_error spec_float :=
  match special_float s with
  | Some x => Ok x
  | None =>
      let '(neg, u) := split_sign s in
      let hex := hex_prefixed u && (2 <? slen u) in
      let base := if hex then 16 else 10 in
      let '(m, rest) := read_mantissa base (mkMantissa 0 0 false false) (if hex then str_drop 2 u else u) in
      if negb (mt_sawdigits m) then Err ErrSyntax
      else
        let '(exp, rest) :=
          match rest with
          | String c r =>
              if Ascii.eqb (lower_char c) (if hex then "p" else "e")%char then
                let '(eneg, digits) := split_sign r in
                match digits with
                | String d _ =>
                    match digit_of d with
                    | Some _ => let '(e, rest) := read_exponent 0 digits in (Some (if eneg then - e else e), rest)
                    | None => (None, rest)
                    end
                | EmptyString => (None, rest)
                end
              else (if hex then None else Some 0, rest)
          | EmptyString => (if hex then None else Some 0, rest)
          end in
        match exp with
        | None => Err ErrSyntax
        | Some e =>
            if negb (rest =s "") || (contains "_" u && negb (underscoreOK u)) then Err ErrSyntax
            else
              let x := if hex then scaled neg 2 (mt_value m) (e - 4 * mt_frac m)
                       else scaled neg 10 (mt_value m) (e - mt_frac m) in
              match x with S754_infinity _ => Err ErrRange | x => Ok x end
        end
  end.

Example parse_floats :
  (ParseFloat "0.5" = Ok (S754_finite false 4503599627370496 (-53)) ∧
   ParseFloat "1.0" = Ok float_one ∧ ParseFloat "-0" = Ok (S754_zero true) ∧
   ParseFloat "1_23.50_0_0e+1_2" = ParseFloat "1.235e14" ∧ ParseFloat "1__2" = Err ErrSyntax ∧
   ParseFloat "0x1p-2" = ParseFloat ".25" ∧ ParseFloat "0x1" = Err ErrSyntax ∧
   ParseFloat "1e309" = Err ErrRange ∧ ParseFloat "1e-400" = Ok float_zero ∧ ParseFloat "+Inf" = Ok (S754_infinity false)) ∧
  (ParseFloat "nan" = Ok S754_nan ∧ ParseFloat "+nan" = Err ErrSyntax ∧ ParseFloat "e5" = Err ErrSyntax ∧
   ParseFloat "5e" = Err ErrSyntax ∧ ParseFloat "" = Err ErrSyntax ∧ ParseFloat "1 " = Err ErrSyntax ∧
   ParseFloat "9007199254740993" = ParseFloat "9007199254740992" ∧
   ParseFloat "5e-324" = Ok (S754_finite false 1 (-1074))).
Proof. vm_compute. repeat split. Qed.

(** ** Durations *)

Definition two63 : Z := 2 ^ 63.

(** leadingInt: [None] on overflow. *)
Fixpoint leadingInt (x : Z) (s : string) : option (Z * string) :=
  match s with
  | EmptyString => Some (x, s)
  | String c s' =>
      match digit_of c with
      | None => Some (x, s)
      | Some v =>
          if two63 / 10 <? x then None
          else if two63 <? x * 10 + v then None
          else leadingInt (x * 10 + v) s'
      end
  end.

(** leadingFraction: the digits that fit, and their power of ten. *)
Fixpoint leadingFraction (x scale : Z) (overflow : bool) (s : string) : Z * Z * string :=
  match s with
  | EmptyString => (x, scale, s)
  | String c s' =>
      match digit_of c with
      | None => (x, scale, s)
      | Some v =>
          if overflow then leadingFraction x scale true s'
          else if (two63 - 1) / 10 <? x then leadingFraction x scale true s'
          else if two63 <? x * 10 + v then leadingFraction x scale true s'
          else leadingFraction (x * 10 + v) (scale * 10) false s'
      end
  end.

Fixpoint span_unit (s : string) : string * string :=
  match s with
  | EmptyString => (s, s)
  | String c s' =>
      if Ascii.eqb c "." || match digit_of c with Some _ => true | None => false end then ("", s)
      else let '(u, r) := span_unit s' in (String c u, r)
  end.

(** unitMap; the two spellings of micro are U+00B5 and U+03BC in UTF-8. *)
Definition unitMap (u : string) : option Z :=
  if u =s "ns" then Some 1
  else if (u =s "us") || (u =s String (byte_of 194) (String (byte_of 181) "s")) ||
          (u =s String (byte_of 206) (String (byte_of 188) "s")) then Some 1000
  else if u =s "ms" then Some 1000000
  else if u =s "s" then Some 1000000000
  else if u =s "m" then Some (60 * 1000000000)
  else if u =s "h" then Some (3600 * 1000000000)
  else None.

(** float64(f) * (float64(unit) / scale), truncated. *)
Definition fraction_ns (f unit scale : Z) : Z :=
  float_trunc (SFmul 53 1024 (float_of_Z f) (SFdiv 53 1024 (float_of_Z unit) (float_of_Z scale))).

(** One number with its unit. *)
Definition duration_term (s : string) : result parse_error (Z * string) :=
  match s with
  | EmptyString => Err ErrDuration
  | String c _ =>
      if negb (Ascii.eqb c "." || match digit_of c with Some _ => true | None => false end) then Err ErrDuration
      else match leadingInt 0 s with
           | None => Err ErrDuration
           | Some (v, s1) =>
               let pre := negb (slen s =? slen s1) in
               let '(f, scale, s2, post) :=
                 match s1 with
                 | String d s1' =>
                     if Ascii.eqb d "." then
                       let '(f, scale, r) := leadingFraction 0 1 false s1' in (f, scale, r, negb (slen s1' =? slen r))
                     else (0, 1, s1, false)
                 | EmptyString => (0, 1, s1, false)
                 end in
               if negb pre && negb post then Err ErrDuration
               else let '(u, s3) := span_unit s2 in
                    match unitMap u with
                    | None => Err ErrDuration
                    | Some unit =>
                        if two63 / unit <? v then Err ErrDuration
                        else let v := v * unit + (if 0 <? f then fraction_ns f unit scale else 0) in
                             if two63 <? v then Err ErrDuration else Ok (v, s3)
                    end
           end
  end.

(** Every term consumes a character, so the length is enough fuel. *)
Fixpoint duration_terms (fuel : nat) (d : Z) (s : string) : result parse_error Z :=
  match fuel with
  | O => Err ErrDuration
  | S fuel =>
      if s =s "" then Ok d
      else let? (v, rest) := duration_term s in
           if two63 <? d + v then Err ErrDuration else duration_terms fuel (d + v) rest
  end.

(** time.ParseDuration, in nanoseconds. *)
Definition ParseDuration (s : string) : result parse_error Z :=
  let '(neg, u) := split_sign s in
  if u =s "0" then Ok 0
  else if u =s "" then Err ErrDuration
  else let? d := duration_terms (S (String.length u)) 0 u in
       if neg then Ok (- d)
       else if two63 - 1 <? d then Err ErrDuration else Ok d.

Example parse_durations :
  (ParseDuration "15s" = Ok 15000000000 ∧ ParseDuration "8760h" = Ok 31536000000000000 ∧
   ParseDuration "1h15m30.918273645s" = Ok 4530918273645 ∧ ParseDuration "-.5h" = Ok (-1800000000000) ∧
   ParseDuration "0" = Ok 0 ∧ ParseDuration "500ms" = Ok 500000000) ∧
  (ParseDuration "" = Err ErrDuration ∧ ParseDuration "3" = Err ErrDuration ∧ ParseDuration ".s" = Err ErrDuration ∧
   ParseDuration "1d" = Err ErrDuration ∧ ParseDuration "-9223372036854775808ns" = Ok (- 2 ^ 63) ∧
   ParseDuration "9223372036854775808ns" = Err ErrDuration ∧
   ParseDuration "0.100000000000000000000h" = Ok 360000000000).
Proof. vm_compute. repeat split. Qed.

(** ** Ranges of the results *)

Lemma digit_of_range c v : digit_of c = Some v → 0 ≤ v ≤ 9.
Proof. unfold digit_of. cbv zeta. destruct (_ && _) eqn:E; [|done]. intros [= <-]. bool_to_prop. lia. Qed.

Lemma decimal_nonneg s acc n : 0 ≤ acc → decimal acc s = Some n → 0 ≤ n.
Proof.
  revert acc. induction s as [|c s IH]; intros acc Ha; cbn [decimal]; [by intros [= <-]|].
  intros (v & Hv & Hn)%bind_Some. apply digit_of_range in Hv. by apply (IH (acc * 10 + v)); [lia|].
Qed.

Lemma ParseUint_range bits s n : ParseUint bits s = Ok n → 0 ≤ n < 2 ^ bits.
Proof.
  unfold ParseUint. destruct (s =s ""); [done|]. destruct (decimal 0 s) as [m|] eqn:E; [|done].
  destruct (m <? 2 ^ bits) eqn:El; [|done]. intros [= <-]. apply decimal_nonneg in E; [|lia]. bool_to_prop. lia.
Qed.

Lemma ParseInt_range bits s n : 0 < bits → ParseInt bits s = Ok n → - 2 ^ (bits - 1) ≤ n < 2 ^ (bits - 1).
Proof.
  intros Hb. unfold ParseInt. destruct (split_sign s) as [neg u]. destruct (u =s ""); [done|].
  pose proof (Z.pow_pos_nonneg 2 (bits - 1)).
  destruct (decimal 0 u) as [m|] eqn:E; [|done]. apply decimal_nonneg in E; [|lia].
  destruct neg; destruct (_ : bool) eqn:El; try done; intros [= <-]; bool_to_prop; lia.
Qed.

Lemma leadingInt_nonneg s x v rest : 0 ≤ x → leadingInt x s = Some (v, rest) → 0 ≤ v.
Proof.
  revert x. induction s as [|c s IH]; intros x Hx; cbn [leadingInt]; [by intros [= <- <-]|].
  destruct (digit_of c) as [d|] eqn:Ed; [|by intros [= <- <-]]. apply digit_of_range in Ed.
  destruct (two63 / 10 <? x); [done|]. destruct (two63 <? x * 10 + d); [done|]. apply IH. lia.
Qed.

Lemma float_trunc_nonneg x : 0 ≤ float_trunc x.
Proof. destruct x as [| | |s m e]; cbn; try lia. destruct (0 <=? e); [by apply Z.shiftl_nonneg|by apply Z.shiftr_nonneg]. Qed.

Lemma unitMap_pos u n : unitMap u = Some n → 0 < n.
Proof. unfold unitMap. repeat (destruct (_ : bool); [intros [= <-]; lia|]). done. Qed.

Lemma duration_term_range s v rest : duration_term s = Ok (v, rest) → 0 ≤ v ≤ two63.
Proof.
  unfold duration_term. destruct s as [|c s]; [done|]. destruct (negb _); [done|].
  destruct (leadingInt 0 _) as [[i s1]|] eqn:Ei; [|done]. apply leadingInt_nonneg in Ei; [|lia].
  destruct (match s1 with EmptyString => _ | _ => _ end) as [[[f sc] s2] post].
  destruct (_ && _); [done|]. destruct (span_unit s2) as [u s3]. destruct (unitMap u) as [n|] eqn:Eu; [|done].
  apply unitMap_pos in Eu. destruct (two63 / n <? i); [done|]. cbv zeta. destruct (two63 <? _) eqn:E; [done|].
  intros [= <- <-]. bool_to_prop. split; [|done]. pose proof (float_trunc_nonneg
    (SFmul 53 1024 (float_of_Z f) (SFdiv 53 1024 (float_of_Z n) (float_of_Z sc)))).
  unfold fraction_ns. destruct (0 <? f); nia.
Qed.

Lemma duration_terms_range fuel d s n : 0 ≤ d ≤ two63 → duration_terms fuel d s = Ok n → 0 ≤ n ≤ two63.
Proof.
  revert d s. induction fuel as [|fuel IH]; intros d s Hd; [done|]. cbn [duration_terms].
  destruct (s =s ""); [by intros [= <-]|]. intros ([v rest] & Ht%duration_term_range & Hn)%rbind_ok.
  destruct (two63 <? d + v) eqn:E; [done|]. bool_to_prop. by apply (IH (d + v) rest); [lia|].
Qed.

Lemma ParseDuration_range s d : ParseDuration s = Ok d → - 2 ^ 63 ≤ d < 2 ^ 63.
Proof.
  unfold ParseDuration. destruct (split_sign s) as [neg u]. destruct (u =s "0"); [intros [= <-]; lia|].
  destruct (u =s ""); [done|]. intros (n & Hn%duration_terms_range & Hd)%rbind_ok; [|unfold two63; lia].
  unfold two63 in *. destruct neg; [injection Hd as <-; lia|].
  destruct (2 ^ 63 - 1 <? n) eqn:E; [done|]. injection Hd as <-. bool_to_prop. lia.
Qed.

(** The fuel of [duration_terms] is enough: a term consumes at least a
    character, so running out of fuel never decides a result. *)
Lemma leadingInt_length s x v rest : leadingInt x s = Some (v, rest) → (String.length rest ≤ String.length s)%nat.
Proof.
  revert x. induction s as [|c s IH]; intros x; cbn [leadingInt]; [by intros [= <- <-]|].
  destruct (digit_of c) as [d|]; [|by intros [= <- <-]].
  destruct (two63 / 10 <? x); [done|]. destruct (two63 <? x * 10 + d); [done|]. intros H%IH. cbn. lia.
Qed.

Lemma leadingFraction_length s x sc o f n rest :
  leadingFraction x sc o s = (f, n, rest) → (String.length rest ≤ String.length s)%nat.
Proof.
  revert x sc o. induction s as [|c s IH]; intros x sc o; cbn [leadingFraction]; [by intros [= <- <- <-]|].
  destruct (digit_of c) as [d|]; [|by intros [= <- <- <-]].
  destruct o; [|destruct (_ <? x); [|destruct (two63 <? _)]]; intros H%IH; cbn; lia.
Qed.

Lemma span_unit_length s u r : span_unit s = (u, r) → String.length s = (String.length u + String.length r)%nat.
Proof.
  revert u r. induction s as [|c s IH]; intros u r; cbn; [by intros [= <- <-]|].
  destruct (_ || _); [by intros [= <- <-]|]. destruct (span_unit s) as [u' r'] eqn:E. intros [= <- <-].
  cbn. by rewrite (IH u' r').
Qed.

Lemma duration_term_shorter s v rest : duration_term s = Ok (v, rest) → (String.length rest < String.length s)%nat.
Proof.
  unfold duration_term. destruct s as [|c s]; [done|]. destruct (negb _); [done|].
  destruct (leadingInt 0 _) as [[i s1]|] eqn:Ei; [|done]. apply leadingInt_length in Ei.
  destruct (match s1 with EmptyString => _ | _ => _ end) as [[[f sc] s2] post] eqn:Ef.
  assert (String.length s2 ≤ String.length s1)%nat as H2.
  { destruct s1 as [|d s1]; [by injection Ef as <- <- <- <-|].
    destruct (Ascii.eqb d "."); [|by injection Ef as <- <- <- <-].
    destruct (leadingFraction 0 1 false s1) as [[x y] z] eqn:E. injection Ef as <- <- <- <-.
    apply leadingFraction_length in E. cbn. lia. }
  destruct (_ && _); [done|]. destruct (span_unit s2) as [u s3] eqn:Es. apply span_unit_length in Es.
  destruct (unitMap u) as [n|] eqn:Eu; [|done].
  assert (u ≠ "") as Hu by (intros ->; done). destruct u as [|a u]; [done|]. cbn in Es.
  destruct (two63 / n <? i); [done|]. cbv zeta. destruct (two63 <? _); [done|]. intros [= <- <-]. lia.
Qed.

Lemma duration_terms_fuel fuel1 fuel2 d s :
  (String.length s < fuel1)%nat → (String.length s < fuel2)%nat →
  duration_terms fuel1 d s = duration_terms fuel2 d s.
Proof.
  revert fuel2 d s. induction fuel1 as [|f1 IH]; intros [|f2] d s H1 H2; try lia. cbn [duration_terms].
  destruct (s =s ""); [done|]. destruct (duration_term s) as [[v rest]|] eqn:E; [|done]. cbn [rbind].
  apply duration_term_shorter in E. destruct (two63 <? d + v); [done|]. apply IH; lia.
Qed.

(** ** Decimal text of a number reads back *)

Lemma digit_of_pretty x : (x < 10)%N → digit_of (pretty_N_char x) = Some (Z.of_N x).
Proof.
  intros Hx. assert (forallb (λ n, bool_decide (digit_of (pretty_N_char (N.of_nat n)) = Some (Z.of_nat n))) (seq 0 10)
    = true) as H by by vm_compute.
  rewrite forallb_forall in H. specialize (H (N.to_nat x)). rewrite in_seq, N2Nat.id, N_nat_Z in H.
  apply (bool_decide_unpack _). rewrite H; [done|lia].
Qed.

Lemma decimal_pretty_go x : ∀ s, decimal 0 (pretty_N_go x s) = decimal (Z.of_N x) s.
Proof.
  induction (N.lt_wf_0 x) as [x _ IH]; intros s. destruct (decide (x = 0)%N) as [->|Hx].
  { by rewrite pretty_N_go_0. }
  rewrite pretty_N_go_step by lia. rewrite IH by (apply N.div_lt; lia). cbn [decimal].
  rewrite digit_of_pretty by (apply N.mod_lt; lia). cbn [mbind option_bind]. f_equal.
  pose proof (N.div_mod x 10 ltac:(lia)). lia.
Qed.

Lemma decimal_pretty n : 0 ≤ n → decimal 0 (pretty n) = Some n.
Proof.
  intros Hn. destruct n as [|p|p]; [done| |lia].
  change (decimal 0 (pretty_N_go (Npos p) "") = Some (Zpos p)). by rewrite decimal_pretty_go.
Qed.
