(* ===== verification/Http.v ===== *)
(** The HTTP vocabulary of the request path: requests, responses and handlers
    (net/http), and the caller identity carried by the request context
    (internal/auth/claims.go, context.go). *)

From S2P Require Import Prelude.

(** auth.Claims *)
Record Claims := mkClaims { ClientID : string; Roles : list string }.

(** An *http.Request: what the handlers read. Header names are canonical and
    hold the value Header.Get returns; an absent header reads as the empty
    string. [rq_now] is the clock reading of the request. *)
Record request := mkRequest {
  rq_method : string;
  rq_path : string;
  rq_remote : string;                     (* r.RemoteAddr *)
  rq_headers : gmap string string;
  rq_body : string;                       (* what can be read of the body *)
  rq_body_err : bool;                     (* reading on fails, as past http.MaxBytesReader *)
  rq_claims : option Claims;              (* context value set by AuthMiddleware *)
  rq_now : Z
}.

Definition header (r : request) (name : string) : string := default "" (rq_headers r !! name).

Definition with_claims (c : Claims) (r : request) : request :=
  mkRequest (rq_method r) (rq_path r) (rq_remote r) (rq_headers r) (rq_body r) (rq_body_err r) (Some c) (rq_now r).

(** http.MaxBytesReader: past the limit, reading fails. *)
Definition max_bytes (limit : Z) (r : request) : request :=
  mkRequest (rq_method r) (rq_path r) (rq_remote r) (rq_headers r) (str_take (Z.to_nat limit) (rq_body r))
    (rq_body_err r || (limit <? slen (rq_body r))) (rq_claims r) (rq_now r).

(** auth.ClaimsFromContext and auth.ClientIDFromContext *)
Definition ClaimsFromContext (r : request) : option Claims := rq_claims r.
Definition ClientIDFromContext (c : option Claims) : string :=
  match c with Some c => ClientID c | None => "" end.

Record response := mkResponse {
  rs_status : Z;
  rs_headers : list (string * string);
  rs_body : string
}.

(** A handler over a server state [St]: the request in, the response and the
    new state out. *)
Definition handler (St : Type) := request → St → response * St.

Definition http_error (status : Z) (msg : string) : response := mkResponse status [] msg.

Definition StatusOK := 200.
Definition StatusCreated := 201.
Definition StatusAccepted := 202.
Definition StatusNoContent := 204.
Definition StatusBadRequest := 400.
Definition StatusUnauthorized := 401.
Definition StatusForbidden := 403.
Definition StatusNotFound := 404.
Definition StatusConflict := 409.
Definition StatusTooManyRequests := 429.
Definition StatusInternalServerError := 500.
Definition StatusServiceUnavailable := 503.
