(* ===== verification/Ingress.v ===== *)
(** The perimeter of the HTTP chain: client-address derivation
    (internal/mcp/failrate.go), the Origin allowlist and guard (origin.go),
    CORS (cors.go), the forwarded-protocol gate (forwardedproto.go) and the
    OAuth discovery guard (wellknown.go). *)

From S2P Require Import Prelude Hex Http.

(** ** Source addresses *)

Definition chr (n : nat) : ascii := ascii_of_nat n.
Definition c_comma : ascii := chr 44.
Definition c_colon : ascii := chr 58.
Definition c_lbrack : ascii := chr 91.
Definition c_rbrack : ascii := chr 93.

(** strings.LastIndexByte *)
Fixpoint last_index_from (i : Z) (c : ascii) (s : string) : Z :=
  match s with
  | EmptyString => -1
  | String d s' =>
      let r := last_index_from (i + 1) c s' in
      if 0 <=? r then r else if Ascii.eqb d c then i else -1
  end.
Definition last_index_byte (s : string) (c : ascii) : Z := last_index_from 0 c s.

(** net.SplitHostPort (standard library): the host, or [None] for an error. *)
Definition SplitHostPort (hostport : string) : option string :=
  let i := last_index_byte hostport c_colon in
  if i <? 0 then None
  else
    let result :=
      if has_prefix "[" hostport then
        let e := index_byte hostport c_rbrack in
        if e <? 0 then None
        else if e + 1 =? i then
          Some (str_drop 1 (str_take (Z.to_nat e) hostport), 1%nat, Z.to_nat (e + 1))
        else None
      else
        let host := str_take (Z.to_nat i) hostport in
        if 0 <=? index_byte host c_colon then None else Some (host, 0%nat, 0%nat) in
    match result with
    | None => None
    | Some (host, j, k) =>
        if 0 <=? index_byte (str_drop j hostport) c_lbrack then None
        else if 0 <=? index_byte (str_drop k hostport) c_rbrack then None
        else Some host
    end.

Definition remoteHost (remoteAddr : string) : string := default remoteAddr (SplitHostPort remoteAddr).

Definition indexByte (s : string) (b : ascii) : Z := index_byte s b.

Definition is_blank (c : ascii) : bool :=
  let n := nat_of_ascii c in (n =? 32)%nat || (n =? 9)%nat.
Definition trimSpace : string → string := trim_by is_blank.

(** The loop of parseXFF; an iteration consumes at least one byte, so the
    length of the value is enough fuel ([parseXFF_ref_eq] below). *)
Fixpoint parseXFF_loop (fuel : nat) (xff : string) (out : list string) : list string :=
  match fuel with
  | O => out
  | S fuel =>
      if xff =s "" then out
      else
        let i := indexByte xff c_comma in
        let '(part, xff) :=
          if i <? 0 then (xff, "")
          else (str_take (Z.to_nat i) xff, str_drop (Z.to_nat (i + 1)) xff) in
        let p := trimSpace part in
        parseXFF_loop fuel xff (if p =s "" then out else out ++ [p])
  end.
Definition parseXFF (xff : string) : list string := parseXFF_loop (String.length xff) xff [].

Definition clientIP (r : request) (trustProxy : bool) (hops : Z) : string :=
  let remote := remoteHost (rq_remote r) in
  if negb trustProxy then remote
  else
    let seq := parseXFF (header r "X-Forwarded-For") ++ [remote] in
    let idx := Z.of_nat (length seq) - hops - 1 in
    if (idx <? 0) || (Z.of_nat (length seq) <=? idx) then remote
    else default remote (seq !! Z.to_nat idx).

(** ** Origin allowlist *)

Definition OriginAllowlist := gset string.

Definition NewOriginAllowlist (origins : list string) : OriginAllowlist :=
  foldl (λ a o, let o := to_lower (trim_space o) in if o =s "" then a else {[o]} ∪ a) ∅ origins.

Definition DefaultOriginAllowlist : OriginAllowlist :=
  NewOriginAllowlist ["http://localhost"; "https://localhost"; "http://127.0.0.1";
    "https://127.0.0.1"; "http://[::1]"; "https://[::1]"].

Definition localhostPrefixes : list string :=
  ["http://localhost:"; "https://localhost:"; "http://127.0.0.1:"; "https://127.0.0.1:";
   "http://[::1]:"; "https://[::1]:"].

(** strings.TrimSuffix *)
Definition trim_suffix (s p : string) : string :=
  if has_suffix p s then str_take (String.length s - String.length p) s else s.

Definition Allowed (a : OriginAllowlist) (origin : string) : bool :=
  if origin =s "" then true
  else
    let o := to_lower (trim_space origin) in
    bool_decide (o ∈ a) ||
    existsb (λ prefix, has_prefix prefix o && bool_decide (trim_suffix prefix ":" ∈ a))
      localhostPrefixes.

(** ** Middlewares *)

Section Middlewares.
Context {St : Type}.

Definition originGuard (next : handler St) (allow : OriginAllowlist) : handler St := λ r st,
  if negb (Allowed allow (header r "Origin"))
  then (http_error StatusForbidden "origin not allowed", st)
  else next r st.

(** Headers set on the ResponseWriter before the inner handler runs. *)
Definition with_headers (hs : list (string * string)) (p : response * St) : response * St :=
  (mkResponse (rs_status p.1) (hs ++ rs_headers p.1) (rs_body p.1), p.2).

Definition corsAllowMethods : string := "GET, POST, OPTIONS".
Definition corsAllowHeaders : string := "Authorization, Content-Type, Mcp-Session-Id".
Definition corsExposeHeaders : string := "Mcp-Session-Id".
Definition corsMaxAge : string := "600".

Definition CORSMiddleware (next : handler St) (allow : OriginAllowlist) : handler St := λ r st,
  let origin := header r "Origin" in
  if (rq_method r =s "OPTIONS") && negb (header r "Access-Control-Request-Method" =s "") then
    if (origin =s "") || negb (Allowed allow origin)
    then (http_error StatusForbidden "origin not allowed", st)
    else (mkResponse StatusNoContent
            [("Access-Control-Allow-Origin", origin); ("Vary", "Origin");
             ("Access-Control-Allow-Methods", corsAllowMethods);
             ("Access-Control-Allow-Headers", corsAllowHeaders);
             ("Access-Control-Allow-Credentials", "false");
             ("Access-Control-Max-Age", corsMaxAge)] "", st)
  else if negb (origin =s "") && Allowed allow origin then
    with_headers [("Access-Control-Allow-Origin", origin); ("Vary", "Origin");
                  ("Access-Control-Allow-Credentials", "false");
                  ("Access-Control-Expose-Headers", corsExposeHeaders)] (next r st)
  else next r st.

Definition forwardedProtoScheme (xfp : string) : string :=
  if xfp =s "" then ""
  else
    let i := index_byte xfp c_comma in
    trim_space (if 0 <=? i then str_take (Z.to_nat i) xfp else xfp).

Definition requireForwardedHTTPS (next : handler St) (trustProxy : bool) : handler St :=
  if negb trustProxy then next
  else λ r st,
    let scheme := forwardedProtoScheme (header r "X-Forwarded-Proto") in
    if negb (scheme =s "") && negb (equal_fold scheme "https")
    then (http_error StatusForbidden "https required", st)
    else next r st.

Definition wellKnownProtectedResource : string := "/.well-known/oauth-protected-resource".
Definition wellKnownAuthServer : string := "/.well-known/oauth-authorization-server".

Definition wellKnownGuard (next : handler St) : handler St := λ r st,
  if (rq_path r =s wellKnownProtectedResource) || (rq_path r =s wellKnownAuthServer)
  then (http_error StatusNotFound "404 page not found", st)
  else next r st.
End Middlewares.

Example SplitHostPort_v4 : SplitHostPort "203.0.113.9:4000" = Some "203.0.113.9".
Proof. reflexivity. Qed.
Example SplitHostPort_v6 : SplitHostPort "[::1]:80" = Some "::1".
Proof. reflexivity. Qed.
Example SplitHostPort_bare : SplitHostPort "203.0.113.9" = None ∧ SplitHostPort "::1" = None.
Proof. split; reflexivity. Qed.
Example parseXFF_blank : parseXFF " 1.1.1.1 ,, 2.2.2.2," = ["1.1.1.1"; "2.2.2.2"].
Proof. reflexivity. Qed.

(** ** Theorems *)

Lemma has_suffix_app q p : has_suffix q (p +:+ q) = true.
Proof.
  induction p as [|c p IH].
  - change ("" +:+ q) with q. destruct q; simpl; by rewrite ?String.eqb_refl, ?Ascii.eqb_refl.
  - change (has_suffix q (String c (p +:+ q)) = true). cbn [has_suffix]. by rewrite IH, orb_true_r.
Qed.

Lemma trim_suffix_app p q : trim_suffix (p +:+ q) q = p.
Proof.
  unfold trim_suffix. rewrite has_suffix_app, string_app_length, Nat.add_sub. apply str_take_app.
Qed.

(** The entries of a forwarded chain, by structural recursion: the blank-
    trimmed, non-empty pieces between commas. *)
Fixpoint split_commas (s : string) : list string :=
  match s with
  | EmptyString => [EmptyString]
  | String c s' =>
      if Ascii.eqb c c_comma then EmptyString :: split_commas s'
      else match split_commas s' with
           | p :: ps => String c p :: ps
           | [] => [String c EmptyString]
           end
  end.

Definition keep_entries (l : list string) : list string :=
  filter (λ p, p ≠ "") (trimSpace <$> l).

Lemma split_commas_cons s : ∃ p ps, split_commas s = p :: ps.
Proof.
  destruct s as [|c s]; simpl; [eauto|]. destruct (Ascii.eqb _ _); [eauto|].
  destruct (split_commas s); eauto.
Qed.

Lemma index_byte_from_shift c s i :
  index_byte_from i c s = if index_byte_from 0 c s <? 0 then -1 else index_byte_from 0 c s + i.
Proof.
  revert i. induction s as [|d s IH]; intros i; simpl; [done|].
  destruct (Ascii.eqb d c); [simpl; lia|].
  rewrite (IH (i + 1)), (IH (0 + 1)).
  destruct (index_byte_from 0 c s <? 0) eqn:E; [done|]. bool_to_prop.
  destruct (index_byte_from 0 c s + (0 + 1) <? 0) eqn:E'; bool_to_prop; lia.
Qed.

Lemma index_byte_from_nonneg c s : -1 ≤ index_byte_from 0 c s.
Proof.
  induction s as [|d s IH]; simpl; [lia|]. destruct (Ascii.eqb d c); [lia|].
  rewrite index_byte_from_shift. destruct (_ <? 0) eqn:E; bool_to_prop; lia.
Qed.

(** One iteration of the loop takes the first piece off. *)
Lemma split_commas_step s :
  let i := indexByte s c_comma in
  split_commas s =
    if i <? 0 then [s]
    else str_take (Z.to_nat i) s :: split_commas (str_drop (Z.to_nat (i + 1)) s).
Proof.
  cbv zeta. unfold indexByte, index_byte.
  induction s as [|d s IH]; [done|]. cbn [split_commas index_byte_from].
  destruct (Ascii.eqb d c_comma) eqn:E; [done|].
  rewrite index_byte_from_shift. pose proof (index_byte_from_nonneg c_comma s).
  set (x := index_byte_from 0 c_comma s) in *. change (0 + 1) with 1.
  destruct (x <? 0) eqn:Ei; rewrite IH; [done|]. bool_to_prop.
  replace (x + 1 <? 0) with false by (symmetry; apply Z.ltb_ge; lia).
  rewrite !Z2Nat.inj_add by lia. change (Z.to_nat 1) with 1%nat.
  by rewrite !Nat.add_1_r.
Qed.

Lemma str_drop_length n s : String.length (str_drop n s) = (String.length s - n)%nat.
Proof. revert s. induction n as [|n IH]; intros [|c s]; simpl; auto. Qed.

Lemma parseXFF_loop_ref fuel s out :
  (String.length s ≤ fuel)%nat →
  parseXFF_loop fuel s out = out ++ keep_entries (if s =s "" then [] else split_commas s).
Proof.
  revert s out. induction fuel as [|fuel IH]; intros s out Hf.
  { destruct s; simpl in *; [|lia]. by rewrite app_nil_r. }
  simpl. destruct (s =s "") eqn:Es; [by rewrite app_nil_r|].
  rewrite (split_commas_step s). set (i := indexByte s c_comma).
  destruct (i <? 0) eqn:Ei.
  - rewrite IH by (simpl; lia). cbn [String.eqb]. unfold keep_entries. simpl.
    rewrite app_nil_r. unfold filter. simpl.
    destruct (trimSpace s =s "") eqn:Et; bool_to_prop; rewrite ?Et; case_decide;
      rewrite ?app_nil_r; done.
  - bool_to_prop. rewrite IH by (rewrite str_drop_length; lia).
    set (rest := str_drop _ s). unfold keep_entries. cbn [fmap list_fmap].
    set (p := trimSpace (str_take _ s)).
    assert (filter (λ p, p ≠ "") (trimSpace <$> (if rest =s "" then [] else split_commas rest))
      = filter (λ p, p ≠ "") (trimSpace <$> split_commas rest)) as ->.
    { destruct (rest =s "") eqn:Er; [|done]. bool_to_prop. by rewrite Er. }
    rewrite filter_cons.
    destruct (p =s "") eqn:Ep; bool_to_prop; case_decide; try done.
    by rewrite <- app_assoc.
Qed.

(** The loop of parseXFF computes the trimmed non-empty pieces. *)
Lemma parseXFF_ref_eq s : parseXFF s = keep_entries (split_commas s).
Proof.
  unfold parseXFF. rewrite parseXFF_loop_ref by done. simpl.
  destruct (s =s "") eqn:E; [|done]. bool_to_prop. by subst.
Qed.

Lemma split_commas_app f g :
  split_commas (f +:+ "," +:+ g) = split_commas f ++ split_commas g.
Proof.
  induction f as [|c f IH]; [done|].
  change (split_commas (String c (f +:+ "," +:+ g)) = split_commas (String c f) ++ split_commas g).
  cbn [split_commas]. rewrite IH. destruct (Ascii.eqb c c_comma); [done|].
  by destruct (split_commas_cons f) as (p & ps & ->).
Qed.

Lemma parseXFF_app f g : parseXFF (f +:+ "," +:+ g) = parseXFF f ++ parseXFF g.
Proof.
  rewrite !parseXFF_ref_eq, split_commas_app. unfold keep_entries.
  by rewrite fmap_app, filter_app.
Qed.

Definition with_xff (v : string) (r : request) : request :=
  mkRequest (rq_method r) (rq_path r) (rq_remote r) (<["X-Forwarded-For" := v]> (rq_headers r))
    (rq_body r) (rq_body_err r) (rq_claims r) (rq_now r).

Lemma header_with_xff v r : header (with_xff v r) "X-Forwarded-For" = v.
Proof. unfold header, with_xff. simpl. by rewrite lookup_insert_eq. Qed.

(** Forged forwarding entries are never selected. When the trusted proxies
    appended at least [hops] entries [g], no text [f] a client puts in front of
    them changes the derived address; without proxy trust the header is not
    consulted at all; and a chain shorter than [hops] falls back to the socket
    peer. *)
Theorem clientIP_forged_prefix r hops f g
    (Hhops : 1 ≤ hops) (Hg : hops ≤ Z.of_nat (length (parseXFF g))) :
  clientIP (with_xff (f +:+ "," +:+ g) r) true hops = clientIP (with_xff g r) true hops ∧
  clientIP (with_xff g r) true hops ∈ parseXFF g ∧
  (∀ v, clientIP (with_xff v r) false hops = remoteHost (rq_remote r)) ∧
  (∀ v, Z.of_nat (length (parseXFF v)) < hops →
        clientIP (with_xff v r) true hops = remoteHost (rq_remote r)).
Proof.
  unfold clientIP. simpl. rewrite !header_with_xff, parseXFF_app.
  set (remote := remoteHost _). set (F := parseXFF f). set (G := parseXFF g) in *.
  assert (∀ (L : list string), (hops ≤ Z.of_nat (length L)) →
    (Z.of_nat (length (L ++ [remote])) - hops - 1 <? 0) = false ∧
    (Z.of_nat (length (L ++ [remote])) <=? Z.of_nat (length (L ++ [remote])) - hops - 1) = false ∧
    (L ++ [remote]) !! Z.to_nat (Z.of_nat (length (L ++ [remote])) - hops - 1) =
      L !! (length L - Z.to_nat hops)%nat) as Hidx.
  { intros L HL. rewrite length_app. simpl. split_and!.
    - apply Z.ltb_ge. lia.
    - apply Z.leb_gt. lia.
    - rewrite lookup_app_l by lia. f_equal. lia. }
  destruct (Hidx G Hg) as (E1 & E2 & E3).
  destruct (Hidx (F ++ G)) as (E1' & E2' & E3'); [rewrite length_app; lia|].
  rewrite E1, E2, E1', E2', E3, E3'. simpl.
  rewrite length_app, lookup_app_r by lia.
  replace (length F + length G - Z.to_nat hops - length F)%nat
    with (length G - Z.to_nat hops)%nat by lia.
  split_and!; [done| |intros; done|].
  - destruct (lookup_lt_is_Some_2 G (length G - Z.to_nat hops)) as [x Hx]; [lia|].
    rewrite Hx. simpl. by eapply list_elem_of_lookup_2.
  - intros v Hv. rewrite header_with_xff, length_app.
    rewrite (proj2 (Z.ltb_lt (_ - hops - 1) 0)); [done|]. change (length [remote]) with 1%nat. lia.
Qed.

Lemma clientIP_forged_prefix_witness :
  let r := mkRequest "POST" "/" "10.0.0.2:5123" ∅ "" false None 0 in
  clientIP (with_xff ("6.6.6.6, 7.7.7.7" +:+ "," +:+ "203.0.113.9") r) true 1
  = clientIP (with_xff "203.0.113.9" r) true 1.
Proof.
  intros r.
  assert (1 ≤ 1) as H1 by lia.
  assert (1 ≤ Z.of_nat (length (parseXFF "203.0.113.9"))) as H2 by (vm_compute; discriminate).
  exact (proj1 (clientIP_forged_prefix r 1 "6.6.6.6, 7.7.7.7" "203.0.113.9" H1 H2)).
Defined.

(** DNS-rebinding defence. The Origin guard forwards a request exactly when
    it has no Origin header, or its normalised origin is on the list, or it is
    a listed loopback host with a port; everything else is answered 403 and the
    next handler never runs. *)
Theorem originGuard_spec {St} (next : handler St) allow r st :
  let o := to_lower (trim_space (header r "Origin")) in
  let accepted := header r "Origin" = "" ∨ o ∈ allow ∨
    ∃ bare rest, bare +:+ ":" ∈ localhostPrefixes ∧ bare ∈ allow ∧ o = bare +:+ ":" +:+ rest in
  (accepted → originGuard next allow r st = next r st) ∧
  (¬ accepted → originGuard next allow r st = (http_error StatusForbidden "origin not allowed", st)).
Proof.
  cbv zeta. unfold originGuard.
  assert (Allowed allow (header r "Origin") = true ↔
    (header r "Origin" = "" ∨ to_lower (trim_space (header r "Origin")) ∈ allow ∨
     ∃ bare rest, bare +:+ ":" ∈ localhostPrefixes ∧ bare ∈ allow ∧
       to_lower (trim_space (header r "Origin")) = bare +:+ ":" +:+ rest)) as HA;
    [|rewrite <- HA; destruct (Allowed _ _); simpl; intuition congruence].
  unfold Allowed. destruct (header r "Origin" =s "") eqn:E0; bool_to_prop; [tauto|].
  generalize (to_lower (trim_space (header r "Origin"))). intros o.
  rewrite orb_true_iff, bool_decide_eq_true, existsb_exists.
  setoid_rewrite andb_true_iff. setoid_rewrite bool_decide_eq_true.
  setoid_rewrite has_prefix_spec. setoid_rewrite <- list_elem_of_In.
  split.
  - intros [?|(p & Hp & [t ->] & Hin)]; [tauto|]. right; right.
    exists (trim_suffix p ":"), t. 
    assert (p = trim_suffix p ":" +:+ ":") as Hpe.
    { unfold localhostPrefixes in Hp.
      repeat (apply elem_of_cons in Hp as [->|Hp]; [reflexivity|]). by apply not_elem_of_nil in Hp. }
    split_and!; [by rewrite <- Hpe|done|]. by rewrite <- string_app_assoc, <- Hpe.
  - intros [?|[?|(bare & rest & Hp & Hin & ->)]]; [done|tauto|]. right.
    exists (bare +:+ ":"). split_and!; [done|exists rest; by rewrite string_app_assoc|].
    by rewrite trim_suffix_app.
Qed.

(** CORS grants. A response of CORSMiddleware carries an
    Access-Control-Allow-Origin header of its own only for an allowed,
    non-empty origin, and it is that origin, with credentials off; a preflight
    never reaches the next handler; any other request reaches it exactly once
    with the same status, body and state. *)
Theorem CORSMiddleware_spec {St} (next : handler St) allow r st :
  let origin := header r "Origin" in
  let preflight := rq_method r = "OPTIONS" ∧ header r "Access-Control-Request-Method" ≠ "" in
  let out := CORSMiddleware next allow r st in
  (preflight →
     out.2 = st ∧
     (rs_status out.1 = StatusForbidden ∧ rs_headers out.1 = [] ∨
      rs_status out.1 = StatusNoContent ∧ origin ≠ "" ∧ Allowed allow origin = true ∧
      (∀ v, ("Access-Control-Allow-Origin", v) ∈ rs_headers out.1 → v = origin))) ∧
  (¬ preflight →
     rs_status out.1 = rs_status (next r st).1 ∧ rs_body out.1 = rs_body (next r st).1 ∧
     out.2 = (next r st).2 ∧
     ∃ hs, rs_headers out.1 = hs ++ rs_headers (next r st).1 ∧
       (hs = [] ∨ origin ≠ "" ∧ Allowed allow origin = true ∧
        ("Access-Control-Allow-Origin", origin) ∈ hs ∧
        ("Access-Control-Allow-Credentials", "false") ∈ hs)).
Proof.
  cbv zeta. unfold CORSMiddleware. set (origin := header r "Origin").
  set (acrm := header r "Access-Control-Request-Method").
  assert ((rq_method r =s "OPTIONS") && negb (acrm =s "") = true ↔
    rq_method r = "OPTIONS" ∧ acrm ≠ "") as Hpre.
  { by rewrite andb_true_iff, negb_true_iff, String.eqb_eq, String.eqb_neq. }
  rewrite <- Hpre. destruct (_ && negb (acrm =s "")) eqn:E; split; intros HE; try done.
  - destruct ((origin =s "") || negb (Allowed allow origin)) eqn:E2.
    + split; [done|]. by left.
    + bool_to_prop. split; [done|]. right. split_and!; try done. intros v Hv.
      cbn [fst rs_headers] in Hv. rewrite !elem_of_cons in Hv.
      destruct Hv as [?|[?|[?|[?|[?|[?|Hv]]]]]]; [congruence|discriminate..|].
      by apply not_elem_of_nil in Hv.
  - destruct (negb (origin =s "") && Allowed allow origin) eqn:E2.
    + bool_to_prop. split_and!; try done.
      eexists [_; _; _; _]. split; [reflexivity|]. right. split_and!; [done|done|set_solver..].
    + split_and!; try done. exists []. auto.
Qed.
