(* ===== verification/RateLimit.v ===== *)
(** The per-key token-bucket limiters: the bounded bucket cache
    (internal/mcp/keyedrate.go), the pre-auth failure limiter (failrate.go),
    and the anonymous and per-client middlewares (anonrate.go, ratelimit.go).

    golang.org/x/time/rate is third-party code: the bucket is the interface
    [TokenBucket] with the documented laws [TokenBucketLaws]; [ExactBucket] is
    an instance on exact integers that satisfies them. Handlers run one at a
    time (the code's mutex); Go's map iteration order is the parameter
    [range], any permutation of the map's entries. *)

From S2P Require Import Prelude Http Ingress.

(** ** The token bucket interface *)

(** Times are nanoseconds; a rate is in nano-tokens per second, so that
    rate * nanoseconds counts [token] units. *)
Definition token : Z := 1000000000000000000.

Class TokenBucket (B : Type) := {
  tb_new : Z → Z → B;                 (* rate.NewLimiter(rps, burst) *)
  tb_allow : Z → B → bool * B;        (* lim.Allow() at an instant *)
  tb_has_token : Z → B → bool         (* lim.Tokens() >= 1.0 at an instant *)
}.

Fixpoint run_bucket `{TokenBucket B} (b : B) (ts : list Z) : list bool :=
  match ts with
  | [] => []
  | t :: ts => let '(ok, b') := tb_allow t b in ok :: run_bucket b' ts
  end.

(** The bucket after requests at these instants. *)
Definition spent `{TokenBucket B} (b : B) (ts : list Z) : B := foldl (λ b t, (tb_allow t b).2) b ts.

Fixpoint count_true (l : list bool) : Z :=
  match l with [] => 0 | b :: l => (if b then 1 else 0) + count_true l end.

Definition elapsed (ts : list Z) : Z := default 0 (last ts) - default 0 (head ts).

Class TokenBucketLaws (B : Type) `{TokenBucket B} : Prop := {
  tb_new_full rps burst now : 1 ≤ burst → tb_has_token now (tb_new rps burst) = true;
  tb_peek_allow now b : tb_has_token now b = true → (tb_allow now b).1 = true;
  tb_deny_empty now b : (tb_allow now b).1 = false → tb_has_token now (tb_allow now b).2 = false;
  (* tokens accrue *)
  tb_has_later rps burst ts now now' : 0 ≤ rps → now ≤ now' →
    tb_has_token now (spent (tb_new rps burst) ts) = true → tb_has_token now' (spent (tb_new rps burst) ts) = true;
  (* in any interval, whatever came before it *)
  tb_rate rps burst before ts : 0 ≤ rps → 0 ≤ burst → StronglySorted Z.le (before ++ ts) →
    count_true (run_bucket (spent (tb_new rps burst) before) ts) * token ≤ burst * token + rps * elapsed ts
}.

(** ** The bucket cache *)

Definition DefaultLimiterIdleTTL : Z := 1800000000000.
Definition DefaultLimiterMaxClients : Z := 10000.
Definition DefaultFailLimiterIdleTTL : Z := 900000000000.
Definition DefaultFailMaxIPs : Z := 10000.

Section Keyed.
Context {B : Type} `{TokenBucket B}.

Record clientBucket := mkBucket { cb_limiter : B; cb_lastUsed : Z }.

Record keyedRateLimiter := mkKeyed {
  buckets : gmap string clientBucket;
  rps : Z; burst : Z; idleTTL : Z; maxKeys : Z
}.

Definition set_buckets (m : gmap string clientBucket) (l : keyedRateLimiter) : keyedRateLimiter :=
  mkKeyed m (rps l) (burst l) (idleTTL l) (maxKeys l).

Definition newKeyedRateLimiter (rps burst : Z) : keyedRateLimiter :=
  mkKeyed ∅ rps burst DefaultLimiterIdleTTL DefaultLimiterMaxClients.

Context (range : gmap string clientBucket → list (string * clientBucket)).

(** One tick of the janitor. Deleting during a range loop visits each entry
    at most once, so the order does not matter. *)
Definition sweep (now : Z) (l : keyedRateLimiter) : keyedRateLimiter :=
  let cutoff := now - idleTTL l in
  set_buckets
    (foldl (λ m kb, if cb_lastUsed kb.2 <? cutoff then delete kb.1 m else m)
       (buckets l) (range (buckets l))) l.

(** The loop state is the triple oldestKey, oldestAt, first. *)
Definition oldest_step (acc : string * Z * bool) (kb : string * clientBucket)
    : string * Z * bool :=
  let '(oldestKey, oldestAt, first) := acc in
  if first || (cb_lastUsed kb.2 <? oldestAt) then (kb.1, cb_lastUsed kb.2, false) else acc.

Definition evictLRULocked (l : keyedRateLimiter) : keyedRateLimiter :=
  let '(oldestKey, _, _) := foldl oldest_step ("", 0, true) (range (buckets l)) in
  if negb (oldestKey =s "") then set_buckets (delete oldestKey (buckets l)) l else l.

Definition Size (l : keyedRateLimiter) : Z := Z.of_nat (size (buckets l)).

(** keyedRateLimiter.limiterFor; failrate.go has its own copy of the same logic
    (getLimiter and evictLRULocked), for which this stands too. *)
Definition limiterFor (key : string) (now : Z) (l : keyedRateLimiter) : B * keyedRateLimiter :=
  match buckets l !! key with
  | Some b => (cb_limiter b, set_buckets (<[key := mkBucket (cb_limiter b) now]> (buckets l)) l)
  | None =>
      let l := if maxKeys l <=? Size l then evictLRULocked l else l in
      let lim := tb_new (rps l) (burst l) in
      (lim, set_buckets (<[key := mkBucket lim now]> (buckets l)) l)
  end.

(** lim.Allow() mutates the limiter shared with the map entry. *)
Definition allow (key : string) (now : Z) (l : keyedRateLimiter) : bool * keyedRateLimiter :=
  let '(lim, l) := limiterFor key now l in
  let '(ok, lim') := tb_allow now lim in
  (ok, set_buckets (<[key := mkBucket lim' now]> (buckets l)) l).

(** *** The failure limiter's own operations *)

Definition Penalize (ip : string) (now : Z) (l : keyedRateLimiter) : keyedRateLimiter :=
  if ip =s "" then l else (allow ip now l).2.

Definition peek (ip : string) (now : Z) (l : keyedRateLimiter) : bool * keyedRateLimiter :=
  if ip =s "" then (true, l)
  else let '(lim, l) := limiterFor ip now l in (tb_has_token now lim, l).
End Keyed.

Arguments clientBucket : clear implicits.
Arguments keyedRateLimiter : clear implicits.
Arguments mkBucket {B} _ _.
Arguments mkKeyed {B} _ _ _ _ _.

(** ** The middlewares

    [get] and [put] reach the limiter inside the server's state. *)

Definition json_error (status : Z) (headers : list (string * string)) (msg : string) : response :=
  mkResponse status (("Content-Type", "application/json") :: headers) msg.

Definition writeRateLimited : response :=
  json_error StatusTooManyRequests [] "rate limit exceeded".

Record IPFailRateLimiter (B : Type) := mkIPFail {
  if_ips : keyedRateLimiter B;            (* ips, rps, burst, idleTTL, maxIPs *)
  if_trustProxy : bool;
  if_hops : Z
}.
Arguments mkIPFail {B} _ _ _.
Arguments if_ips {B} _.
Arguments if_trustProxy {B} _.
Arguments if_hops {B} _.

Definition NewIPFailRateLimiter {B} (rps burst : Z) (trustProxy : bool) (hops : Z) : IPFailRateLimiter B :=
  mkIPFail (mkKeyed ∅ rps burst DefaultFailLimiterIdleTTL DefaultFailMaxIPs) trustProxy hops.

Definition IPFromRequest {B} (l : IPFailRateLimiter B) (r : request) : string :=
  clientIP r (if_trustProxy l) (if_hops l).

Definition set_ips {B} (k : keyedRateLimiter B) (l : IPFailRateLimiter B) : IPFailRateLimiter B :=
  mkIPFail k (if_trustProxy l) (if_hops l).

(** AnonReadRateLimiter *)
Record AnonReadRateLimiter (B : Type) := mkAnon {
  ar_inner : keyedRateLimiter B; ar_trustProxy : bool; ar_hops : Z
}.
Arguments mkAnon {B} _ _ _.
Arguments ar_inner {B} _.
Arguments ar_trustProxy {B} _.
Arguments ar_hops {B} _.

Definition NewAnonReadRateLimiter {B} (rps burst : Z) (trustProxy : bool) (hops : Z)
    : AnonReadRateLimiter B := mkAnon (newKeyedRateLimiter rps burst) trustProxy hops.

(** ClientRateLimiter has the bucket cache as its only field. *)
Definition ClientRateLimiter (B : Type) := keyedRateLimiter B.
Definition NewClientRateLimiter {B} (rps burst : Z) : ClientRateLimiter B :=
  newKeyedRateLimiter rps burst.

Section Handlers.
Context {B : Type} `{TokenBucket B} {St : Type}.
Context (range : gmap string (clientBucket B) → list (string * clientBucket B)).

(** IPFailRateLimiter.Wrap *)
Definition Wrap (get : St → IPFailRateLimiter B) (put : IPFailRateLimiter B → St → St)
    (next : handler St) : handler St := λ r st,
  let ip := IPFromRequest (get st) r in
  let '(ok, k) := peek range ip (rq_now r) (if_ips (get st)) in
  let st := put (set_ips k (get st)) st in
  if negb ok then
    (json_error StatusTooManyRequests [("Retry-After", "60")]
       "too many failed auth attempts; retry later", st)
  else next r st.

(** failLimiter.Penalize(failLimiter.IPFromRequest(r)) *)
Definition penalize_request (get : St → IPFailRateLimiter B) (put : IPFailRateLimiter B → St → St)
    (r : request) (st : St) : St :=
  put (set_ips (Penalize range (IPFromRequest (get st) r) (rq_now r) (if_ips (get st))) (get st)) st.

(** AnonReadRateLimiter.Middleware *)
Definition AnonMiddleware (get : St → AnonReadRateLimiter B)
    (put : keyedRateLimiter B → St → St) (next : handler St) : handler St := λ r st,
  match ClaimsFromContext r with
  | Some _ => next r st
  | None =>
      let l := get st in
      let ip := clientIP r (ar_trustProxy l) (ar_hops l) in
      let '(ok, k) := allow range ip (rq_now r) (ar_inner l) in
      let st := put k st in
      if negb ok then (writeRateLimited, st) else next r st
  end.

(** ClientRateLimiter.Middleware *)
Definition ClientMiddleware (get : St → ClientRateLimiter B)
    (put : keyedRateLimiter B → St → St) (next : handler St) : handler St := λ r st,
  let clientID := ClientIDFromContext (ClaimsFromContext r) in
  if clientID =s "" then next r st
  else
    let '(ok, k) := allow range clientID (rq_now r) (get st) in
    let st := put k st in
    if negb ok then (writeRateLimited, st) else next r st.
End Handlers.

(** ** An exact token bucket

    Integer arithmetic in [token] units: the instance that shows the laws can
    hold, and runs the witnesses. *)

Record ExactBucket := mkExact { eb_rps : Z; eb_burst : Z; eb_level : Z; eb_last : option Z }.

Definition eb_now (now : Z) (b : ExactBucket) : Z :=
  match eb_last b with
  | None => eb_level b
  | Some t => Z.min (eb_burst b * token) (eb_level b + Z.max 0 (now - t) * eb_rps b)
  end.

#[export] Instance ExactBucket_TokenBucket : TokenBucket ExactBucket := {
  tb_new rps burst := mkExact rps burst (burst * token) None;
  tb_allow now b :=
    if token <=? eb_now now b
    then (true, mkExact (eb_rps b) (eb_burst b) (eb_now now b - token)
                  (Some (Z.max now (default now (eb_last b)))))
    else (false, b);
  tb_has_token now b := token <=? eb_now now b
}.

(** ** Lemmas *)

Lemma elapsed_cons t t' ts : elapsed (t :: t' :: ts) = t' - t + elapsed (t' :: ts).
Proof. unfold elapsed. simpl. destruct (last ts); simpl; lia. Qed.

(** From a level reached at time [t0], a sorted run admits no more than the
    level plus what accrues. *)
Lemma ExactBucket_run rps burst ts level t0 :
  0 ≤ rps → StronglySorted Z.le (t0 :: ts) → 0 ≤ level →
  count_true (run_bucket (mkExact rps burst level (Some t0)) ts) * token
    ≤ level + rps * elapsed (t0 :: ts).
Proof.
  intros Hr. revert level t0. induction ts as [|t ts IH]; intros level t0 Hs Hl.
  - unfold elapsed. simpl. lia.
  - rewrite elapsed_cons. apply StronglySorted_inv in Hs as [Hs Ht0].
    apply Forall_cons in Ht0 as [Ht0 Ht0s]. simpl run_bucket.
    unfold eb_now; simpl. rewrite Z.max_r by lia.
    destruct (_ <=? _) eqn:E; bool_to_prop; simpl.
    + rewrite Z.max_l by lia.
      assert (0 ≤ Z.min (burst * token) (level + (t - t0) * rps) - token) as Hp by lia.
      specialize (IH _ t Hs Hp). nia.
    + assert (StronglySorted Z.le (t0 :: ts)) as Hs'.
      { constructor; [by apply StronglySorted_inv in Hs as [? ?]|].
        by apply Ht0s. }
      specialize (IH level t0 Hs' Hl).
      assert (elapsed (t0 :: ts) ≤ t - t0 + elapsed (t :: ts)); [|nia].
      destruct ts as [|t' ts]; [unfold elapsed; simpl; lia|rewrite !elapsed_cons; lia].
Qed.

(** What a run of requests keeps of a bucket. *)
Definition exact_ok (rps burst : Z) (last : list Z) (b : ExactBucket) : Prop :=
  eb_rps b = rps ∧ eb_burst b = burst ∧ 0 ≤ eb_level b ≤ burst * token ∧ (∀ t, eb_last b = Some t → t ∈ last).

Lemma exact_ok_allow rps burst last b t : 0 ≤ rps → exact_ok rps burst last b → Forall (λ u, u ≤ t) last →
  exact_ok rps burst (last ++ [t]) (tb_allow t b).2.
Proof.
  intros Hr (E1 & E2 & Hl & Hlast) Hle. rewrite Forall_forall in Hle. cbn [tb_allow ExactBucket_TokenBucket].
  destruct (token <=? eb_now t b) eqn:E; bool_to_prop; cbn [snd].
  - assert (eb_now t b ≤ burst * token) as Hb.
    { unfold eb_now. destruct (eb_last b); [rewrite E2; lia|lia]. }
    split_and!; cbn; [done|done|unfold token in *; lia|unfold token in *; lia|]. intros u [= <-]. rewrite elem_of_app.
    destruct (eb_last b) as [v|] eqn:Ev; cbn [default]; [|right; rewrite Z.max_id; by left].
    right. rewrite Z.max_l; [by left|]. by apply Hle, Hlast.
  - split_and!; try done; [lia|lia|]. intros u Hu%Hlast. rewrite elem_of_app. by left.
Qed.

Lemma exact_ok_spent rps burst ts : 0 ≤ rps → 0 ≤ burst → StronglySorted Z.le ts →
  exact_ok rps burst ts (spent (tb_new rps burst) ts).
Proof.
  intros Hr Hb. induction ts as [|t ts IH] using rev_ind; intros Hs.
  - split_and!; cbn; [done|done|unfold token; lia|lia|done].
  - apply StronglySorted_app in Hs as (Hle & Hs & _). unfold spent. rewrite foldl_app. cbn [foldl].
    apply exact_ok_allow; [done|by apply IH|]. rewrite Forall_forall. intros u Hu. apply Hle; [done|by left].
Qed.

Lemma eb_spent_params rps burst ts : let b := spent (tb_new rps burst) ts in eb_rps b = rps ∧ eb_burst b = burst.
Proof.
  cbv zeta. induction ts as [|t ts IH] using rev_ind; [done|]. unfold spent in *. rewrite foldl_app. cbn [foldl].
  cbn [tb_allow ExactBucket_TokenBucket]. by destruct (token <=? _).
Qed.

Lemma exact_run_any rps burst b before ts : 0 ≤ rps → 0 ≤ burst → exact_ok rps burst before b →
  StronglySorted Z.le (before ++ ts) → count_true (run_bucket b ts) * token ≤ burst * token + rps * elapsed ts.
Proof.
  intros Hr Hb Hok Hs. revert before Hok Hs. induction ts as [|t ts IH]; intros before Hok Hs; [unfold elapsed, token; simpl; lia|].
  pose proof Hs as Hs0. apply StronglySorted_app in Hs as (Hle & _ & Hts).
  destruct Hok as (E1 & E2 & Hl & Hlast). cbn [run_bucket tb_allow ExactBucket_TokenBucket].
  destruct (token <=? eb_now t b) eqn:E; bool_to_prop; cbn [count_true].
  - assert (Z.max t (default t (eb_last b)) = t) as ->.
    { destruct (eb_last b) as [u|] eqn:Eu; cbn; [|lia]. pose proof (Hle u t (Hlast u eq_refl) ltac:(by left)). lia. }
    assert (eb_now t b ≤ burst * token) by (unfold eb_now; destruct (eb_last b); [rewrite E2; lia|lia]).
    rewrite E1, E2. pose proof (ExactBucket_run rps burst ts (eb_now t b - token) t Hr Hts ltac:(lia)). lia.
  - apply StronglySorted_inv in Hts as [Hts Hall].
    assert (StronglySorted Z.le (before ++ ts)) as Hs1.
    { apply StronglySorted_app. split_and!; [|by apply StronglySorted_app in Hs0 as (_ & ? & _)|done].
      intros x y Hx Hy. apply Hle; [done|by right]. }
    specialize (IH before (conj E1 (conj E2 (conj Hl Hlast))) Hs1).
    assert (elapsed ts ≤ elapsed (t :: ts)); [|nia].
    destruct ts as [|t' ts]; [unfold elapsed; simpl; lia|rewrite elapsed_cons]. apply Forall_cons in Hall as [? _]. lia.
Qed.

#[export] Instance ExactBucket_Laws : TokenBucketLaws ExactBucket.
Proof.
  split.
  - intros rps burst now Hb. simpl. unfold eb_now; simpl. apply Z.leb_le. unfold token. lia.
  - intros now b Hb. simpl in *. by rewrite Hb.
  - intros now b. simpl. destruct (_ <=? _) eqn:E; [done|]. by intros _; simpl.
  - intros rps burst ts now now' Hr Hle. destruct (eb_spent_params rps burst ts) as [Hrps _]. cbn [tb_has_token ExactBucket_TokenBucket].
    rewrite !Z.leb_le. unfold eb_now. destruct (eb_last _) as [u|]; [|done]. rewrite Hrps.
    assert (Z.max 0 (now - u) * rps ≤ Z.max 0 (now' - u) * rps) by (apply Z.mul_le_mono_nonneg_r; lia). lia.
  - intros rps burst before ts Hr Hb Hs. apply (exact_run_any rps burst _ before); try done.
    apply exact_ok_spent; [done|done|]. by apply StronglySorted_app in Hs as (_ & ? & _).
Qed.

(** ** Theorems on the bucket cache *)

Section CacheTheorems.
Context {B : Type} `{TokenBucket B}.
Context (range : gmap string (clientBucket B) → list (string * clientBucket B)).
Context (Hrange : ∀ m, range m ≡ₚ map_to_list m).

Definition params_of (l : keyedRateLimiter B) : Z * Z * Z * Z := (rps l, burst l, idleTTL l, maxKeys l).

Lemma elem_of_range m k b : (k, b) ∈ range m ↔ m !! k = Some b.
Proof using Hrange. rewrite Hrange. apply elem_of_map_to_list. Qed.

(** The accumulated victim is an entry of the visited prefix and is minimal
    in it. *)
Lemma oldest_fold (l : list (string * clientBucket B)) acc k0 t0 f0 :
  foldl oldest_step acc l = (k0, t0, f0) →
  (f0 = true ∧ l = [] ∧ acc = (k0, t0, f0)) ∨
  (l = [] ∧ acc = (k0, t0, f0)) ∨
  (f0 = false ∧
   ((∃ b, (k0, b) ∈ l ∧ cb_lastUsed b = t0) ∨ acc = (k0, t0, false)) ∧
   (∀ k b, (k, b) ∈ l → t0 ≤ cb_lastUsed b) ∧
   (acc.2 = false → t0 ≤ acc.1.2)).
Proof.
  revert acc. induction l as [|[k b] l IH]; intros acc; simpl.
  { intros ->. right; left. auto. }
  intros Hf. right; right. destruct acc as [[ok oa] f].
  specialize (IH _ Hf). unfold oldest_step in IH. simpl in IH.
  destruct (f || (cb_lastUsed b <? oa)) eqn:E.
  - assert (f0 = false ∧ ((∃ b, (k0, b) ∈ l ∧ cb_lastUsed b = t0) ∨ (k0 = k ∧ t0 = cb_lastUsed b)) ∧
      (∀ k b, (k, b) ∈ l → t0 ≤ cb_lastUsed b) ∧ t0 ≤ cb_lastUsed b) as (-> & Hin & Hmin & Hb).
    { destruct IH as [(-> & -> & [=])|[(-> & [= <- <- <-])|(-> & Hin & Hmin & Ha)]].
      - split_and!; auto; [by intros ?? ?%not_elem_of_nil|lia].
      - split_and!; auto. destruct Hin as [?|[= <- <-]]; auto. }
    split_and!; [done| | |].
    + left. destruct Hin as [(b' & ? & ?)|[-> ->]];
        [exists b'; rewrite elem_of_cons; auto|exists b; rewrite elem_of_cons; auto].
    + intros k' b' [[= <- <-]|?]%elem_of_cons; eauto.
    + simpl. intros ->. simpl in E. bool_to_prop. lia.
  - bool_to_prop. subst f.
    assert (f0 = false ∧ ((∃ b, (k0, b) ∈ l ∧ cb_lastUsed b = t0) ∨ (ok = k0 ∧ oa = t0)) ∧
      (∀ k b, (k, b) ∈ l → t0 ≤ cb_lastUsed b) ∧ t0 ≤ oa) as (-> & Hin & Hmin & Ha).
    { destruct IH as [(-> & -> & [=])|[(-> & [= <- <- <-])|(-> & Hin & Hmin & Ha)]].
      - split_and!; auto; [by intros ?? ?%not_elem_of_nil|lia].
      - split_and!; auto. destruct Hin as [?|[= <- <-]]; auto. }
    split_and!; [done| | |done].
    + destruct Hin as [(b' & ? & ?)|[-> ->]]; [|by right].
      left. exists b'; rewrite elem_of_cons; auto.
    + intros k' b' [[= <- <-]|?]%elem_of_cons; [lia|eauto].
Qed.

(** On a cache without an empty key, eviction removes one least recently
    used entry and nothing else. *)
Lemma evict_spec (l : keyedRateLimiter B) :
  buckets l ≠ ∅ → buckets l !! "" = None →
  ∃ k b, buckets l !! k = Some b ∧ evictLRULocked range l = set_buckets (delete k (buckets l)) l ∧
    ∀ k' b', buckets l !! k' = Some b' → cb_lastUsed b ≤ cb_lastUsed b'.
Proof using Hrange.
  intros Hne He. unfold evictLRULocked.
  destruct (foldl oldest_step ("", 0, true) (range (buckets l))) as [[k t] f] eqn:Ef.
  apply oldest_fold in Ef.
  assert (range (buckets l) ≠ []) as Hr.
  { intros Hr. pose proof (Hrange (buckets l)) as Hp. rewrite Hr in Hp.
    symmetry in Hp. apply Permutation_nil_r, map_to_list_empty_iff in Hp. done. }
  destruct Ef as [(_ & ? & _)|[(? & _)|(-> & Hin & Hmin & _)]]; [done..|].
  destruct Hin as [(b & Hb & Ht)|[=]]. apply elem_of_range in Hb.
  exists k, b. split; [done|].
  destruct (k =s "") eqn:Ek; bool_to_prop; [congruence|]. simpl.
  split; [done|]. intros k' b' Hb'%elem_of_range. rewrite Ht. eauto.
Qed.

Definition cache_ok (l : keyedRateLimiter B) : Prop :=
  Size l ≤ maxKeys l ∧ 1 ≤ maxKeys l ∧ buckets l !! "" = None.

Lemma Size_insert (l : keyedRateLimiter B) k b :
  Size (set_buckets (<[k:=b]> (buckets l)) l) =
  match buckets l !! k with Some _ => Size l | None => Size l + 1 end.
Proof. unfold Size. simpl. rewrite map_size_insert. destruct (_ !! _); simpl; lia. Qed.

Lemma evict_shrinks (l : keyedRateLimiter B) :
  cache_ok l → maxKeys l ≤ Size l →
  Size (evictLRULocked range l) = Size l - 1 ∧ cache_ok (evictLRULocked range l).
Proof using Hrange.
  intros (Hs & Hm & He) Hfull.
  assert (buckets l ≠ ∅) as Hne.
  { intros E. unfold Size in *. rewrite E, map_size_empty in *. lia. }
  destruct (evict_spec l Hne He) as (k & b & Hk & -> & _).
  assert (Size (set_buckets (delete k (buckets l)) l) = Size l - 1) as HS.
  { unfold Size. simpl. rewrite map_size_delete, Hk.
    assert (size (buckets l) ≠ 0%nat) by (by eapply map_size_ne_0_lookup_2; eauto). lia. }
  split; [done|]. unfold cache_ok. rewrite HS. simpl. split_and!; [lia|done|].
  rewrite lookup_delete_None. auto.
Qed.

Lemma limiterFor_ok k now (l : keyedRateLimiter B) :
  k ≠ "" → cache_ok l →
  cache_ok (limiterFor range k now l).2 ∧ params_of (limiterFor range k now l).2 = params_of l ∧
  buckets (limiterFor range k now l).2 !! k = Some (mkBucket (limiterFor range k now l).1 now).
Proof using Hrange.
  intros Hk Hok. unfold limiterFor. destruct (buckets l !! k) as [b|] eqn:Eb.
  - destruct Hok as (Hs & Hm & He). cbn [fst snd].
    unfold cache_ok. rewrite Size_insert, Eb. simpl.
    rewrite lookup_insert_ne, lookup_insert_eq by done. done.
  - cbn zeta. set (l1 := if maxKeys l <=? Size l then _ else l).
    assert (cache_ok l1 ∧ Size l1 < maxKeys l1 ∧ params_of l1 = params_of l) as (Hok1 & Hlt & Hp).
    { unfold l1. destruct (_ <=? _) eqn:E; bool_to_prop; [|done].
      destruct (evict_shrinks l Hok E) as [HS Hok1].
      assert (params_of (evictLRULocked range l) = params_of l) as Hp.
      { unfold evictLRULocked. by destruct (foldl _ _ _) as [[k1 ?] ?], (negb (k1 =s "")). }
      split_and!; [done| |done]. injection Hp as _ _ _ ->. destruct Hok. lia. }
    destruct Hok1 as (Hs & Hm & He). cbn [fst snd].
    unfold cache_ok. rewrite Size_insert. simpl.
    rewrite lookup_insert_ne, lookup_insert_eq by done.
    split_and!; try done. destruct (buckets l1 !! k); cbn; lia.
Qed.

Lemma allow_ok k now (l : keyedRateLimiter B) :
  k ≠ "" → cache_ok l →
  cache_ok (allow range k now l).2 ∧ params_of (allow range k now l).2 = params_of l.
Proof using Hrange.
  intros Hk Hok. destruct (limiterFor_ok k now l Hk Hok) as (Hok1 & Hp & Hl).
  unfold allow. destruct (limiterFor range k now l) as [lim l1]. cbn [fst snd] in *.
  destruct (tb_allow now lim) as [ok lim']. cbn [snd].
  destruct Hok1 as (Hs & Hm & He). split; [|done].
  unfold cache_ok. rewrite Size_insert, Hl. simpl. by rewrite lookup_insert_ne.
Qed.

Lemma sweep_lookup now (l : keyedRateLimiter B) k :
  buckets (sweep range now l) !! k =
  match buckets l !! k with
  | Some b => if cb_lastUsed b <? now - idleTTL l then None else Some b
  | None => None
  end.
Proof using Hrange.
  unfold sweep. simpl. set (cutoff := now - idleTTL l). set (m := buckets l).
  assert (∀ L (m0 : gmap string (clientBucket B)), 
    (∀ k b, (k, b) ∈ L → m !! k = Some b) →
    foldl (λ m kb, if cb_lastUsed kb.2 <? cutoff then delete kb.1 m else m) m0 L !! k =
    if existsb (λ kb, (kb.1 =s k) && (cb_lastUsed kb.2 <? cutoff)) L then None else m0 !! k) as HL.
  { clear. induction L as [|[k' b'] L IH]; intros m0 HL; [done|].
    simpl foldl. rewrite IH by (intros ???; apply HL, elem_of_cons; by right). simpl.
    destruct (existsb _ L); [by rewrite orb_true_r|]. rewrite orb_false_r.
    destruct (k' =s k) eqn:Ek; bool_to_prop; simpl.
    - subst. destruct (_ <? _); [by rewrite lookup_delete_eq|done].
    - destruct (_ <? _); [by rewrite lookup_delete_ne|done]. }
  rewrite HL by (intros ??; apply elem_of_range).
  destruct (existsb _ _) eqn:E.
  - apply existsb_exists in E as ([k' b'] & Hin & Hc). simpl in Hc. bool_to_prop. subst.
    apply list_elem_of_In, elem_of_range in Hin. fold m in Hin. rewrite Hin.
    by rewrite (proj2 (Z.ltb_lt _ _)).
  - destruct (m !! k) as [b|] eqn:Em; [|done].
    destruct (_ <? _) eqn:El; [|done].
    assert (existsb (λ kb, (kb.1 =s k) && (cb_lastUsed kb.2 <? cutoff)) (range m) = true); [|congruence].
    apply existsb_exists. exists (k, b). rewrite <- list_elem_of_In. split; [by apply elem_of_range|].
    simpl. by rewrite String.eqb_refl.
Qed.

End CacheTheorems.

(** *** Traces *)

Inductive cache_op := OpAllow (k : string) (now : Z) | OpPeek (k : string) (now : Z)
  | OpPenalize (k : string) (now : Z) | OpSweep (now : Z).

Section Traces.
Context {B : Type} `{TokenBucket B}.
Context (range : gmap string (clientBucket B) → list (string * clientBucket B)).

Definition cache_step (l : keyedRateLimiter B) (op : cache_op) : keyedRateLimiter B :=
  match op with
  | OpAllow k now => (allow range k now l).2
  | OpPeek k now => (peek range k now l).2
  | OpPenalize k now => Penalize range k now l
  | OpSweep now => sweep range now l
  end.

Fixpoint run_with (f : string → Z → keyedRateLimiter B → bool * keyedRateLimiter B)
    (tr : list (string * Z)) (l : keyedRateLimiter B) : list (string * Z * bool) :=
  match tr with
  | [] => []
  | (k, now) :: tr => let '(ok, l) := f k now l in (k, now, ok) :: run_with f tr l
  end.

Definition results_of (k : string) (rs : list (string * Z * bool)) : list bool :=
  omap (λ '(k', _, ok), if k' =s k then Some ok else None) rs.
Definition times_of (k : string) (tr : list (string * Z)) : list Z :=
  omap (λ '(k', t), if k' =s k then Some t else None) tr.

(** The limiter a key would be served with. *)
Definition bucket_at (l : keyedRateLimiter B) (k : string) : B :=
  match buckets l !! k with Some b => cb_limiter b | None => tb_new (rps l) (burst l) end.

(** No eviction can happen while [ks] are served. *)
Definition fits (l : keyedRateLimiter B) (ks : list string) : Prop :=
  Z.of_nat (size (dom (buckets l) ∪ list_to_set ks)) ≤ maxKeys l.

Lemma fits_room l k ks : fits l (k :: ks) → is_Some (buckets l !! k) ∨ Size l < maxKeys l.
Proof.
  unfold fits. intros Hf. destruct (buckets l !! k) eqn:E; [eauto|]. right.
  unfold Size. rewrite <- (size_dom (D:=gset string)).
  assert (size (dom (buckets l)) < size (dom (buckets l) ∪ list_to_set (k :: ks)))%nat; [|lia].
  apply subset_size. apply not_elem_of_dom in E. set_solver.
Qed.

Lemma limiterFor_room l k now :
  is_Some (buckets l !! k) ∨ Size l < maxKeys l →
  limiterFor range k now l =
    (bucket_at l k, set_buckets (<[k := mkBucket (bucket_at l k) now]> (buckets l)) l).
Proof.
  unfold limiterFor, bucket_at. intros Hr. destruct (buckets l !! k) as [b|] eqn:E; [done|].
  destruct Hr as [[? ?]|Hr]; [done|].
  by destruct (_ <=? _) eqn:E2; bool_to_prop; [lia|].
Qed.

Lemma allow_room l k now :
  is_Some (buckets l !! k) ∨ Size l < maxKeys l →
  allow range k now l = ((tb_allow now (bucket_at l k)).1,
    set_buckets (<[k := mkBucket (tb_allow now (bucket_at l k)).2 now]> (buckets l)) l).
Proof.
  intros Hr. unfold allow. rewrite limiterFor_room by done.
  destruct (tb_allow now _) as [ok b]. unfold set_buckets. simpl. by rewrite insert_insert_eq.
Qed.

Lemma bucket_at_insert l k k' b now :
  bucket_at (set_buckets (<[k := mkBucket b now]> (buckets l)) l) k' =
  if k =s k' then b else bucket_at l k'.
Proof.
  unfold bucket_at. simpl. destruct (k =s k') eqn:E; bool_to_prop.
  - subst. by rewrite lookup_insert_eq.
  - by rewrite lookup_insert_ne.
Qed.

Lemma fits_insert l k b ks :
  fits l (k :: ks) → fits (set_buckets (<[k := b]> (buckets l)) l) ks.
Proof.
  unfold fits. simpl. intros Hf.
  replace (dom (<[k:=b]> (buckets l)) ∪ list_to_set ks)
    with (dom (buckets l) ∪ ({[k]} ∪ list_to_set ks)); [done|].
  rewrite dom_insert_L. set_solver.
Qed.

(** Each key sees only its own bucket. [f] is a limiter operation whose
    effect in a roomy cache is [g] on the key's bucket. *)
Lemma run_isolated (f : string → Z → keyedRateLimiter B → bool * keyedRateLimiter B)
    (g : Z → B → bool * B) (run : B → list Z → list bool) (P : string → Prop) tr l k :
  (∀ b, run b [] = []) →
  (∀ b t ts, run b (t :: ts) = (g t b).1 :: run (g t b).2 ts) →
  (∀ l k now, P k → is_Some (buckets l !! k) ∨ Size l < maxKeys l →
    f k now l = ((g now (bucket_at l k)).1,
      set_buckets (<[k := mkBucket (g now (bucket_at l k)).2 now]> (buckets l)) l)) →
  Forall P tr.*1 → fits l tr.*1 →
  results_of k (run_with f tr l) = run (bucket_at l k) (times_of k tr).
Proof.
  intros Hnil Hcons Hf. revert l. induction tr as [|[k' t] tr IH]; intros l HP Hfit; [by rewrite Hnil|].
  simpl in HP, Hfit. apply Forall_cons in HP as [HP HPs].
  simpl run_with. rewrite Hf by (try done; by eapply fits_room).
  simpl results_of. simpl times_of. specialize (IH _ HPs (fits_insert _ _ (mkBucket (g t (bucket_at l k')).2 t) _ Hfit)).
  unfold results_of, times_of in *. simpl in *. rewrite bucket_at_insert in IH.
  destruct (k' =s k) eqn:E; bool_to_prop; [subst; rewrite Hcons; by f_equal|done].
Qed.
End Traces.

(** *** Rate bounds *)

Section Bounds.
Context {B : Type} `{TokenBucketLaws B}.

Lemma StronglySorted_sublist (l k : list Z) :
  l `sublist_of` k → StronglySorted Z.le k → StronglySorted Z.le l.
Proof.
  induction 1 as [|x l k Hs IH|x l k Hs IH]; [done| |].
  - intros [? Hx]%StronglySorted_inv. constructor; [auto|].
    rewrite Forall_forall in *. intros y Hy. apply Hx. by eapply elem_of_sublist.
  - intros [? _]%StronglySorted_inv. auto.
Qed.

Lemma elapsed_window t0 w ts :
  0 ≤ w → Forall (λ t, t0 ≤ t ≤ t0 + w) ts → elapsed ts ≤ w.
Proof.
  intros Hw Hall. unfold elapsed. rewrite Forall_forall in Hall.
  destruct ts as [|t ts]; [simpl; lia|].
  destruct (last (t :: ts)) as [u|] eqn:Eu; simpl.
  - apply last_Some_elem_of in Eu. apply Hall in Eu.
    pose proof (Hall t ltac:(apply elem_of_cons; auto)). lia.
  - by apply last_None in Eu.
Qed.

Lemma run_bucket_window rps burst ts t0 w :
  0 ≤ rps → 0 ≤ burst → 0 ≤ w → StronglySorted Z.le ts →
  Forall (λ t, t0 ≤ t ≤ t0 + w) ts →
  count_true (run_bucket (tb_new rps burst) ts) * token ≤ burst * token + rps * w.
Proof using All.
  intros Hr Hb Hw Hs Hall.
  assert (count_true (run_bucket (tb_new rps burst) ts) * token ≤ burst * token + rps * elapsed ts)
    by exact (tb_rate rps burst [] ts Hr Hb Hs).
  pose proof (elapsed_window t0 w ts Hw Hall). nia.
Qed.

Lemma times_of_elem k tr t : t ∈ times_of k tr → (k, t) ∈ tr.
Proof.
  unfold times_of. rewrite list_elem_of_omap. intros ([k' t'] & Hin & Hk).
  destruct (k' =s k) eqn:E; bool_to_prop; by simplify_eq.
Qed.

Lemma times_of_sorted k (tr : list (string * Z)) :
  StronglySorted Z.le tr.*2 → StronglySorted Z.le (times_of k tr).
Proof.
  apply StronglySorted_sublist. unfold times_of.
  induction tr as [|[k' t] tr IH]; simpl; [constructor|].
  destruct (k' =s k); by constructor.
Qed.
End Bounds.

(** Memory bound. From a limiter with an empty map, whatever sequence of
    allows, pre-checks, penalties and janitor ticks is applied to non-empty
    keys, the number of retained buckets never exceeds maxKeys: inserting into
    a full map first evicts. *)
Theorem cache_size_bound {B} `{TokenBucket B} range l ops
    (Hrange : ∀ m, range m ≡ₚ map_to_list m) (Hmax : 1 ≤ maxKeys l)
    (Hempty : buckets l = ∅)
    (Hkeys : ∀ k now, OpAllow k now ∈ ops → k ≠ "") :
  Size (foldl (cache_step range) l ops) ≤ maxKeys (foldl (cache_step range) l ops) ∧
  maxKeys (foldl (cache_step range) l ops) = maxKeys l.
Proof.
  assert (cache_ok l) as Hok.
  { unfold cache_ok, Size. rewrite Hempty, map_size_empty, lookup_empty. split_and!; [simpl; lia|done|done]. }
  assert (cache_ok (foldl (cache_step range) l ops) ∧
    params_of (foldl (cache_step range) l ops) = params_of l) as [(? & _) [= _ _ _ ?]]; [|done].
  clear Hempty Hmax. revert l Hok. induction ops as [|op ops IH]; intros l Hok; [done|].
  simpl. assert (cache_ok (cache_step range l op) ∧ params_of (cache_step range l op) = params_of l)
    as [Hok' <-];
    [|apply IH; [intros k now Hin; apply (Hkeys k now), elem_of_cons; by right|done]].
  destruct op as [k now|k now|k now|now]; simpl.
  - apply allow_ok; [done| |done]. apply (Hkeys k now). apply elem_of_cons; by left.
  - unfold peek. destruct (k =s "") eqn:E; [done|]. bool_to_prop.
    destruct (limiterFor_ok range Hrange k now l E Hok) as (? & ? & _).
    by destruct (limiterFor range k now l).
  - unfold Penalize. destruct (k =s "") eqn:E; [done|]. bool_to_prop. by apply allow_ok.
  - split; [|done]. destruct Hok as (Hs & Hm & He). unfold cache_ok.
    rewrite (sweep_lookup range Hrange), He. split_and!; [|done..].
    assert (buckets (sweep range now l) ⊆ buckets l) as Hsub.
    { apply map_subseteq_spec. intros k b. rewrite (sweep_lookup range Hrange).
      destruct (buckets l !! k); [destruct (_ <? _)|]; congruence. }
    apply map_subseteq_size in Hsub. unfold Size in *.
    change (maxKeys (sweep range now l)) with (maxKeys l). lia.
Qed.

Lemma cache_size_bound_witness :
  Size (foldl (cache_step (B:=ExactBucket) map_to_list) (mkKeyed ∅ 1 1 1000 2)
    [OpAllow "a" 1; OpAllow "b" 2; OpAllow "c" 3; OpPeek "d" 4; OpSweep 5]) ≤ 2.
Proof.
  refine (proj1 (cache_size_bound map_to_list (mkKeyed ∅ 1 1 1000 2)
    [OpAllow "a" 1; OpAllow "b" 2; OpAllow "c" 3; OpPeek "d" 4; OpSweep 5]
    (λ _, reflexivity _) _ eq_refl _)).
  - simpl. lia.
  - intros k now Hin. repeat (apply elem_of_cons in Hin as [[= -> ->]|Hin]; [done|]; try discriminate).
    all: repeat (apply elem_of_cons in Hin as [?|Hin]; [done|]). by apply not_elem_of_nil in Hin.
Defined.

(** Eviction policy. A janitor tick drops exactly the buckets idle for
    longer than the TTL; serving a new key in a full map drops exactly one
    other bucket, a least recently used one, and serving any key in a map with
    room drops none. *)
Theorem eviction_policy {B} `{TokenBucket B} range (l : keyedRateLimiter B)
    (Hrange : ∀ m, range m ≡ₚ map_to_list m) (Hnoempty : buckets l !! "" = None) :
  (∀ now k b, buckets (sweep range now l) !! k = Some b ↔
     buckets l !! k = Some b ∧ now - idleTTL l ≤ cb_lastUsed b) ∧
  (∀ key now, buckets l !! key = None → 1 ≤ maxKeys l ≤ Size l →
     ∃ victim b, buckets l !! victim = Some b ∧
       (∀ k' b', buckets l !! k' = Some b' → cb_lastUsed b ≤ cb_lastUsed b') ∧
       buckets (limiterFor range key now l).2 =
         <[key := mkBucket (tb_new (rps l) (burst l)) now]> (delete victim (buckets l))) ∧
  (∀ key now, is_Some (buckets l !! key) ∨ Size l < maxKeys l →
     dom (buckets (limiterFor range key now l).2) = {[key]} ∪ dom (buckets l)).
Proof.
  split_and!.
  - intros now k b. rewrite (sweep_lookup range Hrange).
    destruct (buckets l !! k) as [b'|]; [|naive_solver].
    destruct (_ <? _) eqn:E; bool_to_prop; [|naive_solver].
    split; [done|]. intros [[= ->] ?]. lia.
  - intros key now Hnone [Hm Hfull].
    destruct (evict_spec range Hrange l) as (k & b & Hk & He & Hmin); [|done|].
    { intros E. unfold Size in Hfull. rewrite E, map_size_empty in Hfull. lia. }
    exists k, b. split_and!; [done|done|].
    unfold limiterFor. rewrite Hnone.
    rewrite (proj2 (Z.leb_le _ _)) by done. by rewrite He.
  - intros key now Hroom. rewrite limiterFor_room by done. simpl. by rewrite dom_insert_L.
Qed.

Lemma eviction_policy_witness :
  ∃ victim b, buckets (mkKeyed {["a" := mkBucket (mkExact 1 1 0 None) 5]} 1 1 1000 1) !! victim = Some b ∧
    buckets (limiterFor (B:=ExactBucket) map_to_list "z" 9
      (mkKeyed {["a" := mkBucket (mkExact 1 1 0 None) 5]} 1 1 1000 1)).2 =
    <["z" := mkBucket (tb_new 1 1) 9]> (delete victim {["a" := mkBucket (mkExact 1 1 0 None) 5]}).
Proof.
  destruct (eviction_policy (B:=ExactBucket) map_to_list
    (mkKeyed {["a" := mkBucket (mkExact 1 1 0 None) 5]} 1 1 1000 1)
    (λ _, reflexivity _) ltac:(by apply lookup_singleton_ne)) as (_ & H & _).
  destruct (H "z" 9 ltac:(by apply lookup_singleton_ne)) as (victim & b & Hv & _ & Hb); [vm_compute; split; discriminate|].
  exists victim, b. split; [exact Hv|exact Hb].
Defined.

(** Isolation, as a refinement. While no eviction is needed, the limiter
    implements one independent token bucket per key: whatever the
    interleaving of keys, the answers a key gets are those of its own bucket
    run on its own request times. *)
Theorem allow_isolation {B} `{TokenBucket B} range (l : keyedRateLimiter B) tr
    (Hfits : fits l tr.*1) :
  ∀ k, results_of k (run_with (allow range) tr l) = run_bucket (bucket_at l k) (times_of k tr).
Proof.
  intros k. apply (run_isolated (allow range) tb_allow run_bucket (λ _, True)); auto.
  - intros b t ts. simpl. by destruct (tb_allow t b).
  - intros l' k' now _. apply allow_room.
  - by apply Forall_true.
Qed.

Lemma allow_isolation_witness :
  results_of "a" (run_with (allow (B:=ExactBucket) map_to_list)
    [("a", 0); ("b", 0); ("b", 1); ("a", 1)] (newKeyedRateLimiter 1 1)) = [true; false].
Proof.
  rewrite (allow_isolation (B:=ExactBucket) map_to_list (newKeyedRateLimiter 1 1)
    [("a", 0); ("b", 0); ("b", 1); ("a", 1)]); [vm_compute; reflexivity|].
  vm_compute. discriminate.
Defined.

(** Throughput bound. Starting from a new limiter and while no eviction is
    needed, the requests of one key admitted within a window of width [w] are
    at most burst plus rate times [w], however requests of other keys are
    interleaved. *)
Theorem allow_rate_bound {B} `{TokenBucketLaws B} range rps burst tr k t0 w
    (Hrps : 0 ≤ rps) (Hburst : 0 ≤ burst) (Hw : 0 ≤ w)
    (Hsorted : StronglySorted Z.le tr.*2)
    (Hwin : Forall (λ t, t0 ≤ t ≤ t0 + w) tr.*2)
    (Hfits : fits (newKeyedRateLimiter (B:=B) rps burst) tr.*1) :
  count_true (results_of k (run_with (allow range) tr (newKeyedRateLimiter (B:=B) rps burst))) * token
    ≤ burst * token + rps * w.
Proof.
  rewrite (run_isolated (allow range) tb_allow run_bucket (λ _, True)); auto.
  - apply (run_bucket_window rps burst _ t0 w); auto; [by apply times_of_sorted|].
    rewrite Forall_forall in *. intros t Ht%times_of_elem. apply Hwin.
    apply list_elem_of_fmap. by exists (k, t).
  - intros b t ts. simpl. by destruct (tb_allow t b).
  - intros l' k' now _. apply allow_room.
  - by apply Forall_true.
Qed.

Lemma allow_rate_bound_witness :
  count_true (results_of "a" (run_with (allow (B:=ExactBucket) map_to_list)
    [("a", 0); ("b", 0); ("a", 1); ("a", 2)] (newKeyedRateLimiter 1 2))) * token ≤ 2 * token + 1 * 2.
Proof.
  apply (allow_rate_bound map_to_list 1 2 [("a", 0); ("b", 0); ("a", 1); ("a", 2)] "a" 0 2);
    [lia|lia|lia|simpl; repeat constructor; lia|simpl; repeat constructor; lia|].
  vm_compute. discriminate.
Defined.

(** Which limiter owns a request. The anonymous limiter charges requests
    without claims to their address and never touches a request with claims;
    the per-client limiter charges requests with a non-empty client id to it
    and never touches the others. An over-limit request is answered 429 and
    the next handler does not run. A request with claims whose client id is
    empty (a validated JWT without a subject) is charged by neither: it is
    not rate limited at all. *)
Theorem limiter_ownership {B} `{TokenBucket B} {St} range
    (geta : St → AnonReadRateLimiter B) (getc : St → ClientRateLimiter B)
    (puta putc : keyedRateLimiter B → St → St) (next : handler St) r st :
  let anon := AnonMiddleware range geta puta next r st in
  let client := ClientMiddleware range getc putc next r st in
  (rq_claims r = None →
     client = next r st ∧
     let l := geta st in
     let '(ok, k) := allow range (clientIP r (ar_trustProxy l) (ar_hops l)) (rq_now r) (ar_inner l) in
     anon = if ok then next r (puta k st) else (writeRateLimited, puta k st)) ∧
  (∀ c, rq_claims r = Some c →
     anon = next r st ∧
     (ClientID c ≠ "" →
        let '(ok, k) := allow range (ClientID c) (rq_now r) (getc st) in
        client = if ok then next r (putc k st) else (writeRateLimited, putc k st)) ∧
     (ClientID c = "" → client = next r st)).
Proof.
  cbv zeta. unfold AnonMiddleware, ClientMiddleware, ClaimsFromContext. split.
  - intros ->. split; [done|]. by destruct (allow range _ _ _) as [[] k].
  - intros c ->. simpl. split_and!; [done| |by intros ->].
    intros Hc%String.eqb_neq. rewrite Hc. by destruct (allow range _ _ _) as [[] k].
Qed.

Lemma limiter_ownership_witness :
  let r := mkRequest "POST" "/" "203.0.113.9:1" ∅ "" false (Some (mkClaims "" ["writer"])) 0 in
  let next := λ (_ : request) (st : Z), (http_error 200 "served", st) in
  ClientMiddleware (B:=ExactBucket) map_to_list (λ _, NewClientRateLimiter 1 0) (λ _ st, st + 1) next r 0
    = next r 0.
Proof.
  intros r next.
  destruct (limiter_ownership (B:=ExactBucket) map_to_list (λ _ : Z, NewAnonReadRateLimiter 1 0 true 1)
    (λ _, NewClientRateLimiter 1 0) (λ _ st, st + 1) (λ _ st, st + 1) next r 0) as [_ H].
  destruct (H (mkClaims "" ["writer"]) eq_refl) as (_ & _ & H'). exact (H' eq_refl).
Defined.
