(* ===== verification/BruteForce.v ===== *)
(** What the failure limiter (internal/mcp/failrate.go) grants an attacker: how many
    failing attempts of one source reach the credential check in a window, with
    requests overlapping, after any history, and under the janitor.

    The pre-check of Wrap and the Penalize of the authentication are two steps of a
    request; nothing is reserved between them, so every request that is in flight at
    once may pass on one token. *)

From S2P Require Import Prelude Http Ingress RateLimit.

(** ** Steps of overlapping requests *)

(** The pre-check of a request whose authentication will fail or will not; the
    penalty of one that failed; a janitor tick. *)
Inductive fail_op :=
  | FCheck (ip : string) (now : Z) (failing : bool)
  | FPenalize (ip : string) (now : Z)
  | FSweep (now : Z).

Definition op_time (op : fail_op) : Z := match op with FCheck _ t _ | FPenalize _ t | FSweep t => t end.
Definition op_source (op : fail_op) : option string :=
  match op with FCheck ip _ _ | FPenalize ip _ => Some ip | FSweep _ => None end.

Section Steps.
Context {B : Type} `{TokenBucket B}.
Context (range : gmap string (clientBucket B) → list (string * clientBucket B)).

Definition fail_step (l : keyedRateLimiter B) (op : fail_op) : keyedRateLimiter B :=
  match op with
  | FCheck ip now _ => (peek range ip now l).2
  | FPenalize ip now => Penalize range ip now l
  | FSweep now => sweep range now l
  end.

Definition fail_steps (l : keyedRateLimiter B) (ops : list fail_op) : keyedRateLimiter B := foldl fail_step l ops.

(** The failing attempts of [ip] that pass the pre-check. *)
Definition passes (ip : string) (l : keyedRateLimiter B) (op : fail_op) : bool :=
  match op with FCheck ip' now failing => (ip' =s ip) && failing && (peek range ip' now l).1 | _ => false end.
Fixpoint passed (ip : string) (l : keyedRateLimiter B) (ops : list fail_op) : Z :=
  match ops with
  | [] => 0
  | op :: ops => (if passes ip l op then 1 else 0) + passed ip (fail_step l op) ops
  end.

(** Of [ip], at most [width] failing requests are between their two steps at once,
    of which [n] are now; each is penalised once. *)
Fixpoint overlaps (ip : string) (width n : Z) (l : keyedRateLimiter B) (ops : list fail_op) : bool :=
  match ops with
  | [] => true
  | op :: ops =>
      let l' := fail_step l op in
      if passes ip l op then (n <? width) && overlaps ip width (n + 1) l' ops
      else match op with
           | FPenalize ip' _ => if ip' =s ip then (0 <? n) && overlaps ip width (n - 1) l' ops else overlaps ip width n l' ops
           | _ => overlaps ip width n l' ops
           end
  end.

(** They are what the middleware and the authentication do to the limiter. *)
Lemma fail_steps_are_requests {St} (get : St → IPFailRateLimiter B) (put : IPFailRateLimiter B → St → St)
    (next : handler St) r st failing :
  let ip := IPFromRequest (get st) r in
  let after op := put (set_ips (fail_step (if_ips (get st)) op) (get st)) st in
  penalize_request range get put r st = after (FPenalize ip (rq_now r)) ∧
  if (peek range ip (rq_now r) (if_ips (get st))).1
  then Wrap range get put next r st = next r (after (FCheck ip (rq_now r) failing))
  else rs_status (Wrap range get put next r st).1 = StatusTooManyRequests ∧
       (Wrap range get put next r st).2 = after (FCheck ip (rq_now r) failing).
Proof using Type. cbv zeta. split; [done|]. unfold Wrap. cbn [fail_step]. by destruct (peek _ _ _ _) as [[] k]. Qed.
End Steps.

(** ** One source's bucket *)

Section Bucket.
Context {B : Type} `{TokenBucketLaws B}.
Context (range : gmap string (clientBucket B) → list (string * clientBucket B)).
Context (Hrange : ∀ m, range m ≡ₚ map_to_list m).

Lemma run_bucket_snoc (b : B) ts t : run_bucket b (ts ++ [t]) = run_bucket b ts ++ [(tb_allow t (spent b ts)).1].
Proof using Type.
  revert b. induction ts as [|u ts IH]; intros b; cbn [app run_bucket].
  { unfold spent. cbn. by destruct (tb_allow t b). }
  unfold spent in *. cbn [foldl]. destruct (tb_allow u b) as [ok b'] eqn:E. cbn [snd]. by rewrite IH.
Qed.

Lemma count_true_snoc l b : count_true (l ++ [b]) = count_true l + if b then 1 else 0.
Proof using Type. induction l as [|x l IH]; cbn [app count_true]; lia. Qed.

(** Eviction and insertion for other keys leave a bucket, or remove it. *)
Lemma evict_lookup (l : keyedRateLimiter B) k :
  buckets (evictLRULocked range l) !! k = buckets l !! k ∨ buckets (evictLRULocked range l) !! k = None.
Proof using Type.
  unfold evictLRULocked. destruct (foldl _ _ _) as [[victim ?] ?]. destruct (negb _); [|by left]. cbn.
  destruct (decide (victim = k)) as [->|]; [right; by rewrite lookup_delete_eq|left; by rewrite lookup_delete_ne].
Qed.

Lemma limiterFor_lookup (l : keyedRateLimiter B) k now k' :
  let x := limiterFor range k now l in
  params_of x.2 = params_of l ∧ x.1 = bucket_at l k ∧
  (if k =s k' then buckets x.2 !! k' = Some (mkBucket (bucket_at l k) now)
   else buckets x.2 !! k' = buckets l !! k' ∨ buckets x.2 !! k' = None).
Proof using Type.
  intros x. subst x. unfold limiterFor, bucket_at.
  assert (∀ (l1 : keyedRateLimiter B) b, (if k =s k' then buckets (set_buckets (<[k:=b]> (buckets l1)) l1) !! k' = Some b
     else buckets (set_buckets (<[k:=b]> (buckets l1)) l1) !! k' = buckets l1 !! k')) as Hins.
  { intros l1 b. cbn. destruct (k =s k') eqn:E; bool_to_prop; [subst; by rewrite lookup_insert_eq|by rewrite lookup_insert_ne]. }
  destruct (buckets l !! k) as [b|] eqn:Eb; cbv zeta; cbn [fst snd].
  { specialize (Hins l (mkBucket (cb_limiter b) now)). destruct (k =s k'); auto. }
  assert (params_of (if maxKeys l <=? Size l then evictLRULocked range l else l) = params_of l) as Hp.
  { destruct (_ <=? _); [|done]. unfold evictLRULocked. by destruct (foldl _ _ _) as [[k1 ?] ?], (negb (k1 =s "")). }
  injection Hp as E1 E2 E3 E4. rewrite E1, E2.
  set (l1 := if maxKeys l <=? Size l then _ else l) in *.
  specialize (Hins l1 (mkBucket (tb_new (rps l) (burst l)) now)).
  split; [unfold params_of; cbn; congruence|]. split; [done|].
  destruct (k =s k'); [exact Hins|]. rewrite Hins. unfold l1. destruct (_ <=? _); [apply evict_lookup|by left].
Qed.

(** The step of a source on its own bucket: what it becomes. *)
Definition own_step (op : fail_op) (b : B) : B :=
  match op with FPenalize _ now => (tb_allow now b).2 | _ => b end.

Lemma fail_step_lookup (l : keyedRateLimiter B) op ip : ip ≠ "" →
  params_of (fail_step range l op) = params_of l ∧
  match op with
  | FCheck ip' now _ | FPenalize ip' now =>
      if ip' =s ip then buckets (fail_step range l op) !! ip = Some (mkBucket (own_step op (bucket_at l ip)) now)
      else buckets (fail_step range l op) !! ip = buckets l !! ip ∨ buckets (fail_step range l op) !! ip = None
  | FSweep now =>
      buckets (fail_step range l op) !! ip =
        match buckets l !! ip with
        | Some b => if cb_lastUsed b <? now - idleTTL l then None else Some b
        | None => None
        end
  end.
Proof using Hrange.
  intros Hip. destruct op as [ip' now f|ip' now|now]; cbn [fail_step own_step].
  - unfold peek. destruct (ip' =s "") eqn:E.
    { split; [done|]. destruct (ip' =s ip) eqn:E2; bool_to_prop; [congruence|by left]. }
    pose proof (limiterFor_lookup l ip' now ip) as (Hp & _ & Hl). destruct (limiterFor _ _ _ _) as [lim l1]. cbn [fst snd] in *.
    split; [done|]. destruct (ip' =s ip) eqn:E2; bool_to_prop; [by subst|done].
  - unfold Penalize. destruct (ip' =s "") eqn:E.
    { split; [done|]. destruct (ip' =s ip) eqn:E2; bool_to_prop; [congruence|by left]. }
    pose proof (limiterFor_lookup l ip' now ip) as (Hp & Hb & Hl). unfold allow.
    destruct (limiterFor _ _ _ _) as [lim l1]. cbn [fst snd] in *. subst lim.
    destruct (tb_allow now (bucket_at l ip')) as [ok b'] eqn:Ea. cbn [snd]. split; [done|].
    destruct (ip' =s ip) eqn:E2; bool_to_prop; cbn.
    + subst. rewrite lookup_insert_eq. by rewrite Ea.
    + by rewrite lookup_insert_ne.
  - split; [done|]. by apply sweep_lookup.
Qed.

(** ** After any history *)

Context (ip : string) (Hip : ip ≠ "") (r b0 : Z) (Hr : 0 ≤ r) (Hb0 : 0 ≤ b0).

(** The source's bucket, if it has one, is a new one after requests until [T]. *)
Definition aged (T : Z) (l : keyedRateLimiter B) : Prop :=
  rps l = r ∧ burst l = b0 ∧ idleTTL l = DefaultFailLimiterIdleTTL ∧
  ∃ ts, bucket_at l ip = spent (tb_new r b0) ts ∧ StronglySorted Z.le (ts ++ [T]).

Lemma sorted_snoc (ts : list Z) T T' : StronglySorted Z.le (ts ++ [T]) → T ≤ T' → StronglySorted Z.le (ts ++ [T; T']).
Proof using Type.
  intros Hs Hle. change [T; T'] with ([T] ++ [T']). rewrite (assoc_L (++)).
  apply StronglySorted_app. split_and!; [|done|repeat constructor].
  intros x y Hx Hy%list_elem_of_singleton. subst y. apply elem_of_app in Hx as [Hx|Hx%list_elem_of_singleton]; [|by subst].
  apply StronglySorted_app in Hs as (Hs & _). specialize (Hs x T Hx ltac:(by left)). lia.
Qed.

Lemma sorted_later (ts : list Z) T T' : StronglySorted Z.le (ts ++ [T]) → T ≤ T' → StronglySorted Z.le (ts ++ [T']).
Proof using Type.
  intros Hs Hle. apply StronglySorted_app in Hs as (Hx & Hts & _). apply StronglySorted_app.
  split_and!; [|done|repeat constructor]. intros x y Hin Hy%list_elem_of_singleton. subst y.
  specialize (Hx x T Hin ltac:(by left)). lia.
Qed.

Lemma aged_step T l op : T ≤ op_time op → aged T l → aged (op_time op) (fail_step range l op).
Proof using Hrange Hip.
  intros HT (E1 & E2 & E3 & ts & Hb & Hs). destruct (fail_step_lookup l op ip Hip) as [Hp Hl]. injection Hp as P1 P2 P3 P4.
  split_and!; [congruence..|]. unfold bucket_at at 1. rewrite P1, P2, E1, E2.
  assert (∃ ts, bucket_at l ip = spent (tb_new r b0) ts ∧ StronglySorted Z.le (ts ++ [op_time op])) as Hold
    by (exists ts; split; [done|by eapply sorted_later]).
  assert (∃ ts, tb_new r b0 = spent (tb_new r b0) ts ∧ StronglySorted Z.le (ts ++ [op_time op])) as Hnew
    by (exists []; split; [done|repeat constructor]).
  assert (∀ o, o = buckets l !! ip ∨ o = None →
    ∃ ts, match o with Some b => cb_limiter b | None => tb_new r b0 end = spent (tb_new r b0) ts ∧
      StronglySorted Z.le (ts ++ [op_time op])) as Hsame.
  { intros o [->| ->]; [|done]. destruct Hold as (us & Hu & Hus). exists us. split; [|done].
    rewrite <-Hu. unfold bucket_at. destruct (buckets l !! ip); [done|]. by rewrite E1, E2. }
  destruct op as [ip' now f|ip' now|now]; cbn [op_time own_step] in *.
  - destruct (ip' =s ip); [rewrite Hl; exact Hold|by apply Hsame].
  - destruct (ip' =s ip); [|by apply Hsame]. rewrite Hl. cbn [cb_limiter]. exists (ts ++ [now]). split.
    + rewrite Hb. unfold spent. by rewrite foldl_app.
    + rewrite <-(assoc_L (++)). change ([now] ++ [now]) with [now; now]. apply sorted_snoc; [by eapply sorted_later|lia].
  - rewrite Hl. apply Hsame. destruct (buckets l !! ip) as [b|]; [|by left]. destruct (_ <? _); [by right|by left].
Qed.

Lemma aged_steps T l ops : StronglySorted Z.le (T :: (op_time <$> ops)) → aged T l →
  ∃ T', aged T' (fail_steps range l ops) ∧ (T' = T ∨ T' ∈ op_time <$> ops).
Proof using Hrange Hip.
  revert T l. induction ops as [|op ops IH]; intros T l Hs Ha; [exists T; by auto|].
  cbn [fmap list_fmap] in Hs. apply StronglySorted_inv in Hs as [Hs Hle]. apply Forall_cons in Hle as [Hle _].
  destruct (IH _ _ Hs (aged_step _ _ _ Hle Ha)) as (T' & HT & Hin). exists T'. split; [exact HT|].
  right. cbn [fmap list_fmap]. rewrite elem_of_cons. by destruct Hin as [->|]; auto.
Qed.

(** ** In a window, without eviction *)

Definition sources (ops : list fail_op) : list string := omap op_source ops.

Lemma fits_tail (l : keyedRateLimiter B) k ks : fits l (k :: ks) → fits l ks.
Proof using Type.
  unfold fits. intros Hf. assert (size (dom (buckets l) ∪ list_to_set ks) ≤ size (dom (buckets l) ∪ list_to_set (k :: ks)))%nat;
    [|lia]. clear -Hf. apply subseteq_size. set_solver.
Qed.

(** A step of a source that has room touches no other bucket. *)
Lemma roomy_step (l : keyedRateLimiter B) op ops : fits l (sources (op :: ops)) →
  fits (fail_step range l op) (sources ops) ∧
  (∀ k, op_source op = Some k → k ≠ ip → buckets (fail_step range l op) !! ip = buckets l !! ip).
Proof using All.
  unfold sources. cbn [omap list_omap]. destruct op as [k now f|k now|now]; cbn [op_source fail_step]; intros Hf.
  - unfold peek. destruct (k =s "") eqn:E; [split; [by apply (fits_tail l k)|done]|].
    rewrite limiterFor_room by (by eapply fits_room). cbn [snd]. split; [by apply fits_insert|].
    intros k' [= <-] Hne. cbn. by rewrite lookup_insert_ne.
  - unfold Penalize. destruct (k =s "") eqn:E; [split; [by apply (fits_tail l k)|done]|].
    rewrite allow_room by (by eapply fits_room). cbn [snd]. split; [by apply fits_insert|].
    intros k' [= <-] Hne. cbn. by rewrite lookup_insert_ne.
  - split; [|done]. unfold fits in *. change (maxKeys (sweep range now l)) with (maxKeys l).
    assert (dom (buckets (sweep range now l)) ⊆ dom (buckets l)) as Hsub.
    { intros k. rewrite !elem_of_dom, (sweep_lookup range Hrange). destruct (buckets l !! k); [eauto|done]. }
    assert (size (dom (buckets (sweep range now l)) ∪ list_to_set (omap op_source ops)) ≤
      size (dom (buckets l) ∪ list_to_set (omap op_source ops)))%nat; [|lia]. apply subseteq_size. set_solver.
Qed.

Context (t0 w width : Z) (Hw : 0 ≤ w ≤ DefaultFailLimiterIdleTTL) (Hwidth : 1 ≤ width).

(** [p] attempts have passed since [t0], [n] are in flight: each token taken in the
    window ([ps] are the penalties) covers [width] of them, and the [fresh] others,
    still in flight, passed on a token nobody has taken. *)
Definition covered (T n p : Z) (l : keyedRateLimiter B) : Prop :=
  rps l = r ∧ burst l = b0 ∧ idleTTL l = DefaultFailLimiterIdleTTL ∧ ∃ before ps fresh,
    bucket_at l ip = spent (tb_new r b0) (before ++ ps) ∧ StronglySorted Z.le ((before ++ ps) ++ [T]) ∧
    Forall (λ t, t0 ≤ t) ps ∧
    p ≤ width * count_true (run_bucket (spent (tb_new r b0) before) ps) + fresh ∧ 0 ≤ fresh ≤ n ∧ n ≤ width ∧
    (0 < fresh → tb_has_token T (bucket_at l ip) = true) ∧
    (ps ≠ [] ∨ 0 < fresh → ∃ cb, buckets l !! ip = Some cb ∧ t0 ≤ cb_lastUsed cb).

Lemma covered_start T n l : aged T l → 0 ≤ n ≤ width → covered T n 0 l.
Proof using Type.
  intros (E1 & E2 & E3 & ts & Hb & Hs) Hn. split_and!; [done..|]. exists ts, [], 0. rewrite app_nil_r.
  cbn [run_bucket count_true].
  split_and!; try done; try lia; try constructor. by intros [?|?]; [|lia].
Qed.

Lemma covered_later T T' n p l : T ≤ T' → covered T n p l → covered T' n p l.
Proof using All.
  intros HT (E1 & E2 & E3 & before & ps & fresh & Hb & Hs & Hps & Hp & Hf & Hn & Htok & Hused).
  split_and!; [done..|]. exists before, ps, fresh. split_and!; try done; try lia; [by eapply sorted_later|].
  intros Hfresh. rewrite Hb in *. eapply tb_has_later; [done|exact HT|]. by apply Htok.
Qed.

(** Nothing happened to the bucket. *)
Lemma covered_same T n p l l' : params_of l' = params_of l → buckets l' !! ip = buckets l !! ip →
  covered T n p l → covered T n p l'.
Proof using Type.
  intros Hpar Hl (E1 & E2 & E3 & before & ps & fresh & Hb & Hrest). injection Hpar as P1 P2 P3 P4.
  assert (bucket_at l' ip = bucket_at l ip) as Hbk by (unfold bucket_at; by rewrite Hl, P1, P2).
  split_and!; [congruence..|]. exists before, ps, fresh. by rewrite Hbk, Hl.
Qed.

(** The source's own pre-check, which passes or not, and its penalty. *)
Lemma covered_check T n p l l' : t0 ≤ T → params_of l' = params_of l →
  buckets l' !! ip = Some (mkBucket (bucket_at l ip) T) → covered T n p l →
  covered T n p l' ∧ (tb_has_token T (bucket_at l ip) = true → n < width → covered T (n + 1) (p + 1) l').
Proof using Type.
  intros HT Hpar Hl (E1 & E2 & E3 & before & ps & fresh & Hb & Hs & Hps & Hp & Hf & Hn & Htok & Hused).
  injection Hpar as P1 P2 P3 P4.
  assert (bucket_at l' ip = bucket_at l ip) as Hbk by (unfold bucket_at at 1; by rewrite Hl).
  assert (∃ cb, buckets l' !! ip = Some cb ∧ t0 ≤ cb_lastUsed cb) as Hnow by (eexists; split; [exact Hl|done]).
  split; [|intros Hpass Hlt]; (split_and!; [congruence..|]); rewrite Hbk.
  - exists before, ps, fresh. repeat (split; [done || lia|]). by intros _.
  - exists before, ps, (fresh + 1). repeat (split; [done || lia|]). by intros _.
Qed.

Lemma covered_penalty T n p l l' : t0 ≤ T → 0 < n → params_of l' = params_of l →
  buckets l' !! ip = Some (mkBucket (tb_allow T (bucket_at l ip)).2 T) → covered T n p l → covered T (n - 1) p l'.
Proof using All.
  intros HT Hpos Hpar Hl (E1 & E2 & E3 & before & ps & fresh & Hb & Hs & Hps & Hp & Hf & Hn & Htok & Hused).
  injection Hpar as P1 P2 P3 P4. split_and!; [congruence..|].
  assert (bucket_at l' ip = spent (tb_new r b0) (before ++ ps ++ [T])) as Hbk.
  { unfold bucket_at at 1. rewrite Hl. cbn [cb_limiter]. rewrite Hb, (assoc_L (++)). unfold spent. by rewrite (foldl_app _ (before ++ ps)). }
  assert (run_bucket (spent (tb_new r b0) before) (ps ++ [T]) =
    run_bucket (spent (tb_new r b0) before) ps ++ [(tb_allow T (bucket_at l ip)).1]) as Hrun.
  { rewrite run_bucket_snoc, Hb. unfold spent. by rewrite foldl_app. }
  exists before, (ps ++ [T]), (if (tb_allow T (bucket_at l ip)).1 then 0 else fresh).
  assert ((tb_allow T (bucket_at l ip)).1 = false → fresh = 0) as Hdeny.
  { intros Hd. destruct (decide (0 < fresh)) as [Hfr|]; [|lia]. apply Htok, tb_peek_allow in Hfr. congruence. }
  rewrite Hrun, count_true_snoc. split_and!.
  - exact Hbk.
  - rewrite (assoc_L (++)), <-(assoc_L (++) (before ++ ps)). change ([T] ++ [T]) with [T; T].
    by apply sorted_snoc.
  - apply Forall_app. split; [done|by constructor].
  - destruct ((tb_allow T (bucket_at l ip)).1); [nia|rewrite Hdeny in * by done; lia].
  - destruct ((tb_allow T (bucket_at l ip)).1); [lia|rewrite Hdeny by done; lia].
  - destruct ((tb_allow T (bucket_at l ip)).1); [lia|rewrite Hdeny by done; lia].
  - lia.
  - destruct ((tb_allow T (bucket_at l ip)).1); [lia|rewrite Hdeny by done; lia].
  - intros _. eexists. by split; [exact Hl|].
Qed.

(** A tick removes nothing that was used in the window. *)
Lemma covered_sweep T n p l l' : T ≤ t0 + w → params_of l' = params_of l →
  buckets l' !! ip = match buckets l !! ip with Some b => if cb_lastUsed b <? T - idleTTL l then None else Some b | None => None end →
  covered T n p l → covered T n p l'.
Proof using All.
  intros HT Hpar Hl Hc. destruct (buckets l !! ip) as [cb|] eqn:Ecb; [|by apply (covered_same T n p l); rewrite ?Ecb].
  destruct (cb_lastUsed cb <? T - idleTTL l) eqn:Eo; [|by apply (covered_same T n p l); rewrite ?Ecb].
  bool_to_prop. destruct Hc as (E1 & E2 & E3 & before & ps & fresh & Hb & Hs & Hps & Hp & Hf & Hn & Htok & Hused).
  assert (¬ (ps ≠ [] ∨ 0 < fresh)) as Hun.
  { intros (cb' & Hcb & Hlast)%Hused. rewrite Ecb in Hcb. injection Hcb as <-. lia. }
  injection Hpar as P1 P2 P3 P4. split_and!; [congruence..|]. exists [], [], 0. cbn [app run_bucket count_true].
  assert (ps = []) as -> by (destruct ps; [done|exfalso; apply Hun; by left]).
  assert (¬ 0 < fresh) by (intros ?; apply Hun; by right). cbn [run_bucket count_true] in Hp.
  split_and!; try done; try lia.
  - unfold bucket_at. by rewrite Hl, P1, P2, E1, E2.
  - repeat constructor.
  - by intros [?|?]; [|lia].
Qed.

Lemma peek_own (l : keyedRateLimiter B) now : (peek range ip now l).1 = tb_has_token now (bucket_at l ip).
Proof using Hip.
  unfold peek. apply String.eqb_neq in Hip. rewrite Hip. pose proof (limiterFor_lookup l ip now ip) as (_ & Hb & _).
  destruct (limiterFor _ _ _ _) as [lim l1]. cbn [fst] in *. by subst.
Qed.

(** The whole window. *)
Lemma covered_run T n p l ops : t0 ≤ T → StronglySorted Z.le (T :: (op_time <$> ops)) →
  Forall (λ t, t ≤ t0 + w) (op_time <$> ops) → fits l (sources ops) → overlaps range ip width n l ops = true →
  covered T n p l → ∃ T' n' l', T ≤ T' ∧ (T' = T ∨ T' ≤ t0 + w) ∧ covered T' n' (p + passed range ip l ops) l'.
Proof using All.
  revert T n p l. induction ops as [|op ops IH]; intros T n p l HT Hs Hwin Hfit Hov Hc.
  { exists T, n, l. cbn [passed]. rewrite Z.add_0_r. split_and!; [done|by left|done]. }
  cbn [fmap list_fmap] in Hs, Hwin. apply StronglySorted_inv in Hs as [Hs Hle]. apply Forall_cons in Hle as [Hle _].
  apply Forall_cons in Hwin as [Hop Hwin]. apply (covered_later T (op_time op)) in Hc; [|done].
  destruct (roomy_step l op ops Hfit) as [Hfit' Hother]. destruct (fail_step_lookup l op ip Hip) as [Hpar Hl].
  cbn [overlaps passed] in *.
  assert (∃ n', overlaps range ip width n' (fail_step range l op) ops = true ∧
    covered (op_time op) n' (p + if passes range ip l op then 1 else 0) (fail_step range l op)) as (n' & Hov' & Hc').
  2: { destruct (IH (op_time op) n' (p + if passes range ip l op then 1 else 0) (fail_step range l op)) as (T' & n2 & l2 & H1 & H2 & H3);
         [lia|done|done|done|done|done|].
       exists T', n2, l2. split_and!; [lia| |by rewrite Z.add_assoc]. right. destruct H2 as [->|]; [done|done]. }
  destruct op as [k now f|k now|now]; cbn [passes op_time own_step op_source] in *.
  - destruct (k =s ip) eqn:Ek; bool_to_prop; cbn [andb] in *.
    + subst k. destruct (covered_check now n p l _ ltac:(lia) Hpar Hl Hc) as [Hskip Hpass].
      rewrite peek_own in *. destruct (f && _) eqn:Ef; cbn [andb] in *.
      * apply andb_true_iff in Ef as [_ Ef]. apply andb_true_iff in Hov as [Hn Hov]. exists (n + 1).
        split; [done|]. apply Hpass; [done|by apply Z.ltb_lt].
      * exists n. rewrite Z.add_0_r. by split.
    + exists n. rewrite Z.add_0_r. split; [done|]. apply (covered_same now n p l); [done|by apply (Hother k)|done].
  - destruct (String.eqb_spec k ip) as [->|Ek].
    + apply andb_true_iff in Hov as [Hn Hov]. exists (n - 1). rewrite Z.add_0_r. split; [done|].
      apply (covered_penalty now n p l); [lia|by apply Z.ltb_lt|done..].
    + exists n. rewrite Z.add_0_r. split; [done|]. apply (covered_same now n p l); [done|by apply (Hother k)|done].
  - exists n. rewrite Z.add_0_r. split; [done|]. by apply (covered_sweep now n p l).
Qed.

(** What is covered is bounded: the tokens taken in the window, and one more if
    one is there. *)
Lemma covered_bound T n p l : t0 ≤ T ≤ t0 + w → covered T n p l → p * token ≤ width * (b0 * token + r * w).
Proof using All.
  intros HT (_ & _ & _ & before & ps & fresh & Hb & Hs & Hps & Hp & Hf & Hn & Htok & _).
  assert (∀ qs, StronglySorted Z.le (before ++ qs) → Forall (λ t, t0 ≤ t ≤ t0 + w) qs →
    count_true (run_bucket (spent (tb_new r b0) before) qs) * token ≤ b0 * token + r * w) as Hrate.
  { intros qs Hqs Hin. pose proof (tb_rate r b0 before qs Hr Hb0 Hqs). pose proof (elapsed_window t0 w qs (proj1 Hw) Hin). nia. }
  assert (Forall (λ t, t0 ≤ t ≤ t0 + w) ps) as Hin.
  { rewrite Forall_forall in *. intros t Ht. specialize (Hps t Ht). apply StronglySorted_app in Hs as (Hle & _).
    specialize (Hle t T ltac:(rewrite elem_of_app; by right) ltac:(by left)). lia. }
  assert (0 < token) by (unfold token; lia).
  destruct (decide (0 < fresh)) as [Hfr|Hfr].
  - specialize (Hrate (ps ++ [T])). rewrite run_bucket_snoc, count_true_snoc in Hrate.
    assert ((tb_allow T (spent (spent (tb_new r b0) before) ps)).1 = true) as Hok.
    { apply tb_peek_allow. apply Htok in Hfr. rewrite Hb in Hfr. unfold spent in *. by rewrite foldl_app in Hfr. }
    rewrite Hok in Hrate. rewrite (assoc_L (++)) in Hrate. specialize (Hrate Hs).
    assert (Forall (λ t, t0 ≤ t ≤ t0 + w) (ps ++ [T])) as Hall by (apply Forall_app; split; [done|by constructor]).
    specialize (Hrate Hall). nia.
  - specialize (Hrate ps). apply StronglySorted_app in Hs as (_ & Hs & _). specialize (Hrate Hs Hin). nia.
Qed.
End Bucket.

(** C34: Brute-force bound. With the failure limiter in front, over any earlier
    history of pre-checks, penalties and janitor ticks, the failing authentication
    attempts of one source with a nonempty address that pass the pre-check in a
    window of at most the 15-minute idle TTL are at most [width] times what its
    bucket grants in it (burst plus rate times the window), [width] being how many
    of its failing requests are between the pre-check and the penalty at once; with
    one at a time it is the bucket's grant. The window starts without such a request
    beyond [n], other sources interleave freely, and the sources seen with those
    cached stay under the cache's cap, so that no bucket is evicted. *)
Theorem failed_attempts_bound {B} `{TokenBucketLaws B} range rps burst trustProxy hops pre ops ip width n t0 w
    (Hrange : ∀ m, range m ≡ₚ map_to_list m) (Hrps : 0 ≤ rps) (Hburst : 0 ≤ burst)
    (Hw : 0 ≤ w ≤ DefaultFailLimiterIdleTTL) (Hwidth : 1 ≤ width) (Hn : 0 ≤ n ≤ width) (Hip : ip ≠ "")
    (Hsorted : StronglySorted Z.le (op_time <$> pre ++ ops))
    (Hwin : Forall (λ t, t0 ≤ t ≤ t0 + w) (op_time <$> ops)) :
  let l := fail_steps range (if_ips (NewIPFailRateLimiter (B:=B) rps burst trustProxy hops)) pre in
  fits l (sources ops) → overlaps range ip width n l ops = true →
  passed range ip l ops * token ≤ width * (burst * token + rps * w).
Proof.
  intros l Hfits Hov. destruct ops as [|op ops]; [cbn [passed]; unfold token; nia|].
  rewrite fmap_app in Hsorted. pose proof Hsorted as (Hcross & Hpre & Hops)%StronglySorted_app.
  apply Forall_forall with (x := op_time op) in Hwin as Hop; [|by left].
  assert (aged ip rps burst (Z.min (op_time op) (default (op_time op) (head (op_time <$> pre))))
    (if_ips (NewIPFailRateLimiter (B:=B) rps burst trustProxy hops))) as Hnew.
  { split_and!; [done..|]. exists []. split; [done|repeat constructor]. }
  assert (StronglySorted Z.le (Z.min (op_time op) (default (op_time op) (head (op_time <$> pre))) :: (op_time <$> pre))) as Hpre'.
  { constructor; [done|]. destruct pre as [|q pre]; [constructor|]. cbn [fmap list_fmap head default] in *.
    apply StronglySorted_inv in Hpre as [_ Hq]. constructor; [cbn; lia|]. rewrite Forall_forall in *. intros t Ht. specialize (Hq t Ht). cbn. lia. }
  destruct (aged_steps range Hrange ip Hip rps burst _ _ pre Hpre' Hnew) as (T' & Haged & Hin). fold l in Haged.
  assert (T' ≤ op_time op) as HT'.
  { destruct Hin as [->|Hin]; [lia|]. apply Hcross; [done|by left]. }
  assert (aged ip rps burst (op_time op) l) as Hstart.
  { destruct Haged as (? & ? & ? & ts & ? & ?). split_and!; [done..|]. exists ts. split; [done|by eapply sorted_later]. }
  destruct (covered_run range Hrange ip Hip rps burst Hrps Hburst t0 w width Hw Hwidth (op_time op) n 0 l (op :: ops))
    as (T & n' & l' & Hle & Hend & Hc); [lia| | |done|done|by apply covered_start|].
  { cbn [fmap list_fmap] in *. constructor; [done|]. apply StronglySorted_inv in Hops as [_ Hall]. constructor; [lia|done]. }
  { eapply Forall_impl; [exact Hwin|]. cbn. lia. }
  rewrite Z.add_0_l in Hc. eapply covered_bound in Hc; [exact Hc|done..|]. lia.
Qed.

(** Two failing requests of one source pass together on its last token. *)
Example overlapping_attempts_pass :
  let l := if_ips (NewIPFailRateLimiter (B:=ExactBucket) 1 1 true 1) in
  let ip := "203.0.113.9" in
  passed map_to_list ip l [FCheck ip 0 true; FCheck ip 0 true; FPenalize ip 1; FPenalize ip 1; FCheck ip 2 true] = 2 ∧
  passed map_to_list ip l [FCheck ip 0 true; FPenalize ip 0; FCheck ip 1 true; FPenalize ip 1] = 1.
Proof. by vm_compute. Qed.

Lemma failed_attempts_bound_witness :
  let l := fail_steps map_to_list (if_ips (NewIPFailRateLimiter (B:=ExactBucket) 1 1 true 1))
    [FCheck "203.0.113.9" 0 true; FPenalize "203.0.113.9" 1; FSweep 900000000002] in
  passed map_to_list "203.0.113.9" l
    [FCheck "203.0.113.9" 900000000003 true; FCheck "198.51.100.2" 900000000003 true;
     FCheck "203.0.113.9" 900000000004 true; FPenalize "203.0.113.9" 900000000005] * token ≤ 2 * (1 * token + 1 * 10).
Proof.
  apply (failed_attempts_bound map_to_list 1 1 true 1
    [FCheck "203.0.113.9" 0 true; FPenalize "203.0.113.9" 1; FSweep 900000000002]
    [FCheck "203.0.113.9" 900000000003 true; FCheck "198.51.100.2" 900000000003 true;
     FCheck "203.0.113.9" 900000000004 true; FPenalize "203.0.113.9" 900000000005]
    "203.0.113.9" 2 0 900000000000 10);
    [reflexivity|lia|lia|unfold DefaultFailLimiterIdleTTL; lia|lia|lia|discriminate
    |repeat constructor; vm_compute; discriminate
    |repeat constructor; vm_compute; discriminate
    |vm_compute; discriminate|vm_compute; reflexivity].
Defined.
