(* ===== verification/Auth.v ===== *)
(** Authentication and authorization: roles and RBAC (internal/auth/claims.go,
    internal/mcp/rbac.go), versioned key digests (internal/auth/keyhasher.go),
    the API-key and FusionAuth validators (apikey_validator.go, fusionauth.go),
    the per-tool policy (internal/mcp/authpolicy.go) and the HTTP bearer
    middleware (internal/mcp/auth.go). *)

From S2P Require Import Prelude GoErrors Hex Http.

(** ** Roles *)

Definition HasRole (c : Claims) (role : string) : bool := existsb (String.eqb role) (Roles c).

Definition HasAnyRole (c : Claims) (roles : list string) : bool := existsb (HasRole c) roles.

Definition validRoles : list string := ["reader"; "writer"; "admin"; "automation"].
Definition IsValidRole (role : string) : bool := existsb (String.eqb role) validRoles.

(** requireRole: [None] lets the caller proceed. *)
Definition requireRole (c : option Claims) (roles : list string) : option error :=
  match c with
  | None => None
  | Some c =>
      if HasAnyRole c roles then None
      else Some (Wrap ("your API key does not hold the role this tool requires (needs "
                       +:+ join " or " roles +:+ "): ") ErrPermissionDenied "")
  end.

(** ** Per-tool authentication policy *)

Definition authExemptTools : list string :=
  ["evm_get_balance"; "evm_get_block"; "evm_get_chain_id"; "evm_get_code"; "evm_get_logs";
   "evm_get_transaction"; "evm_get_transaction_receipt"; "evm_call_contract";
   "anchor_get_records"; "anchor_get_registries"; "anchor_get_registry"; "anchor_info";
   "anchor_prepare_add_record"; "anchor_prepare_add_registry"; "anchor_prepare_grant_role";
   "anchor_prepare_revoke_role"; "anchor_prepare_update_record_status"; "nvnm_overview";
   "nvnm_setup_wizard"; "nvnm_setup_verify_hash"; "nvnm_setup_verify_signature"; "wallet_status"].

Definition writeToolName : string := "evm_send_raw_transaction".

Definition RequiresAuth (tool : string) (keylessWrites : bool) : bool :=
  if tool =s writeToolName then negb keylessWrites
  else negb (existsb (String.eqb tool) authExemptTools).

(** An mcp.Request as ToolNameFromRequest inspects it: parameters with a
    GetName method, a raw tools/call server request, or anything else. *)
Inductive mcp_params :=
| HasName (name : string)
| CallToolParamsRaw (name : string)
| OtherParams.

Definition ToolNameFromRequest (p : mcp_params) : string :=
  match p with HasName n | CallToolParamsRaw n => n | OtherParams => "unknown" end.

(** The receiving middleware: an MCP method handler in, a gated one out. *)
Definition NewAuthEnforcementMiddleware {A} (keylessReads keylessWrites : bool)
    (next : option Claims → string → mcp_params → result error A)
    (c : option Claims) (method : string) (req : mcp_params) : result error A :=
  if negb keylessReads || negb (method =s "tools/call") then next c method req
  else
    let tool := ToolNameFromRequest req in
    if RequiresAuth tool keylessWrites && match c with None => true | Some _ => false end
    then Err (Wrap "" ErrAuthRequired (": tool " +:+ dq +:+ tool +:+ dq))
    else next c method req.

(** ** Versioned key digests *)

Record HashCandidate := mkCandidate { hc_Hash : string; hc_Version : Z }.

(** *auth.KeyHasher; [None] below stands for a nil pointer. *)
Record KeyHasher := mkHasher { kh_active : option string; kh_previous : option string }.

Definition nonempty (s : string) : option string := if s =s "" then None else Some s.

Definition NewKeyHasher (active previous : string) : KeyHasher :=
  mkHasher (nonempty active) (nonempty previous).

Definition HashKey (rawKey : string) : string := hex_encode (sha256 rawKey).
Definition hashKeyHMAC (pepper rawKey : string) : string := hex_encode (hmac_sha256 pepper rawKey).

Definition HashForStore (h : option KeyHasher) (rawKey : string) : string * Z :=
  match h with
  | Some (mkHasher (Some p) _) => (hashKeyHMAC p rawKey, 1)
  | _ => (HashKey rawKey, 0)
  end.

Definition Candidates (h : option KeyHasher) (rawKey : string) : list HashCandidate :=
  mkCandidate (HashKey rawKey) 0 ::
  match h with
  | None => []
  | Some h =>
      match kh_active h with Some p => [mkCandidate (hashKeyHMAC p rawKey) 1] | None => [] end ++
      match kh_previous h with Some p => [mkCandidate (hashKeyHMAC p rawKey) 1] | None => [] end
  end.

(** ** API-key validation *)

Inductive RejectReason := RejectNone | RejectNotFound | RejectExpired | RejectRevoked.

Record KeyResult := mkKeyResult { kr_ID : string; kr_KeyHash : string; kr_Roles : list string }.

(** subtle.ConstantTimeCompare *)
Definition ConstantTimeCompare (a b : string) : Z := if a =s b then 1 else 0.

Definition digest_match (cands : list HashCandidate) (stored : string) : Z :=
  foldl (λ m c, Z.lor m (ConstantTimeCompare (hc_Hash c) stored)) 0 cands.

(** APIKeyValidator.Validate over the outcome of keys.Lookup. RejectNone
    with a nil entry would be a nil dereference; no lookup produces it. *)
Definition Validate (h : option KeyHasher) (found : option KeyResult * RejectReason)
    (token : string) : result error Claims :=
  match found.2 with
  | RejectNotFound => Err ErrInvalidAPIKey
  | RejectExpired => Err ErrKeyExpired
  | RejectRevoked => Err ErrKeyRevoked
  | RejectNone =>
      match found.1 with
      | None => Err (Opaque "nil pointer dereference")
      | Some entry =>
          if Z.eqb (digest_match (Candidates h token) (kr_KeyHash entry)) 1
          then Ok (mkClaims (kr_ID entry) (kr_Roles entry))
          else Err ErrInvalidAPIKey
      end
  end.

(** ** FusionAuth JWT validation *)

(** A JWT claim value as encoding/json decodes it. *)
#[local] Unset Elimination Schemes.
Inductive jval :=
| JString (s : string)
| JArray (l : list jval)
| JObject (m : list (string * jval))
| JOther.                                  (* null, numbers, booleans *)
#[local] Set Elimination Schemes.

Definition MapClaims := list (string * jval).

(** A Go map lookup: [None] for a missing key. *)
Fixpoint claim_get (m : MapClaims) (k : string) : option jval :=
  match m with
  | [] => None
  | (k', v) :: m => if k' =s k then Some v else claim_get m k
  end.

Record FusionAuthConfig := mkFusionAuthConfig {
  fa_BaseURL : string; fa_ApplicationID : string; fa_Issuer : string;
  fa_RolesClaim : string; fa_ClientIDHMACKey : string
}.

Definition matchIssuer (actual expected : string) : bool :=
  (actual =s expected) ||
  (actual =s trim_prefix "http://" (trim_prefix "https://" expected)).

Definition hmacClientID (sub key : string) : string :=
  if sub =s "" then "" else hex_encode (hmac_sha256 key sub).

Definition validateAudience (cfg : FusionAuthConfig) (claims : MapClaims) : bool :=
  match claim_get claims "aud" with
  | None => false
  | Some (JString a) => a =s fa_ApplicationID cfg
  | Some (JArray l) =>
      existsb (λ a, match a with JString s => s =s fa_ApplicationID cfg | _ => false end) l
  | Some _ => false
  end.

Definition extractRolesFromValue (v : option jval) : list string :=
  match v with
  | Some (JArray l) => omap (λ r, match r with JString s => Some s | _ => None end) l
  | _ => []
  end.

Definition extractRoles (cfg : FusionAuthConfig) (claims : MapClaims) : list string :=
  match extractRolesFromValue (claim_get claims (fa_RolesClaim cfg)) with
  | (_ :: _) as roles => roles
  | [] =>
      if fa_ApplicationID cfg =s "" then []
      else match claim_get claims (fa_ApplicationID cfg) with
           | Some (JObject m) => extractRolesFromValue (claim_get m "roles")
           | _ => []
           end
  end.

(** What jwt.Parse (vendored library) returns: an error, or a token with its
    validity flag and its claims ([None] when they are not MapClaims). *)
Definition parsed_token := result error (bool * option MapClaims).

Definition FusionAuth_Validate (cfg : FusionAuthConfig) (parsed : parsed_token)
    : result error Claims :=
  match parsed with
  | Err e => Err (Wrap "invalid token: " e "")
  | Ok (valid, claims) =>
      guard? valid else Sentinel ErrTokenInvalid in
      match claims with
      | None => Err ErrClaimsExtract
      | Some mc =>
          let expectedIssuer := if fa_Issuer cfg =s "" then fa_BaseURL cfg else fa_Issuer cfg in
          let issuer := match claim_get mc "iss" with Some (JString s) => Some s | _ => None end in
          let issuer_ok := match issuer with Some i => matchIssuer i expectedIssuer | None => false end in
          if negb (expectedIssuer =s "") && negb issuer_ok
          then Err (Wrap "" ErrInvalidIssuer (": expected " +:+ expectedIssuer +:+ ", got "
                      +:+ default "" issuer))
          else if negb (validateAudience cfg mc) then Err ErrInvalidAudience
          else
            let sub := match claim_get mc "sub" with Some (JString s) => s | _ => "" end in
            Ok (mkClaims (hmacClientID sub (fa_ClientIDHMACKey cfg)) (extractRoles cfg mc))
      end
  end.

(** ** The bearer middleware *)

Definition writeUnauthorized (msg : string) : response :=
  mkResponse StatusUnauthorized [("WWW-Authenticate", "Bearer")] msg.

Section AuthMiddleware.
Context {St : Type}.
(** validator.Validate, when a validator is configured; it may change the
    server state (a key upgrade). *)
Context (validator : option (request → string → St → result error Claims * St)).
(** failLimiter.Penalize for the request's source; the identity without a
    limiter. *)
Context (penalize : request → St → St).

Definition reject_message (renewalURL : string) (e : error) : string :=
  if errors_Is e ErrInvalidAPIKey then "invalid API key"
  else if errors_Is e ErrKeyExpired then
    "key expired" +:+ (if renewalURL =s "" then "" else " — renew at " +:+ renewalURL)
  else if errors_Is e ErrKeyRevoked then "key revoked"
  else "invalid credentials".

Definition bearer_prefix : string := "Bearer ".

Definition AuthMiddleware (next : handler St) (keylessReads : bool) (renewalURL : string)
    : handler St :=
  match validator with
  | None => next
  | Some validate => λ r st,
  let authHeader := header r "Authorization" in
  if authHeader =s "" then
    if keylessReads then next r st
    else (writeUnauthorized "missing Authorization header", penalize r st)
  else if negb (has_prefix bearer_prefix authHeader) then
    (writeUnauthorized "invalid Authorization scheme; expected Bearer", penalize r st)
  else
    let token := trim_prefix bearer_prefix authHeader in
    match validate r token st with
    | (Ok claims, st1) => next (with_claims claims r) st1
    | (Err e, st1) => (writeUnauthorized (reject_message renewalURL e), penalize r st1)
    end
  end.
End AuthMiddleware.

(** ** Theorems *)

Lemma HasRole_spec c role : HasRole c role = true ↔ role ∈ Roles c.
Proof. apply existsb_eqb_true. Qed.

Lemma HasAnyRole_spec c roles :
  HasAnyRole c roles = true ↔ ∃ role, role ∈ roles ∧ role ∈ Roles c.
Proof.
  unfold HasAnyRole. rewrite existsb_exists.
  by setoid_rewrite HasRole_spec; setoid_rewrite <- list_elem_of_In.
Qed.

(** The error of requireRole always carries ErrPermissionDenied. *)
Lemma requireRole_err c roles e : requireRole c roles = Some e → errors_Is e ErrPermissionDenied = true.
Proof. unfold requireRole. intros H. break_match. Qed.

(** RBAC decision. requireRole lets a caller through exactly when there is
    no identity at all (stdio, or an anonymous request the policy layer already
    admitted) or the identity holds one of the required roles. In particular an
    authenticated key with an empty role list is denied every tool, whatever
    roles the tool asks for (default deny). *)
Theorem requireRole_spec c roles :
  (requireRole c roles = None ↔
    c = None ∨ ∃ cl role, c = Some cl ∧ role ∈ roles ∧ role ∈ Roles cl) ∧
  (∀ id, ∃ e, requireRole (Some (mkClaims id [])) roles = Some e
              ∧ errors_Is e ErrPermissionDenied = true).
Proof.
  split.
  - destruct c as [cl|]; simpl; [|naive_solver].
    destruct (HasAnyRole cl roles) eqn:E.
    + apply HasAnyRole_spec in E. naive_solver.
    + split; [done|]. intros [?|(cl' & role & [= <-] & ? & ?)]; [done|].
      assert (HasAnyRole cl roles = true) by (apply HasAnyRole_spec; eauto). congruence.
  - intros id. simpl. destruct (HasAnyRole _ _) eqn:E; [|eauto].
    apply HasAnyRole_spec in E as (role & _ & Hr). by apply not_elem_of_nil in Hr.
Qed.

Lemma RequiresAuth_false tool kw :
  RequiresAuth tool kw = false ↔
    tool ∈ authExemptTools ∨ (tool = writeToolName ∧ kw = true).
Proof.
  unfold RequiresAuth. destruct (tool =s writeToolName) eqn:E.
  - apply String.eqb_eq in E as ->. rewrite negb_false_iff. split; [naive_solver|].
    intros [H|[_ ?]]; [|done]. apply existsb_eqb_true in H. done.
  - apply String.eqb_neq in E. rewrite negb_false_iff, existsb_eqb_true. naive_solver.
Qed.

(** The anonymous surface under keyless reads. A tools/call without claims
    is answered with ErrAuthRequired, before any handler runs, unless its tool
    is on the exemption list, or is evm_send_raw_transaction in a keyless-writes
    deployment; a request whose tool name cannot be extracted is always
    refused. All other requests reach the handler unchanged. *)
Theorem enforcement_anonymous_surface {A} kw (next : option Claims → string → mcp_params → result error A) p :
  let gated := NewAuthEnforcementMiddleware true kw next in
  let tool := ToolNameFromRequest p in
  (tool ∈ authExemptTools ∨ (tool = writeToolName ∧ kw = true) →
     gated None "tools/call" p = next None "tools/call" p) ∧
  (¬ (tool ∈ authExemptTools ∨ (tool = writeToolName ∧ kw = true)) →
     ∃ e, gated None "tools/call" p = Err e ∧ errors_Is e ErrAuthRequired = true) ∧
  (∃ e, gated None "tools/call" OtherParams = Err e ∧ errors_Is e ErrAuthRequired = true) ∧
  (∀ cl method, gated (Some cl) method p = next (Some cl) method p) ∧
  (∀ method, method ≠ "tools/call" → gated None method p = next None method p).
Proof.
  cbv zeta. unfold NewAuthEnforcementMiddleware. rewrite <- (RequiresAuth_false _ kw).
  split_and!.
  - intros H. simpl. by rewrite H.
  - intros H. apply not_false_is_true in H. simpl. rewrite H. simpl. eauto.
  - simpl. eauto.
  - intros cl method. by rewrite andb_false_r, if_same.
  - intros method Hm. apply String.eqb_neq in Hm. by rewrite Hm, orb_true_r.
Qed.

Lemma digest_match_acc cands stored m :
  0 ≤ m ≤ 1 →
  foldl (λ m c, Z.lor m (ConstantTimeCompare (hc_Hash c) stored)) m cands =
  if Z.eqb m 1 || existsb (λ c, hc_Hash c =s stored) cands then 1 else 0.
Proof.
  revert m. induction cands as [|c cands IH]; intros m Hm; simpl.
  - assert (m = 0 ∨ m = 1) as [-> | ->] by lia; done.
  - rewrite IH; unfold ConstantTimeCompare;
      assert (m = 0 ∨ m = 1) as [-> | ->] by lia; by destruct (hc_Hash c =s stored).
Qed.

Lemma digest_match_spec cands stored :
  digest_match cands stored = 1 ↔ stored ∈ hc_Hash <$> cands.
Proof.
  unfold digest_match. rewrite digest_match_acc by lia. simpl.
  rewrite list_elem_of_fmap. destruct (existsb _ _) eqn:E.
  - apply existsb_exists in E as (c & Hc & E%String.eqb_eq). apply list_elem_of_In in Hc. naive_solver.
  - split; [done|]. intros (c & -> & Hc).
    assert (existsb (λ c0, hc_Hash c0 =s hc_Hash c) cands = true); [|congruence].
    apply existsb_exists. exists c. rewrite <- list_elem_of_In, String.eqb_refl. done.
Qed.

(** API-key validation. Validate accepts a token exactly when the lookup
    classified it usable and the entry's stored digest is one of the token's
    candidate digests, and the identity it returns is the entry's id and roles;
    expired and revoked keys get their own error, every other rejection of a
    classified lookup is ErrInvalidAPIKey. *)
Theorem Validate_spec h entry reason token :
  (∀ c, Validate h (entry, reason) token = Ok c ↔
     ∃ e, entry = Some e ∧ reason = RejectNone ∧
          kr_KeyHash e ∈ hc_Hash <$> Candidates h token ∧ c = mkClaims (kr_ID e) (kr_Roles e)) ∧
  (reason = RejectExpired → Validate h (entry, reason) token = Err ErrKeyExpired) ∧
  (reason = RejectRevoked → Validate h (entry, reason) token = Err ErrKeyRevoked) ∧
  (reason = RejectNotFound → Validate h (entry, reason) token = Err ErrInvalidAPIKey).
Proof.
  split_and!; [|intros -> ..]; try done. intros c.
  destruct reason; cbn [Validate snd fst]; [|naive_solver ..].
  destruct entry as [e|]; [|naive_solver].
  destruct (Z.eqb _ _) eqn:E.
  - apply Z.eqb_eq, digest_match_spec in E. naive_solver.
  - apply Z.eqb_neq in E. rewrite digest_match_spec in E. naive_solver.
Qed.

(** FusionAuth acceptance. A JWT is accepted only when the parsed token is
    valid, its issuer matches the configured one (or no issuer is configured)
    and its audience names this application; the resulting identity never
    contains the subject itself: it is empty, or the 64 hexadecimal characters
    of an HMAC of the subject. *)
Theorem FusionAuth_accepts_sound cfg parsed c
    (Hok : FusionAuth_Validate cfg parsed = Ok c) :
  ∃ mc, parsed = Ok (true, Some mc) ∧
    validateAudience cfg mc = true ∧
    (let expected := if fa_Issuer cfg =s "" then fa_BaseURL cfg else fa_Issuer cfg in
     expected = "" ∨ ∃ iss, claim_get mc "iss" = Some (JString iss) ∧ matchIssuer iss expected = true) ∧
    Roles c = extractRoles cfg mc ∧
    (ClientID c = "" ∨
     ∃ sub, sub ≠ "" ∧ claim_get mc "sub" = Some (JString sub) ∧
            ClientID c = hex_encode (hmac_sha256 (fa_ClientIDHMACKey cfg) sub) ∧
            String.length (ClientID c) = 64%nat).
Proof.
  destruct parsed as [[valid claims]|e]; [|done]. simpl in Hok.
  destruct valid; [|done]. destruct claims as [mc|]; [|done]. exists mc. split; [done|].
  set (expected := if fa_Issuer cfg =s "" then _ else _) in *.
  destruct (negb (expected =s "") && negb _) eqn:Hiss; [done|].
  destruct (validateAudience cfg mc) eqn:Haud; [|done]. simplify_eq/=.
  split_and!; try done.
  - apply andb_false_iff in Hiss as [H|H]; bool_to_prop; [by left|right].
    destruct (claim_get mc "iss") as [[]|]; eauto; done.
  - unfold hmacClientID.
    destruct (claim_get mc "sub") as [[s| | |]|]; try (by left).
    destruct (s =s "") eqn:Es; [by left|right]. bool_to_prop. exists s.
    split_and!; auto. by autorewrite with go_rw.
Qed.

Lemma FusionAuth_accepts_sound_witness :
  let cfg := mkFusionAuthConfig "https://id.example" "app-1" "" "roles" "k" in
  let mc := [("iss", JString "id.example"); ("aud", JArray [JString "app-1"]);
             ("sub", JString "user-7"); ("roles", JArray [JString "writer"])] in
  ∃ c, FusionAuth_Validate cfg (Ok (true, Some mc)) = Ok c ∧ Roles c = ["writer"] ∧
       validateAudience cfg mc = true.
Proof.
  intros cfg mc. eexists. split; [reflexivity|].
  destruct (FusionAuth_accepts_sound cfg (Ok (true, Some mc)) _ eq_refl)
    as (mc' & [= <-] & Haud & _ & Hroles & _).
  split; [exact Hroles | exact Haud].
Defined.

(** HTTP mediation. With a validator, every request AuthMiddleware handles ends in exactly
    one of three ways: it is forwarded unchanged, and then it carries no
    identity, keyless reads are on and there was no Authorization header; it is
    forwarded with exactly the claims the validator returned for its bearer
    token; or it is answered 401 without the next handler being involved, and
    the source is charged one authentication failure. *)
Theorem AuthMiddleware_mediation {St} (validate : request → string → St → result error Claims * St)
    (penalize : request → St → St) (next : handler St) keylessReads renewalURL r st
    (Hanon : rq_claims r = None) :
  let run nx := AuthMiddleware (Some validate) penalize nx keylessReads renewalURL r st in
  (keylessReads = true ∧ header r "Authorization" = "" ∧ rq_claims r = None ∧
     (∀ nx, run nx = nx r st)) ∨
  (∃ token claims st1,
     header r "Authorization" = "Bearer " +:+ token ∧
     validate r token st = (Ok claims, st1) ∧
     (∀ nx, run nx = nx (with_claims claims r) st1)) ∨
  (∃ msg st1,
     (st1 = st ∨ ∃ token e, header r "Authorization" = "Bearer " +:+ token ∧
                            validate r token st = (Err e, st1)) ∧
     (∀ nx, run nx = (writeUnauthorized msg, penalize r st1))).
Proof.
  cbv zeta. unfold AuthMiddleware.
  destruct (header r "Authorization" =s "") eqn:E0.
  { bool_to_prop. destruct keylessReads; [left; auto|].
    right; right. eexists _, st. auto. }
  destruct (has_prefix bearer_prefix (header r "Authorization")) eqn:E1; simpl.
  2: { right; right. eexists _, st. auto. }
  apply trim_prefix_spec in E1. right.
  destruct (validate r _ st) as [[claims|e] st1] eqn:Ev.
  - left. eauto 10.
  - right. eexists _, st1. split; [|done]. right. eauto.
Qed.

Lemma AuthMiddleware_mediation_witness :
  let r := mkRequest "POST" "/" "203.0.113.9:4000" {["Authorization" := "Bearer abc"]} "" false None 0 in
  let validate := λ (_ : request) tok (st : Z),
    ((if tok =s "abc" then Ok (mkClaims "alice" ["writer"]) else Err (Sentinel ErrInvalidAPIKey)), st) in
  let run := λ nx, AuthMiddleware (Some validate) (λ _ st, st + 1) nx true "" r 0 in
  run (λ r st, (http_error 200 (ClientIDFromContext (ClaimsFromContext r)), st)) = (http_error 200 "alice", 0).
Proof.
  intros r validate run.
  destruct (AuthMiddleware_mediation validate (λ _ st, st + 1) (λ _ st, (writeUnauthorized "", st))
    true "" r 0 eq_refl) as [(_ & H & _)|[(tok & c & st1 & H & Hv & Hrun)|(m & st1 & _ & H)]].
  - vm_compute in H. discriminate.
  - apply (f_equal (trim_prefix "Bearer ")) in H. rewrite trim_prefix_app in H.
    vm_compute in H. subst tok. vm_compute in Hv. inversion Hv; subst. apply Hrun.
  - specialize (H (λ _ st, (http_error 200 "x", st))). vm_compute in H. discriminate.
Defined.
