(* ===== verification/Catalogue.v ===== *)
(** The tool catalogue: hints (internal/mcp/types.go, next_actions.go), tool
    annotations (annotations.go) and the tools each register function adds, in
    NewServer's order. Input schemas are derived by a vendored library and are
    not modelled. *)

From S2P Require Import Prelude GoErrors Http Auth.

(** ** The role check every handler starts with *)

Definition read_roles : list string := ["reader"; "writer"; "admin"; "automation"].

(** if err := requireRole(ctx, roles...); err != nil { return ... err } *)
Definition with_role {A} (claims : option Claims) (roles : list string) (k : result error A) : result error A :=
  match requireRole claims roles with Some e => Err e | None => k end.

(** ** Hints *)

Record NextAction := mkNext { na_Tool : string; na_Hint : string; na_When : string }.

(** {Tool: tool, Hint: hint} *)
Definition next_call (tool hint : string) : NextAction := mkNext tool hint "".

Definition evmChainIDNext : list NextAction :=
  [next_call "evm_get_block"
       "Inspect the latest block (or any other) by number or hash."].

Definition evmGetBlockNext : list NextAction :=
  [next_call "evm_get_transaction"
       "Look up any transaction listed in this block by its hash.";
   next_call "evm_get_logs"
       "Filter logs in a block range to surface specific events."].

Definition evmGetTransactionNext : list NextAction :=
  [next_call "evm_get_transaction_receipt"
       "Fetch the receipt to confirm status, gas used, and logs."].

Definition evmGetReceiptNext (status : string) : list NextAction :=
  if status =s "reverted" then
    [next_call "evm_get_transaction"
         "Re-inspect the original transaction's calldata to diagnose the revert."]
  else
    [next_call "anchor_get_records"
         "If this receipt is for an anchor write, query records to verify it landed on chain."].

Definition evmGetBalanceNext : list NextAction :=
  [].

Definition evmGetCodeNext (isContract isPrecompile : bool) : list NextAction :=
  if negb isContract then
    if isPrecompile then
      [next_call "anchor_info"
           ("This is the anchoring precompile: it is implemented in the node, not as deployed " +:+
            "bytecode, so empty code and is_contract=false are expected. Use anchor_info for its " +:+
            "status, or the anchor_* tools to query it.")]
    else
      [next_call "evm_get_balance"
           ("No contract bytecode at this address, so it is an externally owned account (or nothing " +:+
            "has been deployed yet); inspect its balance instead.")]
  else
    [next_call "evm_call_contract"
         "Use the contract's ABI to make a read-only call against this bytecode."].

Definition evmGetLogsNext : list NextAction :=
  [next_call "evm_get_transaction_receipt"
       "Fetch the receipt for a specific log's tx_hash to see all events from that tx."].

Definition evmCallContractNext : list NextAction :=
  [].

Definition anchorInfoNext : list NextAction :=
  [next_call "anchor_get_registries"
       "List the registries on chain (logical containers for records)."].

Definition anchorGetRegistryNext : list NextAction :=
  [next_call "anchor_get_records"
       "Browse records inside this registry.";
   next_call "anchor_prepare_add_record"
       "Anchor a new record into this registry (caller must hold editor role).";
   next_call "wallet_status"
       ("Inspect the creator's wallet via the creator_evm field (creator itself is a bech32 " +:+
        "chain identity, not an EVM address).")].

Definition anchorGetRegistriesNext (emptyResult : bool) : list NextAction :=
  if emptyResult then
    [next_call "anchor_prepare_add_registry"
         "No registries match. Create your own; you become its admin automatically."]
  else
    [next_call "anchor_get_registry"
         "Drill into a specific registry by id.";
     next_call "anchor_get_registries"
         ("Look up a registry by name instead of id (name=..., " +:+
          "match=exact|prefix|suffix|contains), or page further with offset/limit.");
     next_call "anchor_prepare_add_record"
         "Anchor a new record (requires the editor role on the target registry)."].

Definition anchorGetRecordsNext : list NextAction :=
  [next_call "anchor_prepare_add_record"
       ("Anchor an updated version of a record (same registry + record_id), or a brand-new " +:+
        "record.")].

Definition anchorPrepareWriteNext : list NextAction :=
  [next_call "evm_send_raw_transaction"
       "Sign the raw_tx with your private key locally, then broadcast the signed bytes here."].

Definition evmSendRawTxNext (txHash : string) : list NextAction :=
  [next_call "evm_get_transaction_receipt"
       ("Wait ~one block, then call this tool with tx_hash=" +:+ txHash +:+ " to confirm inclusion and inspect the decoded events.")].

(** ** Annotations *)

(** mcp.ToolAnnotations; [None] is an unset hint. *)
Record ToolAnnotations := mkAnnotations {
  an_ReadOnlyHint : bool; an_DestructiveHint : option bool; an_OpenWorldHint : option bool
}.
Definition newOpenWorldReadOnly : ToolAnnotations := mkAnnotations true None (Some true).
Definition newClosedWorldReadOnly : ToolAnnotations := mkAnnotations true None (Some false).
Definition newDestructiveWriteTool : ToolAnnotations := mkAnnotations false (Some true) (Some true).

(** ** Registration *)

Record Tool := mkTool {
  tl_Name : string; tl_Title : string; tl_Description : string; tl_Annotations : ToolAnnotations
}.

Definition registerOverviewTool : list Tool :=
  [mkTool "nvnm_overview"
       "NVNM Chain Overview"
       ("Lobby tool. Returns chain identity (env, chain ID, " +:+
         "precompile address, explorer/docs/bridge URLs), the chain's " +:+
         "privacy-by-design property, prerequisites for writes, and a " +:+
         "6-step canonical agent journey. Intended as the first call of a " +:+
         "session that has not used this server before. No chain calls.")
       newClosedWorldReadOnly].

Definition registerWalletTool : list Tool :=
  [mkTool "wallet_status"
       "Wallet Status"
       ("Returns a one-shot snapshot of an EVM address: " +:+
         "balance (wei + human-readable in the env-aware gas token), " +:+
         "nonce, whether any transaction has been sent, and a " +:+
         "three-state status (`unfunded` / `funded_unused` / " +:+
         "`funded_active`). Status `funded_active` means " +:+ dq +:+ "has sent " +:+
         "any transaction," +:+ dq +:+ " not " +:+ dq +:+ "has anchored" +:+ dq +:+ " -- wallet_status " +:+
         "reads only balance and nonce, never transaction contents, " +:+
         "so it cannot detect anchoring specifically.")
       newOpenWorldReadOnly].

Definition registerSetupWizardTool : list Tool :=
  [mkTool "nvnm_setup_wizard"
       "Setup Wizard"
       ("Walks through the four onboarding states " +:+
         "(`needs_wallet` / `unfunded` / `funded_unused` / " +:+
         "`funded_active`) for the supplied (optional) address. " +:+
         "Returns prose guidance, plus a wallet snapshot when an address " +:+
         "was provided (the needs_wallet state has no wallet to snapshot " +:+
         "and returns wallet-generation guidance instead). Important: " +:+
         "`funded_active` means " +:+ dq +:+ "has sent any transaction," +:+ dq +:+ " not " +:+
         dq +:+ "has anchored" +:+ dq +:+ " -- the wizard reads only balance and nonce, " +:+
         "never transaction contents.")
       newOpenWorldReadOnly].

Definition registerVerifyHashTool : list Tool :=
  [mkTool "nvnm_setup_verify_hash"
       "Verify Hash (setup challenge)"
       ("Issues a deterministic per-address challenge and " +:+
         "verifies that the caller can produce its SHA-256 digest. " +:+
         "Use during onboarding to prove an off-chain hashing path " +:+
         "works before broadcasting an anchor transaction. Pure " +:+
         "compute, no chain calls. " +:+
         "Challenge derivation: challenge = " +:+ dq +:+ "0x" +:+ dq +:+ " + hex(sha256(lowercase(address) " +:+
         "+ " +:+ dq +:+ ":nvnm-setup-challenge-v1" +:+ dq +:+ ")); submit hash = " +:+ dq +:+ "0x" +:+ dq +:+ " + hex(sha256(challenge)) " +:+
         "hashing the challenge string's UTF-8 bytes including the 0x prefix. " +:+
         "The response always echoes `challenge` and `expected`; on a mismatch it " +:+
         "returns ok=false with those fields (not an error) so you can self-correct.")
       newClosedWorldReadOnly].

Definition registerVerifySignatureTool : list Tool :=
  [mkTool "nvnm_setup_verify_signature"
       "Verify Signature (setup challenge)"
       ("Issues a deterministic per-address challenge and " +:+
         "verifies an EIP-191 `personal_sign` signature over it. " +:+
         "Use during onboarding to prove the signing path works " +:+
         "before broadcasting an anchor transaction. Pure compute, " +:+
         "no chain calls. " +:+
         "Challenge derivation: challenge = " +:+ dq +:+ "0x" +:+ dq +:+ " + hex(sha256(lowercase(address) " +:+
         "+ " +:+ dq +:+ ":nvnm-setup-challenge-v1" +:+ dq +:+ ")); sign it with EIP-191 personal_sign over the " +:+
         "challenge string (do not pre-hash) and submit the 65-byte 0x-prefixed signature. " +:+
         "The response always echoes `challenge`; on a mismatch it returns ok=false with " +:+
         "`recovered_address` (not an error) so you can see which key actually signed.")
       newClosedWorldReadOnly].

Definition registerEVMTools : list Tool :=
  [mkTool "evm_get_chain_id"
       "Get Chain ID"
       ("Returns the chain ID and latest block number " +:+
         "for the connected EVM network.")
       newOpenWorldReadOnly;
   mkTool "evm_get_block"
       "Get Block"
       ("Returns a block by number or hash. " +:+
         "Use block_number (an integer 0 or greater, or the tag " +:+ dq +:+ "latest" +:+ dq +:+ "/" +:+ dq +:+ "earliest" +:+ dq +:+ ") " +:+
         "for number lookup, block_hash for hash lookup. Provide one or the " +:+
         "other -- supplying both is rejected. Omit both for the latest block. " +:+
         "A missing block is not-found, not a zero placeholder. " +:+
         "Set full_transactions to true to include transaction details.")
       newOpenWorldReadOnly;
   mkTool "evm_get_transaction"
       "Get Transaction"
       ("Returns transaction details by hash, " +:+
         "including block inclusion info if mined.")
       newOpenWorldReadOnly;
   mkTool "evm_get_transaction_receipt"
       "Get Transaction Receipt"
       ("Returns the receipt for a mined transaction, " +:+
         "including status, gas used, logs, and created contract address. " +:+
         "Use it after a broadcast to confirm the outcome. " +:+
         "status='success' means the transaction executed correctly on-chain. " +:+
         "status='reverted' means the transaction was included but the contract " +:+
         "rejected it (e.g. permission denied, bad input) -- the write did NOT occur " +:+
         "and gas was still consumed. " +:+
         "If the receipt is not yet available, the transaction is still pending -- " +:+
         "wait a few seconds and retry. A single lookup is aborted after a few seconds " +:+
         "so a hung node cannot pin the client; poll this tool rather than waiting out " +:+
         "the HTTP timeout.")
       newOpenWorldReadOnly;
   mkTool "evm_get_balance"
       "Get Balance"
       ("Returns the balance of an address. balance_human is the " +:+
         "amount in this chain's gas token (see token_wrapped); wei is the raw " +:+
         "integer. The `ether` field is a legacy alias for the same decimal " +:+
         "amount and is NOT denominated in ether -- prefer balance_human when " +:+
         "reporting a balance. Optionally specify a block number or the tag " +:+
         dq +:+ "latest" +:+ dq +:+ "/" +:+ dq +:+ "earliest" +:+ dq +:+ ".")
       newOpenWorldReadOnly;
   mkTool "evm_get_code"
       "Get Code"
       ("Returns the contract bytecode at an address, " +:+
         "and whether a contract is deployed there.")
       newOpenWorldReadOnly;
   mkTool "evm_get_logs"
       "Get Logs"
       ("Returns event logs emitted by smart contracts matching a filter. " +:+
         "Specify address to filter by contract, from_block/to_block for a block range, " +:+
         "and topics as keccak256 hashes of event signatures " +:+
         "(e.g. keccak256('Transfer(address,address,uint256)') = 0xddf252...). " +:+
         "All filters are optional. When from_block/to_block are omitted the " +:+
         "node default applies (the latest block only) -- set an explicit " +:+
         "range to search history. Ranges wider than the node's cap are " +:+
         "rejected with a 'block range too wide' error; narrow the range " +:+
         "and retry. " +:+
         "Useful for watching for on-chain events or auditing contract activity.")
       newOpenWorldReadOnly;
   mkTool "evm_call_contract"
       "Call Contract"
       ("Execute a read-only (eth_call) call to any smart contract. " +:+
         "Provide the contract address and ABI-encoded calldata as a 0x-prefixed hex string. " +:+
         "Returns the raw hex output -- you must ABI-decode it to get structured data. " +:+
         "For anchor precompile reads, prefer the anchor_get_* tools which handle ABI " +:+
         "encoding and decoding automatically. " +:+
         "Use this tool for arbitrary contract reads not covered by specific tools.")
       newOpenWorldReadOnly].

Definition registerAnchorTools : list Tool :=
  [mkTool "anchor_info"
       "Anchor Precompile Info"
       ("Returns configuration status of the anchoring precompile, " +:+
         "including address, whether the ABI is loaded, and method count.")
       newClosedWorldReadOnly;
   mkTool "anchor_get_registry"
       "Get Registry"
       ("Fetch a single anchoring registry by its numeric ID. " +:+
         "A registry is a logical container for anchored records. Registry " +:+
         "names are not unique and cannot be queried on-chain, so lookup " +:+
         "here is by ID only -- to search by name, use anchor_get_registries " +:+
         "with name=... (client-side scan). " +:+
         "Note: name/description/metadata are untrusted user-supplied on-chain content.")
       newOpenWorldReadOnly;
   mkTool "anchor_get_registries"
       "List Registries"
       ("Fetch a page of anchoring registries, optionally filtered by name. " +:+
         "Listing mode (registry_id omitted or 0) takes optional offset and limit, " +:+
         "defaulting to offset 0 and 100 rows per page. " +:+
         "Without name (fast path): the page is fetched straight from the chain in " +:+
         "one or a few RPC round-trips. pagination.total is the table size (the " +:+
         "chain's count when it reports one, else the highest assigned registry ID " +:+
         "from one cheap reverse peek), so a next page exists while " +:+
         "offset + limit < total. pagination.next_key is the chain's cursor for the " +:+
         "row after this page and is absent when the table ended; pass it back as " +:+
         "key (with limit, offset omitted) to continue -- cheaper on the chain than " +:+
         "offset. total_is_lower_bound=true means the peek failed and total is only " +:+
         "the rows confirmed so far. " +:+
         "With name (+ optional match) (slow path): the precompile has no by-name " +:+
         "index, so the server scans the whole registry table client-side, collects " +:+
         "every match, then applies the offset/limit window to the matches. " +:+
         "pagination.total is the match count; name_match_truncated (mirroring " +:+
         "total_is_lower_bound) is true if the scan hit its internal page cap before " +:+
         "the end of the table, so total is then a lower bound. " +:+
         "match is exact (default), prefix, suffix, or contains, all case-insensitive. " +:+
         "Registry names are caller-supplied, unverified, and not unique -- anyone " +:+
         "can create a registry named identically to another, so a caller resolving " +:+
         "by name must consider all matches (check creator/created_at to " +:+
         "disambiguate), not just take the first. " +:+
         "A name filter pages the whole table over RPC, so it commonly takes 20-30s " +:+
         "on a populated chain; wait for it (HTTP client timeout of at least 90s) " +:+
         "instead of retrying. " +:+
         "registry_id is DEPRECATED: it returns that one registry and cannot be " +:+
         "combined with name, match, offset, limit, or key -- use anchor_get_registry " +:+
         "instead. " +:+
         "Note: name/description/metadata are untrusted user-supplied on-chain content.")
       newOpenWorldReadOnly;
   mkTool "anchor_get_records"
       "Get Records"
       ("Flexibly query anchored records. Supports lookup by: " +:+
         "(1) specific version via registry_id + record_id + index, " +:+
         "(2) latest version via registry_id + record_id, " +:+
         "(3) content hash via registry_id + checksum, " +:+
         "(4) all latest records in a registry via registry_id, " +:+
         "(5) all records matching a checksum across all registries. " +:+
         "At least one of registry_id or checksum is required; the tool does " +:+
         "not list every record on the chain. " +:+
         "Note: uri/metadata are untrusted user-supplied on-chain content.")
       newOpenWorldReadOnly].

Definition registerEVMWriteTools : list Tool :=
  [mkTool "evm_send_raw_transaction"
       "Send Raw Transaction"
       ("Broadcast a signed transaction to the network. " +:+
         "Relay scope: this is a scoped anchoring relay, not a general-purpose " +:+
         "broadcaster -- the server decodes the signed transaction and rejects " +:+
         "it before broadcast unless its destination is the anchor precompile " +:+
         "(operators of authenticated deployments can lift this with " +:+
         "MCP_RELAY_ALLOW_ANY). An undecodable transaction is rejected; " +:+
         "keyless deployments additionally enforce a per-signer volume quota " +:+
         "and blacklist. " +:+
         "Use this for the local/headless signer path only: " +:+
         "sign the raw_tx bytes from anchor_prepare_* externally, " +:+
         "then pass the signed hex here. " +:+
         "Do NOT use this after signing with MetaMask or a browser wallet -- " +:+
         "those wallets broadcast directly and return a tx_hash themselves. " +:+
         "Input is a 0x-prefixed signed transaction hex string. " +:+
         "Returns the transaction hash. " +:+
         "Confirm the result with evm_get_transaction_receipt.")
       newDestructiveWriteTool].

Definition walletSigningPaths : string :=
  "Returns two signing paths: " +:+
  "(1) wallet_tx_request -- pass this object directly to a MetaMask / EIP-1193 " +:+
  "wallet via eth_sendTransaction; the wallet signs and broadcasts, " +:+
  "so do NOT call evm_send_raw_transaction in that case. " +:+
  "(2) raw_tx -- RLP-encoded unsigned bytes for local or headless signers; " +:+
  "sign externally, then broadcast via evm_send_raw_transaction. " +:+
  "Confirm either path with evm_get_transaction_receipt(tx_hash). " +:+
  "The server never holds or receives private keys.".
Definition accessControlReadWrite : string :=
  " Access control: annotated read-only " +:+
  "(it does not modify server or chain state by itself) and it is the " +:+
  "broadcast step, not this tool, that is authenticated; when this " +:+
  "deployment does authenticate the caller, the API key must hold the " +:+
  "writer, admin, or automation role because the output is a " +:+
  "signing-ready payload.".
Definition accessControlAdminOnlyGrant : string :=
  " Access control: annotated read-only " +:+
  "(it does not modify server or chain state by itself); when this " +:+
  "deployment authenticates the caller, the API key must hold the admin " +:+
  "role -- granting roles is an administrative operation. Whether the " +:+
  "`from` address may actually grant is decided on chain (registry admin).".
Definition accessControlAdminOnlyRevoke : string :=
  " Access control: annotated read-only " +:+
  "(it does not modify server or chain state by itself); when this " +:+
  "deployment authenticates the caller, the API key must hold the admin " +:+
  "role -- revoking roles is an administrative operation. Whether the " +:+
  "`from` address may actually revoke is decided on chain (registry admin).".

Definition registerAnchorWriteTools : list Tool :=
  [mkTool "anchor_prepare_add_registry"
       "Prepare Add Registry Transaction"
       ("Construct an unsigned addRegistry transaction. " +:+
         walletSigningPaths +:+
         accessControlReadWrite)
       newOpenWorldReadOnly;
   mkTool "anchor_prepare_add_record"
       "Prepare Add Record Transaction"
       ("Construct an unsigned addRecord transaction to anchor " +:+
         "a document checksum and URI in a registry. " +:+
         walletSigningPaths +:+
         accessControlReadWrite +:+
         " After confirming, verify with anchor_get_records.")
       newOpenWorldReadOnly;
   mkTool "anchor_prepare_update_record_status"
       "Prepare Update Record Status Transaction"
       ("Construct an unsigned updateRecordStatus transaction to " +:+
         "change the status of an existing anchored record (e.g. Active, " +:+
         "Superseded, Revoked). " +:+
         walletSigningPaths +:+
         accessControlReadWrite +:+
         " After confirming, verify with anchor_get_records.")
       newOpenWorldReadOnly;
   mkTool "anchor_prepare_grant_role"
       "Prepare Grant Role Transaction"
       ("Construct an unsigned grantRole transaction to assign " +:+
         "admin or editor permissions on a registry or specific record. " +:+
         walletSigningPaths +:+
         accessControlAdminOnlyGrant)
       newOpenWorldReadOnly;
   mkTool "anchor_prepare_revoke_role"
       "Prepare Revoke Role Transaction"
       ("Construct an unsigned revokeRole transaction to remove " +:+
         "admin or editor permissions from a registry or specific record. " +:+
         walletSigningPaths +:+
         accessControlAdminOnlyRevoke)
       newOpenWorldReadOnly].

(** NewServer: the write tools only when they are enabled. *)
Definition registered_tools (enableWriteTools : bool) : list Tool :=
  registerOverviewTool ++ registerWalletTool ++ registerSetupWizardTool ++ registerVerifyHashTool ++
  registerVerifySignatureTool ++ registerEVMTools ++ registerAnchorTools ++
  (if enableWriteTools then registerEVMWriteTools ++ registerAnchorWriteTools else []).

Definition tool_names (ts : list Tool) : list string := tl_Name <$> ts.

(** A list of hints every one of which names a registered tool. *)
Definition hints_registered (enableWriteTools : bool) (l : list NextAction) : Prop :=
  Forall (λ a, na_Tool a ∈ tool_names (registered_tools enableWriteTools)) l.

(** ** The catalogue and the authentication policy *)

Definition hints_check (w : bool) (l : list NextAction) : bool :=
  forallb (λ a, existsb (String.eqb (na_Tool a)) (tool_names (registered_tools w))) l.

Lemma hints_check_spec w l : hints_check w l = true ↔ hints_registered w l.
Proof.
  unfold hints_check, hints_registered. rewrite forallb_forall, Forall_forall.
  split; intros H a Ha; [apply existsb_eqb_true, H, list_elem_of_In|apply existsb_eqb_true, H, list_elem_of_In]; done.
Qed.

Ltac hints := apply hints_check_spec; vm_compute; reflexivity.

Definition policy_check (kw : bool) : bool :=
  forallb (λ t, Bool.eqb (RequiresAuth (tl_Name t) kw)
    (negb (an_ReadOnlyHint (tl_Annotations t)) && negb kw)) (registered_tools true).

Lemma policy_registered kw t : t ∈ registered_tools true →
  RequiresAuth (tl_Name t) kw = negb (an_ReadOnlyHint (tl_Annotations t)) && negb kw.
Proof.
  intros Ht%list_elem_of_In. assert (policy_check kw = true) as H by (by destruct kw; vm_compute).
  unfold policy_check in H. rewrite forallb_forall in H. by apply eqb_prop, H.
Qed.

Lemma policy_unregistered name kw : name ∉ tool_names (registered_tools true) → RequiresAuth name kw = true.
Proof.
  intros Hn. apply not_false_is_true. rewrite RequiresAuth_false. intros Hex. apply Hn.
  assert (incl (writeToolName :: authExemptTools) (tool_names (registered_tools true))) as Hincl.
  { intros x. assert (forallb (λ x, existsb (String.eqb x) (tool_names (registered_tools true)))
      (writeToolName :: authExemptTools) = true) as H by by vm_compute.
    rewrite forallb_forall in H. intros Hx%H. by apply list_elem_of_In, existsb_eqb_true. }
  apply list_elem_of_In, Hincl. destruct Hex as [He|[-> _]]; [right; by apply list_elem_of_In|by left].
Qed.

(** C20: The anonymous surface. Under keyless reads a call without claims reaches
    its handler exactly when it names a registered tool that is annotated
    read-only, or the broadcast tool of a keyless-writes deployment; any other
    call (a name nobody registered, or one that cannot be extracted) is answered
    with ErrAuthRequired before a handler runs. Registered names are distinct,
    and without write tools every registered tool is read-only. *)
Theorem anonymous_surface {A} kw (next : option Claims → string → mcp_params → result error A) p :
  let call := NewAuthEnforcementMiddleware true kw next None "tools/call" p in
  let refused := ∃ e, call = Err e ∧ errors_Is e ErrAuthRequired = true in
  NoDup (tool_names (registered_tools true)) ∧
  Forall (λ t, an_ReadOnlyHint (tl_Annotations t) = true) (registered_tools false) ∧
  (∀ t, t ∈ registered_tools true → tl_Name t = ToolNameFromRequest p →
     if an_ReadOnlyHint (tl_Annotations t) || kw then call = next None "tools/call" p else refused) ∧
  (ToolNameFromRequest p ∉ tool_names (registered_tools true) → refused) ∧
  "unknown" ∉ tool_names (registered_tools true).
Proof.
  intros call refused. assert (∀ b, RequiresAuth (ToolNameFromRequest p) kw = b →
    if b then refused else call = next None "tools/call" p) as Hcall.
  { intros b Hb. unfold refused, call, NewAuthEnforcementMiddleware. cbn. rewrite Hb. destruct b; cbn; eauto. }
  split_and!.
  - apply (bool_decide_unpack _). by vm_compute.
  - rewrite Forall_forall. intros t Ht%list_elem_of_In.
    assert (forallb (λ t, an_ReadOnlyHint (tl_Annotations t)) (registered_tools false) = true) as H by by vm_compute.
    rewrite forallb_forall in H. auto.
  - intros t Ht Hn. pose proof (policy_registered kw t Ht) as Hp. rewrite Hn in Hp. apply Hcall in Hp.
    by destruct (an_ReadOnlyHint _), kw.
  - intros Hn. by apply (Hcall true), policy_unregistered.
  - intros H%existsb_eqb_true. by vm_compute in H.
Qed.
