(* ===== verification/KeyStore.v ===== *)
(** API-key storage: entries, the digest index, the legacy migration and the
    file-backed store (internal/mcp/keys.go, managed_keys.go), and the interface
    every backend offers to the authentication path and the admin API
    (keystore_backend.go).

    Times are nanoseconds with 0 for Go's zero time. The clock, the random
    source and the failures of the file system are arguments of each operation;
    an operation runs under its lock, so operations do not interleave. Slices
    are copied before they are changed, as in the code, so entries are values;
    the one in-place rewrite, migrateLegacyEntries, returns the new slice. *)

From S2P Require Import Prelude GoErrors Fs Hex Http Auth.

(** ** Entries *)

Definition keyPrefixLen : nat := 8.

Record KeyEntry := mkEntry {
  ke_ID : string;
  ke_Key : string;                        (* legacy raw key *)
  ke_KeyHash : string;
  ke_KeyPrefix : string;
  ke_Enabled : bool;
  ke_CreatedAt : Z;
  ke_HashVersion : Z;
  ke_WriteApproval : string;
  ke_Roles : list string;
  ke_ExpiresAt : Z
}.

Definition IsZero (t : Z) : bool := t =? 0.

Definition classifyEntry (e : option KeyEntry) (now : Z) : RejectReason :=
  match e with
  | None => RejectNotFound
  | Some e =>
      if negb (ke_Enabled e) then RejectRevoked
      else if negb (IsZero (ke_ExpiresAt e)) && negb (now <? ke_ExpiresAt e) then RejectExpired
      else RejectNone
  end.

Definition keyPrefixOf (rawKey : string) : string :=
  if slen rawKey <=? Z.of_nat keyPrefixLen then rawKey
  else str_take keyPrefixLen rawKey +:+ "...".

Definition NewKeyEntryWithHasher (now : Z) (id rawKey : string) (roles : list string)
    (hasher : option KeyHasher) : KeyEntry :=
  let '(hash, version) := HashForStore hasher rawKey in
  mkEntry id "" hash (keyPrefixOf rawKey) true now version "" roles 0.

Definition NewKeyEntry (now : Z) (id rawKey : string) (roles : list string) : KeyEntry :=
  NewKeyEntryWithHasher now id rawKey roles None.

Definition set_expires (t : Z) (e : KeyEntry) : KeyEntry :=
  mkEntry (ke_ID e) (ke_Key e) (ke_KeyHash e) (ke_KeyPrefix e) (ke_Enabled e) (ke_CreatedAt e)
    (ke_HashVersion e) (ke_WriteApproval e) (ke_Roles e) t.
Definition set_enabled (b : bool) (e : KeyEntry) : KeyEntry :=
  mkEntry (ke_ID e) (ke_Key e) (ke_KeyHash e) (ke_KeyPrefix e) b (ke_CreatedAt e)
    (ke_HashVersion e) (ke_WriteApproval e) (ke_Roles e) (ke_ExpiresAt e).
Definition set_roles (rs : list string) (e : KeyEntry) : KeyEntry :=
  mkEntry (ke_ID e) (ke_Key e) (ke_KeyHash e) (ke_KeyPrefix e) (ke_Enabled e) (ke_CreatedAt e)
    (ke_HashVersion e) (ke_WriteApproval e) rs (ke_ExpiresAt e).

(** ** The digest index *)

Record KeyStore := mkKeyStore {
  byHash : gmap string KeyEntry;
  ks_hasher : option KeyHasher;
  enabledCount : Z
}.

(** The body of migrateLegacyEntries' loop: the entry, and whether it was
    rewritten. *)
Definition migrate_entry (e : KeyEntry) : KeyEntry * bool :=
  if negb (ke_KeyHash e =s "") then (e, false)
  else if ke_Key e =s "" then (e, false)
  else
    (mkEntry (ke_ID e) "" (HashKey (ke_Key e))
       (if ke_KeyPrefix e =s "" then keyPrefixOf (ke_Key e) else ke_KeyPrefix e)
       (ke_Enabled e) (ke_CreatedAt e) (ke_HashVersion e) (ke_WriteApproval e)
       (ke_Roles e) (ke_ExpiresAt e), true).

(** migrateLegacyEntries: the rewritten slice, changed, count. *)
Fixpoint migrateLegacyEntries (entries : list KeyEntry) : list KeyEntry * bool * Z :=
  match entries with
  | [] => ([], false, 0)
  | e :: rest =>
      let '(e', ch) := migrate_entry e in
      let '(rest', changed, count) := migrateLegacyEntries rest in
      (e' :: rest', ch || changed, (if ch then 1 else 0) + count)
  end.

Definition index_entry (ks : gmap string KeyEntry * Z) (e : KeyEntry) : gmap string KeyEntry * Z :=
  if negb (ke_KeyHash e =s "")
  then (<[ke_KeyHash e := e]> ks.1, if ke_Enabled e then ks.2 + 1 else ks.2)
  else ks.

(** NewKeyStoreWithHasher: the store and the entries as normalised in place. *)
Definition NewKeyStoreWithHasher (entries : list KeyEntry) (hasher : option KeyHasher)
    : KeyStore * list KeyEntry :=
  let '(entries, _, _) := migrateLegacyEntries entries in
  let '(m, n) := foldl index_entry (∅, 0) entries in
  (mkKeyStore m hasher n, entries).

Fixpoint first_hit (m : gmap string KeyEntry) (cands : list HashCandidate) : option KeyEntry :=
  match cands with
  | [] => None
  | c :: cs => match m !! hc_Hash c with Some e => Some e | None => first_hit m cs end
  end.

Definition KeyStore_Lookup (ks : KeyStore) (rawKey : string) : option KeyEntry :=
  first_hit (byHash ks) (Candidates (ks_hasher ks) rawKey).

Definition KeyStore_Empty (ks : KeyStore) : bool := enabledCount ks =? 0.

(** ** The keys file *)

Definition keys_world : Type := world (list KeyEntry).

Definition loadKeysFromPath (env : os_env) (path : string) (w : keys_world)
    : result error (list KeyEntry) :=
  match ReadFile env path w with
  | Err e => Err (Wrap "read keys file: " e "")
  | Ok (Raw _) => Err (Wrap "parse keys file: " (Opaque "invalid character in JSON text") "")
  | Ok (Parsed entries) =>
      let legacyIDs := ke_ID <$> filter (λ e, ke_WriteApproval e ≠ "") entries in
      if negb (bool_decide (legacyIDs = [])) then
        Err (Wrap ("key store " +:+ dq +:+ path +:+ dq
                   +:+ ": entries with retired write_approval field: [" +:+ join " " legacyIDs +:+ "]: ")
               ErrLegacyKeyWriteApproval "")
      else Ok entries
  end.

Definition LoadKeysFile (env : os_env) (path : string) (w : keys_world)
    : result error (list KeyEntry) :=
  match loadKeysFromPath env path w with
  | Ok entries => Ok entries
  | Err primaryErr =>
      let tmpPath := path +:+ ".tmp" in
      if stat_ok env tmpPath w then
        match loadKeysFromPath env tmpPath w with
        | Ok tmpEntries => Ok tmpEntries
        | Err _ => Err primaryErr
        end
      else Err primaryErr
  end.

Definition SaveKeysFile (env : os_env) (path : string) (entries : list KeyEntry) (w : keys_world)
    : option error * keys_world := save_file env "keys" path entries w.

(** base64.RawURLEncoding.EncodeToString *)
Definition b64_char (i : Z) : ascii :=
  byte_of (if i <? 26 then 65 + i else if i <? 52 then 71 + i else if i <? 62 then i - 4
           else if i =? 62 then 45 else 95).

Fixpoint b64_encode (s : string) : string :=
  match s with
  | String a (String b (String c s')) =>
      let n := byte_val a * 65536 + byte_val b * 256 + byte_val c in
      String (b64_char (n / 262144)) (String (b64_char (n / 4096 mod 64))
        (String (b64_char (n / 64 mod 64)) (String (b64_char (n mod 64)) (b64_encode s'))))
  | String a (String b EmptyString) =>
      let n := byte_val a * 256 + byte_val b in
      String (b64_char (n / 1024)) (String (b64_char (n / 16 mod 64))
        (String (b64_char (n mod 16 * 4)) EmptyString))
  | String a EmptyString =>
      String (b64_char (byte_val a / 4)) (String (b64_char (byte_val a mod 4 * 16)) EmptyString)
  | EmptyString => EmptyString
  end.

(** GenerateKey over the outcome of crypto/rand ([None] when it fails). *)
Definition GenerateKey (random : option string) : result error string :=
  match random with
  | None => Err (Wrap "generate random key: " (Opaque "entropy source failed") "")
  | Some b => Ok (b64_encode b)
  end.

(** ** Interface *)

Record KeySummary := mkSummary {
  su_ID : string; su_Enabled : bool; su_CreatedAt : Z; su_Roles : list string;
  su_KeyPrefix : string; su_ExpiresAt : Z
}.

Record KeyCreateResult := mkCreate { cr_Summary : KeySummary; cr_Key : string }.

Record KeyUpdate := mkUpdate {
  up_Enabled : option bool; up_Roles : option (list string); up_ExpiresAt : option Z
}.

Definition summarize (e : KeyEntry) : KeySummary :=
  mkSummary (ke_ID e) (ke_Enabled e) (ke_CreatedAt e) (ke_Roles e) (ke_KeyPrefix e) (ke_ExpiresAt e).

Definition apply_update (upd : KeyUpdate) (e : KeyEntry) : KeyEntry :=
  let e := match up_Enabled upd with Some b => set_enabled b e | None => e end in
  let e := match up_Roles upd with Some rs => set_roles rs e | None => e end in
  match up_ExpiresAt upd with Some t => set_expires t e | None => e end.

(** fmt.Errorf(client %q: %w, clientID, sentinel) *)
Definition client_err (clientID : string) (s : sentinel) : error :=
  Wrap ("client " +:+ dq +:+ clientID +:+ dq +:+ ": ") s "".

(** What one call sees of the outside: the clock and the random bytes. *)
Record call_env := mkCall { ce_now : Z; ce_random : option string }.

(** KeyStoreBackend: [S] is the backend's state, [E] its failure oracle. *)
Class KeyStoreBackend (S E : Type) := {
  kb_Lookup : E → Z → string → S → option KeyEntry * RejectReason * S;
  kb_Empty : E → S → bool;
  kb_List : E → S → list KeySummary;
  kb_Create : E → call_env → string → list string → Z → S → result error KeyCreateResult * S;
  kb_Update : E → string → KeyUpdate → S → result error KeySummary * S;
  kb_Delete : E → string → S → option error * S;
  kb_ActiveCount : E → S → Z;
  kb_TotalCount : E → S → Z
}.

(** KeyLookupAdapter: the bridge to the API-key validator. *)
Section Adapter.
Context {S E : Type} `{KeyStoreBackend S E}.

Definition Adapter_Lookup (env : E) (now : Z) (rawKey : string) (s : S)
    : option KeyResult * RejectReason * S :=
  let '(e, reason, s) := kb_Lookup env now rawKey s in
  match reason with
  | RejectNone =>
      match e with
      | Some e => (Some (mkKeyResult (ke_ID e) (ke_KeyHash e) (ke_Roles e)), RejectNone, s)
      | None => (None, RejectNone, s)
      end
  | _ => (None, reason, s)
  end.

(** APIKeyValidator.Validate over a backend. *)
Definition validate_key (hasher : option KeyHasher) (env : E) (now : Z) (token : string) (s : S)
    : result error Claims * S :=
  let '(found, reason, s) := Adapter_Lookup env now token s in
  (Validate hasher (found, reason) token, s).
End Adapter.

(** ** Lemmas: entries and the index *)

(** Nothing left to migrate. *)
Definition normal (e : KeyEntry) : Prop := ke_KeyHash e ≠ "" ∨ ke_Key e = "".

(** Entries that share a digest are equal. *)
Definition hash_fun (es : list KeyEntry) : Prop :=
  ∀ e1 e2, e1 ∈ es → e2 ∈ es → ke_KeyHash e1 = ke_KeyHash e2 → ke_KeyHash e1 ≠ "" → e1 = e2.

Lemma HashKey_nonempty k : HashKey k ≠ "".
Proof.
  intros H. apply (f_equal String.length) in H. unfold HashKey in H.
  by autorewrite with go_rw in H.
Qed.

Lemma candidate_nonempty h k c : c ∈ Candidates h k → hc_Hash c ≠ "".
Proof.
  assert (∀ p, hashKeyHMAC p k ≠ "") as Hp.
  { intros p H. apply (f_equal String.length) in H. unfold hashKeyHMAC in H.
    by autorewrite with go_rw in H. }
  unfold Candidates. rewrite elem_of_cons. intros [->|H]; [apply HashKey_nonempty|].
  destruct h as [[[a|] [p|]]|]; simpl in H; rewrite ?elem_of_cons in H;
    destruct_or?; subst; try apply Hp; by apply not_elem_of_nil in H.
Qed.

(** The digest written at creation is always a candidate at lookup. *)
Lemma HashForStore_candidate h k : (HashForStore h k).1 ∈ hc_Hash <$> Candidates h k.
Proof. destruct h as [[[a|] p]|]; simpl; set_solver. Qed.

Lemma HashForStore_nonempty h k : (HashForStore h k).1 ≠ "".
Proof.
  pose proof (HashForStore_candidate h k) as H. apply list_elem_of_fmap in H as (c & -> & Hc).
  by eapply candidate_nonempty.
Qed.

Lemma migrate_entry_normal e : normal e → migrate_entry e = (e, false).
Proof.
  unfold normal, migrate_entry. intros [H|H].
  - apply String.eqb_neq in H. by rewrite H.
  - rewrite H. by destruct (ke_KeyHash e =s "").
Qed.

Lemma migrate_entry_result e : normal (migrate_entry e).1.
Proof.
  unfold normal, migrate_entry.
  destruct (ke_KeyHash e =s "") eqn:E1; bool_to_prop; simpl; [|auto].
  destruct (ke_Key e =s "") eqn:E2; bool_to_prop; simpl; [auto|]. left. apply HashKey_nonempty.
Qed.

Lemma migrate_spec es : (migrateLegacyEntries es).1.1 = (λ e, (migrate_entry e).1) <$> es.
Proof.
  induction es as [|e es IH]; [done|]. rewrite fmap_cons, <- IH. simpl.
  destruct (migrate_entry e), (migrateLegacyEntries es) as [[? ?] ?]. done.
Qed.

Lemma migrate_normal es : Forall normal es → migrateLegacyEntries es = (es, false, 0).
Proof.
  induction 1 as [|e es He _ IH]; [done|]. simpl. by rewrite migrate_entry_normal, IH.
Qed.

Lemma migrate_result es : Forall normal (migrateLegacyEntries es).1.1.
Proof. rewrite migrate_spec, Forall_fmap. apply Forall_true. intros e. apply migrate_entry_result. Qed.

Lemma index_spec es h e :
  hash_fun es →
  (foldl index_entry (∅, 0) es).1 !! h = Some e ↔ e ∈ es ∧ ke_KeyHash e = h ∧ h ≠ "".
Proof.
  revert e. induction es as [|x es IH] using rev_ind; intros e Hf.
  { simpl. rewrite lookup_empty. set_solver. }
  assert (hash_fun es) as Hf' by (intros ????; apply Hf; set_solver).
  rewrite foldl_app, elem_of_app, list_elem_of_singleton. simpl. unfold index_entry at 1.
  destruct (ke_KeyHash x =s "") eqn:E; bool_to_prop; simpl; [rewrite IH by done; naive_solver|].
  destruct (decide (ke_KeyHash x = h)) as [Heq|Hne].
  - rewrite Heq, lookup_insert_eq. split; [naive_solver|].
    intros ([Hin| ->] & Hh & Hne); [|done]. f_equal.
    apply Hf; [set_solver..|congruence|congruence].
  - rewrite lookup_insert_ne, IH by done. naive_solver.
Qed.

Lemma first_hit_Some m cs e : first_hit m cs = Some e → ∃ c, c ∈ cs ∧ m !! hc_Hash c = Some e.
Proof.
  induction cs as [|c cs IH]; [done|]. simpl. destruct (m !! hc_Hash c) eqn:E.
  - intros [= <-]. exists c. set_solver.
  - intros (c' & ? & ?)%IH. exists c'. set_solver.
Qed.

Lemma first_hit_None m cs : first_hit m cs = None ↔ ∀ c, c ∈ cs → m !! hc_Hash c = None.
Proof.
  induction cs as [|c cs IH]; simpl; [set_solver|]. destruct (m !! hc_Hash c) eqn:E.
  - split; [done|]. intros H. rewrite (H c) in E; [done|set_solver].
  - rewrite IH. setoid_rewrite elem_of_cons. naive_solver.
Qed.

(** The index over [es], as Lookup sees it. *)
Definition lookup_in (h : option KeyHasher) (tok : string) (es : list KeyEntry) (e : KeyEntry) : Prop :=
  e ∈ es ∧ ke_KeyHash e ∈ hc_Hash <$> Candidates h tok.

Lemma KeyStore_Lookup_Some es h tok e :
  Forall normal es → hash_fun es →
  KeyStore_Lookup (NewKeyStoreWithHasher es h).1 tok = Some e → lookup_in h tok es e.
Proof.
  intros Hn Hf. unfold NewKeyStoreWithHasher. rewrite migrate_normal by done.
  destruct (foldl index_entry (∅, 0) es) as [m n] eqn:E. unfold KeyStore_Lookup. cbn [fst byHash ks_hasher].
  intros (c & Hc & Hm)%first_hit_Some.
  replace m with (foldl index_entry (∅, 0) es).1 in Hm by (by rewrite E).
  apply index_spec in Hm as (? & Heq & ?); [|done]. split; [done|].
  apply list_elem_of_fmap. by exists c.
Qed.

Lemma KeyStore_Lookup_None es h tok :
  Forall normal es → hash_fun es →
  KeyStore_Lookup (NewKeyStoreWithHasher es h).1 tok = None ↔ ∀ e, ¬ lookup_in h tok es e.
Proof.
  intros Hn Hf. unfold NewKeyStoreWithHasher. rewrite migrate_normal by done.
  destruct (foldl index_entry (∅, 0) es) as [m n] eqn:E. unfold KeyStore_Lookup. cbn [fst byHash ks_hasher].
  assert (m = (foldl index_entry (∅, 0) es).1) as -> by (by rewrite E).
  rewrite first_hit_None. unfold lookup_in. setoid_rewrite list_elem_of_fmap. split.
  - intros H e (He & c & Heq & Hc). apply H in Hc as Hnone.
    assert ((foldl index_entry (∅, 0) es).1 !! hc_Hash c = Some e) as Hs; [|congruence].
    apply index_spec; [done|]. split_and!; [done..|by eapply candidate_nonempty].
  - intros H c Hc. destruct (_ !! hc_Hash c) as [e|] eqn:El; [|done].
    apply index_spec in El as (He & Heq & _); [|done]. exfalso. apply (H e); eauto.
Qed.

(** Exactly one matching entry: it is the one found. *)
Lemma KeyStore_Lookup_unique es h tok e :
  Forall normal es → hash_fun es → lookup_in h tok es e →
  (∀ e', lookup_in h tok es e' → e' = e) →
  KeyStore_Lookup (NewKeyStoreWithHasher es h).1 tok = Some e.
Proof.
  intros Hn Hf Hin Huniq. destruct (KeyStore_Lookup _ tok) as [e'|] eqn:E.
  - apply KeyStore_Lookup_Some in E; [|done..]. f_equal. auto.
  - pose proof (proj1 (KeyStore_Lookup_None es h tok Hn Hf) E e). done.
Qed.

(** ** What a backend promises *)

(** Equal but for the digest, which a lookup may upgrade. *)
Definition same_identity (x y : KeyEntry) : Prop :=
  ke_ID x = ke_ID y ∧ ke_Enabled x = ke_Enabled y ∧ ke_Roles x = ke_Roles y ∧
  ke_ExpiresAt x = ke_ExpiresAt y.

Definition stored_update (f : Z → Z) (upd : KeyUpdate) : KeyUpdate :=
  mkUpdate (up_Enabled upd) (up_Roles upd) (f <$> up_ExpiresAt upd).

Class KeyStoreLaws (S E : Type) `{KeyStoreBackend S E} := {
  kb_entries : S → list KeyEntry;
  kb_hasher : S → option KeyHasher;
  kb_ok : S → Prop;                      (* the backend's invariant *)
  kb_up : E → Prop;                      (* reads reach the backing store *)
  kb_time : Z → Z;                       (* a time as the backend stores it *)

  kl_time t : kb_time t ≤ t < kb_time t + 1000;

  kl_lookup env now tok s : kb_ok s →
    let '(e, reason, s') := kb_Lookup env now tok s in
    (kb_ok s' ∧ kb_hasher s' = kb_hasher s ∧
     ∀ y, y ∈ kb_entries s' → ∃ x, x ∈ kb_entries s ∧ same_identity y x) ∧
    reason = classifyEntry e now ∧
    match e with
    | Some x => ke_KeyHash x ∈ hc_Hash <$> Candidates (kb_hasher s) tok ∧
        ∃ y, lookup_in (kb_hasher s) tok (kb_entries s) y ∧ same_identity x y
    | None => kb_up env → ∀ y, ¬ lookup_in (kb_hasher s) tok (kb_entries s) y
    end;

  kl_create env c id roles exp s r s' : kb_ok s →
    kb_Create env c id roles exp s = (Ok r, s') →
    (∀ y, y ∈ kb_entries s → ke_KeyHash y ≠ (HashForStore (kb_hasher s) (cr_Key r)).1) →
    kb_ok s' ∧ kb_hasher s' = kb_hasher s ∧ (∀ y, y ∈ kb_entries s → ke_ID y ≠ id) ∧
    ∃ e, (∀ y, y ∈ kb_entries s' ↔ y = e ∨ y ∈ kb_entries s) ∧
      ke_ID e = id ∧ ke_Enabled e = true ∧ ke_Roles e = roles ∧ ke_ExpiresAt e = kb_time exp ∧
      ke_KeyHash e = (HashForStore (kb_hasher s) (cr_Key r)).1;

  kl_create_id env c id roles exp s r s' :
    kb_Create env c id roles exp s = (Ok r, s') → su_ID (cr_Summary r) = id;

  kl_create_err env c id roles exp s e s' : kb_ok s →
    kb_Create env c id roles exp s = (Err e, s') →
    kb_ok s' ∧ kb_hasher s' = kb_hasher s ∧ kb_entries s' = kb_entries s;

  kl_update env id upd s r s' : kb_ok s → kb_Update env id upd s = (Ok r, s') →
    kb_ok s' ∧ kb_hasher s' = kb_hasher s ∧ (∃ e, e ∈ kb_entries s ∧ ke_ID e = id) ∧
    ∀ y, y ∈ kb_entries s' ↔
      (y ∈ kb_entries s ∧ ke_ID y ≠ id) ∨ (∃ e, e ∈ kb_entries s ∧ ke_ID e = id ∧ y = apply_update (stored_update kb_time upd) e);

  kl_update_err env id upd s e s' : kb_ok s → kb_Update env id upd s = (Err e, s') →
    kb_ok s' ∧ kb_hasher s' = kb_hasher s ∧
    ∀ y, y ∈ kb_entries s' → y ∈ kb_entries s ∨
      ∃ x, x ∈ kb_entries s ∧ ke_ID x = id ∧ y = apply_update (stored_update kb_time upd) x;

  kl_update_missing env id upd s e s' : kb_Update env id upd s = (Err e, s') →
    errors_Is e ErrClientMissing = true → kb_entries s' = kb_entries s;

  kl_delete env id s s' : kb_ok s → kb_Delete env id s = (None, s') →
    kb_ok s' ∧ kb_hasher s' = kb_hasher s ∧
    ∀ y, y ∈ kb_entries s' ↔ y ∈ kb_entries s ∧ ke_ID y ≠ id;

  kl_delete_err env id s e s' : kb_ok s → kb_Delete env id s = (Some e, s') →
    kb_ok s' ∧ kb_hasher s' = kb_hasher s ∧ kb_entries s' = kb_entries s;

  kl_unique s x y : kb_ok s → x ∈ kb_entries s → y ∈ kb_entries s → ke_ID x = ke_ID y → x = y
}.

(** What the validator answers for the entry a token belongs to. *)
Definition verdict (e : KeyEntry) (now : Z) : result error Claims :=
  if negb (ke_Enabled e) then Err ErrKeyRevoked
  else if negb (IsZero (ke_ExpiresAt e)) && negb (now <? ke_ExpiresAt e) then Err ErrKeyExpired
  else Ok (mkClaims (ke_ID e) (ke_Roles e)).

Lemma verdict_live e now :
  ke_Enabled e = true →
  verdict e now = if IsZero (ke_ExpiresAt e) || (now <? ke_ExpiresAt e)
                  then Ok (mkClaims (ke_ID e) (ke_Roles e)) else Err ErrKeyExpired.
Proof.
  unfold verdict. intros ->. simpl.
  by destruct (IsZero (ke_ExpiresAt e)), (now <? ke_ExpiresAt e).
Qed.

Section Clients.
Context {S E : Type} `{KeyStoreLaws S E}.

(** A token matched by no entry is rejected; a token matched by one entry gets
    that entry's verdict. *)
Lemma validate_key_none env now tok (s : S) :
  kb_ok s → kb_up env → (∀ y, ¬ lookup_in (kb_hasher s) tok (kb_entries s) y) →
  (validate_key (kb_hasher s) env now tok s).1 = Err ErrInvalidAPIKey.
Proof using All.
  intros Hok Hup Hno. pose proof (kl_lookup env now tok s Hok) as Hl.
  unfold validate_key, Adapter_Lookup. destruct (kb_Lookup env now tok s) as [[e reason] s'].
  destruct Hl as (_ & -> & He). destruct e as [x|]; [|done].
  destruct He as (_ & y & Hy & _). by destruct (Hno y).
Qed.

Lemma validate_key_owner env now tok (s : S) e :
  kb_ok s → kb_up env →
  (∀ y, lookup_in (kb_hasher s) tok (kb_entries s) y ↔ y = e) →
  (validate_key (kb_hasher s) env now tok s).1 = verdict e now.
Proof using All.
  intros Hok Hup Hown. pose proof (kl_lookup env now tok s Hok) as Hl.
  unfold validate_key, Adapter_Lookup. destruct (kb_Lookup env now tok s) as [[x reason] s'].
  destruct Hl as (_ & -> & He). destruct x as [x|]; [|by destruct (He Hup e); apply Hown].
  destruct He as (Hc & y & Hy & Hid & Hen & Hr & Hex). apply Hown in Hy as ->.
  unfold verdict. simpl. rewrite <- Hen, <- Hex, <- Hr, <- Hid.
  destruct (ke_Enabled x); [|done]. simpl.
  destruct (negb _ && negb _); [done|]. unfold Validate.
  simpl (_.2). cbn [fst snd kr_KeyHash kr_ID kr_Roles].
  by rewrite (proj2 (Z.eqb_eq _ _) (proj2 (digest_match_spec _ _) Hc)).
Qed.

(** The entry just created is the only one its token matches. *)
Lemma create_owner env c id roles exp (s s1 : S) r :
  kb_ok s → kb_Create env c id roles exp s = (Ok r, s1) →
  (∀ y, y ∈ kb_entries s → ke_KeyHash y ∉ hc_Hash <$> Candidates (kb_hasher s) (cr_Key r)) →
  kb_ok s1 ∧ kb_hasher s1 = kb_hasher s ∧
  ∃ e, ke_ID e = id ∧ ke_Enabled e = true ∧ ke_Roles e = roles ∧ ke_ExpiresAt e = kb_time exp ∧
    (∀ y, lookup_in (kb_hasher s1) (cr_Key r) (kb_entries s1) y ↔ y = e) ∧ e ∈ kb_entries s1.
Proof using All.
  intros Hok Hc Hfresh.
  destruct (kl_create env c id roles exp s r s1 Hok Hc) as (Hok1 & Hh & Hid & e & Hin & He).
  { intros y Hy Heq. apply (Hfresh y Hy). rewrite Heq. apply HashForStore_candidate. }
  destruct He as (? & ? & ? & ? & Hhash).
  split_and!; [done..|]. exists e. split_and!; try done; [|apply Hin; auto].
  intros y. unfold lookup_in. rewrite Hin, Hh. split; [|intros ->; split; [auto|]].
  - intros [[?|Hy] Hm]; [done|]. by destruct (Hfresh y Hy).
  - rewrite Hhash. apply HashForStore_candidate.
Qed.
End Clients.

Lemma elem_update_id upd e : ke_ID (apply_update upd e) = ke_ID e ∧
  ke_KeyHash (apply_update upd e) = ke_KeyHash e.
Proof. destruct upd as [[] [] []]; done. Qed.

(** C21: Key lifecycle, for every backend. A key that Create issued
    authenticates as exactly its client with exactly its roles until its
    expiry (at the backend's time resolution, less than a microsecond early),
    and is rejected as expired from then on; disabling it makes it
    rejected as revoked; deleting it makes it unknown; changing its roles
    changes exactly the roles it authenticates with. The new raw key must not
    collide with a stored digest. *)
Theorem key_lifecycle {S E} `{KeyStoreLaws S E} env c id roles exp (s s1 : S) r
    (Hok : kb_ok s) (Hcreate : kb_Create env c id roles exp s = (Ok r, s1))
    (Hfresh : ∀ y, y ∈ kb_entries s → ke_KeyHash y ∉ hc_Hash <$> Candidates (kb_hasher s) (cr_Key r)) :
  let auth env s now := (validate_key (kb_hasher s) env now (cr_Key r) s).1 in
  let exp' := kb_time exp in
  exp' ≤ exp < exp' + 1000 ∧
  (∀ env' now, kb_up env' →
     auth env' s1 now = if IsZero exp' || (now <? exp') then Ok (mkClaims id roles) else Err ErrKeyExpired) ∧
  (∀ env2 env' now s2 su, kb_up env' →
     kb_Update env2 id (mkUpdate (Some false) None None) s1 = (Ok su, s2) →
     auth env' s2 now = Err ErrKeyRevoked) ∧
  (∀ env2 env' now s2 su roles', kb_up env' →
     kb_Update env2 id (mkUpdate None (Some roles') None) s1 = (Ok su, s2) →
     auth env' s2 now = if IsZero exp' || (now <? exp') then Ok (mkClaims id roles') else Err ErrKeyExpired) ∧
  (∀ env2 env' now s2, kb_up env' →
     kb_Delete env2 id s1 = (None, s2) → auth env' s2 now = Err ErrInvalidAPIKey).
Proof.
  cbv zeta.
  destruct (create_owner env c id roles exp s s1 r Hok Hcreate Hfresh)
    as (Hok1 & Hh & e & Hid & Hen & Hroles & Hexp & Hown & Hin).
  assert (∀ upd env2 env' now s2 su, kb_up env' → kb_Update env2 id upd s1 = (Ok su, s2) →
    (validate_key (kb_hasher s2) env' now (cr_Key r) s2).1 = verdict (apply_update (stored_update kb_time upd) e) now) as Hupd.
  { intros upd env2 env' now s2 su Hup Hu.
    destruct (kl_update env2 id upd s1 su s2 Hok1 Hu) as (Hok2 & Hh2 & _ & Hin2).
    apply validate_key_owner; [done..|]. intros y. unfold lookup_in. rewrite Hin2, Hh2. split.
    - intros [[[Hy Hne]|(x & Hx & Hxid & ->)] Hc].
      + assert (y = e) as -> by (by apply Hown). done.
      + rewrite (proj2 (elem_update_id _ x)) in Hc. f_equal. by apply Hown.
    - intros ->. rewrite (proj2 (elem_update_id _ e)). split; [right; eauto|].
      by apply (Hown e). }
  split_and!; [apply kl_time|apply kl_time| | | |].
  - intros env' now Hup. rewrite (validate_key_owner env' now _ s1 e), verdict_live by done.
    by rewrite Hexp, Hid, Hroles.
  - intros env2 env' now s2 su Hup Hu. by rewrite (Hupd _ _ _ _ _ _ Hup Hu).
  - intros env2 env' now s2 su roles' Hup Hu. rewrite (Hupd _ _ _ _ _ _ Hup Hu), verdict_live by done.
    simpl. by rewrite Hexp, Hid.
  - intros env2 env' now s2 Hup Hd.
    destruct (kl_delete env2 id s1 s2 Hok1 Hd) as (Hok2 & Hh2 & Hin2).
    apply validate_key_none; [done..|]. intros y [Hy Hc]. apply Hin2 in Hy as [Hy Hne].
    apply Hne. assert (y = e) as ->; [|done]. apply Hown. split; [done|]. by rewrite <- Hh2.
Qed.

(** An accepted token is that of an enabled, unexpired entry. *)
Lemma validate_key_sound {S E} `{KeyStoreLaws S E} env now tok (s : S) c :
  kb_ok s → (validate_key (kb_hasher s) env now tok s).1 = Ok c →
  ∃ e, lookup_in (kb_hasher s) tok (kb_entries s) e ∧ ke_Enabled e = true ∧
    (ke_ExpiresAt e = 0 ∨ now < ke_ExpiresAt e) ∧ c = mkClaims (ke_ID e) (ke_Roles e).
Proof.
  intros Hok. pose proof (kl_lookup env now tok s Hok) as Hl.
  unfold validate_key, Adapter_Lookup. destruct (kb_Lookup env now tok s) as [[x reason] s'].
  destruct Hl as (_ & -> & He). destruct x as [x|]; [|done].
  destruct He as (Hc & y & Hy & Hid & Hen & Hr & Hex). unfold classifyEntry.
  destruct (ke_Enabled x) eqn:E1; [|done]. simpl.
  destruct (negb _ && negb _) eqn:E2; [done|].
  unfold Validate. cbn [fst snd kr_KeyHash kr_ID kr_Roles].
  destruct (Z.eqb _ _); [|done]. intros [= <-]. exists y.
  split_and!; [done|congruence| |congruence].
  unfold IsZero in E2. apply andb_false_iff in E2 as [E2|E2]; bool_to_prop; lia.
Qed.

(** No authority without a live key, for every backend, and isolation
    between clients. A token is accepted only as the client and with the roles
    of a stored entry that holds one of its digests, is enabled and has not
    expired; and updating or deleting another client's key does not change
    what a key's owner gets. *)
Theorem key_authority {S E} `{KeyStoreLaws S E} env now tok (s : S)
    (Hok : kb_ok s) (Hup : kb_up env) :
  let auth s := (validate_key (kb_hasher s) env now tok s).1 in
  (∀ c, auth s = Ok c →
     ∃ e, lookup_in (kb_hasher s) tok (kb_entries s) e ∧ ke_Enabled e = true ∧
       (ke_ExpiresAt e = 0 ∨ now < ke_ExpiresAt e) ∧ c = mkClaims (ke_ID e) (ke_Roles e)) ∧
  (∀ e other, (∀ y, lookup_in (kb_hasher s) tok (kb_entries s) y ↔ y = e) → ke_ID e ≠ other →
     (∀ env2 upd su s2, kb_Update env2 other upd s = (Ok su, s2) → auth s2 = auth s) ∧
     (∀ env2 s2, kb_Delete env2 other s = (None, s2) → auth s2 = auth s)).
Proof.
  cbv zeta. split.
  - intros c. by apply validate_key_sound.
  - intros e other Hown Hne. rewrite (validate_key_owner env now tok s e) by done. split.
    + intros env2 upd su s2 Hu.
      destruct (kl_update env2 other upd s su s2 Hok Hu) as (Hok2 & Hh2 & _ & Hin2).
      apply validate_key_owner; [done..|]. intros y. unfold lookup_in. rewrite Hin2, Hh2. split.
      * intros [[[Hy _]|(x & Hx & Hxid & ->)] Hc]; [by apply Hown|].
        rewrite (proj2 (elem_update_id _ x)) in Hc.
        assert (x = e) by (by apply Hown). congruence.
      * intros ->. destruct (proj2 (Hown e) eq_refl). auto.
    + intros env2 s2 Hd. destruct (kl_delete env2 other s s2 Hok Hd) as (Hok2 & Hh2 & Hin2).
      apply validate_key_owner; [done..|]. intros y. unfold lookup_in. rewrite Hin2, Hh2. split.
      * intros [[Hy _] Hc]. by apply Hown.
      * intros ->. destruct (proj2 (Hown e) eq_refl). auto.
Qed.
