(* ===== verification/ManagedKeys.v ===== *)
(** The file-backed key store (internal/mcp/managed_keys.go): loading with the
    one-shot migration, lookups and the CRUD operations, as an instance of the
    key-store interface, with its invariant and its laws. *)

From S2P Require Import Prelude GoErrors Fs Hex Http Auth KeyStore.

Record ManagedKeyStore := mkManaged {
  mk_store : KeyStore;
  mk_entries : list KeyEntry;
  mk_path : string;
  mk_hasher : option KeyHasher;
  mk_disk : keys_world
}.

Definition preMigrationBackupSuffix : string := ".pre-migration".

Definition writePreMigrationBackup (env : os_env) (path : string) (w : keys_world)
    : option error * keys_world :=
  let backupPath := path +:+ preMigrationBackupSuffix in
  if stat_ok env backupPath w then (None, w)
  else
    match ReadFile env path w with
    | Err e => (Some (Wrap "read original for backup: " e ""), w)
    | Ok original =>
        match WriteFile env backupPath original w with
        | (Some e, w) => (Some (Wrap "write backup: " e ""), w)
        | (None, w) => (None, w)
        end
    end.

Definition NewManagedKeyStoreWithHasher (env : os_env) (path : string) (hasher : option KeyHasher)
    (w : keys_world) : result error ManagedKeyStore :=
  let? entries :=
    match LoadKeysFile env path w with
    | Ok es => Ok es
    | Err e => if errors_Is e FsErrNotExist then Ok [] else Err e
    end in
  let '(entries, migrated, _) := migrateLegacyEntries entries in
  let w :=
    if migrated then
      match writePreMigrationBackup env path w with
      | (Some _, w) => w
      | (None, w) => (SaveKeysFile env path entries w).2
      end
    else w in
  let '(store, entries) := NewKeyStoreWithHasher entries hasher in
  Ok (mkManaged store entries path hasher w).

Definition NewManagedKeyStoreFromEntriesWithHasher (path : string) (entries : list KeyEntry)
    (hasher : option KeyHasher) (w : keys_world) : ManagedKeyStore :=
  let '(store, entries) := NewKeyStoreWithHasher entries hasher in
  mkManaged store entries path hasher w.

Definition Managed_Lookup (now : Z) (rawKey : string) (m : ManagedKeyStore)
    : option KeyEntry * RejectReason :=
  let e := KeyStore_Lookup (mk_store m) rawKey in (e, classifyEntry e now).

Definition Managed_Empty (m : ManagedKeyStore) : bool := KeyStore_Empty (mk_store m).

Definition count_if {A} (f : A → bool) (l : list A) : Z :=
  foldl (λ n x, if f x then n + 1 else n) 0 l.

Definition UsableCount (now : Z) (m : ManagedKeyStore) : Z :=
  count_if (λ e, match classifyEntry (Some e) now with RejectNone => true | _ => false end) (mk_entries m).

Definition List_ (m : ManagedKeyStore) : list KeySummary := summarize <$> mk_entries m.

(** m.entries = updated; m.store = NewKeyStoreWithHasher(updated, m.hasher):
    the slice is shared, so the in-place normalisation shows in both. *)
Definition commit (updated : list KeyEntry) (w : keys_world) (m : ManagedKeyStore) : ManagedKeyStore :=
  let '(store, entries) := NewKeyStoreWithHasher updated (mk_hasher m) in
  mkManaged store entries (mk_path m) (mk_hasher m) w.

Definition with_disk (w : keys_world) (m : ManagedKeyStore) : ManagedKeyStore :=
  mkManaged (mk_store m) (mk_entries m) (mk_path m) (mk_hasher m) w.

Definition Create (env : os_env) (c : call_env) (clientID : string) (roles : list string)
    (expiresAt : Z) (m : ManagedKeyStore) : result error KeyCreateResult * ManagedKeyStore :=
  if existsb (λ e, ke_ID e =s clientID) (mk_entries m) then (Err (client_err clientID ErrClientExists), m)
  else
    match GenerateKey (ce_random c) with
    | Err e => (Err e, m)
    | Ok rawKey =>
        let entry := set_expires expiresAt
          (NewKeyEntryWithHasher (ce_now c) clientID rawKey roles (mk_hasher m)) in
        let updated := mk_entries m ++ [entry] in
        match SaveKeysFile env (mk_path m) updated (mk_disk m) with
        | (Some e, w) => (Err (Wrap "persist keys: " e ""), with_disk w m)
        | (None, w) => (Ok (mkCreate (summarize entry) rawKey), commit updated w m)
        end
    end.

(** The index of the first entry with the id ([None] for -1). *)
Fixpoint find_idx (clientID : string) (l : list KeyEntry) : option nat :=
  match l with
  | [] => None
  | e :: l => if ke_ID e =s clientID then Some O else S <$> find_idx clientID l
  end.

Definition Update (env : os_env) (clientID : string) (upd : KeyUpdate) (m : ManagedKeyStore)
    : result error KeySummary * ManagedKeyStore :=
  match find_idx clientID (mk_entries m) with
  | None => (Err (client_err clientID ErrClientMissing), m)
  | Some idx =>
      let updated := alter (apply_update upd) idx (mk_entries m) in
      match SaveKeysFile env (mk_path m) updated (mk_disk m) with
      | (Some e, w) => (Err (Wrap "persist keys: " e ""), with_disk w m)
      | (None, w) =>
          let m' := commit updated w m in
          match mk_entries m' !! idx with
          | Some e => (Ok (summarize e), m')
          | None => (Err (Opaque "index out of range"), m')
          end
      end
  end.

Definition Delete (env : os_env) (clientID : string) (m : ManagedKeyStore)
    : option error * ManagedKeyStore :=
  match find_idx clientID (mk_entries m) with
  | None => (Some (client_err clientID ErrClientMissing), m)
  | Some idx =>
      let updated := take idx (mk_entries m) ++ drop (S idx) (mk_entries m) in
      match SaveKeysFile env (mk_path m) updated (mk_disk m) with
      | (Some e, w) => (Some (Wrap "persist keys: " e ""), with_disk w m)
      | (None, w) => (None, commit updated w m)
      end
  end.

Definition ActiveCount (m : ManagedKeyStore) : Z := count_if ke_Enabled (mk_entries m).
Definition TotalCount (m : ManagedKeyStore) : Z := Z.of_nat (length (mk_entries m)).

#[export] Instance Managed_Backend : KeyStoreBackend ManagedKeyStore os_env := {
  kb_Lookup _ now rawKey m := (Managed_Lookup now rawKey m, m);
  kb_Empty _ := Managed_Empty;
  kb_List _ := List_;
  kb_Create := Create;
  kb_Update := Update;
  kb_Delete := Delete;
  kb_ActiveCount _ := ActiveCount;
  kb_TotalCount _ := TotalCount
}.

(** ** The invariant and its preservation *)

(** Distinct ids and distinct digests. *)
Definition entries_ok (es : list KeyEntry) : Prop :=
  Forall normal es ∧ hash_fun es ∧ NoDup (ke_ID <$> es).

(** The in-memory index is the one built from the entries. *)
Definition managed_ok (m : ManagedKeyStore) : Prop :=
  entries_ok (mk_entries m) ∧
  mk_store m = (NewKeyStoreWithHasher (mk_entries m) (mk_hasher m)).1.

Lemma NewKeyStoreWithHasher_normal es h :
  Forall normal es → (NewKeyStoreWithHasher es h).2 = es.
Proof.
  intros Hn. unfold NewKeyStoreWithHasher. rewrite migrate_normal by done.
  by destruct (foldl index_entry (∅, 0) es).
Qed.

Lemma commit_spec es w m :
  Forall normal es →
  commit es w m = mkManaged (NewKeyStoreWithHasher es (mk_hasher m)).1 es (mk_path m) (mk_hasher m) w.
Proof.
  intros Hn. unfold commit. pose proof (NewKeyStoreWithHasher_normal es (mk_hasher m) Hn).
  destruct (NewKeyStoreWithHasher es (mk_hasher m)). simpl in *. by subst.
Qed.

Lemma commit_ok es w m : entries_ok es → managed_ok (commit es w m).
Proof. intros Hes. rewrite commit_spec by apply Hes. by split. Qed.

Lemma find_idx_Some id l i :
  find_idx id l = Some i → ∃ e, l !! i = Some e ∧ ke_ID e = id.
Proof.
  revert i. induction l as [|e l IH]; intros i; [done|]. simpl.
  destruct (ke_ID e =s id) eqn:E; bool_to_prop.
  - intros [= <-]. eauto.
  - destruct (find_idx id l) as [j|]; [|done]. intros [= <-]. eauto.
Qed.

Lemma find_idx_None id l : find_idx id l = None ↔ ∀ e, e ∈ l → ke_ID e ≠ id.
Proof.
  induction l as [|e l IH]; simpl; [set_solver|].
  destruct (ke_ID e =s id) eqn:E; bool_to_prop.
  - split; [done|]. intros H. destruct (H e); [set_solver|done].
  - setoid_rewrite elem_of_cons. destruct (find_idx id l) as [j|]; simpl.
    + split; [done|]. intros H. assert (Some j = None) as [=]. apply IH. auto.
    + split; [|done]. intros _ e' [->|He']; [done|]. by apply IH.
Qed.

(** With distinct ids, an entry is determined by its id. *)
Lemma NoDup_ids_unique l x y : NoDup (ke_ID <$> l) → x ∈ l → y ∈ l → ke_ID x = ke_ID y → x = y.
Proof.
  intros Hnd Hx Hy Hid. apply list_elem_of_lookup in Hx as [i Hi], Hy as [j Hj].
  assert (i = j) as ->; [|congruence].
  eapply (NoDup_lookup (ke_ID <$> l)); [done|rewrite list_lookup_fmap, Hi; done|].
  rewrite list_lookup_fmap, Hj. simpl. by rewrite Hid.
Qed.

Lemma normal_update upd e : normal e → normal (apply_update upd e).
Proof. intros He. destruct upd as [[] [] []]; exact He. Qed.

Lemma alter_entries_ok upd i l : entries_ok l → entries_ok (alter (apply_update upd) i l).
Proof.
  intros (Hn & Hf & Hnd). split_and!.
  - apply Forall_alter; [done|]. intros e _. apply normal_update.
  - intros e1 e2 He1 He2 Heq Hne.
    apply list_elem_of_lookup in He1 as [i1 H1], He2 as [i2 H2].
    rewrite list_lookup_alter in H1, H2.
    assert (∀ j x, (if decide (i = j) then apply_update upd <$> l !! i else l !! j) = Some x →
      ∃ y, l !! j = Some y ∧ ke_KeyHash x = ke_KeyHash y ∧ ke_ID x = ke_ID y) as Hget.
    { intros j x. destruct (decide (i = j)) as [<-|]; [|intros ->; eauto].
      destruct (l !! i) as [y|]; [|done]. intros [= <-]. exists y.
      by destruct (elem_update_id upd y). }
    destruct (Hget _ _ H1) as (y1 & Hy1 & Eh1 & Ei1), (Hget _ _ H2) as (y2 & Hy2 & Eh2 & Ei2).
    assert (y1 = y2) as ->.
    { apply Hf; [by eapply list_elem_of_lookup_2..|congruence|congruence]. }
    assert (i1 = i2) as <-; [|congruence].
    eapply (NoDup_lookup (ke_ID <$> l)); [done|rewrite list_lookup_fmap, Hy1; done|].
    by rewrite list_lookup_fmap, Hy2.
  - replace (ke_ID <$> alter (apply_update upd) i l) with (ke_ID <$> l); [done|].
    apply list_eq. intros j. rewrite !list_lookup_fmap, list_lookup_alter.
    destruct (decide (i = j)) as [<-|]; [|done]. destruct (l !! i); [|done]. simpl.
    by rewrite (proj1 (elem_update_id upd _)).
Qed.

Lemma alter_elem upd i l e :
  NoDup (ke_ID <$> l) → l !! i = Some e →
  ∀ y, y ∈ alter (apply_update upd) i l ↔
    (y ∈ l ∧ ke_ID y ≠ ke_ID e) ∨ y = apply_update upd e.
Proof.
  intros Hnd Hi y. split.
  - intros [j Hj]%list_elem_of_lookup. rewrite list_lookup_alter in Hj.
    destruct (decide (i = j)) as [<-|Hij]; [rewrite Hi in Hj; naive_solver|].
    left. split; [by eapply list_elem_of_lookup_2|]. intros Hid. apply Hij.
    eapply (NoDup_lookup (ke_ID <$> l)); [done|rewrite list_lookup_fmap, Hi; done|].
    rewrite list_lookup_fmap, Hj. simpl. by rewrite Hid.
  - intros [[[j Hj]%list_elem_of_lookup Hne]| ->].
    + apply list_elem_of_lookup. exists j. rewrite list_lookup_alter.
      destruct (decide (i = j)) as [->|]; [congruence|done].
    + apply list_elem_of_lookup. exists i. rewrite list_lookup_alter.
      rewrite decide_True by done. by rewrite Hi.
Qed.

Lemma remove_entries_ok i l : entries_ok l → entries_ok (take i l ++ drop (S i) l).
Proof.
  intros (Hn & Hf & Hnd).
  assert (take i l ++ drop (S i) l `sublist_of` l) as Hs.
  { rewrite <- (take_drop i l) at 3. apply sublist_app; [done|].
    replace (drop (S i) l) with (drop 1 (drop i l)) by (rewrite drop_drop; f_equal; lia).
    destruct (drop i l); [done|]. by apply sublist_cons. }
  assert (∀ e, e ∈ take i l ++ drop (S i) l → e ∈ l) as Hin by (intros e He; by eapply elem_of_sublist).
  split_and!.
  - rewrite Forall_forall in *. auto.
  - intros ????. apply Hf; auto.
  - eapply sublist_NoDup; [exact Hnd|]. by apply fmap_sublist.
Qed.

Lemma remove_elem i l e :
  NoDup (ke_ID <$> l) → l !! i = Some e →
  ∀ y, y ∈ take i l ++ drop (S i) l ↔ y ∈ l ∧ ke_ID y ≠ ke_ID e.
Proof.
  intros Hnd Hi y. rewrite <- (take_drop_middle l i e) in Hnd at 1 by done.
  rewrite <- (take_drop_middle l i e) at 3 by done.
  rewrite fmap_app, fmap_cons, NoDup_app, NoDup_cons in Hnd.
  destruct Hnd as (_ & Hd & Hne & _). rewrite !elem_of_app, elem_of_cons.
  rewrite list_elem_of_fmap in Hne. setoid_rewrite list_elem_of_fmap in Hd.
  split.
  - intros [Hy|Hy]; (split; [auto|]); intros Hid.
    + apply (Hd (ke_ID e)); [by exists y|]. rewrite elem_of_cons. auto.
    + apply Hne. by exists y.
  - intros [[?|[->|?]] ?]; auto. done.
Qed.

Lemma append_entries_ok l e :
  entries_ok l → normal e → (∀ y, y ∈ l → ke_KeyHash y ≠ ke_KeyHash e) →
  (∀ y, y ∈ l → ke_ID y ≠ ke_ID e) → entries_ok (l ++ [e]).
Proof.
  intros (Hn & Hf & Hnd) He Hh Hid. split_and!.
  - rewrite Forall_app. auto.
  - intros e1 e2 H1 H2 Heq Hne. rewrite elem_of_app, list_elem_of_singleton in H1, H2.
    destruct H1 as [H1| ->], H2 as [H2| ->]; auto; exfalso; [by eapply Hh|].
    by apply (Hh e2 H2).
  - rewrite fmap_app. apply NoDup_app. split_and!; [done| |apply NoDup_singleton].
    intros i (y & -> & Hy)%list_elem_of_fmap. simpl. rewrite list_elem_of_singleton. auto.
Qed.

Lemma existsb_id_false id l :
  existsb (λ e, ke_ID e =s id) l = false ↔ ∀ y, y ∈ l → ke_ID y ≠ id.
Proof.
  induction l as [|e l IH]; simpl; [set_solver|].
  rewrite orb_false_iff, IH, String.eqb_neq. setoid_rewrite elem_of_cons. naive_solver.
Qed.

(** Create on success: the conflict check passed and the new entry is the last. *)
Lemma Create_ok env c id roles exp m r m' :
  Create env c id roles exp m = (Ok r, m') →
  (∀ y, y ∈ mk_entries m → ke_ID y ≠ id) ∧
  ∃ rawKey w, GenerateKey (ce_random c) = Ok rawKey ∧
    let e := set_expires exp (NewKeyEntryWithHasher (ce_now c) id rawKey roles (mk_hasher m)) in
    SaveKeysFile env (mk_path m) (mk_entries m ++ [e]) (mk_disk m) = (None, w) ∧
    r = mkCreate (summarize e) rawKey ∧ m' = commit (mk_entries m ++ [e]) w m.
Proof.
  unfold Create. destruct (existsb _ _) eqn:Ex; [done|]. rewrite existsb_id_false in Ex.
  destruct (GenerateKey _) as [rawKey|]; [|done].
  destruct (SaveKeysFile _ _ _ _) as [[]w] eqn:Es; [done|]. intros [= <- <-].
  split; [done|]. exists rawKey, w. done.
Qed.

Lemma Create_err env c id roles exp m e m' :
  Create env c id roles exp m = (Err e, m') → ∃ w, m' = with_disk w m.
Proof.
  unfold Create. destruct (existsb _ _); [intros [= _ <-]; exists (mk_disk m); by destruct m|].
  destruct (GenerateKey _) as [rawKey|]; [|intros [= _ <-]; exists (mk_disk m); by destruct m].
  destruct (SaveKeysFile _ _ _ _) as [[]w]; intros [=]; subst; eauto.
Qed.

Lemma new_entry_fields now id rawKey roles h exp :
  let e := set_expires exp (NewKeyEntryWithHasher now id rawKey roles h) in
  ke_ID e = id ∧ ke_Enabled e = true ∧ ke_Roles e = roles ∧ ke_ExpiresAt e = exp ∧
  ke_KeyHash e = (HashForStore h rawKey).1 ∧ ke_Key e = "".
Proof. unfold NewKeyEntryWithHasher. by destruct (HashForStore h rawKey). Qed.

Lemma Update_ok env id upd m r m' :
  managed_ok m → Update env id upd m = (Ok r, m') →
  ∃ i e w, mk_entries m !! i = Some e ∧ ke_ID e = id ∧ r = summarize (apply_update upd e) ∧
    SaveKeysFile env (mk_path m) (alter (apply_update upd) i (mk_entries m)) (mk_disk m) = (None, w) ∧
    m' = commit (alter (apply_update upd) i (mk_entries m)) w m.
Proof.
  intros [Hes _]. unfold Update. destruct (find_idx _ _) as [i|] eqn:Ei; [|done].
  apply find_idx_Some in Ei as (e & He & Hid).
  destruct (SaveKeysFile _ _ _ _) as [[]w] eqn:Es; [done|].
  rewrite commit_spec by (by apply alter_entries_ok). cbn [mk_entries].
  rewrite list_lookup_alter, decide_True, He by done. cbn [fmap option_fmap option_map].
  intros [= <- <-]. exists i, e, w. split_and!; try done.
  by rewrite commit_spec by (by apply alter_entries_ok).
Qed.

Lemma Delete_ok env id m m' :
  Delete env id m = (None, m') →
  ∃ i e w, mk_entries m !! i = Some e ∧ ke_ID e = id ∧
    SaveKeysFile env (mk_path m) (take i (mk_entries m) ++ drop (S i) (mk_entries m)) (mk_disk m) = (None, w) ∧
    m' = commit (take i (mk_entries m) ++ drop (S i) (mk_entries m)) w m.
Proof.
  unfold Delete. destruct (find_idx _ _) as [i|] eqn:Ei; [|done].
  apply find_idx_Some in Ei as (e & He & Hid).
  destruct (SaveKeysFile _ _ _ _) as [[]w] eqn:Es; [done|]. intros [= <-]. by exists i, e, w.
Qed.

(** ** The file backend keeps the interface's promises *)

#[export] Program Instance Managed_Laws : KeyStoreLaws ManagedKeyStore os_env := {
  kb_entries := mk_entries;
  kb_hasher := mk_hasher;
  kb_ok := managed_ok;
  kb_up _ := True;
  kb_time t := t
}.
Next Obligation. intros t. simpl. lia. Qed.
Next Obligation.
  intros env now tok m [(Hn & Hf & Hnd) Hs]. simpl. rewrite Hs. split_and!; [by split|done|intros y; by exists y|done|].
  destruct (KeyStore_Lookup _ tok) as [x|] eqn:E.
  - apply KeyStore_Lookup_Some in E as [Hx Hc]; [|done..]. split; [done|]. by exists x.
  - intros _. by apply KeyStore_Lookup_None.
Qed.
Next Obligation.
  intros env c id roles exp m r m' [Hes Hs] Hc Hfresh. simpl in *.
  apply Create_ok in Hc as (Hid & rawKey & w & _ & _ & -> & ->). simpl in Hfresh.
  destruct (new_entry_fields (ce_now c) id rawKey roles (mk_hasher m) exp)
    as (E1 & E2 & E3 & E4 & E5 & E6).
  set (e := set_expires exp _) in *.
  assert (entries_ok (mk_entries m ++ [e])) as Hok.
  { apply append_entries_ok; [done|by right|by rewrite E5|by rewrite E1]. }
  split; [by apply commit_ok|]. rewrite commit_spec by apply Hok. simpl.
  split_and!; [done..|]. exists e. split_and!; try done.
  intros y. rewrite elem_of_app, list_elem_of_singleton. tauto.
Qed.
Next Obligation.
  intros env c id roles exp m r m' Hc. simpl in *.
  apply Create_ok in Hc as (_ & rawKey & w & _ & _ & -> & _). simpl.
  by destruct (new_entry_fields (ce_now c) id rawKey roles (mk_hasher m) exp) as (E1 & _).
Qed.
Next Obligation.
  intros env c id roles exp m e m' Hok Hc. simpl in *.
  by apply Create_err in Hc as (w & ->).
Qed.
Next Obligation.
  intros env id upd m r m' Hok Hu. simpl in *.
  replace (stored_update (λ t, t) upd) with upd by (by destruct upd as [? ? []]).
  apply Update_ok in Hu as (i & e & w & Hi & Hid & _ & _ & ->); [|done].
  destruct Hok as [Hes Hs]. pose proof (alter_entries_ok upd i _ Hes) as Hes'.
  split; [by apply commit_ok|]. rewrite commit_spec by apply Hes'. simpl.
  split_and!; [done|exists e; split; [by eapply list_elem_of_lookup_2|done]|].
  intros y. rewrite (alter_elem upd i _ e) by (try done; apply Hes). rewrite Hid. split.
  - intros [?| ->]; [auto|]. right. exists e. split_and!; [by eapply list_elem_of_lookup_2|done..].
  - intros [?|(x & Hx & Hxid & ->)]; [auto|]. right. f_equal.
    eapply NoDup_ids_unique; [apply Hes|done|by eapply list_elem_of_lookup_2|congruence].
Qed.
Next Obligation.
  intros env id upd m e m' Hok Hu. simpl in *.
  replace (stored_update (λ t, t) upd) with upd by (by destruct upd as [? ? []]). unfold Update in Hu.
  destruct (find_idx id (mk_entries m)) as [i|] eqn:Ei; [|simplify_eq; auto].
  apply find_idx_Some in Ei as (x & Hi & Hid). pose proof (alter_entries_ok upd i _ (proj1 Hok)) as Hes'.
  destruct (SaveKeysFile _ _ _ _) as [[e0|] w]; [simplify_eq; auto|]. cbv zeta in Hu.
  rewrite commit_spec in Hu by apply Hes'. cbn [mk_entries] in Hu.
  by rewrite list_lookup_alter, decide_True, Hi in Hu by done.
Qed.
Next Obligation.
  intros env id upd m e m' Hu Hm. simpl in *. unfold Update in Hu.
  destruct (find_idx _ _); [|by simplify_eq]. destruct (SaveKeysFile _ _ _ _) as [[e0|] w]; [by simplify_eq|].
  cbv zeta in Hu. destruct (mk_entries _ !! _); [done|]. injection Hu as <- <-. done.
Qed.
Next Obligation.
  intros env id m m' Hok Hd. simpl in *.
  apply Delete_ok in Hd as (i & e & w & Hi & Hid & _ & ->).
  destruct Hok as [Hes Hs]. pose proof (remove_entries_ok i _ Hes) as Hes'.
  split; [by apply commit_ok|]. rewrite commit_spec by apply Hes'. simpl.
  split; [done|]. intros y. rewrite (remove_elem i _ e) by (try done; apply Hes). by rewrite Hid.
Qed.
Next Obligation.
  intros env id m e m' Hok Hd. simpl in *. unfold Delete in Hd.
  destruct (find_idx id (mk_entries m)); [|by simplify_eq].
  destruct (SaveKeysFile _ _ _ _) as [[e0|] w]; by simplify_eq.
Qed.
Next Obligation. intros m x y [(_ & _ & Hnd) _]. simpl. by apply NoDup_ids_unique. Qed.

(** ** Durability *)

Inductive mutation :=
| MCreate (c : call_env) (id : string) (roles : list string) (exp : Z)
| MUpdate (id : string) (upd : KeyUpdate)
| MDelete (id : string).

Definition err_of {E A} (r : result E A) : option E :=
  match r with Ok _ => None | Err e => Some e end.

Definition mutate (env : os_env) (op : mutation) (m : ManagedKeyStore) : option error * ManagedKeyStore :=
  match op with
  | MCreate c id roles exp => let '(r, m) := Create env c id roles exp m in (err_of r, m)
  | MUpdate id upd => let '(r, m) := Update env id upd m in (err_of r, m)
  | MDelete id => Delete env id m
  end.

Definition file_of (m : ManagedKeyStore) : option (content (list KeyEntry)) :=
  w_files (mk_disk m) !! mk_path m.

Definition no_approval (e : KeyEntry) : Prop := ke_WriteApproval e = "".

Lemma no_approval_update upd e : no_approval e → no_approval (apply_update upd e).
Proof. intros He. destruct upd as [[] [] []]; exact He. Qed.

(** A mutation either stops before writing, or writes normal entries [es] and
    commits them exactly when the write succeeded. *)
Lemma mutate_shape env op m err m' :
  managed_ok m → mutate env op m = (err, m') →
  (m' = m ∧ is_Some err) ∨
  (∃ es serr w, (Forall normal es ∧ (Forall no_approval (mk_entries m) → Forall no_approval es)) ∧
     SaveKeysFile env (mk_path m) es (mk_disk m) = (serr, w) ∧
     match serr with
     | None => err = None ∧ m' = commit es w m
     | Some _ => is_Some err ∧ m' = with_disk w m
     end).
Proof.
  intros [Hes Hs] Hmut. destruct op as [c id roles exp|id upd|id]; simpl in Hmut.
  - unfold Create in Hmut. destruct (existsb _ _); [simplify_eq/=; eauto|].
    destruct (GenerateKey _) as [rawKey|]; [|simplify_eq/=; eauto].
    destruct (new_entry_fields (ce_now c) id rawKey roles (mk_hasher m) exp) as (_&_&_&_&_&E6).
    set (e := set_expires exp _) in *.
    assert (Forall normal (mk_entries m ++ [e]) ∧
      (Forall no_approval (mk_entries m) → Forall no_approval (mk_entries m ++ [e]))) as Hnew.
    { split; [|intros Hwa]; apply Forall_app; (split; [first [apply Hes|exact Hwa]|]);
        apply Forall_singleton; [by right|]. unfold e, NewKeyEntryWithHasher.
      by destruct (HashForStore _ _). }
    destruct (SaveKeysFile _ _ _ _) as [[se|] w] eqn:Es; simplify_eq/=; right;
      exists (mk_entries m ++ [e]); [exists (Some se)|exists None]; exists w; eauto.
  - unfold Update in Hmut. destruct (find_idx id (mk_entries m)) as [i|] eqn:Ei; [|simplify_eq/=; eauto].
    apply find_idx_Some in Ei as (e & He & Hid).
    pose proof (alter_entries_ok upd i _ Hes) as Hes'. set (es := alter _ i _) in *.
    assert (Forall normal es ∧ (Forall no_approval (mk_entries m) → Forall no_approval es)) as Hnew.
    { split; [apply Hes'|]. intros Hwa. apply Forall_alter; [done|]. intros x _. apply no_approval_update. }
    destruct (SaveKeysFile _ _ _ _) as [[se|] w] eqn:Es; right; exists es;
      [exists (Some se)|exists None]; exists w; [simplify_eq/=; eauto|].
    rewrite commit_spec in * by apply Hes'. simpl in Hmut. unfold es in Hmut.
    rewrite list_lookup_alter, decide_True, He in Hmut by done. by simplify_eq/=.
  - unfold Delete in Hmut. destruct (find_idx id (mk_entries m)) as [i|] eqn:Ei; [|simplify_eq/=; eauto].
    pose proof (remove_entries_ok i _ Hes) as Hes'. set (es := take i _ ++ _) in *.
    assert (Forall normal es ∧ (Forall no_approval (mk_entries m) → Forall no_approval es)) as Hnew.
    { split; [apply Hes'|]. intros Hwa. apply Forall_app. split; [by apply Forall_take|by apply Forall_drop]. }
    destruct (SaveKeysFile _ _ _ _) as [[se|] w] eqn:Es; simplify_eq/=; right;
      exists es; [exists (Some se)|exists None]; exists w; eauto.
Qed.

(** C22: Atomic, durable mutations. Create, Update and Delete either succeed,
    and then the keys file holds exactly the new in-memory entries; or fail,
    and then the entries, the lookup index and the keys file are unchanged. In
    between, every state of the file system holds either the old or the new
    keys file, never a partial one, so a crash loses at most the operation. *)
Theorem mutation_atomic env op m err m'
    (Hok : managed_ok m) (Hrun : mutate env op m = (err, m')) :
  mk_path m' = mk_path m ∧ mk_hasher m' = mk_hasher m ∧
  match err with
  | None => file_of m' = Some (Parsed (mk_entries m')) ∧
      mk_store m' = (NewKeyStoreWithHasher (mk_entries m') (mk_hasher m')).1
  | Some _ => mk_entries m' = mk_entries m ∧ mk_store m' = mk_store m ∧ file_of m' = file_of m
  end ∧
  history_in (mk_path m)
    (file_of m :: match err with None => [Some (Parsed (mk_entries m'))] | Some _ => [] end)
    (mk_disk m) (mk_disk m').
Proof.
  unfold file_of.
  destruct (mutate_shape env op m err m' Hok Hrun) as [[-> [e ->]]|(es & serr & w & [Hn _] & Hsave & Hres)].
  - split_and!; try done. by exists [].
  - pose proof (save_file_spec _ _ _ _ _ _ _ Hsave) as [_ Hfile].
    pose proof (save_file_history _ _ _ _ _ _ _ Hsave) as Hhist.
    destruct serr as [se|].
    + destruct Hres as [[e ->] ->]. simpl. by split_and!.
    + destruct Hres as [-> ->]. rewrite commit_spec by done. simpl. by split_and!.
Qed.

Definition demo_env : os_env := mkOs (λ _ _, false) "1".
Definition demo_key : KeyEntry := NewKeyEntry 5 "alice" "alice-secret-key" ["writer"].
Definition demo_store : ManagedKeyStore :=
  NewManagedKeyStoreFromEntriesWithHasher "/keys.json" [demo_key] None
    (mkWorld {["/keys.json" := Parsed [demo_key]]} []).

Lemma FromEntries_ok path es h w :
  entries_ok es → managed_ok (NewManagedKeyStoreFromEntriesWithHasher path es h w).
Proof.
  intros Hes. unfold NewManagedKeyStoreFromEntriesWithHasher.
  pose proof (NewKeyStoreWithHasher_normal es h (proj1 Hes)) as Hn.
  unfold managed_ok. destruct (NewKeyStoreWithHasher es h) as [ks es'] eqn:E. simpl in *. subst.
  by rewrite E.
Qed.

(** Distinct digests are enough for the index. *)
Lemma hash_fun_NoDup es : NoDup (ke_KeyHash <$> es) → hash_fun es.
Proof.
  intros Hnd x y [i Hi]%list_elem_of_lookup [j Hj]%list_elem_of_lookup Heq _. cut (i = j); [congruence|].
  eapply (NoDup_lookup (ke_KeyHash <$> es)); [done|by rewrite list_lookup_fmap, Hi|]. rewrite list_lookup_fmap, Hj. cbn. by rewrite Heq.
Qed.

(** A loaded store is in order if the file's ids and digests are distinct. *)
Lemma loaded_ok env path h w m : NewManagedKeyStoreWithHasher env path h w = Ok m →
  NoDup (ke_ID <$> mk_entries m) → NoDup (ke_KeyHash <$> mk_entries m) → managed_ok m.
Proof.
  unfold NewManagedKeyStoreWithHasher. intros (es & _ & Hm)%rbind_ok.
  pose proof (migrate_result es) as Hn. destruct (migrateLegacyEntries es) as [[es1 ch] n]. cbn [fst] in Hn. cbv zeta in Hm.
  pose proof (NewKeyStoreWithHasher_normal es1 h Hn) as Hes.
  destruct (NewKeyStoreWithHasher es1 h) as [ks es2] eqn:E. cbn in Hes. subst es2.
  injection Hm as <-. intros Hid Hhash. split; [split_and!; [done|by apply hash_fun_NoDup|done]|].
  cbn. by rewrite E.
Qed.

Lemma entries_ok_singleton e : ke_Key e = "" → entries_ok [e].
Proof.
  intros He. split_and!; [apply Forall_singleton; by right| |apply NoDup_singleton].
  by intros e1 e2 ->%list_elem_of_singleton ->%list_elem_of_singleton.
Qed.

Lemma demo_store_ok : managed_ok demo_store.
Proof. apply FromEntries_ok, entries_ok_singleton. reflexivity. Qed.

Lemma mutation_atomic_witness :
  (mutate (mkOs (λ op _, match op with OpSync => true | _ => false end) "1") (MDelete "alice") demo_store).1 ≠ None ∧
  mk_entries (mutate (mkOs (λ op _, match op with OpSync => true | _ => false end) "1") (MDelete "alice") demo_store).2
    = [demo_key].
Proof.
  set (env := mkOs (λ op _, match op with OpSync => true | _ => false end) "1").
  assert (mutate env (MDelete "alice") demo_store
    = ((mutate env (MDelete "alice") demo_store).1, (mutate env (MDelete "alice") demo_store).2)) as E
    by (by destruct (mutate env (MDelete "alice") demo_store)).
  assert ((mutate env (MDelete "alice") demo_store).1 ≠ None) as Hne by (vm_compute; discriminate).
  destruct (mutation_atomic env (MDelete "alice") demo_store _ _ demo_store_ok E) as (_ & _ & H & _).
  split; [exact Hne|]. destruct (mutate env (MDelete "alice") demo_store).1; [|by destruct Hne].
  destruct H as (H & _). rewrite H. vm_compute. reflexivity.
Defined.

(** *** Loading *)

Lemma loadKeysFromPath_ok env path w es :
  w_files w !! path = Some (Parsed es) → os_fails env OpRead path = false → Forall no_approval es →
  LoadKeysFile env path w = Ok es.
Proof.
  intros Hf Hr Hwa. unfold LoadKeysFile, loadKeysFromPath, ReadFile. rewrite Hf, Hr.
  assert (filter (λ e, ke_WriteApproval e ≠ "") es = []) as ->; [|done].
  clear Hf. induction Hwa as [|e es He _ IH]; [done|]. rewrite filter_cons_False; [done|].
  intros Hne. by apply Hne.
Qed.

(** Restart safety. After any successful mutation, a new process that loads
    the keys file gets back exactly the store the running process has. *)
Theorem restart_recovers env env' op m m'
    (Hok : managed_ok m) (Hwa : Forall no_approval (mk_entries m))
    (Hrun : mutate env op m = (None, m')) (Hread : os_fails env' OpRead (mk_path m) = false) :
  NewManagedKeyStoreWithHasher env' (mk_path m) (mk_hasher m) (mk_disk m') = Ok m'.
Proof.
  destruct (mutate_shape env op m None m' Hok Hrun)
    as [[_ [e [=]]]|(es & serr & w & [Hn Hwa'] & Hsave & Hres)].
  destruct serr as [se|]; [destruct Hres as [[e [=]] _]|destruct Hres as [_ ->]].
  apply save_file_spec in Hsave as [_ Hfile]. rewrite commit_spec by done. cbn [mk_disk].
  unfold NewManagedKeyStoreWithHasher. rewrite (loadKeysFromPath_ok _ _ _ es) by auto.
  simpl. rewrite migrate_normal by done. simpl.
  pose proof (NewKeyStoreWithHasher_normal es (mk_hasher m) Hn) as E.
  destruct (NewKeyStoreWithHasher es (mk_hasher m)). simpl in *. by subst.
Qed.

Lemma restart_recovers_witness :
  let m' := (mutate demo_env (MUpdate "alice" (mkUpdate (Some false) None None)) demo_store).2 in
  NewManagedKeyStoreWithHasher demo_env "/keys.json" None (mk_disk m') = Ok m'.
Proof.
  intros m'. apply (restart_recovers demo_env demo_env
    (MUpdate "alice" (mkUpdate (Some false) None None)) demo_store m' demo_store_ok).
  - repeat constructor.
  - unfold m'. vm_compute. reflexivity.
  - reflexivity.
Defined.

(** C32: The legacy migration. Loading a file of any mix of legacy and hashed
    entries succeeds; identities, roles, states and expiries are kept; every
    legacy raw key keeps its owner (its digest is among the candidates of the
    raw key, under any pepper) and is itself forgotten. The keys file ends up
    either untouched or holding the migrated entries, and in the latter case the
    backup file exists, verbatim if this run wrote it; and migrating again
    changes nothing. *)
Theorem migration_preserves_keys env path h w es
    (Hfile : w_files w !! path = Some (Parsed es))
    (Hread : os_fails env OpRead path = false) (Hwa : Forall no_approval es) :
  ∃ m, NewManagedKeyStoreWithHasher env path h w = Ok m ∧
    Forall2 same_identity es (mk_entries m) ∧
    (∀ e, e ∈ es → ke_KeyHash e = "" → ke_Key e ≠ "" →
       ∃ e', e' ∈ mk_entries m ∧ ke_ID e' = ke_ID e ∧ ke_Key e' = "" ∧
         ke_KeyHash e' ∈ hc_Hash <$> Candidates h (ke_Key e)) ∧
    (w_files (mk_disk m) !! path = Some (Parsed es) ∨
     w_files (mk_disk m) !! path = Some (Parsed (mk_entries m)) ∧
     let bak := path +:+ preMigrationBackupSuffix in
     (w_files w !! bak = None → bak ≠ tmp_name env path →
        w_files (mk_disk m) !! bak = Some (Parsed es))) ∧
    migrateLegacyEntries (mk_entries m) = (mk_entries m, false, 0).
Proof.
  assert (path +:+ preMigrationBackupSuffix ≠ path) as Hbak.
  { intros H. apply (f_equal String.length) in H. rewrite string_app_length in H. simpl in H. lia. }
  unfold NewManagedKeyStoreWithHasher. rewrite (loadKeysFromPath_ok _ _ _ es) by done. simpl.
  pose proof (migrate_spec es) as Hspec. pose proof (migrate_result es) as Hnorm.
  destruct (migrateLegacyEntries es) as [[es' migrated] count] eqn:Em. simpl in Hspec, Hnorm.
  pose proof (NewKeyStoreWithHasher_normal es' h Hnorm) as E.
  destruct (NewKeyStoreWithHasher es' h) as [ks es'']. simpl in E. subst es''.
  eexists. split; [done|]. cbn [mk_entries mk_disk]. split_and!.
  - subst es'. apply Forall2_fmap_r. apply Forall_Forall2_diag, Forall_true.
    intros e. unfold compose, migrate_entry, same_identity. cbv beta.
    destruct (ke_KeyHash e =s ""), (ke_Key e =s ""); simpl; by split_and!.
  - intros e He Hh Hk. exists (migrate_entry e).1. subst es'.
    split; [apply list_elem_of_fmap; eauto|]. unfold migrate_entry.
    apply String.eqb_neq in Hk as Hk'. rewrite Hh, Hk'. simpl. split_and!; [done..|set_solver].
  - destruct migrated; [|by left].
    unfold writePreMigrationBackup.
    destruct (stat_ok env _ w) eqn:Est.
    { destruct (SaveKeysFile env path es' w) as [serr w'] eqn:Es.
      apply save_file_spec in Es as [Hq Hp]. simpl. destruct serr; [left; congruence|].
      right. split; [done|]. intros Hnone. unfold stat_ok in Est. by rewrite Hnone in Est. }
    unfold ReadFile. rewrite Hfile, Hread. unfold WriteFile.
    destruct (os_fails env OpWriteFile _); [by left|].
    destruct (SaveKeysFile env path es' _) as [serr w'] eqn:Es.
    apply save_file_spec in Es as [Hq Hp]. simpl in Hp. rewrite lookup_insert_ne in Hp by done.
    simpl. destruct serr; [left; congruence|]. right. split; [done|]. intros _ Hne.
    rewrite Hq by done. simpl. by rewrite lookup_insert_eq.
  - by apply migrate_normal.
Qed.

Lemma migration_preserves_keys_witness :
  ∃ m, NewManagedKeyStoreWithHasher demo_env "/keys.json" (Some (NewKeyHasher "pepper" "")) 
    (mkWorld {["/keys.json" := Parsed [mkEntry "bob" "raw-key" "" "" true 0 0 "" ["reader"] 0]]} []) = Ok m ∧
    migrateLegacyEntries (mk_entries m) = (mk_entries m, false, 0).
Proof.
  destruct (migration_preserves_keys demo_env "/keys.json" (Some (NewKeyHasher "pepper" ""))
    (mkWorld {["/keys.json" := Parsed [mkEntry "bob" "raw-key" "" "" true 0 0 "" ["reader"] 0]]} [])
    [mkEntry "bob" "raw-key" "" "" true 0 0 "" ["reader"] 0]) as (m & Hm & _ & _ & _ & Hi).
  - vm_compute. reflexivity.
  - reflexivity.
  - repeat constructor.
  - exists m. split; [exact Hm|exact Hi].
Defined.

(** ** The interface's theorems at this backend *)

Lemma demo_kb_ok : kb_ok (S:=ManagedKeyStore) (E:=os_env) demo_store.
Proof. exact demo_store_ok. Qed.

Definition demo_call : call_env := mkCall 7 (Some "0123456789abcdef0123456789abcdef").

Lemma key_lifecycle_witness :
  let '(r, s1) := Create demo_env demo_call "bob" ["reader"] 100 demo_store in
  match r with
  | Ok r => (validate_key None demo_env 99 (cr_Key r) s1).1 = Ok (mkClaims "bob" ["reader"])
  | Err _ => False
  end.
Proof.
  assert (∃ r s1, Create demo_env demo_call "bob" ["reader"] 100 demo_store = (Ok r, s1) ∧
    cr_Key r = b64_encode "0123456789abcdef0123456789abcdef") as (r & s1 & E & Ek)
    by (eexists _, _; split; vm_compute; reflexivity).
  rewrite E.
  destruct (key_lifecycle (S:=ManagedKeyStore) demo_env demo_call "bob" ["reader"] 100 demo_store s1 r
    demo_kb_ok E) as (_ & H & _).
  - intros y ->%list_elem_of_singleton. rewrite Ek.
    apply (bool_decide_unpack _). vm_compute. exact I.
  - replace (@None KeyHasher) with (mk_hasher s1) by (apply Create_ok in E as (_ & ? & ? & _ & _ & _ & ->);
      unfold commit; by destruct (NewKeyStoreWithHasher _ _)).
    exact (H demo_env 99 I).
Defined.

Lemma key_authority_witness :
  is_ok (validate_key None demo_env 3 "wrong-key" demo_store).1 = false.
Proof.
  destruct (key_authority (S:=ManagedKeyStore) demo_env 3 "wrong-key" demo_store demo_kb_ok I) as [H _].
  change (kb_hasher demo_store) with (@None KeyHasher) in H.
  destruct (validate_key None demo_env 3 "wrong-key" demo_store).1 as [c|]; [|reflexivity].
  destruct (H c eq_refl) as (e & [He Hm] & _). apply list_elem_of_singleton in He as ->.
  exfalso. revert Hm. apply (bool_decide_unpack _). vm_compute. exact I.
Defined.

(** Pepper rotation. Rotating the active pepper to the previous slot keeps
    every key: any token an entry answered to under the old hasher it still
    answers to under the new one, provided the old hasher had no previous pepper
    of its own left in use by that entry. *)
Theorem rotation_keeps_keys a p b es tok e
    (Hold : lookup_in (Some (NewKeyHasher a p)) tok es e)
    (Hunused : p = "" ∨ ke_KeyHash e ≠ hashKeyHMAC p tok) :
  lookup_in (Some (NewKeyHasher b a)) tok es e ∧
  (HashForStore (Some (NewKeyHasher b a)) tok).1 ∈ hc_Hash <$> Candidates (Some (NewKeyHasher b a)) tok.
Proof.
  split; [|apply HashForStore_candidate]. destruct Hold as [He Hc]. split; [done|].
  unfold NewKeyHasher, nonempty, Candidates in *. simpl in *.
  destruct (a =s "") eqn:Ea, (b =s "") eqn:Eb, (p =s "") eqn:Ep; bool_to_prop; simpl in *;
    rewrite ?elem_of_cons in *; naive_solver.
Qed.

Lemma rotation_keeps_keys_witness :
  let e := NewKeyEntryWithHasher 0 "alice" "alice-secret-key" [] (Some (NewKeyHasher "old" "")) in
  lookup_in (Some (NewKeyHasher "new" "old")) "alice-secret-key" [e] e.
Proof.
  intros e.
  assert (lookup_in (Some (NewKeyHasher "old" "")) "alice-secret-key" [e] e) as Hold.
  { split; [by apply list_elem_of_singleton|]. apply (bool_decide_unpack _). vm_compute. exact I. }
  exact (proj1 (rotation_keeps_keys "old" "" "new" [e] "alice-secret-key" e Hold (or_introl eq_refl))).
Defined.
