(* ===== verification/PgKeyStore.v ===== *)
(** The Postgres key store (internal/mcp/postgres_store.go): the api_keys table
    of migrations/0001_init_api_keys.sql with its primary key and its unique
    digest index, lookups with the persistent digest upgrade, CRUD; as a second
    instance of the key-store interface.

    The database is third-party code, modelled by what the statements of the
    source say: a table is the list of its rows, a statement that does not reach
    the database ([pg_query], [pg_exec] false) has no effect, a timestamptz
    keeps microseconds, and the unique constraints reject a conflicting row. *)

From S2P Require Import Prelude GoErrors Hex Http Auth KeyStore.

Record api_row := mkRow {
  r_id : string; r_key_hash : string; r_hash_version : Z; r_key_prefix : string;
  r_roles : list string; r_enabled : bool; r_created_at : Z; r_expires_at : option Z
}.

Record PostgresKeyStore := mkPg { pg_rows : list api_row; pg_hasher : option KeyHasher }.

Record pg_env := mkPgEnv { pg_query : bool; pg_exec : bool }.

(** A timestamp as the column stores it. *)
Definition pg_time (t : Z) : Z := t / 1000 * 1000.

(** The panic of digestBytes is unreachable: the hasher emits hex
    ([candidate_hex] below). *)
Definition digestBytes (hexDigest : string) : string := default "" (hex_decode hexDigest).

Definition scanEntry (r : api_row) : KeyEntry :=
  mkEntry (r_id r) "" (hex_encode (r_key_hash r)) (r_key_prefix r) (r_enabled r) (r_created_at r)
    (r_hash_version r) "" (r_roles r) (default 0 (r_expires_at r)).

Definition set_hash (h : string) (v : Z) (r : api_row) : api_row :=
  mkRow (r_id r) h v (r_key_prefix r) (r_roles r) (r_enabled r) (r_created_at r) (r_expires_at r).

Definition set_ke_hash (h : string) (v : Z) (e : KeyEntry) : KeyEntry :=
  mkEntry (ke_ID e) (ke_Key e) h (ke_KeyPrefix e) (ke_Enabled e) (ke_CreatedAt e) v
    (ke_WriteApproval e) (ke_Roles e) (ke_ExpiresAt e).

Definition with_rows (rows : list api_row) (p : PostgresKeyStore) : PostgresKeyStore :=
  mkPg rows (pg_hasher p).

(** UPDATE api_keys SET key_hash=$1, hash_version=$2 WHERE id=$3, subject to the
    unique index on key_hash. *)
Definition update_hash (h : string) (v : Z) (id : string) (rows : list api_row) : list api_row :=
  if existsb (λ r, (r_key_hash r =s h) && negb (r_id r =s id)) rows then rows
  else (λ r, if r_id r =s id then set_hash h v r else r) <$> rows.

Definition maybeRehash (env : pg_env) (rawKey : string) (e : KeyEntry) (p : PostgresKeyStore)
    : KeyEntry * PostgresKeyStore :=
  let '(activeHash, activeVer) := HashForStore (pg_hasher p) rawKey in
  if (ke_KeyHash e =s activeHash) && (ke_HashVersion e =? activeVer) then (e, p)
  else
    (set_ke_hash activeHash activeVer e,
     if pg_exec env then with_rows (update_hash (digestBytes activeHash) activeVer (ke_ID e) (pg_rows p)) p
     else p).

Definition matches (raw : list string) (r : api_row) : bool := existsb (String.eqb (r_key_hash r)) raw.

Definition Pg_Lookup (env : pg_env) (now : Z) (rawKey : string) (p : PostgresKeyStore)
    : option KeyEntry * RejectReason * PostgresKeyStore :=
  let raw := (λ c, digestBytes (hc_Hash c)) <$> Candidates (pg_hasher p) rawKey in
  match (if pg_query env then List.find (matches raw) (pg_rows p) else None) with
  | None => (None, RejectNotFound, p)
  | Some row =>
      let e := scanEntry row in
      match classifyEntry (Some e) now with
      | RejectNone =>
          let '(e, p) := maybeRehash env rawKey e p in (Some e, RejectNone, p)
      | reason => (Some e, reason, p)
      end
  end.

Definition pg_error : error := Opaque "database error".

Definition Pg_Create (env : pg_env) (c : call_env) (clientID : string) (roles : list string)
    (expiresAt : Z) (p : PostgresKeyStore) : result error KeyCreateResult * PostgresKeyStore :=
  match GenerateKey (ce_random c) with
  | Err e => (Err e, p)
  | Ok rawKey =>
      let '(hash, version) := HashForStore (pg_hasher p) rawKey in
      let entry := mkEntry clientID "" hash (keyPrefixOf rawKey) true (ce_now c) version "" roles expiresAt in
      let exp := if negb (IsZero expiresAt) then Some (pg_time expiresAt) else None in
      let row := mkRow clientID (digestBytes hash) version (keyPrefixOf rawKey) roles true
                   (pg_time (ce_now c)) exp in
      if negb (pg_exec env) then (Err (Wrap "insert key: " pg_error ""), p)
      else if existsb (λ r, (r_id r =s r_id row) || (r_key_hash r =s r_key_hash row)) (pg_rows p)
      then (Err (client_err clientID ErrClientExists), p)
      else (Ok (mkCreate (summarize entry) rawKey), with_rows (pg_rows p ++ [row]) p)
  end.

Definition row_summary (r : api_row) : KeySummary :=
  mkSummary (r_id r) (r_enabled r) (r_created_at r) (r_roles r) (r_key_prefix r)
    (default 0 (r_expires_at r)).

Definition summary (env : pg_env) (clientID : string) (p : PostgresKeyStore) : result error KeySummary :=
  if negb (pg_query env) then
    Err (Wrap ("fetch summary " +:+ dq +:+ clientID +:+ dq +:+ ": ") pg_error "")
  else
    match List.find (λ r, r_id r =s clientID) (pg_rows p) with
    | None => Err (client_err clientID ErrClientMissing)
    | Some r => Ok (row_summary r)
    end.

(** The SET clause, applied to a row. *)
Definition set_row (upd : KeyUpdate) (r : api_row) : api_row :=
  mkRow (r_id r) (r_key_hash r) (r_hash_version r) (r_key_prefix r)
    (default (r_roles r) (up_Roles upd)) (default (r_enabled r) (up_Enabled upd)) (r_created_at r)
    (match up_ExpiresAt upd with
     | None => r_expires_at r
     | Some t => if IsZero t then None else Some (pg_time t)
     end).

Definition Pg_Update (env : pg_env) (clientID : string) (upd : KeyUpdate) (p : PostgresKeyStore)
    : result error KeySummary * PostgresKeyStore :=
  match upd with
  | mkUpdate None None None => (summary env clientID p, p)
  | _ =>
      if negb (pg_exec env) then (Err (Wrap "update key: " pg_error ""), p)
      else if negb (existsb (λ r, r_id r =s clientID) (pg_rows p)) then
        (Err (client_err clientID ErrClientMissing), p)
      else
        let p := with_rows ((λ r, if r_id r =s clientID then set_row upd r else r) <$> pg_rows p) p in
        (summary env clientID p, p)
  end.

Definition Pg_Delete (env : pg_env) (clientID : string) (p : PostgresKeyStore)
    : option error * PostgresKeyStore :=
  if negb (pg_exec env) then (Some (Wrap "delete key: " pg_error ""), p)
  else if negb (existsb (λ r, r_id r =s clientID) (pg_rows p)) then
    (Some (client_err clientID ErrClientMissing), p)
  else (None, with_rows (filter (λ r, r_id r ≠ clientID) (pg_rows p)) p).

(** ORDER BY created_at *)
Definition created_le (r1 r2 : api_row) : Prop := r_created_at r1 ≤ r_created_at r2.
#[export] Instance created_le_dec r1 r2 : Decision (created_le r1 r2).
Proof. unfold created_le. apply _. Defined.

Definition Pg_List (env : pg_env) (p : PostgresKeyStore) : list KeySummary :=
  if negb (pg_query env) then [] else row_summary <$> merge_sort created_le (pg_rows p).

Definition countAll (env : pg_env) (p : PostgresKeyStore) : Z :=
  if negb (pg_query env) then 0 else Z.of_nat (length (pg_rows p)).

Definition countEnabled (env : pg_env) (p : PostgresKeyStore) : Z :=
  if negb (pg_query env) then 0 else Z.of_nat (length (List.filter r_enabled (pg_rows p))).

Definition Pg_Empty (env : pg_env) (p : PostgresKeyStore) : bool := countEnabled env p =? 0.

#[export] Instance Pg_Backend : KeyStoreBackend PostgresKeyStore pg_env := {
  kb_Lookup := Pg_Lookup;
  kb_Empty := Pg_Empty;
  kb_List := Pg_List;
  kb_Create := Pg_Create;
  kb_Update := Pg_Update;
  kb_Delete := Pg_Delete;
  kb_ActiveCount := countEnabled;
  kb_TotalCount := countAll
}.

(** ** The table's constraints *)

Definition pg_ok (p : PostgresKeyStore) : Prop :=
  NoDup (r_id <$> pg_rows p) ∧ NoDup (r_key_hash <$> pg_rows p).

Lemma candidate_hex h k c : c ∈ Candidates h k → ∃ b, hc_Hash c = hex_encode b.
Proof.
  unfold Candidates. rewrite elem_of_cons. intros [->|H]; [by eexists|].
  destruct h as [[[a|] [p|]]|]; simpl in H; rewrite ?elem_of_cons in H;
    destruct_or?; subst; try (by eexists); by apply not_elem_of_nil in H.
Qed.

Lemma digestBytes_candidate h k c :
  c ∈ Candidates h k → hex_encode (digestBytes (hc_Hash c)) = hc_Hash c.
Proof. intros (b & Hb)%candidate_hex. unfold digestBytes. by rewrite Hb, hex_decode_encode. Qed.

Lemma HashForStore_hex h k : hex_encode (digestBytes (HashForStore h k).1) = (HashForStore h k).1.
Proof.
  pose proof (HashForStore_candidate h k) as H. apply list_elem_of_fmap in H as (c & -> & Hc).
  by eapply digestBytes_candidate.
Qed.

(** A row matches the probe exactly when its digest is a candidate. *)
Lemma matches_spec h k r :
  matches ((λ c, digestBytes (hc_Hash c)) <$> Candidates h k) r = true ↔
  hex_encode (r_key_hash r) ∈ hc_Hash <$> Candidates h k.
Proof.
  unfold matches. rewrite existsb_exists. setoid_rewrite <- list_elem_of_In.
  setoid_rewrite list_elem_of_fmap. setoid_rewrite String.eqb_eq. split.
  - intros (x & (c & -> & Hc) & Heq). exists c. split; [|done]. rewrite Heq.
    by eapply digestBytes_candidate.
  - intros (c & Heq & Hc). exists (digestBytes (hc_Hash c)). split; [by exists c|].
    unfold digestBytes. by rewrite <- Heq, hex_decode_encode.
Qed.

Lemma elem_scan (rows : list api_row) e : e ∈ scanEntry <$> rows ↔ ∃ r, e = scanEntry r ∧ r ∈ rows.
Proof. apply list_elem_of_fmap. Qed.

(** An update by id that keeps ids keeps the id constraint. *)
Lemma ids_fmap (f : api_row → api_row) (rows : list api_row) :
  (∀ r, r_id (f r) = r_id r) → r_id <$> (f <$> rows) = r_id <$> rows.
Proof. intros Hf. rewrite <- list_fmap_compose. apply list_fmap_ext. intros ? r _. apply Hf. Qed.

Lemma hashes_fmap (f : api_row → api_row) (rows : list api_row) :
  (∀ r, r_key_hash (f r) = r_key_hash r) → r_key_hash <$> (f <$> rows) = r_key_hash <$> rows.
Proof. intros Hf. rewrite <- list_fmap_compose. apply list_fmap_ext. intros ? r _. apply Hf. Qed.

Lemma update_hash_ok h v id p : pg_ok p → pg_ok (with_rows (update_hash h v id (pg_rows p)) p).
Proof.
  intros [Hid Hh]. unfold update_hash. destruct (existsb _ _) eqn:E; [by split|].
  split; cbn [with_rows pg_rows].
  - rewrite ids_fmap; [done|]. intros r. by destruct (r_id r =s id).
  - assert (∀ r, r ∈ pg_rows p → r_key_hash r = h → r_id r = id) as Hno.
    { intros r Hr Heq. apply not_true_iff_false in E. 
      destruct (r_id r =s id) eqn:Ei; bool_to_prop; [done|]. exfalso. apply E.
      apply existsb_exists. exists r. rewrite <- list_elem_of_In. split; [done|].
      apply String.eqb_eq in Heq. apply String.eqb_neq in Ei. by rewrite Heq, Ei. }
    revert Hid Hh Hno. generalize (pg_rows p). intros rows. clear E.
    induction rows as [|r rows IH]; [done|]. rewrite !fmap_cons, !NoDup_cons.
    intros [Hi His] [Hk Hks] Hno. split; [|apply IH; [done..|intros; apply Hno; [set_solver|done]]].
    rewrite list_elem_of_fmap. intros (r' & Heq & (r0 & -> & Hr0)%list_elem_of_fmap).
    destruct (r_id r =s id) eqn:E1, (r_id r0 =s id) eqn:E2; bool_to_prop; simpl in Heq.
    + apply Hi. rewrite E1, <- E2. by apply list_elem_of_fmap_2.
    + apply E2. symmetry. rewrite (Hno r0); [done|set_solver|done].
    + apply E1. symmetry. rewrite (Hno r); [done|set_solver|done].
    + apply Hk. rewrite Heq. by apply list_elem_of_fmap_2.
Qed.

Lemma row_by_id p r1 r2 :
  pg_ok p → r1 ∈ pg_rows p → r2 ∈ pg_rows p → r_id r1 = r_id r2 → r1 = r2.
Proof.
  intros [Hnd _] H1 H2 Heq. apply list_elem_of_lookup in H1 as [i Hi], H2 as [j Hj].
  assert (i = j) as ->; [|congruence].
  eapply (NoDup_lookup (r_id <$> pg_rows p)); [done|rewrite list_lookup_fmap, Hi; done|].
  rewrite list_lookup_fmap, Hj. simpl. by rewrite Heq.
Qed.

(** ** The Postgres backend keeps the interface's promises *)

(** A digest upgrade changes no identity. *)
Lemma update_hash_identity h v id rows y :
  y ∈ scanEntry <$> update_hash h v id rows → ∃ x, x ∈ scanEntry <$> rows ∧ same_identity y x.
Proof.
  unfold update_hash. destruct (existsb _ _); [by exists y|].
  intros (r' & -> & (r & -> & Hr)%list_elem_of_fmap)%elem_scan. exists (scanEntry r).
  split; [by apply list_elem_of_fmap_2|]. by destruct (r_id r =s id).
Qed.

Lemma Pg_Lookup_law env now tok p :
  pg_ok p →
  let '(e, reason, p') := Pg_Lookup env now tok p in
  (pg_ok p' ∧ pg_hasher p' = pg_hasher p ∧
   ∀ y, y ∈ scanEntry <$> pg_rows p' → ∃ x, x ∈ scanEntry <$> pg_rows p ∧ same_identity y x) ∧
  reason = classifyEntry e now ∧
  match e with
  | Some x => ke_KeyHash x ∈ hc_Hash <$> Candidates (pg_hasher p) tok ∧
      ∃ y, lookup_in (pg_hasher p) tok (scanEntry <$> pg_rows p) y ∧ same_identity x y
  | None => pg_query env = true → ∀ y, ¬ lookup_in (pg_hasher p) tok (scanEntry <$> pg_rows p) y
  end.
Proof.
  intros Hok. unfold Pg_Lookup.
  assert (∀ y, y ∈ scanEntry <$> pg_rows p → ∃ x, x ∈ scanEntry <$> pg_rows p ∧ same_identity y x) as Hsame
    by (by intros y; exists y).
  destruct (pg_query env) eqn:Hq; [|by split_and!].
  destruct (List.find _ _) as [row|] eqn:Ef.
  - apply find_some in Ef as [Hin%list_elem_of_In Hm%matches_spec].
    assert (lookup_in (pg_hasher p) tok (scanEntry <$> pg_rows p) (scanEntry row)) as Hl.
    { split; [by apply list_elem_of_fmap_2|done]. }
    destruct (classifyEntry (Some (scanEntry row)) now) eqn:Ec;
      try (split_and!; [done..|exists (scanEntry row); by split_and!]).
    unfold maybeRehash. destruct (HashForStore (pg_hasher p) tok) as [ah av] eqn:Eh.
    destruct (_ && _); [split_and!; [done..|exists (scanEntry row); by split_and!]|].
    split_and!; [destruct (pg_exec env); [by apply update_hash_ok|done]|by destruct (pg_exec env)| |by rewrite <- Ec| |].
    + destruct (pg_exec env); [|done]. intros y. apply update_hash_identity.
    + pose proof (HashForStore_candidate (pg_hasher p) tok) as H. by rewrite Eh in H.
    + exists (scanEntry row). by split_and!.
  - split_and!; [done..|]. intros _ y [(r & -> & Hr)%elem_scan Hc].
    apply list_elem_of_In in Hr. apply matches_spec in Hc.
    by rewrite (find_none _ _ Ef r Hr) in Hc.
Qed.

Lemma pg_time_bound t : pg_time t ≤ t < pg_time t + 1000.
Proof. unfold pg_time. pose proof (Z.div_mod t 1000). pose proof (Z.mod_pos_bound t 1000). lia. Qed.

Lemma scan_set_row upd r : scanEntry (set_row upd r) = apply_update (stored_update pg_time upd) (scanEntry r).
Proof.
  destruct upd as [en ro [t|]]; destruct en, ro; unfold set_row; simpl; try done;
    unfold IsZero; destruct (t =? 0) eqn:E; bool_to_prop; by subst.
Qed.

Lemma existsb_row_true id (rows : list api_row) :
  existsb (λ r, r_id r =s id) rows = true ↔ ∃ r, r ∈ rows ∧ r_id r = id.
Proof.
  rewrite existsb_exists. setoid_rewrite String.eqb_eq. by setoid_rewrite <- list_elem_of_In.
Qed.

(** The rows after an update by id, seen through scanEntry. *)
Lemma update_rows_elem id upd p :
  pg_ok p → (∃ r, r ∈ pg_rows p ∧ r_id r = id) →
  let p' := with_rows ((λ r, if r_id r =s id then set_row upd r else r) <$> pg_rows p) p in
  pg_ok p' ∧
  ∀ y, y ∈ scanEntry <$> pg_rows p' ↔
    (y ∈ scanEntry <$> pg_rows p ∧ ke_ID y ≠ id) ∨
    (∃ e, e ∈ scanEntry <$> pg_rows p ∧ ke_ID e = id ∧ y = apply_update (stored_update pg_time upd) e).
Proof.
  intros [Hid Hh] _. cbv zeta. split.
  - split; cbn [with_rows pg_rows]; [rewrite ids_fmap|rewrite hashes_fmap]; try done;
      intros r; by destruct (r_id r =s id).
  - intros y. cbn [with_rows pg_rows]. setoid_rewrite elem_scan. setoid_rewrite list_elem_of_fmap. split.
    + intros (r' & -> & r & -> & Hr). destruct (r_id r =s id) eqn:E; bool_to_prop.
      * right. exists (scanEntry r). rewrite scan_set_row. eauto.
      * left. eauto.
    + intros [[(r & -> & Hr) Hne]|(e & (r & -> & Hr) & Heq & ->)].
      * exists r. split; [done|]. exists r. simpl in Hne. apply String.eqb_neq in Hne. by rewrite Hne.
      * exists (set_row upd r). split; [by rewrite scan_set_row|]. exists r.
        simpl in Heq. apply String.eqb_eq in Heq. by rewrite Heq.
Qed.

Lemma Pg_Create_law env c id roles exp p r p' :
  pg_ok p → Pg_Create env c id roles exp p = (Ok r, p') →
  pg_ok p' ∧ pg_hasher p' = pg_hasher p ∧ (∀ y, y ∈ scanEntry <$> pg_rows p → ke_ID y ≠ id) ∧
  ∃ e, (∀ y, y ∈ scanEntry <$> pg_rows p' ↔ y = e ∨ y ∈ scanEntry <$> pg_rows p) ∧
    ke_ID e = id ∧ ke_Enabled e = true ∧ ke_Roles e = roles ∧ ke_ExpiresAt e = pg_time exp ∧
    ke_KeyHash e = (HashForStore (pg_hasher p) (cr_Key r)).1.
Proof.
  intros [Hid Hh]. unfold Pg_Create. destruct (GenerateKey _) as [rawKey|]; [|done].
  pose proof (HashForStore_hex (pg_hasher p) rawKey) as Hhex.
  destruct (HashForStore (pg_hasher p) rawKey) as [hash v] eqn:Eh. cbv zeta. simpl in Hhex.
  destruct (negb _); [done|]. set (row := mkRow _ _ _ _ _ _ _ _).
  destruct (existsb _ _) eqn:Ex; [done|]. intros [= <- <-]. cbn [cr_Key with_rows pg_rows pg_hasher].
  assert (∀ r, r ∈ pg_rows p → r_id r ≠ id ∧ r_key_hash r ≠ digestBytes hash) as Hno.
  { intros r Hr. apply not_true_iff_false in Ex.
    destruct (r_id r =s id) eqn:E1, (r_key_hash r =s digestBytes hash) eqn:E2; bool_to_prop; try done;
      exfalso; apply Ex, existsb_exists; exists r; rewrite <- list_elem_of_In; (split; [done|]);
      simpl; rewrite ?E1, ?E2, ?String.eqb_refl, ?orb_true_r; done. }
  split_and!.
  - split; cbn [with_rows pg_rows]; rewrite fmap_app; apply NoDup_app; (split_and!; [done| |apply NoDup_singleton]);
      intros x (r & -> & Hr)%list_elem_of_fmap; simpl; rewrite list_elem_of_singleton; by apply Hno.
  - done.
  - intros y (r & -> & Hr)%elem_scan. by apply Hno.
  - exists (scanEntry row). split_and!; try done.
    + intros y. rewrite fmap_app, elem_of_app. simpl. rewrite list_elem_of_singleton. tauto.
    + unfold row. simpl. unfold IsZero. destruct (exp =? 0) eqn:E; bool_to_prop; by subst.
    + simpl. by rewrite Eh.
Qed.

(** "Client not found" is only answered when nothing was updated. *)
Lemma Pg_Update_missing env id upd p e p' :
  Pg_Update env id upd p = (Err e, p') → errors_Is e ErrClientMissing = true → scanEntry <$> pg_rows p' = scanEntry <$> pg_rows p.
Proof.
  intros Hu Hm.
  assert ((if negb (pg_exec env) then (Err (Wrap "update key: " pg_error ""), p)
     else if negb (existsb (λ r, r_id r =s id) (pg_rows p)) then (Err (client_err id ErrClientMissing), p)
     else let p := with_rows ((λ r, if r_id r =s id then set_row upd r else r) <$> pg_rows p) p in
       (summary env id p, p)) = (Err e, p') ∨ p' = p) as [Hu'|Hp]; [|clear Hu|by rewrite Hp].
  { unfold Pg_Update in Hu. destruct upd as [[] [] []]; auto. injection Hu as _ <-. auto. }
  destruct (negb (pg_exec env)); [by simplify_eq|].
  destruct (existsb (λ r, r_id r =s id) (pg_rows p)) eqn:Ex; cbn [negb] in Hu'; [|by simplify_eq].
  cbv zeta in Hu'. injection Hu' as He _. unfold summary in He. destruct (negb (pg_query env)); [injection He as <-; discriminate Hm|].
  destruct (List.find _ _) eqn:Ef; [done|].
  apply existsb_exists in Ex as (r & Hr & Hid). exfalso.
  assert (In (set_row upd r) (pg_rows (with_rows ((λ r, if r_id r =s id then set_row upd r else r) <$> pg_rows p) p))) as Hin.
  { apply list_elem_of_In, list_elem_of_fmap. exists r. rewrite Hid. split; [done|by apply list_elem_of_In]. }
  pose proof (find_none _ _ Ef _ Hin) as Hno. cbn [set_row r_id] in Hno. congruence.
Qed.

#[export] Program Instance Pg_Laws : KeyStoreLaws PostgresKeyStore pg_env := {
  kb_entries p := scanEntry <$> pg_rows p;
  kb_hasher := pg_hasher;
  kb_ok := pg_ok;
  kb_up env := pg_query env = true;
  kb_time := pg_time
}.
Next Obligation. apply pg_time_bound. Qed.
Next Obligation. intros env now tok p Hok. by apply Pg_Lookup_law. Qed.
Next Obligation. intros env c id roles exp p r p' Hok Hc _. by eapply Pg_Create_law. Qed.
Next Obligation.
  intros env c id roles exp p r p'. simpl. unfold Pg_Create.
  destruct (GenerateKey _); [|done].
  destruct (HashForStore _ _). destruct (negb _); [done|].
  destruct (existsb _ _); [done|]. by intros [= <- _].
Qed.
Next Obligation.
  intros env c id roles exp p e p' Hok. simpl. unfold Pg_Create.
  destruct (GenerateKey _); [|by intros [= _ <-]].
  destruct (HashForStore _ _). destruct (negb _); [by intros [= _ <-]|].
  destruct (existsb _ _); [by intros [= _ <-]|done].
Qed.
Next Obligation.
  intros env id upd p r p' Hok. simpl. unfold Pg_Update. intros Hu.
  assert ((∃ r0, r0 ∈ pg_rows p ∧ r_id r0 = id) ∧
    (p' = with_rows ((λ r, if r_id r =s id then set_row upd r else r) <$> pg_rows p) p)) as [Hex ->].
  { assert (upd = mkUpdate None None None ∨
      (if negb (pg_exec env) then (Err (Wrap "update key: " pg_error ""), p)
       else if negb (existsb (λ r, r_id r =s id) (pg_rows p)) then (Err (client_err id ErrClientMissing), p)
       else let p := with_rows ((λ r, if r_id r =s id then set_row upd r else r) <$> pg_rows p) p in
         (summary env id p, p)) = (Ok r, p')) as [->|Hu'] by (destruct upd as [[] [] []]; auto).
    - unfold summary in Hu. destruct (negb _); [done|].
      destruct (List.find _ _) as [r0|] eqn:Ef; [|done]. apply find_some in Ef as [Hin Heq].
      injection Hu as _ <-. split; [exists r0; rewrite list_elem_of_In; bool_to_prop; auto|].
      unfold with_rows. destruct p as [rows h]. simpl. f_equal.
      rewrite <- (list_fmap_id rows) at 1. apply list_fmap_ext. intros _ x _. simpl.
      destruct (r_id x =s id); [|done]. by destruct x.
    - destruct (negb _); [done|]. destruct (existsb _ _) eqn:Ex; [|done].
      apply existsb_row_true in Ex. simpl in Hu'. by injection Hu' as _ <-. }
  destruct (update_rows_elem id upd p Hok Hex) as [Hok' Hin].
  split_and!; [done|done| |exact Hin].
  destruct Hex as (r0 & Hr0 & Hid). exists (scanEntry r0). split; [|done]. by apply list_elem_of_fmap_2.
Qed.
Next Obligation.
  intros env id upd p e p' Hok Hu. simpl in *.
  assert (p' = p ∨ p' = with_rows ((λ r, if r_id r =s id then set_row upd r else r) <$> pg_rows p) p ∧
    ∃ r, r ∈ pg_rows p ∧ r_id r = id) as [->|[-> Hex]]; [|split_and!; auto|].
  { unfold Pg_Update in Hu. destruct (negb (pg_exec env)); [destruct upd as [[] [] []]; simplify_eq/=; auto|].
    destruct (existsb (λ r, r_id r =s id) (pg_rows p)) eqn:Ex; [|destruct upd as [[] [] []]; simplify_eq/=; auto].
    apply existsb_row_true in Ex. destruct upd as [[] [] []]; cbn [negb] in Hu; cbv zeta in Hu;
      (apply (f_equal snd) in Hu; cbn [snd] in Hu; subst p'; auto). }
  destruct (update_rows_elem id upd p Hok Hex) as [Hok' Hin].
  split_and!; [done|done|]. intros y. rewrite Hin. naive_solver.
Qed.
Next Obligation.
  intros env id upd p e p' Hu Hm. simpl in *. by eapply Pg_Update_missing.
Qed.
Next Obligation.
  intros env id p p' [Hid Hh]. simpl. unfold Pg_Delete.
  destruct (negb _); [done|]. destruct (negb _); [done|]. intros [= <-]. cbn [with_rows pg_rows pg_hasher].
  split_and!.
  - split; cbn [with_rows pg_rows];
      [apply (sublist_NoDup _ _ Hid)|apply (sublist_NoDup _ _ Hh)]; apply fmap_sublist, sublist_filter.
  - done.
  - intros y. setoid_rewrite elem_scan. setoid_rewrite elem_of_list_filter || setoid_rewrite list_elem_of_filter.
    split; [intros (r & -> & ? & ?); eauto|intros [(r & -> & ?) ?]; exists r; eauto].
Qed.
Next Obligation.
  intros env id p e p' Hok Hd. simpl in *. unfold Pg_Delete in Hd.
  destruct (negb (pg_exec env)); [by simplify_eq|]. by destruct (negb _); simplify_eq.
Qed.
Next Obligation.
  intros p x y Hok (r1 & -> & H1)%elem_scan (r2 & -> & H2)%elem_scan Heq.
  f_equal. by eapply row_by_id.
Qed.

(** ** The digest upgrade *)

Lemma find_unique {A} (f : A → bool) l x :
  x ∈ l → f x = true → (∀ y, y ∈ l → f y = true → y = x) → List.find f l = Some x.
Proof.
  intros Hx Hf Hu. destruct (List.find f l) as [y|] eqn:E.
  - apply find_some in E as [Hy%list_elem_of_In Hfy]. f_equal. auto.
  - apply list_elem_of_In in Hx. by rewrite (find_none _ _ E x Hx) in Hf.
Qed.

(** The upgrade of a stored row: the entry and the table after it. *)
Lemma maybeRehash_effect env tok p row e p' :
  let '(active, ver) := HashForStore (pg_hasher p) tok in
  pg_ok p → pg_exec env = true → row ∈ pg_rows p →
  maybeRehash env tok (scanEntry row) p = (e, p') →
  (∀ r, r ∈ pg_rows p → hex_encode (r_key_hash r) ∈ hc_Hash <$> Candidates (pg_hasher p) tok →
     r_id r = ke_ID e) →
  r_id row = ke_ID e ∧ e = scanEntry (set_hash (digestBytes active) ver row) ∧
  p' = with_rows ((λ r, if r_id r =s ke_ID e then set_hash (digestBytes active) ver r else r) <$> pg_rows p) p.
Proof.
  unfold maybeRehash. pose proof (HashForStore_hex (pg_hasher p) tok) as Hhex.
  pose proof (HashForStore_candidate (pg_hasher p) tok) as Hcand.
  destruct (HashForStore (pg_hasher p) tok) as [active ver] eqn:Eh. simpl in Hhex, Hcand.
  intros Hok Hx Hin Hl Huniq. rewrite Hx in Hl.
  assert (∀ r, r ∈ pg_rows p → r_id r = r_id row → r = row) as Hrow by (intros; by eapply row_by_id).
  destruct (_ && _) eqn:Esame; injection Hl as <- <-.
  - bool_to_prop. simpl in *. subst ver.
    assert (r_key_hash row = digestBytes active) as Hk.
    { unfold digestBytes. by rewrite <- H, hex_decode_encode. }
    assert (set_hash (digestBytes active) (r_hash_version row) row = row) as Hset.
    { unfold set_hash. rewrite <- Hk. by destruct row. }
    split_and!; [done|by rewrite Hset|]. destruct p as [rows h]. unfold with_rows. simpl. f_equal.
    rewrite <- (list_fmap_id rows) at 1. apply list_fmap_ext. intros i r Hr. simpl.
    destruct (r_id r =s r_id row) eqn:E; [|done]. bool_to_prop.
    rewrite (Hrow r); [done| |done]. by eapply list_elem_of_lookup_2.
  - simpl in *. split_and!; [done| |].
    + unfold scanEntry, set_hash, set_ke_hash. simpl. by rewrite Hhex.
    + unfold update_hash. replace (existsb _ _) with false; [done|]. symmetry.
      apply not_true_iff_false. rewrite existsb_exists.
      intros (r & Hr%list_elem_of_In & Hc). bool_to_prop. apply H0.
      apply Huniq; [done|]. by rewrite H, Hhex.
Qed.

(** Persistent digest upgrade. After a lookup that accepted a token, the
    token's row holds the digest and version of the active scheme, no other row
    and no other column changed, the caller sees the upgraded entry, and looking
    the token up again changes nothing more. The token must match one row. *)
Theorem rehash_upgrades env now tok p e p'
    (Hok : pg_ok p) (Hup : pg_query env = true ∧ pg_exec env = true)
    (Hl : Pg_Lookup env now tok p = (Some e, RejectNone, p'))
    (Huniq : ∀ r, r ∈ pg_rows p → hex_encode (r_key_hash r) ∈ hc_Hash <$> Candidates (pg_hasher p) tok →
       r_id r = ke_ID e) :
  let '(active, ver) := HashForStore (pg_hasher p) tok in
  ke_KeyHash e = active ∧ ke_HashVersion e = ver ∧
  (∃ r0, r0 ∈ pg_rows p ∧ r_id r0 = ke_ID e ∧ e = scanEntry (set_hash (digestBytes active) ver r0) ∧
     ∀ r, r ∈ pg_rows p' ↔ r = set_hash (digestBytes active) ver r0 ∨ (r ∈ pg_rows p ∧ r_id r ≠ ke_ID e)) ∧
  Pg_Lookup env now tok p' = (Some e, RejectNone, p').
Proof.
  destruct Hup as [Hq Hx]. pose proof (HashForStore_hex (pg_hasher p) tok) as Hhex.
  destruct (HashForStore (pg_hasher p) tok) as [active ver] eqn:Eh. simpl in Hhex.
  unfold Pg_Lookup in Hl. rewrite Hq in Hl.
  destruct (List.find _ _) as [row|] eqn:Ef; [|done].
  apply find_some in Ef as [Hin%list_elem_of_In Hm%matches_spec].
  destruct (classifyEntry (Some (scanEntry row)) now) eqn:Ec; try done.
  assert (r_id row = ke_ID e ∧ e = scanEntry (set_hash (digestBytes active) ver row) ∧
    p' = with_rows ((λ r, if r_id r =s ke_ID e then set_hash (digestBytes active) ver r else r) <$> pg_rows p) p)
    as (Hid & He & Hp').
  { pose proof (maybeRehash_effect env tok p row) as Heff. rewrite Eh in Heff.
    destruct (maybeRehash env tok (scanEntry row) p) as [e0 p0]. injection Hl as -> ->. by apply Heff. }
  assert (pg_hasher p' = pg_hasher p) as Hh by (by rewrite Hp').
  assert (∀ r, r ∈ pg_rows p' ↔ r = set_hash (digestBytes active) ver row ∨ (r ∈ pg_rows p ∧ r_id r ≠ ke_ID e))
    as Hrows.
  { intros r. rewrite Hp'. cbn [with_rows pg_rows]. rewrite list_elem_of_fmap. split.
    - intros (x & -> & Hxin). destruct (r_id x =s ke_ID e) eqn:E; bool_to_prop; [|by right].
      left. f_equal. eapply row_by_id; [done..|congruence].
    - intros [->|[Hr Hne]].
      + exists row. apply String.eqb_eq in Hid. by rewrite Hid.
      + exists r. apply String.eqb_neq in Hne. by rewrite Hne. }
  split_and!.
  - rewrite He. simpl. done.
  - by rewrite He.
  - exists row. split_and!; done.
  - unfold Pg_Lookup. rewrite Hq, Hh.
    rewrite (find_unique _ _ (set_hash (digestBytes active) ver row)).
    + rewrite <- He.
      assert (classifyEntry (Some e) now = RejectNone) as -> by (by rewrite <- Ec, He).
      unfold maybeRehash. rewrite Hh, Eh.
      assert (ke_KeyHash e = active ∧ ke_HashVersion e = ver) as [-> ->] by (by rewrite He).
      by rewrite String.eqb_refl, Z.eqb_refl.
    + apply Hrows. by left.
    + apply matches_spec. simpl. rewrite Hhex.
      pose proof (HashForStore_candidate (pg_hasher p) tok) as Hcand. by rewrite Eh in Hcand.
    + intros y [->|[Hy Hne]]%Hrows Hmy%matches_spec; [done|]. by destruct Hne; apply Huniq.
Qed.

Definition demo_row : api_row :=
  mkRow "alice" (sha256 "alice-secret-key") 0 "alice-se..." ["writer"] true 0 None.

Lemma rehash_upgrades_witness :
  let p := mkPg [demo_row] (Some (NewKeyHasher "pepper" "")) in
  let '(e, reason, p') := Pg_Lookup (mkPgEnv true true) 5 "alice-secret-key" p in
  Pg_Lookup (mkPgEnv true true) 5 "alice-secret-key" p' = (e, reason, p').
Proof.
  cbv zeta. set (p := mkPg [demo_row] _).
  destruct (Pg_Lookup (mkPgEnv true true) 5 "alice-secret-key" p) as [[e reason] p'] eqn:E.
  assert (reason = RejectNone ∧ ∃ x, e = Some x ∧ ke_ID x = "alice") as (-> & x & -> & Hx).
  { assert ((Pg_Lookup (mkPgEnv true true) 5 "alice-secret-key" p).1.2 = RejectNone ∧
      (ke_ID <$> (Pg_Lookup (mkPgEnv true true) 5 "alice-secret-key" p).1.1) = Some "alice") as [H1 H2]
      by (split; vm_compute; reflexivity).
    rewrite E in H1, H2. simpl in H1, H2. destruct e as [x|]; [|discriminate].
    split; [exact H1|]. exists x. split; [reflexivity|]. by injection H2. }
  assert (pg_ok p) as Hok by (split; apply NoDup_singleton).
  pose proof (rehash_upgrades (mkPgEnv true true) 5 "alice-secret-key" p x p' Hok (conj eq_refl eq_refl) E) as H.
  destruct (HashForStore (pg_hasher p) "alice-secret-key").
  apply H. intros r ->%list_elem_of_singleton _. by rewrite Hx.
Defined.
