(* ===== verification/Evm.v ===== *)
(** The EVM client (internal/evm): signed-transaction decoding (decode.go),
    addresses (addrhex.go), recognised node rejections (rpcerrors.go), response
    normalisation (normalize.go) and the client's methods (client.go).

    github.com/defiweb/go-eth is third-party code: what the source uses of it is
    the interface [EthLib]. A JSON-RPC call's outcome is an argument of the
    method that makes it: [None] when decoding the response panics, otherwise
    the value or the error. Reading a nil pointer is [None] too; guardNodeDecode
    turns both into an error. *)

From stdpp Require Import pretty.
From S2P Require Import Prelude GoErrors Hex.

Definition address := string.             (* 20 raw bytes *)
Definition hash := string.                (* 32 raw bytes *)

Class EthLib := {
  eth_tx : Type;
  tx_DecodeRLP : string → option eth_tx;              (* None: an error or a panic *)
  tx_IsLegacy : eth_tx → bool;
  tx_SigV : eth_tx → option Z;                        (* None: no signature *)
  tx_SetChainID : Z → eth_tx → eth_tx;
  tx_Recover : eth_tx → option (option address);      (* error; nil; address *)
  tx_EncodeRLP : eth_tx → option string;
  tx_To : eth_tx → option address;
  tx_Input : eth_tx → string;
  tx_Value : eth_tx → option Z;
  address_Checksum : address → string
}.

(** ** Hex forms (vendor/github.com/defiweb/go-eth/hexutil, types) *)

Definition Has0xPrefix (h : string) : bool := has_prefix "0x" h || has_prefix "0X" h.

Definition HexToBytes (h : string) : option string :=
  if slen h =? 0 then Some ""
  else
    let h := if Has0xPrefix h then str_drop 2 h else h in
    if h =s "0" then Some (String (byte_of 0) "")
    else if slen h =? 0 then Some ""
    else if negb (Z.even (slen h)) then None
    else hex_decode h.

Definition BytesToHex (b : string) : string := "0x" +:+ hex_encode b.

(** types.AddressFromHex: 20 bytes; the prefix is optional. *)
Definition AddressFromHex (h : string) : option address :=
  match HexToBytes h with
  | Some data => if slen data =? 20 then Some data else None
  | None => None
  end.

(** types.Address.String *)
Definition address_String (a : address) : string := BytesToHex a.
#[global] Arguments address_String : simpl never.
#[global] Arguments AddressFromHex : simpl never.

(** ** Signed transactions *)

Record DecodedTx := mkDecodedTx {
  dt_Signer : address; dt_To : option address; dt_Input : string; dt_Value : Z; dt_CanonicalRaw : string
}.

Definition maxSignedTxHexLen : Z := 2 * 1024 * 1024.

Definition strip_0x (s : string) : string := if has_prefix "0x" s then str_drop 2 s else s.

Definition too_large (n : Z) : error :=
  Wrap ("signed tx hex too large (" +:+ pretty n +:+ " chars, max " +:+ pretty maxSignedTxHexLen +:+ "): ")
    ErrInputTooLarge "".

Section Decode.
Context `{EthLib}.

(** The EIP-155 chain id of a legacy transaction, re-derived from V. *)
Definition fix_chain_id (tx : eth_tx) : eth_tx :=
  match tx_SigV tx with
  | Some v => if tx_IsLegacy tx && (35 <=? v) then tx_SetChainID (u64 ((v - 35) / 2)) tx else tx
  | None => tx
  end.

(** The code turns a panic of the library on the way into the decode error; the
    library's calls are total here, and [EthLib]'s answers stand for both. *)
Definition DecodeSignedTx (signedTxHex : string) : result error DecodedTx :=
  let raw := strip_0x signedTxHex in
  if raw =s "" then Err (Wrap "empty signed tx: " ErrTxDecode "")
  else if maxSignedTxHexLen <? slen raw then Err (too_large (slen raw))
  else
    match hex_decode raw with
    | None => Err (Wrap "decode signed tx hex: " ErrTxDecode "")
    | Some b =>
        match tx_DecodeRLP b with
        | None => Err (Wrap "rlp-decode signed tx: " ErrTxDecode "")
        | Some tx =>
            let tx := fix_chain_id tx in
            match tx_Recover tx with
            | None => Err (Wrap "recover signer: " ErrTxDecode "")
            | Some None => Err (Wrap "recover signer: nil address: " ErrTxDecode "")
            | Some (Some signer) =>
                match tx_EncodeRLP tx with
                | None => Err (Wrap "re-encode signed tx: " ErrTxDecode "")
                | Some canonical =>
                    Ok (mkDecodedTx signer (tx_To tx) (tx_Input tx) (default 0 (tx_Value tx)) canonical)
                end
            end
        end
    end.

(** ** Addresses *)

Definition AddressHex (a : address) : string := address_Checksum a.

Definition quoted (s : string) : string := dq +:+ s +:+ dq.

Definition ParseAddress (s : string) : result error address :=
  match AddressFromHex s with
  | None => Err (Wrap (quoted s +:+ ": ") ErrInvalidAddress "")
  | Some addr =>
      let hexPart := trim_prefix "0X" (trim_prefix "0x" s) in
      if (hexPart =s to_lower hexPart) || (hexPart =s to_upper hexPart) then Ok addr
      else
        let want := AddressHex addr in
        if negb (s =s want) && negb ("0x" +:+ hexPart =s want)
        then Err (Wrap (quoted s +:+ ": mixed-case address fails the EIP-55 checksum (expected " +:+ want
                        +:+ "; use that spelling or all-lowercase hex): ") ErrInvalidAddress "")
        else Ok addr
  end.
End Decode.

Definition HashHex (h : hash) : string := "0x" +:+ hex_encode h.

(** ** Recognised node rejections *)

Definition safeNodeRPCErrors : list (string * sentinel) :=
  [("maximum [from, to] blocks distance", ErrLogRangeTooWide);
   ("invalid block range params", ErrLogRangeInvalid);
   ("must be less than or equal to the current blockchain height", ErrBlockBeyondHead);
   ("cannot query with height in the future", ErrBlockBeyondHead);
   ("block not found", ErrBlockNotFound);
   ("already in mempool", ErrTxAlreadyKnown);
   ("already known", ErrTxAlreadyKnown);
   ("nonce is lower than account nonce", ErrTxNonceConflict);
   ("invalid nonce", ErrTxNonceConflict);
   ("nonce too low", ErrTxNonceConflict);
   ("nonce too high", ErrTxNonceConflict);
   ("invalid chain id for signer", ErrTxChainIDMismatch);
   ("insufficient funds", ErrInsufficientFunds)].

Definition safeCallReverts : list string :=
  ["execution reverted"; "unknown method id"; "invalid input length"].

Definition ClassifyCallRevert (err : option error) : option sentinel :=
  match err with
  | None => None
  | Some e =>
      let msg := to_lower (error_text e) in
      if existsb (λ m, contains m msg) safeCallReverts then Some ErrCallReverted else None
  end.

Fixpoint first_match (msg : string) (table : list (string * sentinel)) : option sentinel :=
  match table with
  | [] => None
  | (m, s) :: rest => if contains m msg then Some s else first_match msg rest
  end.

Definition classifyNodeRPCError (err : option error) : option sentinel :=
  match err with
  | None => None
  | Some e => first_match (to_lower (error_text e)) safeNodeRPCErrors
  end.

(** if curated := classifyNodeRPCError(err); curated != nil { return curated }
    else return fmt.Errorf("op: %w", err) *)
Definition node_error (op : string) (e : error) : error :=
  match classifyNodeRPCError (Some e) with Some s => Sentinel s | None => Wrap (op +:+ ": ") e "" end.

(** ** Responses *)

(** The fields of the library's structures that the source reads; [None] is a
    nil pointer. *)
Record Log := mkLog {
  l_Address : address; l_Topics : list hash; l_Data : string; l_BlockNumber : option Z;
  l_TransactionHash : option hash; l_TransactionIndex : option Z; l_LogIndex : option Z;
  l_Removed : bool
}.

Record Transaction := mkTransaction {
  t_Hash : option hash; t_From : option address; t_To : option address; t_Value : option Z;
  t_GasLimit : option Z; t_GasPrice : option Z; t_MaxFeePerGas : option Z; t_Nonce : option Z;
  t_Input : string; t_BlockNumber : option Z; t_BlockHash : option hash; t_TransactionIndex : option Z
}.

Record Block := mkBlock {
  b_Number : option Z; b_Hash : hash; b_ParentHash : hash; b_Timestamp : Z; b_GasLimit : Z;
  b_GasUsed : Z; b_Miner : address; b_Transactions : list Transaction; b_TransactionHashes : list hash
}.

Record TransactionReceipt := mkReceipt {
  rc_TransactionHash : hash; rc_TransactionIndex : Z; rc_BlockHash : hash; rc_BlockNumber : option Z;
  rc_GasUsed : Z; rc_CumulativeGasUsed : Z; rc_ContractAddress : option address;
  rc_Logs : list Log; rc_Status : option Z
}.

Record NormalizedLog := mkNLog {
  nl_Address : string; nl_Topics : list string; nl_Data : string; nl_BlockNumber : Z;
  nl_TxHash : string; nl_TxIndex : Z; nl_LogIndex : Z; nl_Removed : bool
}.

Record NormalizedTxSummary := mkNTxSummary {
  ns_Hash : string; ns_Index : Z; ns_From : string; ns_To : string; ns_Value : string
}.

Record NormalizedBlock := mkNBlock {
  nb_Number : Z; nb_Hash : string; nb_ParentHash : string; nb_TimestampUnix : Z; nb_GasLimit : Z;
  nb_GasUsed : Z; nb_Miner : string; nb_TransactionCount : Z;
  nb_Transactions : list NormalizedTxSummary
}.

Record NormalizedTransaction := mkNTx {
  nt_Hash : string; nt_BlockNumber : option Z; nt_BlockHash : option string; nt_Index : option Z;
  nt_From : string; nt_To : option string; nt_Value : string; nt_Gas : Z; nt_GasPrice : string;
  nt_Nonce : Z; nt_Data : string; nt_IsPending : bool
}.

Record NormalizedReceipt := mkNReceipt {
  nr_TxHash : string; nr_BlockNumber : Z; nr_BlockHash : string; nr_TransactionIdx : Z;
  nr_Status : string; nr_GasUsed : Z; nr_CumulativeGas : Z; nr_ContractAddress : option string;
  nr_Logs : list NormalizedLog
}.

Record NormalizedBalance := mkNBalance { nbal_Address : string; nbal_Wei : string; nbal_Ether : string }.
Record ChainInfo := mkChainInfo { ci_ChainID : Z; ci_LatestBlockNumber : Z }.
Record CodeResult := mkCode { cd_Address : string; cd_Bytecode : string; cd_IsContract : bool }.

(** The block number on the wire: a tag, or a number. *)
Inductive BlockNumber := LatestBlockNumber | EarliestBlockNumber | BlockNumberFromBigInt (n : Z).

Definition blockNumOrLatest (b : option Z) : BlockNumber :=
  match b with None => LatestBlockNumber | Some n => BlockNumberFromBigInt n end.

(** big.Int's Uint64 and Int64: the low 64 bits. *)
Definition big_Uint64 (x : Z) : Z := u64 (Z.abs x).
Definition i64 (x : Z) : Z := let y := u64 x in if y <? 9223372036854775808 then y else y - u64_mod.

Definition safeUnix (t : Z) : Z := if t <? 0 then 0 else t.

Definition data_hex (s : string) : string := "0x" +:+ hex_encode s.

Section Normalize.
Context `{EthLib}.

Definition summarize_tx (i : nat) (tx : Transaction) : NormalizedTxSummary :=
  mkNTxSummary (match t_Hash tx with Some h => HashHex h | None => "" end)
    (Z.of_nat i)
    (match t_From tx with Some a => AddressHex a | None => "" end)
    (match t_To tx with Some a => AddressHex a | None => "" end)
    (match t_Value tx with Some v => pretty v | None => "0" end).

Definition normalizeBlock (block : Block) (fullTx : bool) : option NormalizedBlock :=
  n ← b_Number block;
  let txs :=
    if fullTx && negb (bool_decide (b_Transactions block = [] :> list Transaction))
    then imap summarize_tx (b_Transactions block)
    else if fullTx && negb (bool_decide (b_TransactionHashes block = []))
    then imap (λ i h, mkNTxSummary (HashHex h) (Z.of_nat i) "" "" "") (b_TransactionHashes block)
    else [] in
  Some (mkNBlock (big_Uint64 n) (HashHex (b_Hash block)) (HashHex (b_ParentHash block))
    (safeUnix (b_Timestamp block)) (b_GasLimit block) (b_GasUsed block) (AddressHex (b_Miner block))
    (Z.of_nat (length (b_Transactions block)) + Z.of_nat (length (b_TransactionHashes block))) txs).

Definition normalizeOnChainTransaction (tx : Transaction) (isPending : bool) : NormalizedTransaction :=
  mkNTx
    (match t_Hash tx with Some h => HashHex h | None => "" end)
    (if isPending then None else big_Uint64 <$> t_BlockNumber tx)
    (if isPending then None else HashHex <$> t_BlockHash tx)
    (if isPending then None else t_TransactionIndex tx)
    (match t_From tx with Some a => AddressHex a | None => "" end)
    (AddressHex <$> t_To tx)
    (match t_Value tx with Some v => pretty v | None => "0" end)
    (default 0 (t_GasLimit tx))
    (match t_GasPrice tx, t_MaxFeePerGas tx with
     | Some p, _ => pretty p | None, Some p => pretty p | None, None => "" end)
    (default 0 (t_Nonce tx))
    (if t_Input tx =s "" then "0x" else data_hex (t_Input tx))
    isPending.

Definition normalizeLog (l : Log) : NormalizedLog :=
  mkNLog (AddressHex (l_Address l)) (HashHex <$> l_Topics l) (data_hex (l_Data l))
    (match l_BlockNumber l with Some n => big_Uint64 n | None => 0 end)
    (match l_TransactionHash l with Some h => HashHex h | None => "" end)
    (default 0 (l_TransactionIndex l)) (default 0 (l_LogIndex l)) (l_Removed l).

Definition normalizeReceipt (receipt : TransactionReceipt) : NormalizedReceipt :=
  mkNReceipt (HashHex (rc_TransactionHash receipt))
    (match rc_BlockNumber receipt with Some n => big_Uint64 n | None => 0 end)
    (HashHex (rc_BlockHash receipt)) (rc_TransactionIndex receipt)
    (match rc_Status receipt with
     | None => "unknown"
     | Some s => if s =? 1 then "success" else if s =? 0 then "reverted"
                 else "unknown(" +:+ pretty s +:+ ")"
     end)
    (rc_GasUsed receipt) (rc_CumulativeGasUsed receipt)
    (AddressHex <$> rc_ContractAddress receipt) (normalizeLog <$> rc_Logs receipt).

(** *** Balances

    big.Float arithmetic at its default precision: SetInt takes the larger of
    64 and the operand's bit length, Quo the larger of its operands' precisions,
    and both Quo and Text round to nearest, ties to even. *)

(** Round to nearest even of [n / d]. *)
Definition round_div (n d : Z) : Z :=
  let q := n / d in let r := n mod d in
  if (2 * r <? d) then q else if (d <? 2 * r) then q + 1 else if Z.even q then q else q + 1.

Definition bit_len (w : Z) : Z := if w =? 0 then 0 else Z.log2 w + 1.
Definition wei_per_ether : Z := 1000000000000000000.

(** The binary exponent of [w / 10^18]: 2^(e-1) <= w/10^18 < 2^e. *)
Definition quo_exp (w : Z) : Z :=
  if wei_per_ether <=? w then Z.log2 (w / wei_per_ether) + 1
  else 1 - Z.log2_up ((wei_per_ether + w - 1) / w).

(** The eighteen-digit fixed-point text as a count of units of 10^-18. With
    fraction bits [k] the quotient is [m / 2^k]. *)
Definition ether_units (w : Z) : Z :=
  if w =? 0 then 0
  else
    let p := Z.max 64 (bit_len w) in
    let k := p - quo_exp w in
    let m := round_div (w * 2 ^ k) wei_per_ether in
    round_div (m * wei_per_ether) (2 ^ k).

Fixpoint pad_zeros (n : nat) (s : string) : string :=
  match n with O => s | S n => "0" +:+ pad_zeros n s end.

Definition ether_text (w : Z) : string :=
  let u := ether_units w in
  let frac := pretty (u mod wei_per_ether) in
  pretty (u / wei_per_ether) +:+ "." +:+ pad_zeros (18 - String.length frac) frac.

(** Balances are not negative: the node's quantities are unsigned. *)
Definition normalizeBalance (a : address) (balance : Z) : NormalizedBalance :=
  mkNBalance (AddressHex a) (pretty balance) (ether_text balance).
End Normalize.

(** ** The client's methods *)

(** A node answer: [None] is a panic while decoding it. *)
Definition answer (A : Type) := option (result error A).

Definition guardNodeDecode {A} (op : string) (fn : answer A) : result error A :=
  match fn with None => Err (Wrap (op +:+ ": ") ErrNodeResponseDecode "") | Some r => r end.

Definition second : Z := 1000000000.
Definition ReceiptLookupTimeout : Z := 5 * second.

Definition receiptLookupDuration (clientTimeout : Z) : Z :=
  if (0 <? clientTimeout) && (clientTimeout <? ReceiptLookupTimeout) then clientTimeout
  else ReceiptLookupTimeout.

Definition isReceiptLookupAborted (e : error) : bool :=
  errors_Is e CtxDeadlineExceeded || errors_Is e CtxCanceled.

Definition zero_hash : hash := Hex.zeros 32.

Definition isMissingBlock (block : option Block) : bool :=
  match block with None => true | Some b => b_Hash b =s zero_hash end.

Section Client.
Context `{EthLib}.

Definition ChainID (id : result error Z) : result error Z := id.

Definition LatestBlockNumber_ (n : answer (option Z)) : result error Z :=
  guardNodeDecode "get latest block number"
    (r ← n; match r with
            | Err e => Some (Err e)
            | Ok None => None                        (* n.Uint64() on nil *)
            | Ok (Some n) => Some (Ok (big_Uint64 n))
            end).

Definition GetChainInfo (id : result error Z) (n : answer (option Z)) : result error ChainInfo :=
  let? chainID := rmap_err (λ e, Wrap "failed to get chain ID: " e "") (ChainID id) in
  let? blockNum := rmap_err (λ e, Wrap "failed to get latest block number: " e "") (LatestBlockNumber_ n) in
  Ok (mkChainInfo (i64 chainID) blockNum).

Definition block_answer (op : string) (fullTx : bool) (block : answer (option Block))
    : result error NormalizedBlock :=
  guardNodeDecode op
    (r ← block; match r with
                | Err e => Some (Err (node_error ("failed to " +:+ op) e))
                | Ok b =>
                    if isMissingBlock b then Some (Err (Sentinel ErrBlockNotFound))
                    else b ← b; nb ← normalizeBlock b fullTx; Some (Ok nb)
                end).

Definition BlockByNumber (number : option Z) (fullTx : bool)
    (rpc : BlockNumber → answer (option Block)) : result error NormalizedBlock :=
  block_answer "get block by number" fullTx (rpc (blockNumOrLatest number)).

Definition BlockByHash (h : hash) (fullTx : bool)
    (rpc : hash → answer (option Block)) : result error NormalizedBlock :=
  block_answer "get block by hash" fullTx (rpc h).

Definition TransactionByHash (tx : answer (option Transaction)) : result error NormalizedTransaction :=
  guardNodeDecode "get transaction by hash"
    (r ← tx; Some match r with
                  | Err e => Err (Wrap "failed to get transaction: " e "")
                  | Ok None => Err (Sentinel ErrTxNotFound)
                  | Ok (Some tx) =>
                      match t_Hash tx with
                      | None => Err (Sentinel ErrTxNotFound)
                      | Some _ =>
                          Ok (normalizeOnChainTransaction tx
                                (match t_BlockNumber tx with None => true | Some _ => false end))
                      end
                  end).

Definition TransactionReceipt_ (receipt : answer (option TransactionReceipt)) : result error NormalizedReceipt :=
  guardNodeDecode "get transaction receipt"
    (r ← receipt; Some match r with
                       | Err e => if isReceiptLookupAborted e then Err (Sentinel ErrTxNotFound)
                                  else Err (Wrap "failed to get transaction receipt: " e "")
                       | Ok None => Err (Sentinel ErrTxNotFound)
                       | Ok (Some receipt) => Ok (normalizeReceipt receipt)
                       end).

Definition BalanceAt (a : address) (block : option Z)
    (rpc : BlockNumber → answer (option Z)) : result error NormalizedBalance :=
  guardNodeDecode "get balance"
    (r ← rpc (blockNumOrLatest block); match r with
          | Err e => Some (Err (node_error "failed to get balance" e))
          | Ok None => None
          | Ok (Some balance) => Some (Ok (normalizeBalance a balance))
          end).

Definition CodeAt (a : address) (block : option Z) (rpc : BlockNumber → result error string)
    : result error CodeResult :=
  match rpc (blockNumOrLatest block) with
  | Err e => Err (node_error "failed to get code" e)
  | Ok code => Ok (mkCode (AddressHex a) (data_hex code) (0 <? slen code))
  end.

Definition CallContract (block : option Z) (rpc : BlockNumber → result error string) : result error string :=
  rpc (blockNumOrLatest block).

Definition FilterLogs (logs : answer (list Log)) : result error (list NormalizedLog) :=
  guardNodeDecode "filter logs"
    (r ← logs; Some match r with
                    | Err e => Err (node_error "failed to filter logs" e)
                    | Ok logs => Ok (List.map normalizeLog logs)
                    end).

(** SendRawTransaction: the bytes handed to the node, if any, and the result.
    [rpc] is the node's answer to eth_sendRawTransaction. *)
Definition SendRawTransaction (signedTxHex : string) (rpc : string → result error (option hash))
    : option string * result error string :=
  let raw := strip_0x signedTxHex in
  if maxSignedTxHexLen <? slen raw then (None, Err (too_large (slen raw)))
  else
    match hex_decode raw with
    | None => (None, Err (Wrap "decode signed tx hex: " (Opaque "encoding/hex: invalid byte or odd length") ""))
    | Some txBytes =>
        (Some txBytes,
         match rpc txBytes with
         | Err e =>
             match classifyNodeRPCError (Some e) with
             | Some curated => Err (Wrap "send transaction: " (Curate curated (Some e)) "")
             | None => Err (Wrap "send transaction: " e "")
             end
         | Ok None => Err (Wrap "send transaction: " ErrEmptyTxHash "")
         | Ok (Some h) => Ok (HashHex h)
         end)
    end.

Definition Ping (id : result error Z) : option error := match id with Ok _ => None | Err e => Some e end.
End Client.

(** ** Theorems *)

Lemma hexd_not_x c : (hexd (byte_val c mod 16) =? "x"%char)%char = false ∧ (hexd (byte_val c mod 16) =? "X"%char)%char = false.
Proof. by destruct c as [[] [] [] [] [] [] [] []]. Qed.

Lemma Has0xPrefix_hex_encode a : Has0xPrefix (hex_encode a) = false.
Proof.
  assert (∀ p q x y s, Ascii.eqb q y = false → has_prefix (String p (String q "")) (String x (String y s)) = false) as Hp.
  { intros p q x y s Hq. cbn [has_prefix]. by rewrite Hq, andb_false_r. }
  unfold Has0xPrefix. destruct a as [|c a]; [done|]. destruct (hexd_not_x c) as [Hx HX].
  cbn [hex_encode]. rewrite !Hp; [done|rewrite Ascii.eqb_sym; exact HX|rewrite Ascii.eqb_sym; exact Hx].
Qed.

Lemma first_match_in msg table s : first_match msg table = Some s → s ∈ table.*2.
Proof.
  induction table as [|[m s'] table IH]; [done|]. simpl. destruct (contains m msg).
  - intros [= ->]. by left.
  - intros H. right. auto.
Qed.

(** Every sentinel of the table is in a disclosed class. *)
Lemma classify_disclosed e s : classifyNodeRPCError e = Some s → disclosed (Sentinel s) = true.
Proof.
  destruct e as [e|]; [|done]. intros H%first_match_in. simpl in H.
  repeat (apply elem_of_cons in H as [->|H]; [reflexivity|]). by apply not_elem_of_nil in H.
Qed.

#[export] Hint Resolve classify_disclosed : go.

(** Decoding of untrusted transactions. DecodeSignedTx never yields an
    unclassified error: every rejection is an input error the client may see.
    An accepted transaction is the decoding of the hex body, with a recovered
    signer, and the bytes to broadcast are its canonical re-encoding; bodies
    over the cap are rejected before they are decoded. *)
Theorem DecodeSignedTx_total `{EthLib} s :
  match DecodeSignedTx s with
  | Err e => IsInputError e = true ∧ (maxSignedTxHexLen < slen (strip_0x s) → errors_Is e ErrInputTooLarge = true)
  | Ok d => slen (strip_0x s) ≤ maxSignedTxHexLen ∧
      ∃ b tx, hex_decode (strip_0x s) = Some b ∧ tx_DecodeRLP b = Some tx ∧
        tx_Recover (fix_chain_id tx) = Some (Some (dt_Signer d)) ∧
        tx_EncodeRLP (fix_chain_id tx) = Some (dt_CanonicalRaw d) ∧
        dt_To d = tx_To (fix_chain_id tx) ∧ dt_Value d = default 0 (tx_Value (fix_chain_id tx))
  end.
Proof.
  unfold DecodeSignedTx. destruct (strip_0x s =s "") eqn:E0; bool_to_prop.
  { rewrite E0. split; [reflexivity|]. vm_compute. discriminate. }
  destruct (_ <? _) eqn:E1; bool_to_prop; [by split|].
  destruct (hex_decode _) as [b|]; [|split; [reflexivity|lia]].
  destruct (tx_DecodeRLP b) as [tx|] eqn:Ed; [|split; [reflexivity|lia]].
  destruct (tx_Recover _) as [[signer|]|] eqn:Er; [|split; [reflexivity|lia]..].
  destruct (tx_EncodeRLP _) as [canonical|] eqn:Ee; [|split; [reflexivity|lia]].
  simpl. split; [done|]. by exists b, tx.
Qed.

(** Node rejections and the client. Whatever text a node puts in the error
    of a recognised rejection, what a caller of SendRawTransaction can see of it
    depends only on which rejection was recognised; the raw text stays reachable
    for the audit log. *)
Theorem SendRawTransaction_error_opaque s rpc1 rpc2 e1 e2 b
    (Hb : hex_decode (strip_0x s) = Some b) (Hlen : slen (strip_0x s) ≤ maxSignedTxHexLen)
    (H1 : rpc1 b = Err e1) (H2 : rpc2 b = Err e2)
    (Hsame : classifyNodeRPCError (Some e1) = classifyNodeRPCError (Some e2))
    (Hknown : is_Some (classifyNodeRPCError (Some e1))) :
  ∃ c1 c2, SendRawTransaction s rpc1 = (Some b, Err c1) ∧ SendRawTransaction s rpc2 = (Some b, Err c2) ∧
    (error_text <$> SafeForClient (Some c1)) = (error_text <$> SafeForClient (Some c2)) ∧
    RawCause c1 = e1 ∧ RawCause c2 = e2.
Proof.
  unfold SendRawTransaction. rewrite (proj2 (Z.ltb_ge _ _)) by done. rewrite Hb, H1, H2, <- Hsame.
  destruct Hknown as [c Hc]. rewrite Hc. pose proof (classify_disclosed _ _ Hc) as Hd.
  eexists _, _. split_and!; [done..| |done|done].
  rewrite !SafeForClient_disclosed; [done|..];
    change (disclosed (wrap_in [("send transaction: ", "")] (Curated (Sentinel c) e2)) = true) ||
    change (disclosed (wrap_in [("send transaction: ", "")] (Curated (Sentinel c) e1)) = true);
    autorewrite with go_rw; auto with go.
Qed.

Lemma SendRawTransaction_error_opaque_witness :
  ∃ c, SendRawTransaction "0x00" (λ _, Err (Opaque "http://10.0.0.7: Nonce too LOW: 7")) = (Some (zeros 1), Err c) ∧
    RawCause c = Opaque "http://10.0.0.7: Nonce too LOW: 7".
Proof.
  destruct (SendRawTransaction_error_opaque "0x00" (λ _, Err (Opaque "http://10.0.0.7: Nonce too LOW: 7"))
    (λ _, Err (Opaque "invalid nonce")) (Opaque "http://10.0.0.7: Nonce too LOW: 7") (Opaque "invalid nonce")
    (zeros 1)) as (c1 & c2 & E & _ & _ & R & _);
    [reflexivity|vm_compute; discriminate|reflexivity|reflexivity|reflexivity|by eexists|].
  exists c1. split; [exact E|exact R].
Defined.

(** No fabricated chain data. A null, missing or undecodable node answer is
    never turned into a result: a returned block has a non-zero hash, a returned
    transaction has a hash, and a panic while decoding is the decode error. A
    transaction is reported pending exactly when it has no block number, and then
    carries no placement. *)
Theorem no_fabricated_results `{EthLib} number fullTx (rpc : BlockNumber → answer (option Block)) tx :
  (∀ nb, BlockByNumber number fullTx rpc = Ok nb →
     ∃ b, rpc (blockNumOrLatest number) = Some (Ok (Some b)) ∧ b_Hash b ≠ zero_hash ∧
          nb_Hash nb = HashHex (b_Hash b)) ∧
  (rpc (blockNumOrLatest number) = Some (Ok None) →
     BlockByNumber number fullTx rpc = Err (Sentinel ErrBlockNotFound)) ∧
  (rpc (blockNumOrLatest number) = None →
     ∃ e, BlockByNumber number fullTx rpc = Err e ∧ errors_Is e ErrNodeResponseDecode = true) ∧
  (∀ nt, TransactionByHash tx = Ok nt →
     ∃ t h, tx = Some (Ok (Some t)) ∧ t_Hash t = Some h ∧ nt_Hash nt = HashHex h ∧
       (nt_IsPending nt = true ↔ t_BlockNumber t = None) ∧
       (nt_IsPending nt = true → nt_BlockNumber nt = None ∧ nt_BlockHash nt = None ∧ nt_Index nt = None)).
Proof.
  unfold BlockByNumber, block_answer. split_and!.
  - intros nb. destruct (rpc _) as [[[b|]|e]|]; try done. simpl.
    destruct (b_Hash b =s zero_hash) eqn:E; [done|]. bool_to_prop. unfold normalizeBlock.
    destruct (b_Number b); [|done]. simpl. intros [= <-]. by exists b.
  - by intros ->.
  - intros ->. simpl. eauto.
  - intros nt. unfold TransactionByHash. destruct tx as [[[t|]|e]|]; try done. simpl.
    destruct (t_Hash t) as [h|] eqn:Eh; [|done]. intros [= <-].
    exists t, h. split_and!; try done.
    + unfold normalizeOnChainTransaction. simpl. by rewrite Eh.
    + simpl. by destruct (t_BlockNumber t).
    + simpl. by destruct (t_BlockNumber t).
Qed.

Lemma round_div_bound n d : 0 < d → - d ≤ 2 * (round_div n d * d - n) ≤ d.
Proof.
  intros Hd. unfold round_div. pose proof (Z.div_mod n d ltac:(lia)) as Hdm.
  pose proof (Z.mod_pos_bound n d Hd) as Hr.
  destruct (2 * (n mod d) <? d) eqn:E1; bool_to_prop; [nia|].
  destruct (d <? 2 * (n mod d)) eqn:E2; bool_to_prop; [nia|].
  destruct (Z.even (n / d)); nia.
Qed.

(** The quotient has at least 59 fraction bits, and 60 below 16 ether. *)
Lemma fraction_bits w : 0 < w →
  let k := Z.max 64 (bit_len w) - quo_exp w in
  59 ≤ k ∧ (w < 16 * wei_per_ether → 60 ≤ k).
Proof.
  intros Hw. cbv zeta. unfold bit_len. replace (w =? 0) with false by (symmetry; apply Z.eqb_neq; lia).
  unfold quo_exp. destruct (wei_per_ether <=? w) eqn:E; bool_to_prop.
  - assert (1 ≤ w / wei_per_ether) as Hq by (apply Z.div_le_lower_bound; unfold wei_per_ether in *; lia).
    split.
    + assert (Z.log2 (w / wei_per_ether) + 59 ≤ Z.log2 w); [|lia].
      apply Z.log2_le_pow2; [lia|]. rewrite Z.pow_add_r by (try apply Z.log2_nonneg; lia).
      pose proof (Z.log2_spec (w / wei_per_ether) ltac:(lia)) as [Hl _].
      pose proof (Z.mul_div_le w wei_per_ether ltac:(unfold wei_per_ether; lia)).
      change (2 ^ 59) with 576460752303423488. unfold wei_per_ether in *. nia.
    + intros Hlt. assert (Z.log2 (w / wei_per_ether) ≤ 3); [|lia].
      assert (w / wei_per_ether < 16) by (apply Z.div_lt_upper_bound; unfold wei_per_ether in *; lia).
      assert (Z.log2 (w / wei_per_ether) < 4); [|lia]. apply Z.log2_lt_pow2; lia.
  - pose proof (Z.log2_up_nonneg ((wei_per_ether + w - 1) / w)).
    pose proof (Z.log2_nonneg w). lia.
Qed.

(** Ether amounts. The decimal ether text of a balance is within one unit of
    its last digit of the wei amount, and exact below 16 ether; from 16 ether on
    the binary precision no longer separates neighbouring wei amounts. *)
Theorem ether_units_precision w (Hw : 0 ≤ w) :
  Z.abs (ether_units w - w) ≤ 1 ∧ (w < 16 * wei_per_ether → ether_units w = w) ∧
  ether_units (16 * wei_per_ether + 1) = 16 * wei_per_ether + 2.
Proof.
  assert (∀ k, 59 ≤ k →
    let m := round_div (w * 2 ^ k) wei_per_ether in
    let d := round_div (m * wei_per_ether) (2 ^ k) in
    Z.abs (d - w) ≤ 1 ∧ (60 ≤ k → d = w)) as Hk.
  { intros k Hk m d. assert (2 ^ 59 ≤ 2 ^ k) as H59 by (apply Z.pow_le_mono_r; lia).
    change (2 ^ 59) with 576460752303423488 in H59.
    pose proof (round_div_bound (w * 2 ^ k) wei_per_ether ltac:(unfold wei_per_ether; lia)) as Hm.
    pose proof (round_div_bound (m * wei_per_ether) (2 ^ k) ltac:(lia)) as Hd.
    fold m in Hm. fold d in Hd.
    assert (- (2 ^ k + wei_per_ether) ≤ 2 * ((d - w) * 2 ^ k) ≤ 2 ^ k + wei_per_ether) as Hdw by lia.
    split.
    - unfold wei_per_ether in Hdw. assert (-2 < d - w < 2); [nia|lia].
    - intros Hk60. assert (2 ^ 60 ≤ 2 ^ k) as H60 by (apply Z.pow_le_mono_r; lia).
      change (2 ^ 60) with 1152921504606846976 in H60. unfold wei_per_ether in Hdw.
      assert (-1 < d - w < 1); [nia|lia]. }
  split_and!; [| |by vm_compute].
  - unfold ether_units. destruct (w =? 0) eqn:E; bool_to_prop; [by subst|].
    apply Hk. by apply fraction_bits; lia.
  - intros Hlt. unfold ether_units. destruct (w =? 0) eqn:E; bool_to_prop; [by subst|].
    apply Hk; apply fraction_bits; lia.
Qed.

Lemma ether_units_precision_witness : ether_units 1234567890123456789 = 1234567890123456789.
Proof.
  apply (ether_units_precision 1234567890123456789); [lia|]. unfold wei_per_ether. lia.
Defined.

(** ** A concrete library for the witnesses

    Transactions are a signer, a destination, a one-byte value and calldata,
    laid out in a row. *)

Record demo_tx := mkDemoTx { dx_signer : string; dx_to : string; dx_value : Z; dx_input : string }.

#[export] Instance DemoEth : EthLib := {
  eth_tx := demo_tx;
  tx_DecodeRLP b :=
    match str_drop 40 b with
    | String v rest => Some (mkDemoTx (str_take 20 b) (str_take 20 (str_drop 20 b)) (byte_val v) rest)
    | EmptyString => None
    end;
  tx_IsLegacy _ := false;
  tx_SigV _ := Some 0;
  tx_SetChainID _ tx := tx;
  tx_Recover tx := Some (Some (dx_signer tx));
  tx_EncodeRLP tx := Some (dx_signer tx +:+ dx_to tx +:+ String (byte_of (dx_value tx)) (dx_input tx));
  tx_To tx := Some (dx_to tx);
  tx_Input := dx_input;
  tx_Value tx := Some (dx_value tx);
  address_Checksum a := "0x" +:+ hex_encode a
}.
