(* ===== verification/BlockArg.v ===== *)
(** Block-number inputs (internal/mcp/block_number.go): an integer or one of the
    tags latest and earliest, its JSON forms and the two ways it is handed to the
    EVM client. What json.Unmarshal does with the literals it is given is modelled
    too, for strings up to the replacement of bytes that are not UTF-8. *)

From stdpp Require Import pretty.
From S2P Require Import Prelude GoErrors Hex GoParse Evm.

(** ** JSON literals (encoding/json) *)

Definition json_space (c : ascii) : bool :=
  existsb (Ascii.eqb c) [" "%char; byte_of 9; byte_of 10; byte_of 13].

Fixpoint skip_space (s : string) : string :=
  match s with
  | String c s' => if json_space c then skip_space s' else s
  | EmptyString => s
  end.

(** The value and the text after it, which may only be space. *)
Definition ends {A} (r : option (A * string)) : option A :=
  match r with Some (a, rest) => if skip_space rest =s "" then Some a else None | None => None end.

(** A Unicode scalar value in UTF-8. *)
Definition utf8 (r : Z) : string :=
  let cont k := byte_of (128 + Z.land (Z.shiftr r k) 63) in
  if r <? 128 then String (byte_of r) ""
  else if r <? 2048 then String (byte_of (192 + Z.shiftr r 6)) (String (cont 0) "")
  else if r <? 65536 then String (byte_of (224 + Z.shiftr r 12)) (String (cont 6) (String (cont 0) ""))
  else String (byte_of (240 + Z.shiftr r 18)) (String (cont 12) (String (cont 6) (String (cont 0) ""))).

Definition hex4 (a b c d : ascii) : option Z :=
  a ← hex_digit a; b ← hex_digit b; c ← hex_digit c; d ← hex_digit d;
  Some (((a * 16 + b) * 16 + c) * 16 + d).

Definition simple_escape (c : ascii) : option ascii :=
  if Ascii.eqb c (byte_of 34) || Ascii.eqb c "\" || Ascii.eqb c "/" then Some c
  else if Ascii.eqb c "b" then Some (byte_of 8)
  else if Ascii.eqb c "f" then Some (byte_of 12)
  else if Ascii.eqb c "n" then Some (byte_of 10)
  else if Ascii.eqb c "r" then Some (byte_of 13)
  else if Ascii.eqb c "t" then Some (byte_of 9)
  else None.

Definition replacement : Z := 65533.
Definition surrogate (r : Z) : bool := (55296 <=? r) && (r <? 57344).

(** A code unit read after the pending high surrogate, if there is one. *)
Definition join_unit (high : option Z) (r : Z) : string * option Z :=
  match high with
  | Some h =>
      if (56320 <=? r) && (r <? 57344) then (utf8 (65536 + (h - 55296) * 1024 + (r - 56320)), None)
      else if (55296 <=? r) && (r <? 56320) then (utf8 replacement, Some r)
      else (utf8 replacement +:+ utf8 r, None)
  | None =>
      if (55296 <=? r) && (r <? 56320) then ("", Some r)
      else (utf8 (if surrogate r then replacement else r), None)
  end.

Definition flush (high : option Z) : string := match high with Some _ => utf8 replacement | None => "" end.

(** A string after its opening quote: the text and what follows the closing one. *)
Fixpoint json_chars (high : option Z) (s : string) : option (string * string) :=
  match s with
  | EmptyString => None
  | String c s =>
      if Ascii.eqb c (byte_of 34) then Some (flush high, s)
      else if Ascii.eqb c "\" then
        match s with
        | EmptyString => None
        | String e s =>
            match simple_escape e with
            | Some b => p ← json_chars None s; Some (flush high +:+ String b p.1, p.2)
            | None =>
                if negb (Ascii.eqb e "u") then None
                else match s with
                     | String a1 (String a2 (String a3 (String a4 s))) =>
                         r ← hex4 a1 a2 a3 a4;
                         p ← json_chars (join_unit high r).2 s; Some ((join_unit high r).1 +:+ p.1, p.2)
                     | _ => None
                     end
            end
        end
      else if byte_val c <? 32 then None
      else p ← json_chars None s; Some (flush high +:+ String c p.1, p.2)
  end.

(** json.Unmarshal of a text that starts with a quote, into a string. *)
Definition json_string (data : string) : option string :=
  match data with String _ s => ends (json_chars None s) | EmptyString => None end.

(** The digits of an integer literal: no superfluous zero. *)
Definition int_digits (s : string) : bool :=
  match s with
  | EmptyString => false
  | String c s' => match decimal 0 s with Some _ => negb (Ascii.eqb c "0") || (s' =s "") | None => false end
  end.

Fixpoint trim_end (s : string) : string :=
  match s with
  | EmptyString => ""
  | String c s' => let t := trim_end s' in if (t =s "") && json_space c then "" else String c t
  end.

(** json.Unmarshal of another text into an int64: [None] for every text but an
    integer literal in range. *)
Definition json_int64 (data : string) : option Z :=
  let lit := trim_end (skip_space data) in
  let digits := match lit with String c s => if Ascii.eqb c "-" then s else lit | EmptyString => lit end in
  if int_digits digits then match ParseInt 64 lit with Ok n => Some n | Err _ => None end else None.

(** ** The argument *)

Record blockNumberArg := mkBlockArg { ba_tag : string; ba_num : option Z }.
Definition not_provided : blockNumberArg := mkBlockArg "" None.

Definition json_error : error := Opaque "json: invalid string".

Definition UnmarshalJSON (data : string) : result error blockNumberArg :=
  if data =s "null" then Ok not_provided
  else if (match data with String c _ => Ascii.eqb c (byte_of 34) | EmptyString => false end) then
    match json_string data with
    | None => Err json_error
    | Some tag =>
        if negb (tag =s "latest") && negb (tag =s "earliest")
        then Err (Wrap ("unsupported block tag " +:+ quoted tag +:+ " (use " +:+ quoted "latest" +:+ ", " +:+
                        quoted "earliest" +:+ ", or an integer block number): ") ErrInvalidBlockRef "")
        else Ok (mkBlockArg tag None)
    end
  else match json_int64 data with
       | None => Err (Wrap ("block number must be an integer or " +:+ quoted "latest" +:+ "/" +:+
                            quoted "earliest" +:+ ": ") ErrInvalidBlockRef "")
       | Some n =>
           if n <? 0 then Err (Wrap ("block number must be 0 or greater (got " +:+ pretty n +:+ "): ")
                                 ErrInvalidBlockRef "")
           else Ok (mkBlockArg "" (Some n))
       end.

(** json.Marshal of a tag, and of an int64. *)
Definition MarshalJSON (b : blockNumberArg) : string :=
  if negb (ba_tag b =s "") then quoted (ba_tag b)
  else match ba_num b with Some n => pretty n | None => "null" end.

Definition isSet (b : blockNumberArg) : bool :=
  negb (ba_tag b =s "") || match ba_num b with Some _ => true | None => false end.

(** nil means latest. *)
Definition bigInt (b : blockNumberArg) : option Z :=
  if ba_tag b =s "earliest" then Some 0 else ba_num b.

(** The number for a filter query; [None] when the argument was not provided. *)
Definition blockNumber (b : blockNumberArg) : option BlockNumber :=
  if ba_tag b =s "latest" then Some LatestBlockNumber
  else if ba_tag b =s "earliest" then Some EarliestBlockNumber
  else BlockNumberFromBigInt <$> ba_num b.

(** ** Round trip and meaning *)

(** The values the type can hold: nothing, a tag, or a non-negative int64. *)
Definition valid_arg (b : blockNumberArg) : Prop :=
  (ba_tag b = "" ∧ ∀ n, ba_num b = Some n → 0 ≤ n < 2 ^ 63) ∨
  ((ba_tag b = "latest" ∨ ba_tag b = "earliest") ∧ ba_num b = None).

(** The height a block number names on a chain whose head is [head]. *)
Definition height (head : Z) (bn : BlockNumber) : Z :=
  match bn with LatestBlockNumber => head | EarliestBlockNumber => 0 | BlockNumberFromBigInt n => n end.

(** A text that starts with a digit or a sign, and ends with a digit. *)
Fixpoint all_digits (s : string) : bool :=
  match s with
  | EmptyString => true
  | String c s' => match digit_of c with Some _ => all_digits s' | None => false end
  end.

Lemma decimal_all_digits s : ∀ acc n, decimal acc s = Some n → all_digits s = true.
Proof.
  induction s as [|c s IH]; intros acc n; [done|]. cbn [decimal all_digits].
  destruct (digit_of c); [|done]. cbn. apply IH.
Qed.

Lemma digit_char c v : digit_of c = Some v →
  json_space c = false ∧ Ascii.eqb c (byte_of 34) = false ∧ Ascii.eqb c "-" = false ∧ Ascii.eqb c "n" = false.
Proof.
  intros H. destruct c as [[] [] [] [] [] [] [] []]; try (vm_compute in H; discriminate); by vm_compute.
Qed.

Lemma trim_end_digits s : all_digits s = true → trim_end s = s.
Proof.
  induction s as [|c s IH]; [done|]. cbn [all_digits trim_end]. destruct (digit_of c) as [v|] eqn:E; [|done].
  intros H. cbv zeta. rewrite (IH H). by rewrite (proj1 (digit_char c v E)), andb_false_r.
Qed.

Lemma pretty_go_head x : ∀ s, (0 < x)%N → ∃ c s', pretty_N_go x s = String c s' ∧ Ascii.eqb c "0" = false.
Proof.
  induction (N.lt_wf_0 x) as [x _ IH]; intros s Hx. rewrite pretty_N_go_step by done.
  destruct (decide (x `div` 10 = 0)%N) as [E|E].
  - rewrite E, pretty_N_go_0. eexists _, _. split; [done|]. apply N.div_small_iff in E; [|done].
    rewrite N.mod_small by done.
    assert (forallb (λ n, negb (Ascii.eqb (pretty_N_char (N.of_nat n)) "0")) (seq 1 9) = true) as H by by vm_compute.
    rewrite forallb_forall in H. specialize (H (N.to_nat x)). rewrite in_seq, N2Nat.id in H.
    apply negb_true_iff, H. lia.
  - apply IH; [by apply N.div_lt|by apply N.neq_0_lt_0].
Qed.

Lemma pretty_head n : 0 ≤ n → ∃ c s, pretty n = String c s ∧ (Ascii.eqb c "0" = true → s = "").
Proof.
  intros Hn. destruct n as [|p|p]; [by exists "0"%char, ""| |lia].
  destruct (pretty_go_head (Npos p) "" ltac:(lia)) as (c & s & E & Hc). exists c, s. split; [exact E|]. by rewrite Hc.
Qed.

Lemma json_int64_pretty n : 0 ≤ n → json_int64 (pretty n) = if n <? 2 ^ 63 then Some n else None.
Proof.
  intros Hn. pose proof (decimal_pretty n Hn) as Hd. pose proof (decimal_all_digits _ _ _ Hd) as Ha.
  destruct (pretty_head n Hn) as (c & s & Ep & Hz). unfold json_int64. rewrite Ep in *.
  cbn [all_digits] in Ha. destruct (digit_of c) as [v|] eqn:Ec; [|done]. pose proof (digit_char c v Ec) as (Hs & _ & Hm & _).
  cbn [skip_space]. rewrite Hs, trim_end_digits by (cbn [all_digits]; by rewrite Ec). rewrite Hm.
  cbn [int_digits]. rewrite Hd. replace (negb (Ascii.eqb c "0") || (s =s "")) with true.
  2: { destruct (Ascii.eqb c "0"); [|done]. by rewrite Hz. }
  unfold ParseInt. cbn [split_sign]. rewrite Hm. assert (Ascii.eqb c "+" = false) as ->.
  { destruct (Ascii.eqb c "+") eqn:E; [|done]. apply Ascii.eqb_eq in E as ->. done. }
  cbn [String.eqb]. rewrite Hd. change (64 - 1) with 63. by destruct (n <? 2 ^ 63).
Qed.

Lemma Unmarshal_pretty n : 0 ≤ n →
  UnmarshalJSON (pretty n) =
  if n <? 2 ^ 63 then Ok (mkBlockArg "" (Some n))
  else Err (Wrap ("block number must be an integer or " +:+ quoted "latest" +:+ "/" +:+
                  quoted "earliest" +:+ ": ") ErrInvalidBlockRef "").
Proof.
  intros Hn. pose proof (decimal_all_digits _ _ _ (decimal_pretty n Hn)) as Ha.
  destruct (pretty_head n Hn) as (c & s & Ep & _). unfold UnmarshalJSON. rewrite (json_int64_pretty n Hn).
  rewrite Ep in *. cbn [all_digits] in Ha. destruct (digit_of c) as [v|] eqn:Ec; [|done].
  pose proof (digit_char c v Ec) as (_ & Hq & _ & Hnull). cbn [String.eqb]. rewrite Hnull, Hq.
  destruct (n <? 2 ^ 63); [|done]. by rewrite (proj2 (Z.ltb_ge _ _)).
Qed.

(** Block-number inputs. Whatever JSON a caller sends, an accepted argument is
    nothing, one of the two tags, or a number from 0 to 2^63-1; every such
    argument survives encoding and decoding; a number outside the range is an
    input error the caller sees; and the two forms in which the argument is
    handed to the client name the same block, the latest one when it was not
    provided. *)
Theorem block_argument :
  (∀ data b, UnmarshalJSON data = Ok b → valid_arg b) ∧
  (∀ b, valid_arg b → UnmarshalJSON (MarshalJSON b) = Ok b) ∧
  (∀ n, 2 ^ 63 ≤ n → ∃ e, UnmarshalJSON (pretty n) = Err e ∧ IsInputError e = true) ∧
  (∀ b head, valid_arg b →
     match blockNumber b with
     | Some bn => isSet b = true ∧ height head (blockNumOrLatest (bigInt b)) = height head bn
     | None => isSet b = false ∧ blockNumOrLatest (bigInt b) = LatestBlockNumber
     end).
Proof.
  split_and!.
  - intros data b. unfold UnmarshalJSON. destruct (data =s "null"); [intros [= <-]; by left|].
    destruct (match data with String c _ => _ | _ => _ end).
    + destruct (json_string data) as [tag|]; [|done]. destruct (tag =s "latest") eqn:E1, (tag =s "earliest") eqn:E2;
        try done; intros [= <-]; bool_to_prop; right; auto.
    + destruct (json_int64 data) as [n|] eqn:E; [|done]. destruct (n <? 0) eqn:En; [done|]. intros [= <-]. left.
      split; [done|]. intros m [= <-]. bool_to_prop. split; [done|]. unfold json_int64 in E. cbv zeta in E.
      destruct (int_digits _); [|done]. destruct (ParseInt 64 _) eqn:Ep; [|done]. injection E as ->.
      apply ParseInt_range in Ep; [|lia]. apply Ep.
  - intros [tag num] [[H1 H2]|[[H1|H1] H2]]; cbn [ba_tag ba_num] in *; subst; [|done..]. destruct num as [n|]; [|done].
    specialize (H2 n eq_refl). cbn [MarshalJSON ba_tag ba_num String.eqb negb].
    change (UnmarshalJSON (pretty n) = Ok (mkBlockArg "" (Some n))).
    rewrite Unmarshal_pretty by lia. by rewrite (proj2 (Z.ltb_lt _ _)) by lia.
  - intros n Hn. rewrite Unmarshal_pretty by lia. rewrite (proj2 (Z.ltb_ge _ _)) by lia. eexists. split; [done|].
    by vm_compute.
  - intros [tag num] head [[H1 H2]|[[H1|H1] H2]]; cbn in *; subst; [|done..]. by destruct num.
Qed.
