(* ===== verification/Config.v ===== *)
(** The configuration (internal/config): the environment variables the server
    reads, their parsing (Load and the load functions it calls, in the order in
    which they can fail) and their validation (Validate).

    The environment is a finite map; [Config]'s fields are grouped by the
    function that loads them. The texts of the errors are not modelled: an error
    is the sentinel it wraps, or the variable and the text that did not parse. *)

From Stdlib Require Import Floats.SpecFloat.
From S2P Require Import Prelude Hex GoParse Auth Evm Ingress.

(** ** Errors *)

Module CfgErrors.
Variant sentinel :=
  | ErrMissingRPCURL | ErrInvalidRPCURL | ErrInvalidChainID | ErrLegacyEnvVars | ErrLegacyWriteApproval
  | ErrInvalidTimeout | ErrInvalidTransport | ErrInvalidRetries | ErrInvalidBackoff | ErrInvalidRateLimit
  | ErrInvalidRateBurst | ErrInvalidBreakerSettings | ErrInvalidSampleRatio | ErrInvalidReadinessMaxBlockAge
  | ErrInvalidMCPRateLimit | ErrInvalidMCPRateBurst | ErrInvalidAnonRateLimit | ErrInvalidAnonRateBurst
  | ErrMissingKeyPendingFile | ErrInvalidKeyRequestRateLimit | ErrInvalidKeyRequestRateBurst
  | ErrInvalidKeyRequestMaxBody | ErrMissingSMTPPort | ErrMissingSMTPFrom | ErrKeyInLogsNotAllowed
  | ErrAdminKeyWithoutFile | ErrHTTPAuthRequired | ErrInvalidAuthProvider | ErrMissingFusionAuthURL
  | ErrMissingFusionAuthAppID | ErrMissingClientIDHMACKey | ErrInvalidFusionAuthURL
  | ErrInvalidChainEnvironment | ErrStaticKeyRolesRequired | ErrInvalidRole | ErrPepperPreviousWithoutActive
  | ErrInvalidKeyStoreBackend | ErrKeyStoreDSNRequired | ErrPepperRequired | ErrPepperTooShort
  | ErrKeylessWritesRequiresDSN | ErrKeylessWritesRequiresReads | ErrAnchorAddressInvalid
  | ErrSignerWriteRateInvalid | ErrSignerWriteWindowInvalid | ErrRelayAllowAnyWithKeyless
  | ErrInvalidTrustedProxyHops | ErrRetentionNegative | ErrRetentionIntervalInvalid
  | ErrRetentionGrantRoleShorter.
End CfgErrors.
Import CfgErrors.

Inductive config_error :=
  | CfgErr (s : sentinel)                                  (* the sentinel itself, or wrapped with the value *)
  | CfgLegacy (found : list string)                        (* ErrLegacyEnvVars: found ... *)
  | CfgParse (key value : string) (cause : parse_error).   (* invalid KEY "value": cause *)

(** ** Chain environments (environment.go) *)

Definition ChainEnvironment : Type := string.
Definition EnvTestnet : ChainEnvironment := "testnet".
Definition EnvMainnet : ChainEnvironment := "mainnet".
Definition IsValid (e : ChainEnvironment) : bool := (e =s EnvTestnet) || (e =s EnvMainnet).

Record TokenNaming := mkNaming { tn_Native : string; tn_Wrapped : string }.
Definition NamingFor (env : ChainEnvironment) : TokenNaming :=
  if env =s EnvMainnet then mkNaming "mmUSD" "wmmUSD" else mkNaming "mantraUSD" "wmantraUSD".

Definition testnetChainID : Z := 787111.
Definition mainnetChainID : Z := 1611.
Definition InferEnvironmentFromChainID (chainID : Z) : ChainEnvironment :=
  if chainID =? testnetChainID then EnvTestnet
  else if chainID =? mainnetChainID then EnvMainnet
  else "".

(** ** The environment *)

Definition environ : Type := gmap string string.
Definition Getenv (env : environ) (key : string) : string := default "" (env !! key).

Definition envOrDefault (env : environ) (key fallback : string) : string :=
  let v := Getenv env key in if v =s "" then fallback else v.

(** The pattern "read the variable or its default, parse it, or fail naming it". *)
Definition env_parse {A} (parse : string → result parse_error A) (env : environ) (key fallback : string)
    : result config_error A :=
  let v := envOrDefault env key fallback in rmap_err (CfgParse key v) (parse v).

Definition envBool (env : environ) (key : string) (fallback : bool) : result config_error bool :=
  let v := trim_space (Getenv env key) in
  if v =s "" then Ok fallback else rmap_err (CfgParse key v) (ParseBool v).

Definition parseRoleList (s : string) : list string :=
  List.filter (λ p, negb (p =s "")) (trim_space <$> split_commas s).

Definition parseCommaSeparated (raw : string) : list string :=
  if raw =s "" then [] else List.filter (λ p, negb (p =s "")) (trim_space <$> split_commas raw).

Definition legacyKeys : list string :=
  ["INVENIAM_EVM_RPC_URL"; "INVENIAM_EVM_ARCHIVE_RPC_URL"; "INVENIAM_CHAIN_ID"].

Definition detectLegacyEnvVars (env : environ) : list string :=
  List.filter (λ k, match env !! k with Some _ => true | None => false end) legacyKeys.

(** ** The configuration record *)

Record RetentionConfig := mkRetention {
  WriteAudit : Z; WriteAuditGrantRole : Z; SignerQuota : Z; SignerBlacklist : Z; AdminAudit : Z;
  PurgeInterval : Z
}.

Record CoreConfig := mkCore {
  EVMRPCURL : string; EVMArchiveRPCURL : string; AnchorAddress : string; AnchorABIPath : string;
  LogLevel : string; Transport : string; HTTPAddr : string; ChainID : Z; RequestTimeout : Z
}.
Record FeatureFlags := mkFlags {
  EnableWriteTools : bool; EnablePrometheus : bool; EnableStdoutTel : bool; OTLPInsecure : bool;
  TrustProxyHeaders : bool
}.
Record KeyConfig := mkKeyConfig {
  APIKey : string; APIKeyRoles : list string;
  KeyHMACPepper : string; KeyHMACPepperPrevious : string; KeyStoreBackendName : string; KeyStoreDSN : string;
  KeyRenewalURL : string; KeyDefaultTTL : Z;
  APIKeysFile : string; AdminAPIKey : string; AdminAPIKeysFile : string; AdminAPIAddr : string
}.
Record TelemetryConfig := mkTelemetry {
  OTELEndpoint : string; OTELServiceName : string; MetricsAddr : string;
  OTELTraceSampleRatio : spec_float; ReadinessMaxBlockAge : Z
}.
Record ResilienceConfig := mkResilience {
  RPCMaxRetries : Z; RPCInitialBackoff : Z; RPCMaxBackoff : Z; RPCRateLimit : spec_float; RPCRateBurst : Z;
  CircuitBreakerThreshold : Z; CircuitBreakerTimeout : Z
}.
Record MCPRateConfig := mkMCPRate { MCPRateLimit : spec_float; MCPRateBurst : Z }.
Record KeylessConfig := mkKeyless {
  KeylessReads : bool; KeylessWrites : bool; KeylessPGDSN : string; RelayAllowAny : bool;
  AnonRateLimit : spec_float; AnonRateBurst : Z;
  SignerWriteRate : Z; SignerWriteWindow : Z; SignerQuotaFailOpen : bool; SignerBlacklistFailOpen : bool;
  Retention : RetentionConfig
}.
Record AuthConfig := mkAuthConfig {
  AuthProvider : string; FusionAuthURL : string; FusionAuthAppID : string; FusionAuthIssuer : string;
  FusionAuthJWKSURL : string; FusionAuthClientIDHMACKey : string; JWTRolesClaim : string; JWTClockSkew : Z
}.
Record SiteConfig := mkSite {
  ChainEnv : ChainEnvironment; DocsURL : string; ExplorerURL : string; BridgeURL : string;
  WalletGeneratorURL : string
}.
Record KeyRequestConfig := mkKeyRequest {
  KeyRequestEnabled : bool; KeyPendingFile : string; AllowKeyInLogs : bool;
  KeyRequestRateLimit : spec_float; KeyRequestRateBurst : Z; KeyRequestMaxBodyBytes : Z
}.
Record SMTPConfig := mkSMTP {
  SMTPHost : string; SMTPUsername : string; SMTPPassword : string; SMTPFrom : string; SMTPFromName : string;
  SMTPPort : Z
}.

Record Config := mkConfig {
  core : CoreConfig; flags : FeatureFlags; TrustedProxyHops : Z; keys : KeyConfig;
  telemetry : TelemetryConfig; resilience : ResilienceConfig; mcpRate : MCPRateConfig;
  keyless : KeylessConfig; authConf : AuthConfig; site : SiteConfig; keyRequest : KeyRequestConfig;
  smtp : SMTPConfig; AllowedOrigins : list string
}.

(** ** Loading *)

Definition loadCoreConfig (env : environ) : result config_error CoreConfig :=
  let chainIDStr := Getenv env "NVNM_CHAIN_ID" in
  let? id := (if chainIDStr =s "" then Ok 0
              else rmap_err (CfgParse "NVNM_CHAIN_ID" chainIDStr) (ParseInt 64 chainIDStr)) in
  let? timeout := env_parse ParseDuration env "REQUEST_TIMEOUT" "15s" in
  Ok (mkCore (Getenv env "NVNM_EVM_RPC_URL") (Getenv env "NVNM_EVM_ARCHIVE_RPC_URL")
        (envOrDefault env "ANCHOR_ADDRESS" "0x0000000000000000000000000000000000000A00")
        (Getenv env "ANCHOR_ABI_PATH") (envOrDefault env "LOG_LEVEL" "info")
        (envOrDefault env "MCP_TRANSPORT" "stdio") (envOrDefault env "MCP_HTTP_ADDR" ":8080") id timeout).

Definition loadFeatureFlags (env : environ) : result config_error FeatureFlags :=
  let? writes := envBool env "ENABLE_WRITE_TOOLS" false in
  let? prometheus := envBool env "ENABLE_PROMETHEUS" true in
  let? stdoutTel := envBool env "ENABLE_STDOUT_TELEMETRY" false in
  let? insecure := envBool env "OTLP_INSECURE" false in
  let? trust := envBool env "NVNM_TRUST_PROXY_HEADERS" false in
  Ok (mkFlags writes prometheus stdoutTel insecure trust).

Definition loadTrustedProxyHops (env : environ) : result config_error Z :=
  let? hops := env_parse Atoi env "NVNM_TRUSTED_PROXY_HOPS" "1" in
  if hops <? 1 then Err (CfgErr ErrInvalidTrustedProxyHops) else Ok hops.

(** loadKeyStoreConfig, and the assignments of Load around it. *)
Definition loadKeyStoreConfig (env : environ) : result config_error KeyConfig :=
  let? keyTTL := env_parse ParseDuration env "KEY_DEFAULT_TTL" "8760h" in
  Ok (mkKeyConfig (Getenv env "MCP_API_KEY") (parseRoleList (Getenv env "MCP_API_KEY_ROLES"))
        (Getenv env "KEY_HMAC_PEPPER") (Getenv env "KEY_HMAC_PEPPER_PREVIOUS") (Getenv env "KEY_STORE_BACKEND")
        (Getenv env "KEY_STORE_DSN") (Getenv env "KEY_RENEWAL_URL") keyTTL
        (Getenv env "MCP_API_KEYS_FILE") (Getenv env "ADMIN_API_KEY") (Getenv env "ADMIN_API_KEYS_FILE")
        (envOrDefault env "ADMIN_API_ADDR" "127.0.0.1:8081")).

Definition loadTelemetryConfig (env : environ) : result config_error TelemetryConfig :=
  let? sampleRatio := env_parse ParseFloat env "OTEL_TRACE_SAMPLE_RATIO" "1.0" in
  let? maxBlockAge := env_parse ParseDuration env "NVNM_READINESS_MAX_BLOCK_AGE" "5m" in
  Ok (mkTelemetry (Getenv env "OTEL_EXPORTER_OTLP_ENDPOINT") (envOrDefault env "OTEL_SERVICE_NAME" "nvnm-mcp-server")
        (envOrDefault env "METRICS_ADDR" ":9090") sampleRatio maxBlockAge).

Definition loadResilienceConfig (env : environ) : result config_error ResilienceConfig :=
  let? retries := env_parse Atoi env "RPC_MAX_RETRIES" "3" in
  let? initialBackoff := env_parse ParseDuration env "RPC_INITIAL_BACKOFF" "500ms" in
  let? maxBackoff := env_parse ParseDuration env "RPC_MAX_BACKOFF" "10s" in
  let? rateLimit := env_parse ParseFloat env "RPC_RATE_LIMIT" "100" in
  let? rateBurst := env_parse Atoi env "RPC_RATE_BURST" "20" in
  let? threshold := env_parse (ParseUint 32) env "CIRCUIT_BREAKER_THRESHOLD" "5" in
  let? timeout := env_parse ParseDuration env "CIRCUIT_BREAKER_TIMEOUT" "30s" in
  Ok (mkResilience retries initialBackoff maxBackoff rateLimit rateBurst threshold timeout).

Definition loadMCPRateConfig (env : environ) : result config_error MCPRateConfig :=
  let? rateLimit := env_parse ParseFloat env "MCP_RATE_LIMIT" "60" in
  let? rateBurst := env_parse Atoi env "MCP_RATE_BURST" "10" in
  Ok (mkMCPRate rateLimit rateBurst).

(** One retention window: unset means zero, and zero means for ever. *)
Definition retention_window (env : environ) (key : string) : result config_error Z :=
  let raw := envOrDefault env key "" in
  if raw =s "" then Ok 0
  else let? d := rmap_err (CfgParse key raw) (ParseDuration raw) in
       if d <? 0 then Err (CfgErr ErrRetentionNegative) else Ok d.

Definition Enabled (r : RetentionConfig) : bool :=
  (0 <? WriteAudit r) || (0 <? WriteAuditGrantRole r) || (0 <? SignerQuota r) ||
  (0 <? SignerBlacklist r) || (0 <? AdminAudit r).

Definition retention_validate (r : RetentionConfig) : option config_error :=
  if negb (Enabled r) then None
  else if PurgeInterval r <=? 0 then Some (CfgErr ErrRetentionIntervalInvalid)
  else if (0 <? WriteAuditGrantRole r) && ((WriteAudit r =? 0) || (WriteAuditGrantRole r <? WriteAudit r))
  then Some (CfgErr ErrRetentionGrantRoleShorter)
  else None.

Definition loadRetentionConfig (env : environ) : result config_error RetentionConfig :=
  let? writeAudit := retention_window env "MCP_WRITE_AUDIT_RETENTION" in
  let? grantRole := retention_window env "MCP_WRITE_AUDIT_GRANT_ROLE_RETENTION" in
  let? quota := retention_window env "MCP_SIGNER_QUOTA_RETENTION" in
  let? blacklist := retention_window env "MCP_SIGNER_BLACKLIST_RETENTION" in
  let? admin := retention_window env "MCP_ADMIN_AUDIT_RETENTION" in
  let? interval := env_parse ParseDuration env "MCP_RETENTION_PURGE_INTERVAL" "1h" in
  let r := mkRetention writeAudit grantRole quota blacklist admin interval in
  match retention_validate r with Some e => Err e | None => Ok r end.

(** The four knobs of the signer gates. *)
Definition loadSignerQuotaConfig (env : environ) : result config_error (Z * Z * bool * bool) :=
  let? rate := env_parse Atoi env "MCP_SIGNER_WRITE_RATE" "500" in
  let? window := env_parse ParseDuration env "MCP_SIGNER_WRITE_WINDOW" "24h" in
  let? quotaFailOpen := envBool env "MCP_SIGNER_QUOTA_FAIL_OPEN" false in
  let? blacklistFailOpen := envBool env "MCP_SIGNER_BLACKLIST_FAIL_OPEN" false in
  Ok (rate, window, quotaFailOpen, blacklistFailOpen).

Definition loadKeylessConfig (env : environ) : result config_error KeylessConfig :=
  let? reads := envBool env "MCP_KEYLESS_READS" false in
  let? writes := envBool env "MCP_KEYLESS_WRITES" false in
  let? allowAny := envBool env "MCP_RELAY_ALLOW_ANY" false in
  let? anonLimit := env_parse ParseFloat env "MCP_ANON_RATE_LIMIT" "5" in
  let? anonBurst := env_parse Atoi env "MCP_ANON_RATE_BURST" "5" in
  let? signer := loadSignerQuotaConfig env in
  let? retention := loadRetentionConfig env in
  let '(rate, window, quotaFailOpen, blacklistFailOpen) := signer in
  Ok (mkKeyless reads writes (Getenv env "MCP_KEYLESS_PG_DSN") allowAny anonLimit anonBurst
        rate window quotaFailOpen blacklistFailOpen retention).

(** The provider settings, read by Load itself. *)
Definition load_auth_config (env : environ) : result config_error AuthConfig :=
  let? clockSkew := env_parse ParseDuration env "JWT_CLOCK_SKEW" "60s" in
  Ok (mkAuthConfig (envOrDefault env "AUTH_PROVIDER" "apikey") (Getenv env "FUSIONAUTH_URL")
        (Getenv env "FUSIONAUTH_APPLICATION_ID") (Getenv env "FUSIONAUTH_ISSUER") (Getenv env "FUSIONAUTH_JWKS_URL")
        (Getenv env "MCP_CLIENT_ID_HMAC_KEY") (envOrDefault env "JWT_ROLES_CLAIM" "roles") clockSkew).

Definition loadChainEnvironment (env : environ) (chainID : Z) : ChainEnvironment :=
  let raw := Getenv env "NVNM_CHAIN_ENVIRONMENT" in
  if raw =s "" then InferEnvironmentFromChainID chainID else raw.

Definition load_site (env : environ) (chainID : Z) : SiteConfig :=
  mkSite (loadChainEnvironment env chainID) (Getenv env "NVNM_DOCS_URL") (Getenv env "NVNM_EXPLORER_URL")
    (Getenv env "NVNM_BRIDGE_URL") (envOrDefault env "NVNM_WALLET_GENERATOR_URL" "https://wallet.nvnmchain.io").

Definition loadKeyRequestConfig (env : environ) : result config_error KeyRequestConfig :=
  let? enabled := envBool env "NVNM_KEY_REQUEST_ENABLED" false in
  let? allowKeyInLogs := envBool env "NVNM_ALLOW_KEY_IN_LOGS" false in
  let? limit := env_parse ParseFloat env "NVNM_KEY_REQUEST_RATE_LIMIT" "0.5" in
  let? burst := env_parse Atoi env "NVNM_KEY_REQUEST_RATE_BURST" "3" in
  let? maxBody := env_parse (ParseInt 64) env "NVNM_KEY_REQUEST_MAX_BODY_BYTES" "16384" in
  let c := mkKeyRequest enabled (Getenv env "NVNM_KEY_PENDING_FILE") allowKeyInLogs limit burst maxBody in
  if negb enabled then Ok c
  else if KeyPendingFile c =s "" then Err (CfgErr ErrMissingKeyPendingFile)
  else if fle limit float_zero then Err (CfgErr ErrInvalidKeyRequestRateLimit)
  else if burst <=? 0 then Err (CfgErr ErrInvalidKeyRequestRateBurst)
  else if maxBody <=? 0 then Err (CfgErr ErrInvalidKeyRequestMaxBody)
  else Ok c.

Definition loadSMTPConfig (env : environ) : result config_error SMTPConfig :=
  let portStr := Getenv env "NVNM_SMTP_PORT" in
  let? port := (if portStr =s "" then Ok 0 else rmap_err (CfgParse "NVNM_SMTP_PORT" portStr) (Atoi portStr)) in
  let c := mkSMTP (Getenv env "NVNM_SMTP_HOST") (Getenv env "NVNM_SMTP_USERNAME") (Getenv env "NVNM_SMTP_PASSWORD")
             (Getenv env "NVNM_SMTP_FROM") (Getenv env "NVNM_SMTP_FROM_NAME") port in
  if SMTPHost c =s "" then Ok c
  else if port =? 0 then Err (CfgErr ErrMissingSMTPPort)
  else if SMTPFrom c =s "" then Err (CfgErr ErrMissingSMTPFrom)
  else Ok c.

(** ** Validation: [None] is a valid configuration *)

(** Sequenced checks: the first that fails. *)
Definition first_failure (checks : list (bool * sentinel)) : option config_error :=
  (λ p, CfgErr p.2) <$> List.find (λ p : bool * sentinel, p.1) checks.

Definition http_url (u : string) : bool := has_prefix "http://" u || has_prefix "https://" u.

Definition validateAuth (c : Config) : option config_error :=
  let k := keys c in let a := authConf c in
  let fusionauth := AuthProvider a =s "fusionauth" in
  first_failure [
    (negb (KeyHMACPepperPrevious k =s "") && (KeyHMACPepper k =s ""), ErrPepperPreviousWithoutActive);
    (negb (APIKey k =s "") && bool_decide (APIKeyRoles k = []), ErrStaticKeyRolesRequired);
    (negb (APIKey k =s "") && existsb (λ r, negb (IsValidRole r)) (APIKeyRoles k), ErrInvalidRole);
    (negb (AuthProvider a =s "apikey") && negb fusionauth, ErrInvalidAuthProvider);
    (fusionauth && (FusionAuthURL a =s ""), ErrMissingFusionAuthURL);
    (fusionauth && negb (http_url (FusionAuthURL a)), ErrInvalidFusionAuthURL);
    (fusionauth && (FusionAuthAppID a =s ""), ErrMissingFusionAuthAppID);
    (fusionauth && (FusionAuthClientIDHMACKey a =s ""), ErrMissingClientIDHMACKey)].

Definition MinKeyHMACPepperLen : Z := 32.

Definition weak_pepper (p : string) : bool := (0 <? slen p) && (slen p <? MinKeyHMACPepperLen).
Definition validatePepperStrength (c : Config) : option config_error :=
  first_failure [(weak_pepper (KeyHMACPepper (keys c)), ErrPepperTooShort);
                 (weak_pepper (KeyHMACPepperPrevious (keys c)), ErrPepperTooShort)].

Definition validateKeyStore (c : Config) : option config_error :=
  let k := keys c in
  if (KeyStoreBackendName k =s "") || (KeyStoreBackendName k =s "file") then None
  else if KeyStoreBackendName k =s "postgres" then
    first_failure [(KeyStoreDSN k =s "", ErrKeyStoreDSNRequired);
                   ((AuthProvider (authConf c) =s "apikey") && (KeyHMACPepper k =s ""), ErrPepperRequired)]
  else Some (CfgErr ErrInvalidKeyStoreBackend).

Definition validateKeylessWrites (c : Config) : option config_error :=
  let k := keyless c in
  if negb (KeylessWrites k) then None
  else first_failure [
    (RelayAllowAny k, ErrRelayAllowAnyWithKeyless);
    (negb (KeylessReads k), ErrKeylessWritesRequiresReads);
    (match AddressFromHex (AnchorAddress (core c)) with Some _ => false | None => true end, ErrAnchorAddressInvalid);
    (SignerWriteRate k <? 1, ErrSignerWriteRateInvalid);
    (SignerWriteWindow k <=? 0, ErrSignerWriteWindowInvalid)].

Definition validateKeyless (c : Config) : option config_error :=
  if KeylessWrites (keyless c) && (KeylessPGDSN (keyless c) =s "") then Some (CfgErr ErrKeylessWritesRequiresDSN)
  else validateKeylessWrites c.

Definition validateKeyRequestEmail (c : Config) : option config_error :=
  if KeyRequestEnabled (keyRequest c) && (SMTPHost (smtp c) =s "") && negb (AllowKeyInLogs (keyRequest c))
  then Some (CfgErr ErrKeyInLogsNotAllowed) else None.

Definition validateResilience (c : Config) : option config_error :=
  let r := resilience c in let t := telemetry c in
  first_failure [
    (RPCMaxRetries r <? 0, ErrInvalidRetries);
    ((RPCInitialBackoff r <=? 0) || (RPCMaxBackoff r <=? 0), ErrInvalidBackoff);
    (fle (RPCRateLimit r) float_zero, ErrInvalidRateLimit);
    (RPCRateBurst r <=? 0, ErrInvalidRateBurst);
    ((CircuitBreakerThreshold r =? 0) || (CircuitBreakerTimeout r <=? 0), ErrInvalidBreakerSettings);
    (flt (OTELTraceSampleRatio t) float_zero || flt float_one (OTELTraceSampleRatio t), ErrInvalidSampleRatio);
    (ReadinessMaxBlockAge t <? 0, ErrInvalidReadinessMaxBlockAge);
    (fle (MCPRateLimit (mcpRate c)) float_zero, ErrInvalidMCPRateLimit);
    (MCPRateBurst (mcpRate c) <=? 0, ErrInvalidMCPRateBurst);
    (fle (AnonRateLimit (keyless c)) float_zero, ErrInvalidAnonRateLimit);
    (AnonRateBurst (keyless c) <=? 0, ErrInvalidAnonRateBurst)].

(** if err := a(); err != nil { return err }; return b() *)
Definition or_else (a b : option config_error) : option config_error :=
  match a with Some e => Some e | None => b end.

Definition Validate (c : Config) : option config_error :=
  let k := core c in
  or_else (first_failure [
    (EVMRPCURL k =s "", ErrMissingRPCURL);
    (negb (http_url (EVMRPCURL k)), ErrInvalidRPCURL);
    (ChainID k <=? 0, ErrInvalidChainID);
    (RequestTimeout k <=? 0, ErrInvalidTimeout);
    (negb (Transport k =s "stdio") && negb (Transport k =s "http"), ErrInvalidTransport);
    (negb (IsValid (ChainEnv (site c))), ErrInvalidChainEnvironment)])
  (or_else (validateAuth c)
  (or_else (validatePepperStrength c)
  (or_else (validateKeyStore c)
  (or_else (validateKeyless c)
  (or_else (validateKeyRequestEmail c) (validateResilience c)))))).

(** ** Load *)

Definition read_environment (env : environ) : result config_error Config :=
  let? core := loadCoreConfig env in
  let? flags := loadFeatureFlags env in
  let? hops := loadTrustedProxyHops env in
  let? keys := loadKeyStoreConfig env in
  let? telemetry := loadTelemetryConfig env in
  let? resilience := loadResilienceConfig env in
  let? mcpRate := loadMCPRateConfig env in
  let? keyless := loadKeylessConfig env in
  let? auth := load_auth_config env in
  let? keyRequest := loadKeyRequestConfig env in
  let? smtp := loadSMTPConfig env in
  Ok (mkConfig core flags hops keys telemetry resilience mcpRate keyless auth (load_site env (ChainID core))
        keyRequest smtp (parseCommaSeparated (Getenv env "NVNM_ALLOWED_ORIGINS"))).

Definition Load (env : environ) : result config_error Config :=
  if negb (bool_decide (detectLegacyEnvVars env = [])) then Err (CfgLegacy (detectLegacyEnvVars env))
  else if negb (Getenv env "WRITE_APPROVAL_DEFAULT" =s "") then Err (CfgErr ErrLegacyWriteApproval)
  else let? c := read_environment env in
       match Validate c with Some e => Err e | None => Ok c end.

Definition GetFusionAuthIssuer (c : Config) : string :=
  if FusionAuthIssuer (authConf c) =s "" then FusionAuthURL (authConf c) else FusionAuthIssuer (authConf c).

Definition GetFusionAuthJWKSURL (c : Config) : string :=
  if FusionAuthJWKSURL (authConf c) =s ""
  then trim_right_by (Ascii.eqb "/") (FusionAuthURL (authConf c)) +:+ "/.well-known/jwks.json"
  else FusionAuthJWKSURL (authConf c).

(** ** What a loaded configuration guarantees *)

Lemma first_failure_None checks : first_failure checks = None ↔ Forall (λ p, p.1 = false) checks.
Proof.
  unfold first_failure. induction checks as [|[b s] l IH]; cbn.
  - split; [intros _; constructor|done].
  - rewrite Forall_cons. destruct b; cbn; [split; [done|by intros [? _]]|]. rewrite IH. naive_solver.
Qed.

Lemma or_else_None a b : or_else a b = None ↔ a = None ∧ b = None.
Proof. destruct a; cbn; naive_solver. Qed.

(** The checks of a validation function as a conjunction of propositions. *)
Ltac checks_to_prop :=
  repeat (rewrite first_failure_None || rewrite Forall_cons || rewrite Forall_nil); cbn [fst];
  repeat (rewrite orb_false_iff || rewrite orb_true_iff || rewrite andb_false_iff || rewrite negb_false_iff || rewrite negb_true_iff ||
          rewrite String.eqb_eq || rewrite String.eqb_neq || rewrite Z.ltb_ge || rewrite Z.leb_gt ||
          rewrite Z.eqb_neq || rewrite bool_decide_eq_false).

(** The fields as the rest of the server relies on them. *)
Record well_formed (c : Config) : Prop := {
  wf_rpc : http_url (EVMRPCURL (core c)) = true;
  wf_chain : 0 < ChainID (core c) < 2 ^ 63;
  wf_timeout : 0 < RequestTimeout (core c) < 2 ^ 63;
  wf_transport : Transport (core c) = "stdio" ∨ Transport (core c) = "http";
  wf_env : ChainEnv (site c) = EnvTestnet ∨ ChainEnv (site c) = EnvMainnet;
  wf_hops : 1 ≤ TrustedProxyHops c < 2 ^ 63;
  wf_static_key : APIKey (keys c) ≠ "" →
    APIKeyRoles (keys c) ≠ [] ∧ Forall (λ r, r ∈ validRoles) (APIKeyRoles (keys c));
  wf_pepper : Forall (λ p, p = "" ∨ 32 ≤ slen p) [KeyHMACPepper (keys c); KeyHMACPepperPrevious (keys c)];
  wf_rotation : KeyHMACPepperPrevious (keys c) ≠ "" → KeyHMACPepper (keys c) ≠ "";
  wf_backend_name : KeyStoreBackendName (keys c) ∈ [""; "file"; "postgres"];
  wf_backend : KeyStoreBackendName (keys c) = "postgres" →
    KeyStoreDSN (keys c) ≠ "" ∧ (AuthProvider (authConf c) = "apikey" → KeyHMACPepper (keys c) ≠ "");
  wf_provider : AuthProvider (authConf c) = "apikey" ∨
    AuthProvider (authConf c) = "fusionauth" ∧ FusionAuthAppID (authConf c) ≠ "" ∧
    FusionAuthClientIDHMACKey (authConf c) ≠ "" ∧ http_url (FusionAuthURL (authConf c)) = true;
  wf_keyless : KeylessWrites (keyless c) = true →
    KeylessReads (keyless c) = true ∧ RelayAllowAny (keyless c) = false ∧ KeylessPGDSN (keyless c) ≠ "" ∧
    is_Some (AddressFromHex (AnchorAddress (core c))) ∧
    1 ≤ SignerWriteRate (keyless c) ∧ 0 < SignerWriteWindow (keyless c);
  wf_key_logs : KeyRequestEnabled (keyRequest c) = true →
    SMTPHost (smtp c) ≠ "" ∨ AllowKeyInLogs (keyRequest c) = true;
  wf_retry : 0 ≤ RPCMaxRetries (resilience c) ∧ 0 < RPCInitialBackoff (resilience c) ∧
    0 < RPCMaxBackoff (resilience c) ∧ 0 < RPCRateBurst (resilience c);
  wf_breaker : 0 < CircuitBreakerThreshold (resilience c) < 2 ^ 32 ∧ 0 < CircuitBreakerTimeout (resilience c);
  wf_bursts : 0 < MCPRateBurst (mcpRate c) ∧ 0 < AnonRateBurst (keyless c);
  wf_rates : Forall (λ x, fle x float_zero = false)
    [RPCRateLimit (resilience c); MCPRateLimit (mcpRate c); AnonRateLimit (keyless c)];
  wf_sampling : flt (OTELTraceSampleRatio (telemetry c)) float_zero = false ∧
    flt float_one (OTELTraceSampleRatio (telemetry c)) = false;
  wf_staleness : 0 ≤ ReadinessMaxBlockAge (telemetry c);
}.

Lemma env_parse_ok {A} (parse : string → result parse_error A) env key fallback a :
  env_parse parse env key fallback = Ok a → parse (envOrDefault env key fallback) = Ok a.
Proof. unfold env_parse. cbv zeta. destruct (parse _); cbn; [by intros [= ->]|done]. Qed.

Lemma weak_pepper_false p : weak_pepper p = false → p = "" ∨ 32 ≤ slen p.
Proof.
  unfold weak_pepper, MinKeyHMACPepperLen. destruct p as [|a p]; [by left|]. intros H. right.
  change (slen (String a p)) with (Z.of_nat (S (String.length p))) in *.
  apply andb_false_iff in H as [H|H]; bool_to_prop; lia.
Qed.

(** ** Ranges that parsing alone establishes *)

(** Undo the sequencing of a load function that succeeded. *)
Ltac open_load H :=
  repeat (apply rbind_ok in H; let x := fresh "x" in let E := fresh "E" in destruct H as (x & E & H)).

Lemma env_duration_range env key fallback d :
  env_parse ParseDuration env key fallback = Ok d → - 2 ^ 63 ≤ d < 2 ^ 63.
Proof. intros H%env_parse_ok. by eapply ParseDuration_range. Qed.

Lemma loadCoreConfig_range env k : loadCoreConfig env = Ok k → ChainID k < 2 ^ 63 ∧ RequestTimeout k < 2 ^ 63.
Proof.
  unfold loadCoreConfig. cbv zeta. intros H. open_load H. injection H as <-. cbn.
  split; [|by eapply env_duration_range].
  destruct (Getenv env "NVNM_CHAIN_ID" =s ""); [by injection E as <-|].
  destruct (ParseInt 64 _) eqn:Ep; [|done]. injection E as <-. apply ParseInt_range in Ep; [|done]. apply Ep.
Qed.

Lemma loadTrustedProxyHops_range env n : loadTrustedProxyHops env = Ok n → 1 ≤ n < 2 ^ 63.
Proof.
  unfold loadTrustedProxyHops. intros H. open_load H.
  apply env_parse_ok in E. unfold Atoi in E. apply ParseInt_range in E; [|lia].
  destruct (x <? 1) eqn:El; [done|]. injection H as <-. bool_to_prop. lia.
Qed.

Lemma loadResilienceConfig_range env r : loadResilienceConfig env = Ok r → 0 ≤ CircuitBreakerThreshold r < 2 ^ 32.
Proof.
  unfold loadResilienceConfig. intros H. open_load H. injection H as <-. cbn.
  by match goal with E : env_parse (ParseUint 32) _ _ _ = _ |- _ => apply env_parse_ok, ParseUint_range in E end.
Qed.

Definition in_range (c : Config) : Prop :=
  ChainID (core c) < 2 ^ 63 ∧ RequestTimeout (core c) < 2 ^ 63 ∧ 1 ≤ TrustedProxyHops c < 2 ^ 63 ∧
  0 ≤ CircuitBreakerThreshold (resilience c) < 2 ^ 32.

Lemma read_environment_ranges env c : read_environment env = Ok c → in_range c.
Proof.
  unfold in_range, read_environment. intros H. open_load H. injection H as <-. cbn.
  match goal with E : loadCoreConfig _ = _ |- _ => apply loadCoreConfig_range in E end.
  match goal with E : loadTrustedProxyHops _ = _ |- _ => apply loadTrustedProxyHops_range in E end.
  match goal with E : loadResilienceConfig _ = _ |- _ => apply loadResilienceConfig_range in E end.
  tauto.
Qed.

(** ** Validation *)

Lemma roles_valid l : existsb (λ r, negb (IsValidRole r)) l = false ↔ Forall (λ r, r ∈ validRoles) l.
Proof.
  induction l as [|r l IH]; cbn [existsb]; [split; [constructor|done]|].
  rewrite orb_false_iff, Forall_cons, IH, negb_false_iff. unfold IsValidRole. by rewrite existsb_eqb_true.
Qed.

Lemma weak_pepper_spec p : weak_pepper p = false ↔ p = "" ∨ 32 ≤ slen p.
Proof.
  split; [apply weak_pepper_false|]. unfold weak_pepper, MinKeyHMACPepperLen.
  intros [->|H]; [done|]. apply andb_false_iff. right. by apply Z.ltb_ge.
Qed.

Lemma unless_empty (x : string) (P : Prop) : (x = "" ∨ P) ↔ (x ≠ "" → P).
Proof. destruct (decide (x = "")); tauto. Qed.

Lemma unless_equal (x y : string) (P : Prop) : (x ≠ y ∨ P) ↔ (x = y → P).
Proof. destruct (decide (x = y)); tauto. Qed.

Lemma validateAuth_spec c :
  let k := keys c in let a := authConf c in
  validateAuth c = None ↔
  (KeyHMACPepperPrevious k ≠ "" → KeyHMACPepper k ≠ "") ∧
  (APIKey k ≠ "" → APIKeyRoles k ≠ [] ∧ Forall (λ r, r ∈ validRoles) (APIKeyRoles k)) ∧
  (AuthProvider a = "apikey" ∨ AuthProvider a = "fusionauth" ∧ FusionAuthAppID a ≠ "" ∧
     FusionAuthClientIDHMACKey a ≠ "" ∧ http_url (FusionAuthURL a) = true).
Proof.
  intros k a. unfold validateAuth. fold k a. cbv zeta. checks_to_prop. rewrite roles_valid.
  rewrite !unless_empty, !unless_equal.
  assert (http_url (FusionAuthURL a) = true → FusionAuthURL a ≠ "") as Hu by (intros H E; by rewrite E in H).
  split; intros H; destruct_and? H.
  - split_and!; [done|auto|]. destruct (decide (AuthProvider a = "apikey")); [by left|right].
    assert (AuthProvider a = "fusionauth") by naive_solver. auto 10.
  - match goal with H : _ ∨ _ |- _ => destruct H as [Ea|(Ea & ? & ? & ?)] end; rewrite Ea;
      split_and!; try done; try (by left); try (by right); naive_solver.
Qed.

Lemma validateKeyStore_spec c :
  let k := keys c in
  validateKeyStore c = None ↔
  KeyStoreBackendName k ∈ [""; "file"; "postgres"] ∧
  (KeyStoreBackendName k = "postgres" →
     KeyStoreDSN k ≠ "" ∧ (AuthProvider (authConf c) = "apikey" → KeyHMACPepper k ≠ "")).
Proof.
  intros k. unfold validateKeyStore. fold k. cbv zeta. rewrite !elem_of_cons, elem_of_nil.
  destruct (KeyStoreBackendName k =s "") eqn:E1; [bool_to_prop; rewrite E1; naive_solver|].
  destruct (KeyStoreBackendName k =s "file") eqn:E2; [bool_to_prop; rewrite E2; naive_solver|]. cbn [orb].
  destruct (KeyStoreBackendName k =s "postgres") eqn:E3; bool_to_prop; [|naive_solver].
  rewrite E3. checks_to_prop. destruct (decide (AuthProvider (authConf c) = "apikey")); naive_solver.
Qed.

Lemma validateKeyless_spec c :
  let k := keyless c in
  validateKeyless c = None ↔
  (KeylessWrites k = true →
     KeylessReads k = true ∧ RelayAllowAny k = false ∧ KeylessPGDSN k ≠ "" ∧
     is_Some (AddressFromHex (AnchorAddress (core c))) ∧ 1 ≤ SignerWriteRate k ∧ 0 < SignerWriteWindow k).
Proof.
  intros k. unfold validateKeyless, validateKeylessWrites. fold k. cbv zeta.
  destruct (KeylessWrites k); cbn [andb negb]; [|naive_solver].
  destruct (KeylessPGDSN k =s "") eqn:Ed; bool_to_prop; [naive_solver|]. checks_to_prop.
  destruct (AddressFromHex _) as [a|]; [|naive_solver].
  assert (is_Some (Some a)) by done. naive_solver.
Qed.

Lemma validateResilience_spec c :
  let r := resilience c in let t := telemetry c in
  0 ≤ CircuitBreakerThreshold r →
  validateResilience c = None ↔
  (0 ≤ RPCMaxRetries r ∧ 0 < RPCInitialBackoff r ∧ 0 < RPCMaxBackoff r ∧ 0 < RPCRateBurst r) ∧
  (0 < CircuitBreakerThreshold r ∧ 0 < CircuitBreakerTimeout r) ∧
  (0 < MCPRateBurst (mcpRate c) ∧ 0 < AnonRateBurst (keyless c)) ∧
  Forall (λ x, fle x float_zero = false) [RPCRateLimit r; MCPRateLimit (mcpRate c); AnonRateLimit (keyless c)] ∧
  (flt (OTELTraceSampleRatio t) float_zero = false ∧ flt float_one (OTELTraceSampleRatio t) = false) ∧
  0 ≤ ReadinessMaxBlockAge t.
Proof.
  intros r t Hr. unfold validateResilience. fold r t. cbv zeta. checks_to_prop.
  assert (CircuitBreakerThreshold r ≠ 0 ↔ 0 < CircuitBreakerThreshold r) as -> by lia. tauto.
Qed.

Lemma validateKeyRequestEmail_spec c :
  validateKeyRequestEmail c = None ↔
  (KeyRequestEnabled (keyRequest c) = true → SMTPHost (smtp c) ≠ "" ∨ AllowKeyInLogs (keyRequest c) = true).
Proof.
  unfold validateKeyRequestEmail. destruct (SMTPHost (smtp c) =s "") eqn:E; bool_to_prop;
    destruct (KeyRequestEnabled _), (AllowKeyInLogs _); cbn; naive_solver.
Qed.

Lemma Validate_well_formed c : in_range c → Validate c = None ↔ well_formed c.
Proof.
  intros (H1 & H2 & H3 & H4 & H5).
  assert (http_url (EVMRPCURL (core c)) = true → EVMRPCURL (core c) ≠ "") as Hu by (intros H E; by rewrite E in H).
  unfold Validate. rewrite !or_else_None, validateAuth_spec, validateKeyStore_spec, validateKeyless_spec,
    validateKeyRequestEmail_spec, validateResilience_spec by lia.
  unfold validatePepperStrength, IsValid. checks_to_prop. rewrite !weak_pepper_spec. split.
  - intros H. rewrite ?Forall_cons, ?Forall_nil in H. destruct_and? H.
    constructor; rewrite ?Forall_cons, ?Forall_nil; repeat (assumption || exact I || split).
  - intros []. rewrite !Forall_cons, Forall_nil in *. destruct_and?. auto 20.
Qed.

Lemma Load_reads env c : Load env = Ok c → read_environment env = Ok c ∧ well_formed c.
Proof.
  unfold Load. destruct (negb _); [done|]. destruct (negb _); [done|].
  intros (c' & Hr & Hv)%rbind_ok. destruct (Validate c') eqn:E; [done|]. injection Hv as ->.
  split; [done|]. apply Validate_well_formed; [|done]. by eapply read_environment_ranges.
Qed.

(** C30: Configuration. Load accepts an environment exactly when no retired
    variable is set, every variable it reads parses, and the result is well
    formed: the record [well_formed] states what every other component may take
    for granted, in particular that keyless writes never run without their
    audit database, a parseable anchor address, a quota and the anonymous
    path. *)
Theorem Load_accepts env c :
  Load env = Ok c ↔
  detectLegacyEnvVars env = [] ∧ Getenv env "WRITE_APPROVAL_DEFAULT" = "" ∧
  read_environment env = Ok c ∧ well_formed c.
Proof.
  unfold Load. destruct (decide (detectLegacyEnvVars env = [])) as [El|El].
  2: { rewrite bool_decide_false by done. naive_solver. }
  rewrite bool_decide_true by done. cbn [negb].
  destruct (Getenv env "WRITE_APPROVAL_DEFAULT" =s "") eqn:Ew; bool_to_prop; cbn [negb]; [|naive_solver].
  rewrite rbind_ok. split.
  - intros (c' & Hr & Hv). destruct (Validate c') eqn:E; [done|]. injection Hv as ->.
    rewrite <- Validate_well_formed by (by eapply read_environment_ranges). done.
  - intros (_ & _ & Hr & Hw). exists c. split; [done|]. by rewrite (proj2 (Validate_well_formed c (read_environment_ranges env c Hr)) Hw).
Qed.

(** ** The variables, as a table *)

(** A variable that determines a field: its name, its parser, the field and the
    value the field has when the variable is unset or empty. *)
Record variable (A : Type) := mkVar {
  v_name : string; v_parse : string → result parse_error A; v_field : Config → A; v_default : A
}.
Arguments mkVar {A}.
Arguments v_name {A}.
Arguments v_parse {A}.
Arguments v_field {A}.
Arguments v_default {A}.

Definition int_vars : list (variable Z) := [
  mkVar "NVNM_CHAIN_ID" (ParseInt 64) (λ c, ChainID (core c)) 0;
  mkVar "REQUEST_TIMEOUT" ParseDuration (λ c, RequestTimeout (core c)) (15 * 10 ^ 9);
  mkVar "NVNM_TRUSTED_PROXY_HOPS" Atoi TrustedProxyHops 1;
  mkVar "KEY_DEFAULT_TTL" ParseDuration (λ c, KeyDefaultTTL (keys c)) (8760 * 3600 * 10 ^ 9);
  mkVar "NVNM_READINESS_MAX_BLOCK_AGE" ParseDuration (λ c, ReadinessMaxBlockAge (telemetry c)) (300 * 10 ^ 9);
  mkVar "RPC_MAX_RETRIES" Atoi (λ c, RPCMaxRetries (resilience c)) 3;
  mkVar "RPC_INITIAL_BACKOFF" ParseDuration (λ c, RPCInitialBackoff (resilience c)) (500 * 10 ^ 6);
  mkVar "RPC_MAX_BACKOFF" ParseDuration (λ c, RPCMaxBackoff (resilience c)) (10 * 10 ^ 9);
  mkVar "RPC_RATE_BURST" Atoi (λ c, RPCRateBurst (resilience c)) 20;
  mkVar "CIRCUIT_BREAKER_THRESHOLD" (ParseUint 32) (λ c, CircuitBreakerThreshold (resilience c)) 5;
  mkVar "CIRCUIT_BREAKER_TIMEOUT" ParseDuration (λ c, CircuitBreakerTimeout (resilience c)) (30 * 10 ^ 9);
  mkVar "MCP_RATE_BURST" Atoi (λ c, MCPRateBurst (mcpRate c)) 10;
  mkVar "MCP_ANON_RATE_BURST" Atoi (λ c, AnonRateBurst (keyless c)) 5;
  mkVar "MCP_SIGNER_WRITE_RATE" Atoi (λ c, SignerWriteRate (keyless c)) 500;
  mkVar "MCP_SIGNER_WRITE_WINDOW" ParseDuration (λ c, SignerWriteWindow (keyless c)) (86400 * 10 ^ 9);
  mkVar "MCP_WRITE_AUDIT_RETENTION" ParseDuration (λ c, WriteAudit (Retention (keyless c))) 0;
  mkVar "MCP_WRITE_AUDIT_GRANT_ROLE_RETENTION" ParseDuration (λ c, WriteAuditGrantRole (Retention (keyless c))) 0;
  mkVar "MCP_SIGNER_QUOTA_RETENTION" ParseDuration (λ c, SignerQuota (Retention (keyless c))) 0;
  mkVar "MCP_SIGNER_BLACKLIST_RETENTION" ParseDuration (λ c, SignerBlacklist (Retention (keyless c))) 0;
  mkVar "MCP_ADMIN_AUDIT_RETENTION" ParseDuration (λ c, AdminAudit (Retention (keyless c))) 0;
  mkVar "MCP_RETENTION_PURGE_INTERVAL" ParseDuration (λ c, PurgeInterval (Retention (keyless c))) (3600 * 10 ^ 9);
  mkVar "JWT_CLOCK_SKEW" ParseDuration (λ c, JWTClockSkew (authConf c)) (60 * 10 ^ 9);
  mkVar "NVNM_KEY_REQUEST_RATE_BURST" Atoi (λ c, KeyRequestRateBurst (keyRequest c)) 3;
  mkVar "NVNM_KEY_REQUEST_MAX_BODY_BYTES" (ParseInt 64) (λ c, KeyRequestMaxBodyBytes (keyRequest c)) 16384;
  mkVar "NVNM_SMTP_PORT" Atoi (λ c, SMTPPort (smtp c)) 0].

Definition float_vars : list (variable spec_float) := [
  mkVar "OTEL_TRACE_SAMPLE_RATIO" ParseFloat (λ c, OTELTraceSampleRatio (telemetry c)) float_one;
  mkVar "RPC_RATE_LIMIT" ParseFloat (λ c, RPCRateLimit (resilience c)) (float_of_Z 100);
  mkVar "MCP_RATE_LIMIT" ParseFloat (λ c, MCPRateLimit (mcpRate c)) (float_of_Z 60);
  mkVar "MCP_ANON_RATE_LIMIT" ParseFloat (λ c, AnonRateLimit (keyless c)) (float_of_Z 5);
  mkVar "NVNM_KEY_REQUEST_RATE_LIMIT" ParseFloat (λ c, KeyRequestRateLimit (keyRequest c)) (round64 false 1 2)].

Definition bool_vars : list (variable bool) := [
  mkVar "ENABLE_WRITE_TOOLS" ParseBool (λ c, EnableWriteTools (flags c)) false;
  mkVar "ENABLE_PROMETHEUS" ParseBool (λ c, EnablePrometheus (flags c)) true;
  mkVar "ENABLE_STDOUT_TELEMETRY" ParseBool (λ c, EnableStdoutTel (flags c)) false;
  mkVar "OTLP_INSECURE" ParseBool (λ c, OTLPInsecure (flags c)) false;
  mkVar "NVNM_TRUST_PROXY_HEADERS" ParseBool (λ c, TrustProxyHeaders (flags c)) false;
  mkVar "MCP_KEYLESS_READS" ParseBool (λ c, KeylessReads (keyless c)) false;
  mkVar "MCP_KEYLESS_WRITES" ParseBool (λ c, KeylessWrites (keyless c)) false;
  mkVar "MCP_RELAY_ALLOW_ANY" ParseBool (λ c, RelayAllowAny (keyless c)) false;
  mkVar "MCP_SIGNER_QUOTA_FAIL_OPEN" ParseBool (λ c, SignerQuotaFailOpen (keyless c)) false;
  mkVar "MCP_SIGNER_BLACKLIST_FAIL_OPEN" ParseBool (λ c, SignerBlacklistFailOpen (keyless c)) false;
  mkVar "NVNM_KEY_REQUEST_ENABLED" ParseBool (λ c, KeyRequestEnabled (keyRequest c)) false;
  mkVar "NVNM_ALLOW_KEY_IN_LOGS" ParseBool (λ c, AllowKeyInLogs (keyRequest c)) false].

(** The field holds the default, or what the text of the variable denotes. *)
Definition determined {A} (text : string → string) (c : Config) (v : variable A) : Prop :=
  if text (v_name v) =s "" then v_field v c = v_default v
  else v_parse v (text (v_name v)) = Ok (v_field v c).

Lemma env_parse_determined {A} (parse : string → result parse_error A) env key fallback a d :
  env_parse parse env key fallback = Ok a → parse fallback = Ok d →
  if Getenv env key =s "" then a = d else parse (Getenv env key) = Ok a.
Proof.
  intros H%env_parse_ok Hd. unfold envOrDefault in H. cbv zeta in H. destruct (_ =s ""); [congruence|done].
Qed.

Lemma envBool_determined env key fallback b :
  envBool env key fallback = Ok b →
  if trim_space (Getenv env key) =s "" then b = fallback else ParseBool (trim_space (Getenv env key)) = Ok b.
Proof.
  unfold envBool. cbv zeta. destruct (_ =s ""); [by intros [= <-]|]. by destruct (ParseBool _); cbn; intros [= ->].
Qed.

Lemma optional_determined {A} (parse : string → result parse_error A) raw key d a :
  (if raw =s "" then Ok d else rmap_err (CfgParse key raw) (parse raw)) = Ok a →
  if raw =s "" then a = d else parse raw = Ok a.
Proof. destruct (raw =s ""); [by intros [= <-]|]. by destruct (parse raw); cbn; intros [= ->]. Qed.

Lemma retention_window_determined env key d :
  retention_window env key = Ok d →
  (if Getenv env key =s "" then d = 0 else ParseDuration (Getenv env key) = Ok d) ∧ 0 ≤ d.
Proof.
  unfold retention_window, envOrDefault. destruct (Getenv env key =s "") eqn:E.
  - cbn. by intros [= <-].
  - rewrite E. intros (x & Hx & H)%rbind_ok. destruct (ParseDuration _); cbn in Hx; [|done].
    injection Hx as ->. destruct (x <? 0) eqn:El; [done|]. injection H as <-. bool_to_prop. done.
Qed.

(** Open every load function of a successful reading. *)
Ltac open_loaders :=
  repeat match goal with
  | H : _ = Ok ?x |- _ =>
      lazymatch type of H with
      | loadCoreConfig _ = _ => unfold loadCoreConfig in H | loadFeatureFlags _ = _ => unfold loadFeatureFlags in H
      | loadTrustedProxyHops _ = _ => unfold loadTrustedProxyHops in H
      | loadKeyStoreConfig _ = _ => unfold loadKeyStoreConfig in H
      | loadTelemetryConfig _ = _ => unfold loadTelemetryConfig in H
      | loadResilienceConfig _ = _ => unfold loadResilienceConfig in H
      | loadMCPRateConfig _ = _ => unfold loadMCPRateConfig in H
      | loadKeylessConfig _ = _ => unfold loadKeylessConfig in H
      | loadSignerQuotaConfig _ = _ => unfold loadSignerQuotaConfig in H
      | loadRetentionConfig _ = _ => unfold loadRetentionConfig in H
      | load_auth_config _ = _ => unfold load_auth_config in H
      | loadKeyRequestConfig _ = _ => unfold loadKeyRequestConfig in H
      | loadSMTPConfig _ = _ => unfold loadSMTPConfig in H
      | rbind _ _ = _ => apply rbind_ok in H as (? & ? & H)
      | (let _ := _ in _) = _ => cbv zeta in H
      | Ok _ = Ok _ => injection H as H; try subst x
      | (if ?b then Err _ else _) = Ok _ => destruct b; [done|]
      | match retention_validate ?r with _ => _ end = _ => destruct (retention_validate r); [done|]
      | (if negb _ then Ok ?a else _) = _ =>
          assert (x = a) by (clear -H; repeat case_match; congruence); clear H; subst x
      | (if SMTPHost _ =s "" then Ok ?a else _) = _ =>
          assert (x = a) by (clear -H; repeat case_match; congruence); clear H; subst x
      end
  end.

Lemma read_environment_determined env c : read_environment env = Ok c →
  Forall (determined (Getenv env) c) int_vars ∧ Forall (determined (Getenv env) c) float_vars ∧
  Forall (determined (λ k, trim_space (Getenv env k)) c) bool_vars.
Proof.
  unfold read_environment. intros H. open_loaders. split_and!.
  all: repeat (apply Forall_cons; split); try apply Forall_nil; try done.
  all: unfold determined; cbn [v_name v_parse v_field v_default].
  all: first
    [ eapply env_parse_determined; [eassumption|vm_compute; reflexivity]
    | eapply envBool_determined; eassumption
    | eapply retention_window_determined; eassumption
    | eapply optional_determined; eassumption ].
Qed.

(** C31: No silent fallback. In a configuration that loads, each of the 42 numeric
    and boolean fields is what its variable says: the default if the variable is
    unset or empty, and otherwise the value its text denotes, in full (a text
    that denotes none, "True " with a typo included, fails the load). Booleans
    are read with the surrounding space removed. *)
Theorem Load_no_silent_fallback env c (Hload : Load env = Ok c) :
  Forall (determined (Getenv env) c) int_vars ∧ Forall (determined (Getenv env) c) float_vars ∧
  Forall (determined (λ k, trim_space (Getenv env k)) c) bool_vars.
Proof. by apply read_environment_determined, Load_reads. Qed.

(** The windows a loaded configuration can have: never negative, purged at a
    positive interval, and the administrative trail never outlived by routine
    traffic (zero means for ever). *)
Lemma Load_retention env c : Load env = Ok c →
  let r := Retention (keyless c) in
  Forall (λ w, 0 ≤ w) [WriteAudit r; WriteAuditGrantRole r; SignerQuota r; SignerBlacklist r; AdminAudit r] ∧
  (Enabled r = true → 0 < PurgeInterval r) ∧
  (0 < WriteAuditGrantRole r → 0 < WriteAudit r ≤ WriteAuditGrantRole r).
Proof.
  intros [H _]%Load_reads. unfold read_environment in H. open_load H. injection H as <-. cbn [keyless].
  match goal with E : loadKeylessConfig _ = Ok ?k |- _ => rename E into Hk end.
  unfold loadKeylessConfig in Hk. open_load Hk. destruct x15 as [[[? ?] ?] ?]. injection Hk as <-. cbn [Retention].
  match goal with E : loadRetentionConfig _ = Ok ?k |- _ => rename E into Hr; rename k into r end.
  unfold loadRetentionConfig in Hr. open_load Hr.
  repeat match goal with E : retention_window _ _ = _ |- _ => apply retention_window_determined, proj2 in E end.
  destruct (retention_validate _) eqn:Ev; [done|]. injection Hr as <-. revert Ev. unfold retention_validate.
  destruct (Enabled _) eqn:En; cbn [negb].
  - cbn [PurgeInterval WriteAudit WriteAuditGrantRole]. destruct (_ <=? 0) eqn:Ei; [done|].
    destruct (_ && _) eqn:Eg; [done|]. intros _. cbn. split_and!; [by repeat constructor|intros _; bool_to_prop; lia|].
    intros Hg. apply andb_false_iff in Eg as [Eg|Eg]; bool_to_prop; lia.
  - intros _. split_and!; [by repeat constructor|done|]. cbn. unfold Enabled in En. cbn in En. bool_to_prop. lia.
Qed.

Lemma Load_smtp env c : Load env = Ok c →
  SMTPHost (smtp c) ≠ "" → SMTPPort (smtp c) ≠ 0 ∧ SMTPFrom (smtp c) ≠ "".
Proof.
  intros [H _]%Load_reads. unfold read_environment in H. open_load H. injection H as <-. cbn [smtp].
  match goal with E : loadSMTPConfig _ = Ok ?k |- _ => rename E into Hs; rename k into s end.
  unfold loadSMTPConfig in Hs. cbv zeta in Hs. apply rbind_ok in Hs as (port & _ & Hs).
  cbn [SMTPHost SMTPFrom] in Hs. intros Hne. destruct (Getenv env "NVNM_SMTP_HOST" =s "") eqn:Eh.
  { injection Hs as <-. cbn in Hne. by bool_to_prop. }
  destruct (port =? 0) eqn:Ep; [done|]. destruct (Getenv env "NVNM_SMTP_FROM" =s "") eqn:Ef; [done|].
  injection Hs as <-. cbn. by bool_to_prop.
Qed.

(** ** A concrete environment *)

Definition demo_environ : environ :=
  {[ "NVNM_EVM_RPC_URL" := "http://node:8545"; "NVNM_CHAIN_ID" := "787111"; "RPC_RATE_BURST" := "7";
     "ENABLE_WRITE_TOOLS" := " True" ]}.

Lemma Load_no_silent_fallback_witness :
  ∃ c, Load demo_environ = Ok c ∧ RPCRateBurst (resilience c) = 7 ∧ EnableWriteTools (flags c) = true ∧
    RPCMaxRetries (resilience c) = 3.
Proof.
  destruct (Load demo_environ) as [c|] eqn:E; [|vm_compute in E; discriminate].
  destruct (Load_no_silent_fallback demo_environ c E) as (Hi & _ & Hb).
  exists c. split; [done|]. repeat split.
  - pose proof (Forall_lookup_1 _ _ 8%nat _ Hi eq_refl) as H. vm_compute in H. by injection H.
  - pose proof (Forall_lookup_1 _ _ 0%nat _ Hb eq_refl) as H. vm_compute in H. by injection H.
  - pose proof (Forall_lookup_1 _ _ 5%nat _ Hi eq_refl) as H. vm_compute in H. exact H.
Defined.

Example Load_rejects :
  Load ∅ = Err (CfgErr ErrMissingRPCURL) ∧
  Load (<["ENABLE_WRITE_TOOLS" := "yes"]> demo_environ) = Err (CfgParse "ENABLE_WRITE_TOOLS" "yes" ErrSyntax) ∧
  Load (<["INVENIAM_CHAIN_ID" := ""]> demo_environ) = Err (CfgLegacy ["INVENIAM_CHAIN_ID"]) ∧
  Load (<["MCP_KEYLESS_WRITES" := "1"]> demo_environ) = Err (CfgErr ErrKeylessWritesRequiresDSN) ∧
  Load (<["NVNM_CHAIN_ID" := "5"]> demo_environ) = Err (CfgErr ErrInvalidChainEnvironment) ∧
  Load (<["MCP_WRITE_AUDIT_GRANT_ROLE_RETENTION" := "1h"]> demo_environ) = Err (CfgErr ErrRetentionGrantRoleShorter).
Proof. vm_compute. done. Qed.

(** "must be positive" is checked as [limit <= 0], which NaN passes. *)
Lemma nan_rate_limit_accepted :
  ∃ c, Load (<["MCP_RATE_LIMIT" := "NaN"]> demo_environ) = Ok c ∧ MCPRateLimit (mcpRate c) = S754_nan.
Proof. eexists. split; [vm_compute; reflexivity|done]. Qed.
