(* ===== verification/ChainForms.v ===== *)
(** The forms in which the chain renders values to the server, and their
    conversions (internal/anchor): pagination cursors in base64
    (types.go), bech32 creator identities (creator_evm.go with the vendored
    btcutil/bech32) and createdAt / timestamp texts (client.go). The parts of
    Go's encoding/base64 and time that these use are written out. *)

From stdpp Require Import pretty.
From S2P Require Import Prelude GoErrors Hex Evm.

(** ** encoding/base64, StdEncoding *)

Definition b64_char (v : Z) : ascii :=
  byte_of (if v <? 26 then 65 + v else if v <? 52 then 71 + v else if v <? 62 then v - 4
           else if v =? 62 then 43 else 47).

Definition b64_val (c : ascii) : option Z :=
  let v := byte_val c in
  if (65 <=? v) && (v <=? 90) then Some (v - 65)
  else if (97 <=? v) && (v <=? 122) then Some (v - 71)
  else if (48 <=? v) && (v <=? 57) then Some (v + 4)
  else if v =? 43 then Some 62
  else if v =? 47 then Some 63
  else None.

Definition b64_pad : ascii := byte_of 61.

Fixpoint base64_encode (s : string) : string :=
  match s with
  | String a (String b (String c s')) =>
      let x := byte_val a in let y := byte_val b in let z := byte_val c in
      String (b64_char (x / 4)) (String (b64_char (16 * (x mod 4) + y / 16))
        (String (b64_char (4 * (y mod 16) + z / 64)) (String (b64_char (z mod 64)) (base64_encode s'))))
  | String a (String b EmptyString) =>
      let x := byte_val a in let y := byte_val b in
      String (b64_char (x / 4)) (String (b64_char (16 * (x mod 4) + y / 16))
        (String (b64_char (4 * (y mod 16))) (String b64_pad EmptyString)))
  | String a EmptyString =>
      let x := byte_val a in
      String (b64_char (x / 4)) (String (b64_char (16 * (x mod 4))) (String b64_pad (String b64_pad EmptyString)))
  | EmptyString => EmptyString
  end.

(** Line ends are skipped wherever they stand. *)
Fixpoint strip_newlines (s : string) : string :=
  match s with
  | EmptyString => EmptyString
  | String c s' =>
      if (byte_val c =? 10) || (byte_val c =? 13) then strip_newlines s' else String c (strip_newlines s')
  end.

(** Quantum by quantum; padding ends the text, and the bits it leaves over are
    not looked at. *)
Fixpoint base64_quanta (s : string) : option string :=
  match s with
  | EmptyString => Some EmptyString
  | String a (String b (String c (String d s'))) =>
      match b64_val a, b64_val b, b64_val c, b64_val d with
      | Some x, Some y, Some z, Some w =>
          match base64_quanta s' with
          | Some r => Some (String (byte_of (4 * x + y / 16)) (String (byte_of (16 * (y mod 16) + z / 4))
                            (String (byte_of (64 * (z mod 4) + w)) r)))
          | None => None
          end
      | Some x, Some y, Some z, None =>
          if Ascii.eqb d b64_pad && (s' =s "")
          then Some (String (byte_of (4 * x + y / 16)) (String (byte_of (16 * (y mod 16) + z / 4)) EmptyString))
          else None
      | Some x, Some y, None, None =>
          if Ascii.eqb c b64_pad && Ascii.eqb d b64_pad && (s' =s "")
          then Some (String (byte_of (4 * x + y / 16)) EmptyString) else None
      | _, _, _, _ => None
      end
  | _ => None
  end.

Definition base64_decode (s : string) : option string := base64_quanta (strip_newlines s).

(** ** Pagination cursors (types.go) *)

Definition EncodeCursor (b : string) : string := if slen b =? 0 then "" else base64_encode b.

(** (p *PageResponse).CursorBytes on a non-nil receiver with this NextKey; no
    cursor is the empty byte string. *)
Definition CursorBytes (nextKey : string) : result error string :=
  if nextKey =s "" then Ok ""
  else match base64_decode nextKey with
       | Some b => Ok b
       | None => Err (Wrap "decode pagination cursor: " (Opaque "illegal base64 data") "")
       end.

(** ** bech32 (vendor/github.com/btcsuite/btcd/btcutil/bech32) *)

Definition charset : string := "qpzry9x8gf2tvdw0s3jn54khce6mua7l".

Fixpoint toBytes (chars : string) : option (list Z) :=
  match chars with
  | EmptyString => Some []
  | String c s =>
      let index := index_byte charset c in
      if index <? 0 then None
      else match toBytes s with Some l => Some (index :: l) | None => None end
  end.

Definition gen : list Z := [996825010; 642813549; 513874426; 1027748829; 705979059].

Definition gen_mix (b chk : Z) : Z :=
  foldl (λ acc p, if Z.testbit b p.1 then Z.lxor acc p.2 else acc) chk
    (zip [0; 1; 2; 3; 4] gen).

Definition polymod_step (chk v : Z) : Z :=
  gen_mix (Z.shiftr chk 25) (Z.lxor (Z.shiftl (Z.land chk 33554431) 5) v).

Definition hrp_values (hrp : string) : list Z :=
  ((λ c, Z.shiftr (byte_val c) 5) <$> String.list_ascii_of_string hrp) ++ [0] ++
  ((λ c, Z.land (byte_val c) 31) <$> String.list_ascii_of_string hrp).

(** A missing checksum counts as six zeros. *)
Definition bech32Polymod (hrp : string) (values : list Z) (checksum : option (list Z)) : Z :=
  foldl polymod_step 1
    (hrp_values hrp ++ values ++ match checksum with Some c => c | None => [0; 0; 0; 0; 0; 0] end).

(** ConstsToVersion: bech32 and bech32m. *)
Definition known_const (p : Z) : bool := (p =? 1) || (p =? 734539939).

Definition bech32VerifyChecksum (hrp : string) (data : list Z) : bool :=
  let n := (length data - 6)%nat in
  known_const (bech32Polymod hrp (take n data) (Some (drop n data))).

(** strings.LastIndexByte *)
Fixpoint last_index_from (i : Z) (best : Z) (c : ascii) (s : string) : Z :=
  match s with
  | EmptyString => best
  | String d s' => last_index_from (i + 1) (if Ascii.eqb d c then i else best) c s'
  end.
Definition last_index_byte (s : string) (c : ascii) : Z := last_index_from 0 (-1) c s.

Definition printable (c : ascii) : bool := (33 <=? byte_val c) && (byte_val c <=? 126).

Definition decodeNoLimit (bech : string) : option (string * list Z) :=
  let chars := String.list_ascii_of_string bech in
  if slen bech <? 8 then None
  else if negb (forallb printable chars) then None
  else if existsb is_lower chars && existsb is_upper chars then None
  else
    let bech := if existsb is_upper chars then to_lower bech else bech in
    let one := last_index_byte bech "1" in
    if (one <? 1) || (slen bech <? one + 7) then None
    else
      let hrp := str_take (Z.to_nat one) bech in
      let data := str_drop (Z.to_nat (one + 1)) bech in
      match toBytes data with
      | None => None
      | Some decoded =>
          if bech32VerifyChecksum hrp decoded
          then Some (hrp, take (length decoded - 6) decoded) else None
      end.

Definition bech32_Decode (bech : string) : option (string * list Z) :=
  if 90 <? slen bech then None else decodeNoLimit bech.

(** The loops of ConvertBits: [b] holds the input byte's remaining bits at its
    top, [nextByte] the [filled] bits of the unfinished group. A byte has at
    most eight bits to hand out, so eight rounds do. *)
Fixpoint convert_byte (fuel : nat) (toBits b rem nextByte filled : Z) (regrouped : list Z)
    : Z * Z * list Z :=
  match fuel with
  | O => (nextByte, filled, regrouped)
  | S fuel =>
      if rem <=? 0 then (nextByte, filled, regrouped)
      else
        let toExtract := Z.min rem (toBits - filled) in
        let nextByte := Z.lor (Z.shiftl nextByte toExtract mod 256) (Z.shiftr b (8 - toExtract)) in
        let b := Z.shiftl b toExtract mod 256 in
        let filled := filled + toExtract in
        if filled =? toBits
        then convert_byte fuel toBits b (rem - toExtract) 0 0 (regrouped ++ [nextByte])
        else convert_byte fuel toBits b (rem - toExtract) nextByte filled regrouped
  end.

Definition convert_step (fromBits toBits : Z) (st : Z * Z * list Z) (b : Z) : Z * Z * list Z :=
  let '(nextByte, filled, regrouped) := st in
  convert_byte 8 toBits (Z.shiftl b (8 - fromBits) mod 256) fromBits nextByte filled regrouped.

Definition ConvertBits (data : list Z) (fromBits toBits : Z) (pad : bool) : option (list Z) :=
  if (fromBits <? 1) || (8 <? fromBits) || (toBits <? 1) || (8 <? toBits) then None
  else
    let '(nextByte, filled, regrouped) := foldl (convert_step fromBits toBits) (0, 0, []) data in
    if pad && (0 <? filled) then Some (regrouped ++ [Z.shiftl nextByte (toBits - filled) mod 256])
    else if (0 <? filled) && ((4 <? filled) || negb (nextByte =? 0)) then None
    else Some regrouped.

Definition bytes_of (l : list Z) : string := String.string_of_list_ascii (byte_of <$> l).

Definition DecodeToBase256 (bech : string) : option (string * string) :=
  match bech32_Decode bech with
  | None => None
  | Some (hrp, data) =>
      match ConvertBits data 5 8 false with
      | Some converted => Some (hrp, bytes_of converted)
      | None => None
      end
  end.

(** The chain's side of the identity: EncodeFromBase256 of the same package. *)
Definition charset_at (v : Z) : ascii := default "q"%char (String.get (Z.to_nat v) charset).

Definition bech32_checksum (hrp : string) (data : list Z) : list Z :=
  let polymod := Z.lxor (bech32Polymod hrp data None) 1 in
  (λ i, Z.land (Z.shiftr polymod (5 * (5 - i))) 31) <$> [0; 1; 2; 3; 4; 5].

Definition EncodeFromBase256 (hrp data : string) : option string :=
  match ConvertBits (byte_val <$> String.list_ascii_of_string data) 8 5 true with
  | None => None
  | Some conv =>
      Some (to_lower hrp +:+ "1" +:+
            String.string_of_list_ascii (charset_at <$> conv ++ bech32_checksum (to_lower hrp) conv))
  end.

(** ** Creator identities (creator_evm.go) *)

Definition evmAddressLen : Z := 20.

Definition creatorEVM (creator : string) : string :=
  if has_prefix "0x" creator then
    let raw := str_drop 2 creator in
    if slen raw =? evmAddressLen * 2
    then match hex_decode raw with Some _ => to_lower creator | None => "" end
    else ""
  else
    match DecodeToBase256 creator with
    | None => ""
    | Some (_, data) => if negb (slen data =? evmAddressLen) then "" else "0x" +:+ hex_encode data
    end.

(** ** Chain timestamps (client.go)

    An instant is its seconds since the Unix epoch and its nanoseconds; dates
    are proleptic Gregorian in UTC. *)

Definition days_of_civil (y m d : Z) : Z :=
  let y := if m <=? 2 then y - 1 else y in
  let yoe := y mod 400 in
  let doy := (153 * ((m + 9) mod 12) + 2) / 5 + d - 1 in
  (y / 400) * 146097 + (365 * yoe + yoe / 4 - yoe / 100 + doy) - 719468.

Definition civil_of_days (n : Z) : Z * Z * Z :=
  let n := n + 719468 in
  let doe := n mod 146097 in
  let yoe := (doe - doe / 1460 + doe / 36524 - doe / 146096) / 365 in
  let doy := doe - (365 * yoe + yoe / 4 - yoe / 100) in
  let mp := (5 * doy + 2) / 153 in
  let m := if mp <? 10 then mp + 3 else mp - 9 in
  ((n / 146097) * 400 + yoe + (if m <=? 2 then 1 else 0), m, doy - (153 * mp + 2) / 5 + 1).

Definition leap (y : Z) : bool := (y mod 4 =? 0) && (negb (y mod 100 =? 0) || (y mod 400 =? 0)).

Definition daysIn (m y : Z) : Z :=
  if m =? 2 then (if leap y then 29 else 28)
  else if (m =? 4) || (m =? 6) || (m =? 9) || (m =? 11) then 30 else 31.

(** *** time.Parse with layout 2006-01-02 15:04:05.999999999 -0700 MST *)

Definition digit (c : ascii) : option Z :=
  let v := byte_val c in if (48 <=? v) && (v <=? 57) then Some (v - 48) else None.

Definition is_digit (c : ascii) : bool := match digit c with Some _ => true | None => false end.

Definition getnum (s : string) (fixed : bool) : option (Z * string) :=
  match s with
  | EmptyString => None
  | String a s1 =>
      match digit a with
      | None => None
      | Some x =>
          let one := if fixed then None else Some (x, s1) in
          match s1 with
          | EmptyString => one
          | String b s2 => match digit b with Some y => Some (10 * x + y, s2) | None => one end
          end
      end
  end.

(** Decimal digits, most significant first; the callers pass digits only. *)
Definition atoi (s : string) : Z :=
  foldl (λ acc c, 10 * acc + default 0 (digit c)) 0 (String.list_ascii_of_string s).

Definition ranged (lo hi : Z) (r : option (Z * string)) : option (Z * string) :=
  r ≫= λ p, if (lo <=? p.1) && (p.1 <=? hi) then Some p else None.

(** Four digits of a year. *)
Definition year_field (s : string) : option (Z * string) :=
  let p := str_take 4 s in
  if (slen p =? 4) && forallb is_digit (String.list_ascii_of_string p) then Some (atoi p, str_drop 4 s) else None.

(** A literal character of the layout; a blank stands for any number of them. *)
Definition literal (c : ascii) (s : string) : option string :=
  if Ascii.eqb c " " then
    match s with
    | String d _ => if Ascii.eqb d " " then Some (trim_left_by (Ascii.eqb " ") s) else None
    | EmptyString => Some s
    end
  else match s with String d s' => if Ascii.eqb d c then Some s' else None | EmptyString => None end.

Fixpoint span_digits (s : string) : string * string :=
  match s with
  | String c s' => if is_digit c then let '(a, b) := span_digits s' in (String c a, b) else ("", s)
  | EmptyString => ("", "")
  end.

(** The fraction is optional, and digits beyond the ninth are dropped. *)
Definition fraction_field (s : string) : Z * string :=
  match s with
  | String c s' =>
      if Ascii.eqb c "." || Ascii.eqb c "," then
        let '(ds, rest) := span_digits s' in
        if ds =s "" then (0, s)
        else let ns := str_take 9 ds in (atoi ns * 10 ^ (9 - slen ns), rest)
      else (0, s)
  | EmptyString => (0, s)
  end.

(** ±hhmm; the bounds allow 24 hours and 60 minutes. *)
Definition offset_field (s : string) : option (Z * string) :=
  match s with
  | String sign s1 =>
      if slen s <? 5 then None
      else
        '(hr, s2) ← ranged 0 24 (getnum (str_take 2 s1) true);
        '(mm, s3) ← ranged 0 60 (getnum (str_take 2 (str_drop 2 s1)) true);
        let off := (hr * 60 + mm) * 60 in
        if Ascii.eqb sign "+" then Some (off, str_drop 4 s1)
        else if Ascii.eqb sign "-" then Some (- off, str_drop 4 s1) else None
  | EmptyString => None
  end.

Definition parseSignedOffset (s : string) : Z :=
  match s with
  | String sign s1 =>
      if Ascii.eqb sign "-" || Ascii.eqb sign "+" then
        let '(ds, _) := span_digits s1 in
        if (ds =s "") || (23 <? atoi ds) then 0 else 1 + slen ds
      else 0
  | EmptyString => 0
  end.

Fixpoint upper_run (fuel : nat) (s : string) : Z :=
  match fuel, s with
  | S fuel, String c s' => if is_upper c then 1 + upper_run fuel s' else 0
  | _, _ => 0
  end.

(** parseTimeZone: the length of a zone abbreviation. *)
Definition parseTimeZone (s : string) : option Z :=
  let at_is i c := bool_decide (String.get i s = Some c) in
  if slen s <? 3 then None
  else if has_prefix "ChST" s || has_prefix "MeST" s then Some 4
  else if has_prefix "GMT" s then Some (3 + parseSignedOffset (str_drop 3 s))
  else if has_prefix "+" s || has_prefix "-" s then
    (let n := parseSignedOffset s in if 0 <? n then Some n else None)
  else
    let n := upper_run 6 s in
    if n =? 5 then (if at_is 4%nat "T"%char then Some 5 else None)
    else if n =? 4 then (if at_is 3%nat "T"%char || has_prefix "WITA" s then Some 4 else None)
    else if n =? 3 then Some 3
    else None.

(** The zone: UTC itself, or an abbreviation that is skipped. *)
Definition zone_field (s : string) : option (bool * string) :=
  if has_prefix "UTC" s then Some (true, str_drop 3 s)
  else n ← parseTimeZone s; Some (false, str_drop (Z.to_nat n) s).

Record instant := mkInstant { in_sec : Z; in_nsec : Z }.

(** A time named UTC ignores its numeric offset. *)
Definition parse_chain_time (s : string) : option instant :=
  '(year, s) ← year_field s;
  s ← literal "-" s; '(month, s) ← ranged 1 12 (getnum s true);
  s ← literal "-" s; '(day, s) ← getnum s true;
  s ← literal " " s; '(hour, s) ← ranged 0 23 (getnum s false);
  s ← literal ":" s; '(min, s) ← ranged 0 59 (getnum s true);
  s ← literal ":" s; '(sec, s) ← ranged 0 59 (getnum s true);
  let '(nsec, s) := fraction_field s in
  s ← literal " " s; '(off, s) ← offset_field s;
  s ← literal " " s; '(utc, s) ← zone_field s;
  if negb (s =s "") then None
  else if (day <? 1) || (daysIn month year <? day) then None
  else Some (mkInstant (days_of_civil year month day * 86400 + hour * 3600 + min * 60 + sec
                        - (if (utc : bool) then 0 else off)) nsec).

(** *** Rendering *)

(** The last [n] decimal digits of [u]. *)
Fixpoint digits (n : nat) (u : Z) : string :=
  match n with
  | O => ""
  | S n => String (byte_of (48 + u / 10 ^ Z.of_nat n mod 10)) (digits n u)
  end.

(** appendInt with width 4; years below zero carry a sign, and longer years all
    their digits. *)
Definition year_text (y : Z) : string :=
  if y <? 0 then "-" +:+ (if - y <? 10000 then digits 4 (- y) else pretty (- y))
  else if y <? 10000 then digits 4 y else pretty y.

(** appendNano with trailing zeros trimmed. *)
Definition nano_text (ns : Z) : string :=
  let ds := trim_right_by (Ascii.eqb "0") (digits 9 ns) in
  if ds =s "" then "" else "." +:+ ds.

Definition date_text (t : instant) : string :=
  let '(y, m, d) := civil_of_days (in_sec t / 86400) in
  year_text y +:+ "-" +:+ digits 2 m +:+ "-" +:+ digits 2 d.

Definition clock_text (t : instant) : string :=
  let s := in_sec t mod 86400 in
  digits 2 (s / 3600) +:+ ":" +:+ digits 2 (s / 60 mod 60) +:+ ":" +:+ digits 2 (s mod 60) +:+ nano_text (in_nsec t).

(** t.UTC().Format(time.RFC3339Nano) *)
Definition rfc3339_text (t : instant) : string := date_text t +:+ "T" +:+ clock_text t +:+ "Z".

(** t.String() of a UTC time, the chain's rendering. *)
Definition time_String (t : instant) : string := date_text t +:+ " " +:+ clock_text t +:+ " +0000 UTC".

Definition normalizeChainTime (s : string) : string :=
  match parse_chain_time s with None => s | Some t => rfc3339_text t end.

Example normalizeChainTime_live :
  normalizeChainTime "2026-04-14 13:10:26.791492184 +0000 UTC" = "2026-04-14T13:10:26.791492184Z".
Proof. vm_compute. reflexivity. Qed.
Example normalizeChainTime_offset :
  normalizeChainTime "2026-01-01 00:30:00.5 +0200 CEST" = "2025-12-31T22:30:00.5Z".
Proof. vm_compute. reflexivity. Qed.
Example normalizeChainTime_other :
  normalizeChainTime "2026-02-27T14:00:25.684724306Z" = "2026-02-27T14:00:25.684724306Z".
Proof. vm_compute. reflexivity. Qed.
Example bech32_live :
  option_map creatorEVM (EncodeFromBase256 "nvnm" (zeros 20)) = Some "0x0000000000000000000000000000000000000000".
Proof. vm_compute. reflexivity. Qed.
Example bech32_segwit :
  decodeNoLimit "A12UEL5L" = Some ("a", []).
Proof. vm_compute. reflexivity. Qed.
Example cursor_live : CursorBytes "AAAAAAAAAAQ=" = Ok (be_bytes 8 4).
Proof. vm_compute. reflexivity. Qed.

(** ** Lemmas on cursors *)

Lemma byte_val_range c : 0 ≤ byte_val c < 256.
Proof. unfold byte_val. pose proof (nat_ascii_bounded c). lia. Qed.

Lemma byte_of_val c : byte_of (byte_val c) = c.
Proof.
  unfold byte_of. rewrite Z.mod_small by apply byte_val_range. unfold byte_val.
  by rewrite Nat2Z.id, ascii_nat_embedding.
Qed.

(** A decidable fact about the values below [n] is checked by evaluation. *)
Fixpoint all_from (n : nat) (i : Z) (f : Z → bool) : bool :=
  match n with O => true | S n => if f i then all_from n (i + 1) f else false end.
Definition all_below (n : nat) (f : Z → bool) : bool := all_from n 0 f.

Lemma all_below_spec n f v : all_below n f = true → 0 ≤ v < Z.of_nat n → f v = true.
Proof.
  unfold all_below. intros H Hv. assert (∀ n i, all_from n i f = true → i ≤ v < i + Z.of_nat n → f v = true) as Hf.
  { clear. induction n as [|n IH]; intros i H Hv; [lia|]. cbn [all_from] in H.
    destruct (f i) eqn:E; [|done]. destruct (Z.eq_dec i v) as [->|]; [done|]. apply (IH (i + 1)); [done|lia]. }
  by apply (Hf n 0).
Qed.

Definition nl (c : ascii) : bool := (byte_val c =? 10) || (byte_val c =? 13).

Definition b64_ok (v : Z) : bool :=
  match b64_val (b64_char v) with Some w => (w =? v) && negb (nl (b64_char v)) | None => false end.

Lemma b64_char_ok v : 0 ≤ v < 64 → b64_val (b64_char v) = Some v ∧ nl (b64_char v) = false.
Proof.
  intros Hv. assert (b64_ok v = true) as H by (apply (all_below_spec 64); [vm_compute; reflexivity|lia]).
  unfold b64_ok in H. destruct (b64_val _) as [w|]; [|done]. bool_to_prop. by subst w.
Qed.

Lemma b64_val_char v : 0 ≤ v < 64 → b64_val (b64_char v) = Some v.
Proof. intros Hv. by apply b64_char_ok. Qed.

Lemma string_ind3 (P : string → Prop) :
  P "" → (∀ a, P (String a "")) → (∀ a b, P (String a (String b ""))) →
  (∀ a b c s, P s → P (String a (String b (String c s)))) → ∀ s, P s.
Proof.
  intros H0 H1 H2 H3. fix IH 1. intros [|a [|b [|c s]]]; [done|apply H1|apply H2|apply H3, IH].
Qed.

Lemma strip_cons c s : nl c = false → strip_newlines (String c s) = String c (strip_newlines s).
Proof. unfold nl. cbn [strip_newlines]. by intros ->. Qed.

(** The three bytes of a quantum, recovered from its four values. *)
Lemma quantum_bytes a b c :
  let x := byte_val a in let y := byte_val b in let z := byte_val c in
  (0 ≤ x / 4 < 64 ∧ 0 ≤ 16 * (x mod 4) + y / 16 < 64 ∧ 0 ≤ 4 * (y mod 16) + z / 64 < 64 ∧ 0 ≤ z mod 64 < 64) ∧
  4 * (x / 4) + (16 * (x mod 4) + y / 16) / 16 = x ∧
  16 * ((16 * (x mod 4) + y / 16) mod 16) + (4 * (y mod 16) + z / 64) / 4 = y ∧
  64 * ((4 * (y mod 16) + z / 64) mod 4) + z mod 64 = z.
Proof.
  cbv zeta. pose proof (byte_val_range a). pose proof (byte_val_range b). pose proof (byte_val_range c).
  Z.to_euclidean_division_equations. lia.
Qed.

Lemma strip_encode s : strip_newlines (base64_encode s) = base64_encode s.
Proof.
  induction s as [|a|a b|a b c s IH] using string_ind3; [done|..]; cbn [base64_encode];
  [ pose proof (quantum_bytes a "000" "000") as ((?&?&?&?)&_)
  | pose proof (quantum_bytes a b "000") as ((?&?&?&?)&_)
  | pose proof (quantum_bytes a b c) as ((?&?&?&?)&_) ];
  change (byte_val "000") with 0 in *; rewrite ?Z.add_0_r in *;
  rewrite !strip_cons by (first [apply b64_char_ok; assumption|reflexivity]);
  [done..|by rewrite IH].
Qed.

Lemma base64_roundtrip s : base64_decode (base64_encode s) = Some s.
Proof.
  unfold base64_decode. rewrite strip_encode.
  induction s as [|a|a b|a b c s IH] using string_ind3; [done|..]; cbn [base64_encode base64_quanta].
  - pose proof (quantum_bytes a "000" "000") as ((?&?&?&?)&E1&E2&E3).
    change (byte_val "000") with 0 in *; rewrite ?Z.add_0_r in *.
    rewrite !b64_val_char by assumption. simpl. by rewrite E1, byte_of_val.
  - pose proof (quantum_bytes a b "000") as ((?&?&?&?)&E1&E2&E3).
    change (byte_val "000") with 0 in *; rewrite ?Z.add_0_r in *.
    rewrite !b64_val_char by assumption. simpl. by rewrite E1, E2, !byte_of_val.
  - pose proof (quantum_bytes a b c) as ((?&?&?&?)&E1&E2&E3).
    rewrite !b64_val_char by assumption. by rewrite IH, E1, E2, E3, !byte_of_val.
Qed.

(** ** Lemmas on the bech32 checksum *)

Lemma lxor_bound n a b : 0 ≤ n → 0 ≤ a < 2 ^ n → 0 ≤ b < 2 ^ n → 0 ≤ Z.lxor a b < 2 ^ n.
Proof.
  intros Hn Ha Hb. assert (0 ≤ Z.lxor a b) as H0 by (apply Z.lxor_nonneg; lia).
  split; [done|]. destruct (Z.eq_dec (Z.lxor a b) 0) as [->|Hx]; [lia|].
  apply Z.log2_lt_pow2; [lia|].
  pose proof (Z.log2_lxor a b ltac:(lia) ltac:(lia)).
  assert (∀ x, 0 ≤ x < 2 ^ n → x ≠ 0 → Z.log2 x < n) as Hl by (intros; apply Z.log2_lt_pow2; lia).
  assert (∀ x, 0 ≤ x < 2 ^ n → Z.log2 x < n ∨ x = 0) as Hl'.
  { intros x Hx'. destruct (Z.eq_dec x 0); [by right|left; auto]. }
  destruct (Hl' a Ha) as [?| ->], (Hl' b Hb) as [?| ->]; rewrite ?Z.lxor_0_l, ?Z.lxor_0_r in *; try lia; auto.
Qed.

Lemma gen_mix_lxor b c : gen_mix b c = Z.lxor c (gen_mix b 0).
Proof.
  unfold gen_mix, gen. cbn [zip zip_with foldl fst snd].
  destruct (Z.testbit b 0), (Z.testbit b 1), (Z.testbit b 2), (Z.testbit b 3), (Z.testbit b 4);
    rewrite ?Z.lxor_0_l, ?Z.lxor_0_r, ?Z.lxor_assoc; reflexivity.
Qed.

Lemma gen_mix_bound b : 0 ≤ gen_mix b 0 < 2 ^ 30.
Proof.
  unfold gen_mix, gen. cbn [zip zip_with foldl fst snd].
  destruct (Z.testbit b 0), (Z.testbit b 1), (Z.testbit b 2), (Z.testbit b 3), (Z.testbit b 4); vm_compute; split; congruence.
Qed.

Lemma polymod_step_bound c v : 0 ≤ v < 32 → 0 ≤ polymod_step c v < 2 ^ 30.
Proof.
  intros Hv. unfold polymod_step. rewrite gen_mix_lxor.
  apply lxor_bound; [lia| |apply gen_mix_bound]. apply lxor_bound; [lia| |lia].
  change 33554431 with (Z.ones 25). rewrite Z.land_ones, Z.shiftl_mul_pow2 by lia.
  pose proof (Z.mod_pos_bound c (2 ^ 25) ltac:(lia)). change (2^30) with (2^25 * 2^5). lia.
Qed.

(** The checksum digits enter the state without touching its feedback. *)
Lemma polymod_step_lxor c d v : 0 ≤ d < 2 ^ 25 →
  polymod_step (Z.lxor c d) v = Z.lxor (polymod_step c 0) (Z.lxor (Z.shiftl d 5) v).
Proof.
  intros Hd. unfold polymod_step.
  rewrite (gen_mix_lxor _ (Z.lxor _ v)), (gen_mix_lxor _ (Z.lxor _ 0)), Z.lxor_0_r.
  assert (Z.shiftr (Z.lxor c d) 25 = Z.shiftr c 25) as ->.
  { rewrite Z.shiftr_lxor. rewrite (Z.shiftr_div_pow2 d), Z.div_small by lia. apply Z.lxor_0_r. }
  assert (Z.land (Z.lxor c d) 33554431 = Z.lxor (Z.land c 33554431) d) as ->.
  { change 33554431 with (Z.ones 25). apply Z.bits_inj'. intros n Hn.
    rewrite Z.land_spec, !Z.lxor_spec, Z.land_spec.
    destruct (decide (n < 25)).
    - rewrite Z.ones_spec_low by lia. by rewrite !andb_true_r.
    - rewrite Z.ones_spec_high by lia. rewrite (Z.bits_above_log2 d n); [by rewrite !andb_false_r|lia|].
      destruct (Z.eq_dec d 0) as [->|]; [simpl; lia|].
      assert (Z.log2 d < 25) by (apply Z.log2_lt_pow2; lia). lia. }
  rewrite Z.shiftl_lxor. set (g := gen_mix _ _). set (x := Z.shiftl (Z.land c _) 5). set (y := Z.shiftl d 5).
  rewrite !Z.lxor_assoc. f_equal. rewrite (Z.lxor_comm g). by rewrite !Z.lxor_assoc.
Qed.

Lemma shiftr_join p k : 0 ≤ k → Z.lxor (Z.shiftl (Z.shiftr p (k + 5)) 5) (Z.land (Z.shiftr p k) 31) = Z.shiftr p k.
Proof.
  intros Hk. apply Z.bits_inj'. intros n Hn. change 31 with (Z.ones 5).
  rewrite Z.lxor_spec, Z.land_spec, Z.shiftl_spec by lia. destruct (decide (n < 5)).
  - rewrite Z.testbit_neg_r by lia. rewrite Z.ones_spec_low by lia. by rewrite andb_true_r, xorb_false_l.
  - rewrite Z.ones_spec_high by lia. rewrite !Z.shiftr_spec by lia. rewrite andb_false_r, xorb_false_r.
    f_equal. lia.
Qed.

Lemma checksum_verifies c : 
  let p := Z.lxor (foldl polymod_step c [0; 0; 0; 0; 0; 0]) 1 in
  foldl polymod_step c ((λ i, Z.land (Z.shiftr p (5 * (5 - i))) 31) <$> [0; 1; 2; 3; 4; 5]) = 1.
Proof.
  intros p. cbn [fmap list_fmap].
  assert (0 ≤ p < 2 ^ 30) as Hp.
  { apply lxor_bound; [lia| |lia]. cbn [foldl]. apply polymod_step_bound. lia. }
  assert (∀ k, 0 ≤ k → 5 ≤ k → 0 ≤ Z.shiftr p k < 2 ^ 25) as Hs.
  { intros k ? ?. rewrite Z.shiftr_div_pow2 by lia. split; [apply Z.div_pos; lia|].
    apply Z.div_lt_upper_bound; [lia|]. assert (2 ^ 5 ≤ 2 ^ k) by (apply Z.pow_le_mono_r; lia).
    change (2 ^ 30) with (2 ^ 5 * 2 ^ 25) in Hp. nia. }
  assert (∀ e k, 0 ≤ k → polymod_step (Z.lxor e (Z.shiftr p (k + 5))) (Z.land (Z.shiftr p k) 31)
    = Z.lxor (polymod_step e 0) (Z.shiftr p k)) as Hstep.
  { intros e k Hk. rewrite polymod_step_lxor by (apply Hs; lia). by rewrite shiftr_join. }
  cbn [foldl].
  replace c with (Z.lxor c (Z.shiftr p (25 + 5))) at 1.
  2:{ rewrite Z.shiftr_div_pow2, Z.div_small by lia. apply Z.lxor_0_r. }
  change (5 * (5 - 0)) with 25. rewrite Hstep by lia.
  change (5 * (5 - 1)) with 20. change 25 with (20 + 5). rewrite Hstep by lia.
  change (5 * (5 - 2)) with 15. change 20 with (15 + 5). rewrite Hstep by lia.
  change (5 * (5 - 3)) with 10. change 15 with (10 + 5). rewrite Hstep by lia.
  change (5 * (5 - 4)) with 5. change 10 with (5 + 5). rewrite Hstep by lia.
  change (5 * (5 - 5)) with 0. change 5 with (0 + 5). rewrite Hstep by lia.
  rewrite Z.shiftr_0_r. unfold p. cbn [foldl]. rewrite <- Z.lxor_assoc, Z.lxor_nilpotent. done.
Qed.

(** ** Lemmas on the regrouping of bits *)

(** The number a list of [w]-bit digits writes, most significant first. *)
Definition digits_val (w : Z) (l : list Z) : Z := foldl (λ acc v, acc * 2 ^ w + v) 0 l.

Lemma digits_val_app w l v : digits_val w (l ++ [v]) = digits_val w l * 2 ^ w + v.
Proof. unfold digits_val. by rewrite foldl_app. Qed.

Lemma lor_add_pow a b e : 0 ≤ e → 0 ≤ b < 2 ^ e → Z.lor (a * 2 ^ e) b = a * 2 ^ e + b.
Proof.
  intros He Hb. rewrite <- Z.shiftl_mul_pow2 by done.
  assert (Z.land (Z.shiftl a e) b = 0) as Hl.
  { apply Z.bits_inj'. intros n Hn. rewrite Z.land_spec, Z.bits_0.
    destruct (decide (n < e)).
    - rewrite Z.shiftl_spec_low by done. done.
    - destruct (Z.eq_dec b 0) as [->|]; [by rewrite Z.bits_0, andb_false_r|].
      rewrite (Z.bits_above_log2 b n); [by rewrite andb_false_r|lia|].
      assert (Z.log2 b < e) by (apply Z.log2_lt_pow2; lia). lia. }
  rewrite <- Z.lxor_lor by done. symmetry. apply Z.add_nocarry_lxor. done.
Qed.

(** The state of ConvertBits: groups written, and an unfinished one. *)
Definition conv_inv (to : Z) (total value : Z) (st : Z * Z * list Z) : Prop :=
  let '(next, filled, out) := st in
  0 ≤ filled < to ∧ 0 ≤ next < 2 ^ filled ∧ Forall (λ v, 0 ≤ v < 2 ^ to) out ∧
  Z.of_nat (length out) * to + filled = total ∧ digits_val to out * 2 ^ filled + next = value.

Lemma convert_byte_inv to fuel rem c next filled out total value :
  1 ≤ to ≤ 8 → 0 ≤ rem ≤ 8 → rem ≤ Z.of_nat fuel → 0 ≤ c < 2 ^ rem →
  conv_inv to total value (next, filled, out) →
  conv_inv to (total + rem) (value * 2 ^ rem + c)
    (convert_byte fuel to (c * 2 ^ (8 - rem)) rem next filled out).
Proof.
  intros Hto. revert rem c next filled out total value.
  induction fuel as [|fuel IH]; intros rem c next filled out total value Hrem Hfuel Hc Hinv.
  { assert (rem = 0) as -> by lia. change (2 ^ 0) with 1 in *. assert (c = 0) as -> by lia.
    cbn [convert_byte]. by rewrite Z.mul_1_r, !Z.add_0_r. }
  cbn [convert_byte]. destruct (rem <=? 0) eqn:E; bool_to_prop.
  { assert (rem = 0) as -> by lia. change (2 ^ 0) with 1 in *. assert (c = 0) as -> by lia.
    by rewrite Z.mul_1_r, !Z.add_0_r. }
  destruct Hinv as (Hf & Hn & Hout & Htot & Hval).
  set (e := Z.min rem (to - filled)). cbv zeta.
  assert (1 ≤ e ∧ e ≤ rem ∧ e ≤ to - filled) as (He1 & He2 & He3) by lia.
  assert (2 ^ rem = 2 ^ (rem - e) * 2 ^ e) as Hre by (rewrite <- Z.pow_add_r by lia; f_equal; lia).
  assert (2 ^ 8 = 2 ^ (8 - rem) * 2 ^ (rem - e) * 2 ^ e) as H8
    by (rewrite <- !Z.pow_add_r by lia; f_equal; lia).
  assert (2 ^ (8 - e) = 2 ^ (8 - rem) * 2 ^ (rem - e)) as H8e
    by (rewrite <- !Z.pow_add_r by lia; f_equal; lia).
  assert (0 < 2 ^ (8 - rem)) as P1 by (apply Z.pow_pos_nonneg; lia).
  assert (0 < 2 ^ (rem - e)) as P2 by (apply Z.pow_pos_nonneg; lia).
  assert (0 < 2 ^ e) as P3 by (apply Z.pow_pos_nonneg; lia).
  set (hi := c / 2 ^ (rem - e)). set (lo := c mod 2 ^ (rem - e)).
  assert (c = hi * 2 ^ (rem - e) + lo) as Hsplit
    by (pose proof (Z.div_mod c (2 ^ (rem - e)) ltac:(lia)); unfold hi, lo; lia).
  assert (0 ≤ lo < 2 ^ (rem - e)) as Hlo by (apply Z.mod_pos_bound; lia).
  assert (0 ≤ hi < 2 ^ e) as Hhi by (split; [apply Z.div_pos; lia|apply Z.div_lt_upper_bound; lia]).
  assert (Z.shiftr (c * 2 ^ (8 - rem)) (8 - e) = hi) as ->.
  { rewrite Z.shiftr_div_pow2, H8e by lia. rewrite (Z.mul_comm c), Z.div_mul_cancel_l by lia. done. }
  assert (Z.shiftl (c * 2 ^ (8 - rem)) e mod 256 = lo * 2 ^ (8 - (rem - e))) as ->.
  { rewrite Z.shiftl_mul_pow2 by lia. change 256 with (2 ^ 8).
    replace (8 - (rem - e)) with ((8 - rem) + e) by lia. rewrite Z.pow_add_r by lia.
    symmetry. apply Z.mod_unique_pos with (q := hi); [|rewrite H8, Hsplit; ring].
    rewrite H8. assert (0 < 2 ^ (8 - rem) * 2 ^ e) as HA by (apply Z.mul_pos_pos; lia).
    replace (2 ^ (8 - rem) * 2 ^ (rem - e) * 2 ^ e) with (2 ^ (rem - e) * (2 ^ (8 - rem) * 2 ^ e)) by ring.
    split; [apply Z.mul_nonneg_nonneg; lia|apply Z.mul_lt_mono_pos_r; lia]. }
  assert (2 ^ (filled + e) = 2 ^ filled * 2 ^ e) as Hfe by (rewrite <- Z.pow_add_r by lia; done).
  assert (0 < 2 ^ filled) as P4 by (apply Z.pow_pos_nonneg; lia).
  assert (Z.lor (Z.shiftl next e mod 256) hi = next * 2 ^ e + hi) as ->.
  { rewrite Z.shiftl_mul_pow2 by lia. rewrite Z.mod_small; [by apply lor_add_pow; lia|].
    assert (2 ^ (filled + e) ≤ 2 ^ 8) by (apply Z.pow_le_mono_r; lia). change (2 ^ 8) with 256 in *. nia. }
  assert (0 ≤ next * 2 ^ e + hi < 2 ^ (filled + e)) as Hn' by (rewrite Hfe; nia).
  replace (total + rem) with (total + e + (rem - e)) by lia.
  replace (value * 2 ^ rem + c) with ((value * 2 ^ e + hi) * 2 ^ (rem - e) + lo) by (rewrite Hre; lia).
  destruct (filled + e =? to) eqn:Eq; bool_to_prop.
  - apply (IH (rem - e) lo 0 0 (out ++ [next * 2 ^ e + hi])); [lia..|lia|].
    clearbody e. subst to. split_and!; [lia..|done| | |].
    + apply Forall_app. split; [done|]. by constructor.
    + rewrite length_app. cbn [length]. lia.
    + rewrite digits_val_app, Hfe. change (2 ^ 0) with 1. rewrite <- Hval. ring.
  - apply (IH (rem - e) lo (next * 2 ^ e + hi) (filled + e) out); [lia..|lia|].
    split_and!; [lia..|done| |]; [lia|]. rewrite Hfe, <- Hval. ring.
Qed.

Lemma ConvertBits_inv from to l : 1 ≤ from ≤ 8 → 1 ≤ to ≤ 8 → Forall (λ v, 0 ≤ v < 2 ^ from) l →
  conv_inv to (Z.of_nat (length l) * from) (digits_val from l)
    (foldl (convert_step from to) (0, 0, []) l).
Proof.
  intros Hfrom Hto. induction l as [|v l IH] using rev_ind; intros Hl.
  { cbn. split_and!; try lia; constructor. }
  apply Forall_app in Hl as [Hl Hv]. apply Forall_cons_1 in Hv as [Hv _].
  specialize (IH Hl). rewrite foldl_app, length_app, digits_val_app. cbn [foldl length].
  destruct (foldl _ _ l) as [[next filled] out]. cbn [convert_step].
  rewrite Z.shiftl_mul_pow2, Z.mod_small by first [lia|
    (assert (2 ^ 8 = 2 ^ (8 - from) * 2 ^ from) as H8 by (rewrite <- Z.pow_add_r by lia; f_equal; lia);
     change 256 with (2 ^ 8); rewrite H8; pose proof (Z.pow_pos_nonneg 2 (8 - from)); nia)].
  replace (Z.of_nat (length l + 1) * from) with (Z.of_nat (length l) * from + from) by lia.
  by apply convert_byte_inv; [lia..| |].
Qed.

Lemma small_multiple d p : 0 < p → - p < d * p < p → d = 0.
Proof.
  intros Hp H. destruct (Z.lt_trichotomy d 0) as [Hd|[->|Hd]]; [|done|].
  - pose proof (Z.mul_le_mono_nonneg_r d (-1) p ltac:(lia) ltac:(lia)). lia.
  - pose proof (Z.mul_le_mono_nonneg_r 1 d p ltac:(lia) ltac:(lia)). lia.
Qed.

(** Equal numbers of equal length have equal digits. *)
Lemma digits_val_inj w l1 l2 : 0 < w →
  Forall (λ v, 0 ≤ v < 2 ^ w) l1 → Forall (λ v, 0 ≤ v < 2 ^ w) l2 →
  length l1 = length l2 → digits_val w l1 = digits_val w l2 → l1 = l2.
Proof.
  intros Hw. revert l2. induction l1 as [|v l1 IH] using rev_ind; intros l2 H1 H2 Hlen Hval.
  { destruct l2; [done|simpl in Hlen; lia]. }
  destruct l2 as [|v2 l2 _] using rev_ind; [rewrite length_app in Hlen; simpl in Hlen; lia|].
  apply Forall_app in H1 as [H1 [Hv _]%Forall_cons_1], H2 as [H2 [Hv2 _]%Forall_cons_1].
  cbn beta in Hv, Hv2. rewrite !digits_val_app in Hval. rewrite !length_app in Hlen. cbn [length] in Hlen.
  assert (v = v2 ∧ digits_val w l1 = digits_val w l2) as [-> ?].
  { assert (0 < 2 ^ w) by (apply Z.pow_pos_nonneg; lia).
    assert ((digits_val w l1 - digits_val w l2) * 2 ^ w = v2 - v) by lia.
    assert (digits_val w l1 - digits_val w l2 = 0) as E.
    { apply (small_multiple _ (2 ^ w)); [done|]. rewrite Z.mul_sub_distr_r.  lia. }
    rewrite E in *. split; lia. }
  f_equal. apply IH; [done..|lia|done].
Qed.

Lemma conv_exact to n value st : 1 ≤ to → conv_inv to (n * to) value st →
  ∃ out, st = (0, 0, out) ∧ Z.of_nat (length out) = n ∧ digits_val to out = value ∧
    Forall (λ v, 0 ≤ v < 2 ^ to) out.
Proof.
  destruct st as [[next filled] out]. intros Hto (Hf & Hn & Hout & Htot & Hval).
  assert (filled = 0) as ->.
  { assert (filled = (n - Z.of_nat (length out)) * to) as E by lia.
    assert (n - Z.of_nat (length out) = 0) as E0; [|rewrite E0 in E; lia].
    apply (small_multiple _ to); lia. }
  change (2 ^ 0) with 1 in *. assert (next = 0) as -> by lia.
  exists out. split_and!; [done|apply (Z.mul_cancel_r _ _ to); lia|lia|done].
Qed.

(** Regrouping whole addresses to base 32 and back is the identity. *)
Lemma ConvertBits_roundtrip l : length l = 20%nat → Forall (λ v, 0 ≤ v < 2 ^ 8) l →
  ∃ q, ConvertBits l 8 5 true = Some q ∧ ConvertBits q 5 8 false = Some l ∧
    length q = 32%nat ∧ Forall (λ v, 0 ≤ v < 32) q.
Proof.
  intros Hlen Hl.
  pose proof (ConvertBits_inv 8 5 l ltac:(lia) ltac:(lia) Hl) as H1.
  rewrite Hlen in H1. change (Z.of_nat 20 * 8) with (32 * 5) in H1.
  apply conv_exact in H1 as (q & E1 & Hq & V1 & F1); [|lia].
  pose proof (ConvertBits_inv 5 8 q ltac:(lia) ltac:(lia) F1) as H2.
  rewrite Hq in H2. change (32 * 5) with (20 * 8) in H2.
  apply conv_exact in H2 as (r & E2 & Hr & V2 & F2); [|lia].
  assert (r = l) as -> by (apply (digits_val_inj 8); [done..|lia|congruence]).
  exists q. unfold ConvertBits. rewrite E1, E2. cbn. split_and!; [done..|lia|exact F1].
Qed.

(** ** Lemmas on creator identities *)

Definition unhexd_ok (c : ascii) : bool :=
  match unhexd c with
  | Some u => (0 <=? u) && (u <? 16) && Ascii.eqb (lower_char c) (hexd u)
  | None => true
  end.

Lemma unhexd_lower x u : unhexd x = Some u → 0 ≤ u < 16 ∧ lower_char x = hexd u.
Proof.
  assert (unhexd_ok x = true) as H.
  { rewrite <- (byte_of_val x). apply (all_below_spec 256 (λ v, unhexd_ok (byte_of v)));
      [vm_compute; reflexivity|apply byte_val_range]. }
  unfold unhexd_ok in H. intros E. rewrite E in H. bool_to_prop. split; [done|by apply Ascii.eqb_eq].
Qed.

Lemma byte_val_of v : 0 ≤ v < 256 → byte_val (byte_of v) = v.
Proof.
  intros Hv. unfold byte_val, byte_of. rewrite Z.mod_small by done.
  rewrite nat_ascii_embedding by lia. lia.
Qed.

Lemma string_ind2 (P : string → Prop) :
  P "" → (∀ a, P (String a "")) → (∀ a b s, P s → P (String a (String b s))) → ∀ s, P s.
Proof. intros H0 H1 H2. fix IH 1. intros [|a [|b s]]; [done|apply H1|apply H2, IH]. Qed.

Lemma hex_decode_lower raw a : hex_decode raw = Some a → to_lower raw = hex_encode a.
Proof.
  revert a. induction raw as [|x|x y raw IH] using string_ind2; intros a; [by intros [= <-]|done|].
  cbn [hex_decode]. destruct (unhexd x) as [u|] eqn:Eu; [|done]. destruct (unhexd y) as [v|] eqn:Ev; [|done].
  destruct (hex_decode raw) as [r|] eqn:Er; [|done]. intros [= <-].
  apply unhexd_lower in Eu as [Hu Hx], Ev as [Hv Hy]. specialize (IH _ eq_refl).
  cbn [hex_encode]. rewrite byte_val_of by lia. rewrite <- IH.
  replace ((16 * u + v) / 16) with u by (Z.to_euclidean_division_equations; lia).
  replace ((16 * u + v) mod 16) with v by (Z.to_euclidean_division_equations; lia).
  change (String (lower_char x) (String (lower_char y) (to_lower raw)) = String (hexd u) (String (hexd v) (to_lower raw))).
  by rewrite Hx, Hy.
Qed.

Definition unhexd_case_ok (x : ascii) : bool :=
  match unhexd (lower_char x), unhexd x with
  | Some u, Some v => u =? v
  | None, None => true
  | _, _ => false
  end.

Lemma unhexd_case x : unhexd (lower_char x) = unhexd x.
Proof.
  assert (unhexd_case_ok x = true) as H.
  { rewrite <- (byte_of_val x). apply (all_below_spec 256 (λ v, unhexd_case_ok (byte_of v)));
      [vm_compute; reflexivity|apply byte_val_range]. }
  unfold unhexd_case_ok in H. destruct (unhexd (lower_char x)), (unhexd x); try done. bool_to_prop. congruence.
Qed.

Lemma hex_decode_case raw : hex_decode (to_lower raw) = hex_decode raw.
Proof.
  induction raw as [|x|x y raw IH] using string_ind2; [done..|].
  change (to_lower (String x (String y raw))) with (String (lower_char x) (String (lower_char y) (to_lower raw))).
  cbn [hex_decode]. by rewrite !unhexd_case, IH.
Qed.

(** Decoding is case-insensitive, and accepts exactly the spellings of a's hex. *)
Lemma hex_decode_spelling raw a : hex_decode raw = Some a ↔ to_lower raw = hex_encode a.
Proof. split; [apply hex_decode_lower|]. intros H. by rewrite <- hex_decode_case, H, hex_decode_encode. Qed.

Lemma hex_decode_length raw a : hex_decode raw = Some a → String.length raw = (2 * String.length a)%nat.
Proof.
  intros H%hex_decode_lower. rewrite <- length_hex_encode, <- H. unfold to_lower.
  assert (∀ f s, String.length (smap f s) = String.length s) as ->; [|done].
  intros f s. induction s as [|c s IH]; simpl; congruence.
Qed.

(** creatorEVM gives nothing or the canonical text of a 20-byte address. *)
Lemma creatorEVM_canonical s : creatorEVM s = "" ∨ ∃ a, slen a = 20 ∧ creatorEVM s = address_String a.
Proof.
  unfold creatorEVM. destruct (has_prefix "0x" s) eqn:Ep.
  - apply has_prefix_spec in Ep as [raw ->]. change (str_drop 2 ("0x" +:+ raw)) with raw.
    destruct (_ =? _) eqn:El; [|by left]. destruct (hex_decode raw) as [a|] eqn:Ed; [|by left].
    right. exists a. bool_to_prop. pose proof (hex_decode_length _ _ Ed). unfold slen, evmAddressLen in *.
    split; [lia|]. change (to_lower ("0x" +:+ raw)) with ("0x" +:+ to_lower raw). by rewrite (hex_decode_lower _ _ Ed).
  - destruct (DecodeToBase256 s) as [[hrp data]|]; [|by left].
    destruct (negb _) eqn:El; [by left|]. bool_to_prop. right. by exists data.
Qed.

Lemma AddressFromHex_String a : slen a = 20 → AddressFromHex (address_String a) = Some a.
Proof.
  intros Ha. unfold AddressFromHex, HexToBytes, address_String, BytesToHex.
  assert (slen ("0x" +:+ hex_encode a) = 42) as El by (unfold slen in *; rewrite string_app_length, length_hex_encode; simpl; lia).
  rewrite El. change (42 =? 0) with false. cbv iota.
  change (Has0xPrefix ("0x" +:+ hex_encode a)) with true. cbv iota zeta.
  change (str_drop 2 ("0x" +:+ hex_encode a)) with (hex_encode a).
  assert (slen (hex_encode a) = 40) as E40 by (unfold slen in *; rewrite length_hex_encode; lia).
  destruct (hex_encode a =s "0") eqn:E0; [bool_to_prop; rewrite E0 in E40; done|].
  rewrite E40. change (40 =? 0) with false. change (negb (Z.even 40)) with false. cbv iota.
  rewrite hex_decode_encode. by rewrite Ha.
Qed.

(** A human-readable part the encoder takes unchanged. *)
Definition hrp_ok (hrp : string) : bool :=
  let chars := String.list_ascii_of_string hrp in
  (1 <=? slen hrp) && (slen hrp <=? 51) && forallb printable chars && negb (existsb is_upper chars)
  && negb (has_prefix "0x" hrp) && negb (hrp =s "0").

Definition charset_ok (v : Z) : bool :=
  let c := charset_at v in
  (index_byte charset c =? v) && printable c && negb (is_upper c) && negb (Ascii.eqb c "1").

Lemma charset_char v : 0 ≤ v < 32 →
  index_byte charset (charset_at v) = v ∧ printable (charset_at v) = true ∧
  is_upper (charset_at v) = false ∧ Ascii.eqb (charset_at v) "1" = false.
Proof.
  intros Hv. assert (charset_ok v = true) as H by (apply (all_below_spec 32); [vm_compute; reflexivity|lia]).
  unfold charset_ok in H. bool_to_prop. done.
Qed.

Definition charset_text (l : list Z) : string := String.string_of_list_ascii (charset_at <$> l).

Lemma charset_text_facts l : Forall (λ v, 0 ≤ v < 32) l →
  toBytes (charset_text l) = Some l ∧
  forallb printable (String.list_ascii_of_string (charset_text l)) = true ∧
  existsb is_upper (String.list_ascii_of_string (charset_text l)) = false ∧
  (∀ i best, last_index_from i best "1" (charset_text l) = best) ∧
  String.length (charset_text l) = length l.
Proof.
  induction 1 as [|v l Hv _ IH]; [done|]. destruct IH as (IH1 & IH2 & IH3 & IH4 & IH5).
  apply charset_char in Hv as Hc. destruct Hc as (C1 & C2 & C3 & C4).
  change (charset_text (v :: l)) with (String (charset_at v) (charset_text l)).
  cbn [toBytes String.list_ascii_of_string forallb existsb last_index_from String.length length].
  rewrite C1, C2, C3, C4, IH1, IH2, IH3, IH5.
  replace (v <? 0) with false by (symmetry; apply Z.ltb_ge; lia). by split_and!.
Qed.

Lemma last_index_app h d i best :
  (∀ i best, last_index_from i best "1" d = best) →
  last_index_from i best "1" (h +:+ String "1" d) = i + slen h.
Proof.
  intros Hd. revert i best. induction h as [|c h IH]; intros i best.
  - change (last_index_from (i + 1) i "1" d = i + 0). rewrite Hd. lia.
  - change (String c h +:+ String "1" d) with (String c (h +:+ String "1" d)). cbn [last_index_from].
    rewrite IH. unfold slen. cbn [String.length]. lia.
Qed.

Lemma list_ascii_app a b :
  String.list_ascii_of_string (a +:+ b) = String.list_ascii_of_string a ++ String.list_ascii_of_string b.
Proof.
  induction a as [|c a IH]; [done|].
  change (c :: String.list_ascii_of_string (a +:+ b) = c :: (String.list_ascii_of_string a ++ String.list_ascii_of_string b)).
  by rewrite IH.
Qed.

Lemma to_lower_id s : existsb is_upper (String.list_ascii_of_string s) = false → to_lower s = s.
Proof.
  induction s as [|c s IH]; [done|]. cbn [String.list_ascii_of_string existsb]. intros H. bool_to_prop.
  change (String (lower_char c) (to_lower s) = String c s). rewrite IH by done. unfold lower_char.
  by destruct (is_upper c).
Qed.

Lemma Polymod_split hrp values c :
  bech32Polymod hrp values c
  = foldl polymod_step (foldl polymod_step 1 (hrp_values hrp ++ values))
      match c with Some c => c | None => [0; 0; 0; 0; 0; 0] end.
Proof. unfold bech32Polymod. by rewrite app_assoc, foldl_app. Qed.

Lemma bech32_checksum_facts hrp data :
  Forall (λ v, 0 ≤ v < 32) (bech32_checksum hrp data) ∧ length (bech32_checksum hrp data) = 6%nat ∧
  bech32VerifyChecksum hrp (data ++ bech32_checksum hrp data) = true.
Proof.
  split_and!; [|done|].
  - unfold bech32_checksum. cbn [fmap list_fmap]. change 31 with (Z.ones 5).
    repeat (constructor; [rewrite Z.land_ones by lia; apply Z.mod_pos_bound; lia|]). constructor.
  - unfold bech32VerifyChecksum. rewrite length_app. change (length (bech32_checksum hrp data)) with 6%nat.
    replace (length data + 6 - 6)%nat with (length data) by lia.
    rewrite take_app_length, drop_app_length. unfold bech32_checksum. rewrite !Polymod_split. cbv zeta iota.
    by rewrite checksum_verifies.
Qed.

Lemma decodeNoLimit_encoded hrp conv : hrp_ok hrp = true → Forall (λ v, 0 ≤ v < 32) conv →
  decodeNoLimit (hrp +:+ "1" +:+ charset_text (conv ++ bech32_checksum hrp conv)) = Some (hrp, conv).
Proof.
  intros Hh Hc. destruct (bech32_checksum_facts hrp conv) as (K1 & K2 & K3).
  set (data := conv ++ bech32_checksum hrp conv) in *.
  assert (Forall (λ v, 0 ≤ v < 32) data) as Hd by (by apply Forall_app).
  destruct (charset_text_facts data Hd) as (F1 & F2 & F3 & F4 & F5).
  unfold hrp_ok in Hh. bool_to_prop.
  set (bech := hrp +:+ "1" +:+ charset_text data).
  assert (length data = (length conv + 6)%nat) as Hlen by (unfold data; rewrite length_app; lia).
  assert (slen bech = slen hrp + 1 + Z.of_nat (length data)) as Hsl
    by (unfold bech, slen; rewrite !string_app_length, F5; simpl; lia).
  assert (String.list_ascii_of_string bech
    = String.list_ascii_of_string hrp ++ "1"%char :: String.list_ascii_of_string (charset_text data)) as Hchars
    by (unfold bech; by rewrite !list_ascii_app).
  assert (last_index_byte bech "1" = slen hrp) as Hone by (unfold last_index_byte, bech; by apply last_index_app).
  unfold decodeNoLimit. rewrite Hchars, forallb_app, !existsb_app. cbn [forallb existsb].
  change (printable "1") with true. change (is_upper "1") with false.
  replace (forallb printable (String.list_ascii_of_string hrp)) with true by (symmetry; assumption).
  replace (existsb is_upper (String.list_ascii_of_string hrp)) with false by (symmetry; assumption).
  rewrite F2, F3. cbn [andb orb negb]. rewrite andb_false_r. cbv zeta. rewrite Hone.
  replace (slen bech <? 8) with false by (symmetry; apply Z.ltb_ge; lia).
  replace (slen hrp <? 1) with false by (symmetry; apply Z.ltb_ge; lia).
  replace (slen bech <? slen hrp + 7) with false by (symmetry; apply Z.ltb_ge; lia).
  cbn [orb]. cbv iota.
  replace (Z.to_nat (slen hrp)) with (String.length hrp) by (unfold slen; lia).
  replace (Z.to_nat (slen hrp + 1)) with (String.length (hrp +:+ "1")) by (unfold slen; rewrite string_app_length; simpl; lia).
  unfold bech. rewrite str_take_app, <- string_app_assoc, str_drop_app, F1, K3.
  replace (length data - 6)%nat with (length conv) by lia. unfold data. by rewrite take_app_length.
Qed.

Lemma bytes_of_chars a : bytes_of (byte_val <$> String.list_ascii_of_string a) = a.
Proof.
  unfold bytes_of. induction a as [|c a IH]; [done|].
  change (String (byte_of (byte_val c)) (String.string_of_list_ascii (byte_of <$> (byte_val <$> String.list_ascii_of_string a))) = String c a).
  by rewrite IH, byte_of_val.
Qed.

Lemma has_prefix_0x_app hrp t : has_prefix "0x" hrp = false → (hrp =s "0") = false → hrp ≠ "" →
  has_prefix "0x" (hrp +:+ t) = false.
Proof.
  destruct hrp as [|c [|d hrp]]; [done| |done]. intros _ H0 _. change (String c "" +:+ t) with (String c t).
  cbn [has_prefix]. destruct (Ascii.eqb "0" c) eqn:E; [|done]. apply Ascii.eqb_eq in E as <-. done.
Qed.

(** C35: Creator identities. Whatever the chain reports as a registry's creator,
    creator_evm is either empty or the canonical text of a 20-byte address, which
    AddressFromHex, the base of every address parser of the server, reads back as
    that address. For the bech32 identity of an account it is that account:
    creatorEVM undoes the chain's encoding, for every address and every
    human-readable part of 1 to 51 lower-case printable characters that does not
    read as the start of 0x hex. *)
Theorem creator_identity :
  (∀ s, creatorEVM s = "" ∨
     ∃ a, creatorEVM s = address_String a ∧ AddressFromHex (creatorEVM s) = Some a) ∧
  (∀ hrp a, hrp_ok hrp = true → slen a = 20 →
     ∃ creator, EncodeFromBase256 hrp a = Some creator ∧ creatorEVM creator = address_String a).
Proof.
  split.
  - intros s. destruct (creatorEVM_canonical s) as [E|(a & Ha & E)]; [by left|right].
    exists a. rewrite E. split; [done|by apply AddressFromHex_String].
  - intros hrp a Hh Ha. set (l := byte_val <$> String.list_ascii_of_string a).
    assert (length l = 20%nat) as Hl.
    { unfold l. rewrite length_fmap. rewrite <- (String.string_of_list_ascii_of_string a) in Ha.
      assert (∀ x, String.length (String.string_of_list_ascii x) = length x) as Hsl by (induction x; simpl; congruence).
      unfold slen in Ha. rewrite Hsl in Ha. lia. }
    assert (Forall (λ v, 0 ≤ v < 2 ^ 8) l) as Hr by (apply Forall_fmap, Forall_true; intros c; apply byte_val_range).
    destruct (ConvertBits_roundtrip l Hl Hr) as (q & Q1 & Q2 & Q3 & Q4).
    unfold EncodeFromBase256. fold l. rewrite Q1. eexists. split; [done|].
    pose proof Hh as Hh'. unfold hrp_ok in Hh'. bool_to_prop. rewrite to_lower_id by assumption.
    fold (charset_text (q ++ bech32_checksum hrp q)). unfold creatorEVM.
    rewrite has_prefix_0x_app by (first [apply String.eqb_neq; assumption|assumption|intros ->; done]).
    destruct (bech32_checksum_facts hrp q) as (K1 & K2 & _).
    unfold DecodeToBase256, bech32_Decode. rewrite decodeNoLimit_encoded by done.
    replace (90 <? _) with false.
    + rewrite Q2. unfold l. rewrite bytes_of_chars. unfold evmAddressLen. rewrite Ha. done.
    + symmetry. apply Z.ltb_ge. unfold slen. rewrite !string_app_length.
      destruct (charset_text_facts (q ++ bech32_checksum hrp q)) as (_ & _ & _ & _ & ->); [by apply Forall_app|].
      rewrite length_app, Q3, K2. unfold slen in *. simpl. lia.
Qed.

(** ** Lemmas on timestamps *)

Lemma yoe_of_doe yoe doy : 0 ≤ yoe < 400 → 0 ≤ doy ≤ 365 →
  (doy = 365 → (yoe + 1) mod 4 = 0 ∧ ((yoe + 1) mod 100 ≠ 0 ∨ yoe = 399)) →
  let doe := 365 * yoe + yoe / 4 - yoe / 100 + doy in
  (doe - doe / 1460 + doe / 36524 - doe / 146096) / 365 = yoe.
Proof.
  intros Hy Hd Hl doe.
  assert (365 * yoe ≤ doe - doe / 1460 + doe / 36524 - doe / 146096 < 365 * yoe + 365).
  2: { Z.to_euclidean_division_equations; lia. }
  unfold doe. 
  split; Z.to_euclidean_division_equations; lia.
Qed.

Lemma upto_11 x : 0 ≤ x ≤ 11 → x = 0 ∨ x = 1 ∨ x = 2 ∨ x = 3 ∨ x = 4 ∨ x = 5 ∨ x = 6 ∨ x = 7 ∨ x = 8 ∨
  x = 9 ∨ x = 10 ∨ x = 11.
Proof. lia. Qed.

Lemma month_of_doy mp d : 0 ≤ mp ≤ 11 → 1 ≤ d ≤ (if mp =? 11 then 29 else if (mp =? 1) || (mp =? 3) || (mp =? 6) || (mp =? 8) then 30 else 31) →
  let doy := (153 * mp + 2) / 5 + d - 1 in
  (5 * doy + 2) / 153 = mp ∧ 0 ≤ doy ≤ 365.
Proof.
  intros Hm Hd.
  apply upto_11 in Hm as Hc. destruct Hc as [->|[->|[->|[->|[->|[->|[->|[->|[->|[->|[->| ->]]]]]]]]]]]; cbn in Hd |- *; Z.to_euclidean_division_equations; lia.
Qed.

(** Every valid date is recovered from its day number. *)
Lemma civil_roundtrip y m d : 1 ≤ m ≤ 12 → 1 ≤ d ≤ daysIn m y → civil_of_days (days_of_civil y m d) = (y, m, d).
Proof.
  intros Hm Hd. unfold civil_of_days, days_of_civil.
  set (y' := if m <=? 2 then y - 1 else y). set (mp := (m + 9) mod 12).
  assert (0 ≤ mp ≤ 11 ∧ (if mp <? 10 then mp + 3 else mp - 9) = m ∧ (m <=? 2) = (10 <=? mp)) as (Hmp & Hback & H2).
  { unfold mp. assert (m = 1 ∨ m = 2 ∨ m = 3 ∨ m = 4 ∨ m = 5 ∨ m = 6 ∨ m = 7 ∨ m = 8 ∨ m = 9 ∨ m = 10 ∨ m = 11 ∨ m = 12) as Hc by lia.
    destruct Hc as [->|[->|[->|[->|[->|[->|[->|[->|[->|[->|[->| ->]]]]]]]]]]]; vm_compute; intuition congruence. }
  assert (d ≤ if mp =? 11 then 29 else if (mp =? 1) || (mp =? 3) || (mp =? 6) || (mp =? 8) then 30 else 31) as Hdm.
  { clearbody mp. unfold daysIn in Hd. clear y'. subst m. apply upto_11 in Hmp as Hc.
    destruct Hc as [->|[->|[->|[->|[->|[->|[->|[->|[->|[->|[->| ->]]]]]]]]]]]; cbv -[leap Z.le] in Hd |- *; try lia; destruct (leap y); lia. }
  destruct (month_of_doy mp d Hmp ltac:(lia)) as [Hmonth Hdoy]. cbv zeta in Hmonth, Hdoy.
  set (doy := (153 * mp + 2) / 5 + d - 1) in *.
  assert (0 ≤ y' mod 400 < 400) as Hyoe by (apply Z.mod_pos_bound; lia).
  assert (doy = 365 → (y' mod 400 + 1) mod 4 = 0 ∧ ((y' mod 400 + 1) mod 100 ≠ 0 ∨ y' mod 400 = 399)) as Hleap.
  { intros E. assert (mp = 11 ∧ d = 29) as [E11 ->].
    { destruct (mp =? 11) eqn:E1; bool_to_prop; [|exfalso].
      - unfold doy in E. rewrite E1 in *. change ((153 * 11 + 2) / 5) with 337 in E. lia.
      - unfold doy in E. destruct (_ || _); Z.to_euclidean_division_equations; lia. }
    assert (m = 2) as -> by (rewrite E11 in Hback; cbn in Hback; lia).
    unfold daysIn in Hd. cbn in Hd. destruct (leap y) eqn:El; [|lia].
    unfold y'. change (2 <=? 2) with true. cbv iota. unfold leap in El. bool_to_prop.
    assert (y mod 100 ≠ 0 ∨ y mod 400 = 0) by (apply orb_true_iff in H0 as [?|?]; bool_to_prop; auto).
    Z.to_euclidean_division_equations; lia. }
  set (doe := 365 * (y' mod 400) + y' mod 400 / 4 - y' mod 400 / 100 + doy).
  assert (0 ≤ doe < 146097) as Hdoe.
  { unfold doe. clear -Hyoe Hdoy Hleap. Z.to_euclidean_division_equations; lia. }
  replace (y' / 400 * 146097 + doe - 719468 + 719468) with (y' / 400 * 146097 + doe) by lia.
  replace ((y' / 400 * 146097 + doe) mod 146097) with doe by (Z.to_euclidean_division_equations; lia).
  replace ((y' / 400 * 146097 + doe) / 146097) with (y' / 400) by (Z.to_euclidean_division_equations; lia).
  pose proof (yoe_of_doe (y' mod 400) doy Hyoe Hdoy Hleap) as Hyo. cbv zeta in Hyo. fold doe in Hyo. rewrite Hyo.
  replace (doe - (365 * (y' mod 400) + y' mod 400 / 4 - y' mod 400 / 100)) with doy by (unfold doe; lia).
  rewrite Hmonth, Hback. f_equal; [f_equal|].
  - pose proof (Z.div_mod y' 400 ltac:(lia)). unfold y' in *. destruct (m <=? 2); lia.
  - unfold doy. lia.
Qed.

Definition digit_ok (v : Z) : bool := match digit (byte_of (48 + v)) with Some w => w =? v | None => false end.

Lemma digit_byte v : 0 ≤ v < 10 → digit (byte_of (48 + v)) = Some v.
Proof.
  intros Hv. assert (digit_ok v = true) as H by (apply (all_below_spec 10); [vm_compute; reflexivity|lia]).
  unfold digit_ok in H. destruct (digit _) as [w|]; [|done]. bool_to_prop. by subst.
Qed.

Definition all_digits (s : string) : bool := forallb is_digit (String.list_ascii_of_string s).

Lemma atoi_cons c s : atoi (String c s) = default 0 (digit c) * 10 ^ Z.of_nat (String.length s) + atoi s.
Proof.
  unfold atoi. cbn [String.list_ascii_of_string foldl].
  assert (∀ s acc, foldl (λ acc c, 10 * acc + default 0 (digit c)) acc (String.list_ascii_of_string s)
    = acc * 10 ^ Z.of_nat (String.length s)
      + foldl (λ acc c, 10 * acc + default 0 (digit c)) 0 (String.list_ascii_of_string s)) as H.
  { clear. induction s as [|c s IH]; intros acc; [cbn; lia|].
    cbn [String.list_ascii_of_string foldl String.length]. rewrite IH, (IH (10 * 0 + _)).
    rewrite Nat2Z.inj_succ, Z.pow_succ_r by lia. ring. }
  rewrite H. ring.
Qed.

Lemma digits_facts n u : 0 ≤ u < 10 ^ Z.of_nat n →
  atoi (digits n u) = u ∧ all_digits (digits n u) = true ∧ String.length (digits n u) = n.
Proof.
  assert (∀ n u, all_digits (digits n u) = true ∧ String.length (digits n u) = n ∧
    (0 ≤ u → atoi (digits n u) = u mod 10 ^ Z.of_nat n)) as H.
  { clear. induction n as [|n IH]; intros u; [split_and!; [done..|]; intros; cbn [digits]; by rewrite Z.mod_1_r|].
    destruct (IH u) as (I1 & I2 & I3). assert (0 ≤ u / 10 ^ Z.of_nat n mod 10 < 10) as Hd by (apply Z.mod_pos_bound; lia).
    cbn [digits String.length]. split_and!; [|by rewrite I2|].
    - unfold all_digits in *. cbn [String.list_ascii_of_string forallb]. unfold is_digit at 1.
      by rewrite digit_byte, I1.
    - intros Hu. rewrite atoi_cons, digit_byte, I2, I3 by done. cbn [default].
      rewrite Nat2Z.inj_succ, Z.pow_succ_r by lia. rewrite (Z.mul_comm 10).
      assert (0 < 10 ^ Z.of_nat n) by (apply Z.pow_pos_nonneg; lia).
      rewrite Z.rem_mul_r by lia. simpl. ring. }
  intros Hu. destruct (H n u) as (H1 & H2 & H3). split_and!; [|done..].
  rewrite H3 by lia. by apply Z.mod_small.
Qed.

Lemma getnum_two v t b : 0 ≤ v < 100 → getnum (digits 2 v +:+ t) b = Some (v, t).
Proof.
  intros Hv. change (digits 2 v +:+ t) with
    (String (byte_of (48 + v / 10 mod 10)) (String (byte_of (48 + v / 1 mod 10)) t)).
  cbn [getnum]. rewrite !digit_byte by (apply Z.mod_pos_bound; lia).
  f_equal. f_equal. Z.to_euclidean_division_equations. lia.
Qed.

Lemma ranged_two lo hi v t b : lo ≤ v ≤ hi → 0 ≤ v < 100 → ranged lo hi (getnum (digits 2 v +:+ t) b) = Some (v, t).
Proof.
  intros H Hv. rewrite getnum_two by done. unfold ranged. cbn.
  by rewrite (proj2 (Z.leb_le lo v)), (proj2 (Z.leb_le v hi)) by lia.
Qed.

Lemma year_field_text y t : 0 ≤ y < 10000 → year_field (year_text y +:+ t) = Some (y, t).
Proof.
  intros Hy. unfold year_text. rewrite (proj2 (Z.ltb_ge y 0)), (proj2 (Z.ltb_lt y 10000)) by lia.
  destruct (digits_facts 4 y) as (A & D & L); [exact Hy|]. unfold year_field.
  pose proof (str_take_app (digits 4 y) t) as Ht. rewrite L in Ht. rewrite Ht.
  pose proof (str_drop_app (digits 4 y) t) as Hd. rewrite L in Hd. rewrite Hd.
  unfold slen. rewrite L. unfold all_digits in D. by rewrite D, A.
Qed.

Lemma span_digits_app ds t : all_digits ds = true → span_digits t = ("", t) → span_digits (ds +:+ t) = (ds, t).
Proof.
  intros Hd Ht. induction ds as [|c ds IH]; [done|]. unfold all_digits in *.
  cbn [String.list_ascii_of_string forallb] in Hd. bool_to_prop.
  change (String c ds +:+ t) with (String c (ds +:+ t)). cbn [span_digits]. rewrite H. by rewrite IH.
Qed.

(** Trailing zeros weigh nothing. *)
Lemma trim_zeros_value s : all_digits s = true →
  let t := trim_right_by (Ascii.eqb "0") s in
  all_digits t = true ∧ (String.length t ≤ String.length s)%nat ∧
  atoi t * 10 ^ (Z.of_nat (String.length s) - Z.of_nat (String.length t)) = atoi s.
Proof.
  induction s as [|c s IH]; intros Hs; [done|]. unfold all_digits in Hs.
  cbn [String.list_ascii_of_string forallb] in Hs. bool_to_prop. destruct (IH H0) as (I1 & I2 & I3).
  cbn [trim_right_by]. set (t := trim_right_by _ s) in *.
  rewrite (atoi_cons c s). destruct t as [|d t'] eqn:Et.
  - change (atoi "") with 0 in I3. destruct (Ascii.eqb "0" c) eqn:E0.
    + apply Ascii.eqb_eq in E0 as <-. cbv zeta. change (atoi "") with 0. change (default 0 (digit "0")) with 0.
      split_and!; [done|simpl; lia|lia].
    + cbv zeta. split_and!; [unfold all_digits; simpl; by rewrite H|simpl; lia|].
      rewrite (atoi_cons c ""). cbn [String.length]. change (atoi "") with 0.
      rewrite <- I3. rewrite Z.pow_0_r. replace (Z.of_nat (S _) - Z.of_nat 1) with (Z.of_nat (String.length s)) by lia. ring.
  - cbv zeta. split_and!; [|cbn [String.length] in *; lia|].
    + unfold all_digits in *. cbn [String.list_ascii_of_string forallb] in *. by rewrite H.
    + rewrite (atoi_cons c (String d t')). rewrite <- I3.
      replace (Z.of_nat (String.length (String c s)) - Z.of_nat (String.length (String c (String d t'))))
        with (Z.of_nat (String.length s) - Z.of_nat (String.length (String d t'))) by (cbn [String.length]; lia).
      replace (Z.of_nat (String.length s)) with
        (Z.of_nat (String.length (String d t')) + (Z.of_nat (String.length s) - Z.of_nat (String.length (String d t')))) at 2 by lia.
      rewrite Z.pow_add_r by lia. ring.
Qed.

Lemma fraction_field_text ns t : 0 ≤ ns < 1000000000 →
  fraction_field (nano_text ns +:+ String " " t) = (ns, String " " t).
Proof.
  intros Hn. destruct (digits_facts 9 ns Hn) as (A & D & L). unfold nano_text.
  destruct (trim_zeros_value _ D) as (T1 & T2 & T3). rewrite A, L in T3. rewrite L in T2.
  set (ds := trim_right_by _ _) in *. destruct (ds =s "") eqn:E; bool_to_prop.
  - rewrite E in T3. change (atoi "") with 0 in T3. rewrite Z.mul_0_l in T3. by subst ns.
  - change (("." +:+ ds) +:+ String " " t) with (String "." (ds +:+ String " " t)). cbn [fraction_field].
    change (Ascii.eqb "." "." || Ascii.eqb "." ",") with true. cbv iota.
    rewrite span_digits_app by done. cbv iota beta.
    destruct (ds =s "") eqn:E'; [bool_to_prop; done|].
    assert (str_take 9 ds = ds) as ->.
    { clear -T2. revert T2. generalize 9%nat. induction ds as [|c ds IH]; intros [|n] Hn; simpl in *; try done; try lia.
      f_equal. apply IH. lia. }
    unfold slen. change (Z.of_nat 9) with 9 in T3. by rewrite T3.
Qed.

(** A time of day, as seconds of the day. *)
Definition clock (h mi s : Z) : Z := h * 3600 + mi * 60 + s.

(** The chain's rendering of a UTC time, field by field. *)
Lemma texts_of_fields y m d h mi s ns :
  1 ≤ m ≤ 12 → 1 ≤ d ≤ daysIn m y → 0 ≤ h < 24 → 0 ≤ mi < 60 → 0 ≤ s < 60 →
  let t := mkInstant (days_of_civil y m d * 86400 + clock h mi s) ns in
  date_text t = year_text y +:+ "-" +:+ digits 2 m +:+ "-" +:+ digits 2 d ∧
  clock_text t = digits 2 h +:+ ":" +:+ digits 2 mi +:+ ":" +:+ digits 2 s +:+ nano_text ns.
Proof.
  intros Hm Hd Hh Hmi Hs t. unfold date_text, clock_text, t, clock. cbn [in_sec in_nsec].
  assert ((days_of_civil y m d * 86400 + (h * 3600 + mi * 60 + s)) / 86400 = days_of_civil y m d) as ->
    by (Z.to_euclidean_division_equations; lia).
  rewrite civil_roundtrip by done. split; [done|].
  assert ((days_of_civil y m d * 86400 + (h * 3600 + mi * 60 + s)) mod 86400 = h * 3600 + mi * 60 + s) as ->
    by (Z.to_euclidean_division_equations; lia).
  replace ((h * 3600 + mi * 60 + s) / 3600) with h by (Z.to_euclidean_division_equations; lia).
  replace ((h * 3600 + mi * 60 + s) / 60 mod 60) with mi by (Z.to_euclidean_division_equations; lia).
  by replace ((h * 3600 + mi * 60 + s) mod 60) with s by (Z.to_euclidean_division_equations; lia).
Qed.

Lemma literal_app c t : Ascii.eqb c " " = false → literal c (String c "" +:+ t) = Some t.
Proof. intros H. change (String c "" +:+ t) with (String c t). unfold literal. rewrite H. by rewrite Ascii.eqb_refl. Qed.

Lemma literal_blank n t : 0 ≤ n < 100 → literal " " (String " " (digits 2 n +:+ t)) = Some (digits 2 n +:+ t).
Proof.
  intros Hn. unfold literal. change (Ascii.eqb " " " ") with true. cbv iota.
  cbn [trim_left_by]. change (Ascii.eqb " " " ") with true. cbv iota.
  change (digits 2 n +:+ t) with (String (byte_of (48 + n / 10 mod 10)) (String (byte_of (48 + n / 1 mod 10)) t)).
  cbn [trim_left_by]. destruct (Ascii.eqb _ _) eqn:E; [|done]. apply Ascii.eqb_eq in E.
  pose proof (digit_byte (n / 10 mod 10) ltac:(apply Z.mod_pos_bound; lia)) as Hd. by rewrite <- E in Hd.
Qed.

(** Chain timestamps. The chain's text of a UTC time, for every calendar date
    of the years 0 to 9999, every time of day and every nanosecond, is re-rendered
    as the RFC 3339 text of the same instant; a text in any other form is passed
    through unchanged. *)
Theorem normalizeChainTime_utc y m d h mi s ns
    (Hy : 0 ≤ y < 10000) (Hm : 1 ≤ m ≤ 12) (Hd : 1 ≤ d ≤ daysIn m y)
    (Hh : 0 ≤ h < 24) (Hmi : 0 ≤ mi < 60) (Hs : 0 ≤ s < 60) (Hns : 0 ≤ ns < 1000000000) :
  let t := mkInstant (days_of_civil y m d * 86400 + clock h mi s) ns in
  normalizeChainTime (time_String t) = rfc3339_text t ∧
  rfc3339_text t = digits 4 y +:+ "-" +:+ digits 2 m +:+ "-" +:+ digits 2 d +:+ "T" +:+
    digits 2 h +:+ ":" +:+ digits 2 mi +:+ ":" +:+ digits 2 s +:+ nano_text ns +:+ "Z" ∧
  (∀ x, parse_chain_time x = None → normalizeChainTime x = x).
Proof.
  intros t. destruct (texts_of_fields y m d h mi s ns) as [Ed Ec]; [done..|]. fold t in Ed, Ec.
  assert (d < 100) as Hd100 by (unfold daysIn in Hd; repeat case_match; lia).
  assert (year_text y = digits 4 y) as Ey.
  { unfold year_text. by rewrite (proj2 (Z.ltb_ge y 0)), (proj2 (Z.ltb_lt y 10000)) by lia. }
  split_and!; [| |unfold normalizeChainTime; by intros x ->].
  2:{ unfold rfc3339_text. rewrite Ed, Ec, Ey, !string_app_assoc. done. }
  unfold normalizeChainTime. assert (parse_chain_time (time_String t) = Some t) as ->; [|done].
  unfold time_String. rewrite Ed, Ec, !string_app_assoc. unfold parse_chain_time.
  rewrite year_field_text by done. cbn [mbind option_bind].
  rewrite (literal_app "-") by done. cbn [mbind option_bind]. rewrite ranged_two by lia. cbn [mbind option_bind].
  rewrite (literal_app "-") by done. cbn [mbind option_bind]. rewrite getnum_two by lia. cbn [mbind option_bind].
  change (" " +:+ digits 2 h +:+ ?x) with (String " " (digits 2 h +:+ x)).
  rewrite literal_blank by lia. cbn [mbind option_bind]. rewrite ranged_two by lia. cbn [mbind option_bind].
  rewrite (literal_app ":") by done. cbn [mbind option_bind]. rewrite ranged_two by lia. cbn [mbind option_bind].
  rewrite (literal_app ":") by done. cbn [mbind option_bind]. rewrite ranged_two by lia. cbn [mbind option_bind].
  rewrite (fraction_field_text ns "+0000 UTC") by done. cbv beta iota.
  change (literal " " " +0000 UTC") with (Some "+0000 UTC"). cbn [mbind option_bind].
  change (offset_field "+0000 UTC") with (Some (0, " UTC")). cbn [mbind option_bind].
  change (literal " " " UTC") with (Some "UTC"). cbn [mbind option_bind].
  change (zone_field "UTC") with (Some (true, "")). cbn [mbind option_bind].
  change (negb ("" =s "")) with false. cbv iota.
  rewrite (proj2 (Z.ltb_ge d 1)), (proj2 (Z.ltb_ge (daysIn m y) d)) by lia. cbn [orb].
  unfold t, clock. f_equal. f_equal. lia.
Qed.

Lemma normalizeChainTime_utc_witness :
  normalizeChainTime (time_String (mkInstant (days_of_civil 2024 2 29 * 86400 + clock 23 59 59) 5000))
  = "2024-02-29T23:59:59.000005Z".
Proof.
  destruct (normalizeChainTime_utc 2024 2 29 23 59 59 5000) as (-> & -> & _);
    [lia|lia|vm_compute; split; congruence|lia..|]. vm_compute. reflexivity.
Defined.
