(* ===== verification/Anchor.v ===== *)
(** The anchor client (internal/anchor): the precompile's read methods
    (client.go), the preparation of unsigned transactions (prepare.go), the
    classification of the precompile's rejections (revert.go) and their types
    (types.go).

    github.com/defiweb/go-eth's ABI codec and transaction serialiser are
    third-party code, reached through the interface [AnchorLib]. The EVM client
    is the record [evm_node] of the node's answers to the calls of one
    operation, each of which an operation makes at most once. An operation
    yields an [answer]: [None] is a Go panic, which only the lookup of a method
    the loaded ABI does not have can cause. *)

From stdpp Require Import pretty.
From S2P Require Import Prelude GoErrors Hex Evm ChainForms.

(** ** Types (types.go, client.go) *)

Record Registry := mkRegistry {
  rg_ID : Z; rg_Name : string; rg_Description : string; rg_Creator : string; rg_CreatorEVM : string;
  rg_CreatedAt : string; rg_Metadata : string
}.

(** Named [Rec]: the struct is anchor.Record. *)
Record Rec := mkRec {
  rd_RegistryID : Z; rd_RecordID : Z; rd_Index : Z; rd_Checksum : string; rd_ChecksumAlgo : string;
  rd_URI : string; rd_Status : string; rd_IsLatest : bool; rd_Timestamp : string; rd_Metadata : string
}.

Record PageRequest := mkPageRequest {
  pr_Offset : Z; pr_Limit : Z; pr_Reverse : bool; pr_Key : string
}.
Record PageResponse := mkPageResponse { pg_Total : Z; pg_NextKey : string }.

Record GetRegistriesRequest := mkGetRegistries {
  gr_RegistryID : option Z; gr_Pagination : option PageRequest
}.
Record GetRegistriesResponse := mkRegistriesResponse {
  gs_Registries : list Registry; gs_Pagination : option PageResponse
}.
Record GetRecordsRequest := mkGetRecords {
  gc_RegistryID : option Z; gc_RecordID : option Z; gc_Index : option Z; gc_Checksum : option string;
  gc_Pagination : option PageRequest
}.
Record GetRecordsResponse := mkRecordsResponse {
  gd_Records : list Rec; gd_Pagination : option PageResponse
}.

Record WalletTransactionRequest := mkWallet {
  wt_From : string; wt_To : string; wt_Data : string; wt_Value : string; wt_ChainID : string;
  wt_Gas : string; wt_Nonce : string; wt_GasPrice : string; wt_MaxFeePerGas : string;
  wt_MaxPriorityFeePerGas : string
}.
Record UnsignedTransaction := mkUnsigned {
  ut_RawTx : string; ut_Type : Z; ut_To : string; ut_Data : string; ut_Nonce : Z; ut_Gas : Z;
  ut_GasPrice : string; ut_MaxFeePerGas : string; ut_MaxPriorityFeePerGas : string; ut_Value : string;
  ut_ChainID : Z; ut_WalletTxRequest : WalletTransactionRequest
}.

Record PrepareAddRegistryRequest := mkAddRegistry {
  ag_From : string; ag_Name : string; ag_Description : string; ag_Metadata : string; ag_PreferLegacy : bool
}.
Record PrepareAddRecordRequest := mkAddRecord {
  ar_From : string; ar_RegistryID : Z; ar_URI : string; ar_Checksum : string; ar_ChecksumAlgo : string;
  ar_Status : string; ar_Metadata : string; ar_PreferLegacy : bool
}.
Record PrepareUpdateRecordStatusRequest := mkUpdateStatus {
  us_From : string; us_RegistryID : Z; us_RecordID : Z; us_Index : option Z; us_Status : string;
  us_PreferLegacy : bool
}.
(** PrepareGrantRoleRequest and PrepareRevokeRoleRequest have the same fields. *)
Record PrepareRoleRequest := mkRole {
  ro_From : string; ro_RegistryID : Z; ro_Checksum : string; ro_Account : string; ro_Role : string;
  ro_PreferLegacy : bool
}.

Record PrecompileInfo := mkInfo {
  pi_Address : string; pi_ChainID : Z; pi_ABILoaded : bool; pi_MethodCount : Z
}.

(** *** What crosses the ABI *)

Record abiRegistryRow := mkRegistryRow {
  wr_ID : Z; wr_Name : string; wr_Description : string; wr_Creator : string; wr_CreatedAt : string;
  wr_Metadata : string
}.
Record abiRecordRow := mkRecordRow {
  wc_URI : string; wc_Checksum : string; wc_ChecksumAlgo : string; wc_Metadata : string;
  wc_Timestamp : string; wc_Status : string; wc_RecordID : Z; wc_Index : Z; wc_IsLatest : bool;
  wc_RegistryID : Z
}.
Record abiPaginationOutput := mkPageOut { po_NextKey : string; po_Total : Z }.
Record abiPaginationInput := mkPageIn {
  pin_Key : string; pin_Offset : Z; pin_Limit : Z; pin_CountTotal : bool; pin_Reverse : bool
}.

(** A Go argument of Method.EncodeArgs; a struct by its tagged fields. *)
Inductive abi_arg :=
| AbiString (s : string)
| AbiUint64 (n : Z)
| AbiBool (b : bool)
| AbiBytes (s : string)
| AbiAddress (a : address)
| AbiTuple (fields : list (string * abi_arg)).

Definition pagination_arg (p : abiPaginationInput) : abi_arg :=
  AbiTuple [("key", AbiBytes (pin_Key p)); ("offset", AbiUint64 (pin_Offset p));
            ("limit", AbiUint64 (pin_Limit p)); ("countTotal", AbiBool (pin_CountTotal p));
            ("reverse", AbiBool (pin_Reverse p))].

(** The fields set on a defitypes.Transaction before it is serialised. *)
Record tx_fields := mkTxFields {
  tf_Type : Z; tf_ChainID : option Z; tf_To : address; tf_Value : Z; tf_GasLimit : Z;
  tf_GasPrice : option Z; tf_MaxPriorityFeePerGas : option Z; tf_MaxFeePerGas : option Z;
  tf_Input : string; tf_Nonce : Z
}.

Class AnchorLib := {
  abi_method : Type;
  EncodeArgs : abi_method → list abi_arg → result error string;
  FourBytes : abi_method → string;
  (* DecodeValues; [None] is a panic *)
  DecodeRegistries : abi_method → string → answer (list abiRegistryRow * abiPaginationOutput);
  DecodeRecords : abi_method → string → answer (list abiRecordRow * abiPaginationOutput);
  tx_Raw : tx_fields → result error string
}.

(** defitypes.Call: the fields that are set. *)
Record Call := mkCall { cl_From : option address; cl_To : address; cl_Input : string }.

Record evm_node := mkNode {
  nd_PendingNonceAt : address → result error Z;
  nd_SuggestGasPrice : result error Z;
  nd_SuggestGasTipCap : result error (option Z);
  nd_EstimateGas : Call → result error Z;
  nd_CallContract : Call → result error string
}.

(** ** The precompile's rejections (revert.go) *)

Definition onChainRoleDenial : string :=
  "on-chain authorization failed: the `from` address does not hold the " +:+
  "role this write requires on the target registry (creating a " +:+
  "registry makes you its admin; an admin grants editor with " +:+
  "anchor_prepare_grant_role). This is a chain-side permission " +:+
  "check, not this server's API-key authorization".

Definition safePrecompileReverts : list (string * (string * sentinel)) :=
  [("metadata cannot be empty", ("metadata cannot be empty", ErrPrecompileValidation));
   ("checksum exceeds max length",
    ("checksum exceeds the maximum length allowed by the registry", ErrPrecompileValidation));
   ("name exceeds max length",
    ("name exceeds the maximum length the anchoring precompile allows " +:+
     "(128 characters); shorten the registry name", ErrPrecompileValidation));
   ("requires registry_id",
    ("record_id requires registry_id: a record ID is only unique within " +:+
     "its registry, so pass registry_id together with record_id", ErrPrecompileValidation));
   ("does not have the specified role",
    ("the account does not hold the specified role on this registry (or " +:+
     "record), so there is nothing to revoke; check the role name and " +:+
     "whether the grant was registry-wide or scoped to a record checksum", ErrPrecompileValidation));
   ("missing required role", (onChainRoleDenial, ErrPermissionDenied));
   ("index cannot be zero",
    ("index must be 1 or greater -- record version indexes start at 1; " +:+
     "anchor_get_records reports the index of each version", ErrPrecompileValidation));
   ("unauthorized", (onChainRoleDenial, ErrPermissionDenied))].

Definition collectionsNotFound : string := "collections: not found".

Definition curatePrecompileErr (reason : string) (kind : sentinel) : error :=
  if reason =s sentinel_text kind then Sentinel kind else Wrap (reason +:+ ": ") kind "".

Fixpoint first_reason {A} (msg : string) (table : list (string * A)) : option A :=
  match table with
  | [] => None
  | (m, r) :: rest => if contains m msg then Some r else first_reason msg rest
  end.

Definition classifyPrecompileRevert (err : option error) : option (string * sentinel) :=
  match err with
  | None => None
  | Some e =>
      let msg := to_lower (error_text e) in
      if contains collectionsNotFound msg then
        if contains "registry" msg
        then Some (sentinel_text ErrRegistryNotFound, ErrRegistryNotFound)
        else Some (sentinel_text ErrRecordNotFound, ErrRecordNotFound)
      else first_reason msg safePrecompileReverts
  end.

(** if reason, ok, kind := classifyPrecompileRevert(err); ok { return
    curatePrecompileErr(reason, kind) } else return the error wrapped. *)
Definition precompile_error (pre : string) (e : error) : error :=
  match classifyPrecompileRevert (Some e) with
  | Some (reason, kind) => curatePrecompileErr reason kind
  | None => Wrap pre e ""
  end.

(** ** Small helpers of prepare.go *)

Definition maxRegistryNameLen : Z := 128.
Definition gasEstimateBufferPercent : Z := 20.
Definition defaultPriorityFeeWei : Z := 1000000000.

Definition registryRoles : list string := ["admin"; "editor"].

Definition validateRole (role : string) : option error :=
  if role =s "" then Some (Wrap "role is required: " ErrMissingRequired "")
  else if negb (existsb (String.eqb role) registryRoles)
  then Some (Wrap ("role " +:+ quoted role +:+ ": ") ErrInvalidRole "")
  else None.

Definition normalizeChecksum (checksum : string) : string :=
  match checksum with
  | String z (String x rest) =>
      if Ascii.eqb z "0" && (Ascii.eqb x "x" || Ascii.eqb x "X") then rest else checksum
  | _ => checksum
  end.

(** uint64 arithmetic: both operations wrap. *)
Definition applyGasBuffer (estimate : Z) : Z :=
  let buffer := u64 (estimate * gasEstimateBufferPercent) / 100 in
  u64 (estimate + buffer).

(** big.Int.Text(16) *)
Fixpoint hex_digits (fuel : nat) (n : Z) : string :=
  match fuel with
  | O => ""
  | S fuel => if n <? 16 then String (hexd n) "" else hex_digits fuel (n / 16) +:+ String (hexd (n mod 16)) ""
  end.
Definition text16 (n : Z) : string :=
  let m := Z.abs n in
  (if n <? 0 then "-" else "") +:+ hex_digits (S (Z.to_nat (Z.log2 m))) m.

Definition quantity (n : Z) : string := "0x" +:+ text16 n.

Definition toRegistries (rows : list abiRegistryRow) : list Registry :=
  (λ r, mkRegistry (wr_ID r) (wr_Name r) (wr_Description r) (wr_Creator r) (creatorEVM (wr_Creator r))
          (normalizeChainTime (wr_CreatedAt r)) (wr_Metadata r)) <$> rows.

Definition toRecords (rows : list abiRecordRow) : list Rec :=
  (λ r, mkRec (wc_RegistryID r) (wc_RecordID r) (wc_Index r) (wc_Checksum r) (wc_ChecksumAlgo r) (wc_URI r)
          (wc_Status r) (wc_IsLatest r) (normalizeChainTime (wc_Timestamp r)) (wc_Metadata r)) <$> rows.

(** The request's pagination over the defaults of a listing. *)
Definition default_page : abiPaginationInput := mkPageIn "" 0 100 true false.

Definition records_page (p : option PageRequest) : abiPaginationInput :=
  match p with
  | None => default_page
  | Some p => mkPageIn "" (if 0 <? pr_Offset p then pr_Offset p else 0)
                (if 0 <? pr_Limit p then pr_Limit p else 100) true false
  end.

Definition registries_page (p : option PageRequest) : abiPaginationInput :=
  match p with
  | None => default_page
  | Some p => mkPageIn (if 0 <? slen (pr_Key p) then pr_Key p else "")
                (if 0 <? pr_Offset p then pr_Offset p else 0)
                (if 0 <? pr_Limit p then pr_Limit p else 100) true (pr_Reverse p)
  end.

(** Sequencing of calls that can fail or panic. *)
Definition abind {A B} (m : answer A) (f : A → answer B) : answer B :=
  match m with
  | None => None
  | Some (Err e) => Some (Err e)
  | Some (Ok a) => f a
  end.
Definition amap_err {A} (f : error → error) (m : answer A) : answer A := rmap_err f <$> m.

Notation "'let!' x := m 'in' k" := (abind m (λ x, k))
  (at level 10, x pattern, m at level 100, k at level 200) : go_scope.
(** [refuse! b with e in k] is the early return [if b { return nil, e }]. *)
Notation "'refuse!' b 'with' e 'in' k" := (if b then Some (Err e) else k)
  (at level 10, b at level 100, e at level 100, k at level 200) : go_scope.
Notation "'check!' m 'in' k" := (match m with Some e => Some (Err e) | None => k end)
  (at level 10, m at level 100, k at level 200) : go_scope.

(** ** The client (client.go, prepare.go) *)

Section Client.
Context `{EthLib} `{AnchorLib}.

(** The client's fields; [ac_parsedABI] is the Methods map of the loaded ABI. *)
Record anchor_client := mkClient {
  ac_address : address;
  ac_chainID : Z;
  ac_parsedABI : option (gmap string abi_method)
}.

Variable c : anchor_client.
Variable nd : evm_node.

Definition Info : PrecompileInfo :=
  mkInfo (AddressHex (ac_address c)) (ac_chainID c) (bool_decide (is_Some (ac_parsedABI c)))
    (match ac_parsedABI c with Some m => Z.of_nat (size m) | None => 0 end).

Definition Available : bool := bool_decide (is_Some (ac_parsedABI c)).

Definition MethodSelector (name : string) : option string :=
  methods ← ac_parsedABI c; m ← methods !! name; Some ("0x" +:+ hex_encode (FourBytes m)).

Definition requireABI : option error :=
  match ac_parsedABI c with
  | None => Some (Wrap ("set ANCHOR_ABI_PATH to a valid ABI JSON file (precompile address: " +:+
                        AddressHex (ac_address c) +:+ "): ") ErrAnchorABIMissing "")
  | Some _ => None
  end.

(** c.parsedABI.Methods[name] with the comma-ok form. *)
Definition find_method (name : string) : option abi_method := methods ← ac_parsedABI c; methods !! name.

(** c.parsedABI.Methods[name].EncodeArgs(args...): a method the ABI does not
    have is a nil pointer. *)
Definition pack (name : string) (args : list abi_arg) : answer string :=
  match find_method name with
  | None => None
  | Some m => Some (rmap_err (λ e, Wrap ("pack " +:+ name +:+ ": ") e "") (EncodeArgs m args))
  end.

Definition callPrecompile (method : string) (args : list abi_arg) : result error string :=
  match find_method method with
  | None => Err (Wrap ("method " +:+ quoted method +:+ ": ") ErrAnchorABIMethodMissing "")
  | Some m =>
      let? input := rmap_err (λ e, Wrap ("failed to pack " +:+ method +:+ " call: ") e "") (EncodeArgs m args) in
      rmap_err (precompile_error (method +:+ " call failed: "))
        (nd_CallContract nd (mkCall None (ac_address c) input))
  end.

Definition guardABIDecode {A} (fn : answer A) : result error A :=
  match fn with
  | None => Err (Wrap "decode precompile response panicked: " ErrNodeResponseDecode "")
  | Some r => r
  end.

Definition decode_registries (output : string) : result error (list abiRegistryRow * abiPaginationOutput) :=
  rmap_err (λ e, Wrap "unpack registries response: " e "")
    (guardABIDecode (match find_method "registries" with Some m => DecodeRegistries m output | None => None end)).

(** The shared text match on a registry the chain does not hold. *)
Definition registry_lookup_error (e : error) : error :=
  if contains "not found" (error_text e) then Wrap "registry lookup failed: " ErrRegistryNotFound "" else e.

Definition GetRegistry (id : Z) : result error Registry :=
  match requireABI with
  | Some e => Err e
  | None =>
      if id =? 0 then Err (Wrap "registry id must be > 0: " ErrInvalidRegistryID "")
      else
        let? output := rmap_err registry_lookup_error
          (callPrecompile "registries" [AbiUint64 id; pagination_arg (mkPageIn "" 0 1 false false)]) in
        let? rows_page := decode_registries output in
        match toRegistries rows_page.1 with
        | [] => Err (Wrap "registry lookup returned no results: " ErrRegistryNotFound "")
        | r :: _ => Ok r
        end
  end.

Definition GetRegistries (req : GetRegistriesRequest) : result error GetRegistriesResponse :=
  match requireABI with
  | Some e => Err e
  | None =>
      let? output := rmap_err registry_lookup_error
        (callPrecompile "registries"
           [AbiUint64 (default 0 (gr_RegistryID req)); pagination_arg (registries_page (gr_Pagination req))]) in
      let? rows_page := decode_registries output in
      Ok (mkRegistriesResponse (toRegistries rows_page.1)
            (Some (mkPageResponse (po_Total rows_page.2) (EncodeCursor (po_NextKey rows_page.2)))))
  end.

Definition GetRecords (req : GetRecordsRequest) : result error GetRecordsResponse :=
  match requireABI with
  | Some e => Err e
  | None =>
      let? output := callPrecompile "records"
        [AbiUint64 (default 0 (gc_RegistryID req));
         AbiString (match gc_Checksum req with Some s => normalizeChecksum s | None => "" end);
         AbiUint64 (default 0 (gc_RecordID req)); AbiUint64 (default 0 (gc_Index req));
         pagination_arg (records_page (gc_Pagination req))] in
      let? rows_page := rmap_err (λ e, Wrap "unpack records response: " e "")
        (guardABIDecode (match find_method "records" with Some m => DecodeRecords m output | None => None end)) in
      Ok (mkRecordsResponse (toRecords rows_page.1) (Some (mkPageResponse (po_Total rows_page.2) "")))
  end.

(** *** Version indexes *)

(** The loop over the rows: the latest row's index, or the highest seen. *)
Fixpoint scan_versions (recordID highest : Z) (rows : list Rec) : Z :=
  match rows with
  | [] => highest
  | row :: rest =>
      if negb (rd_RecordID row =? recordID) || (rd_Index row =? 0) then scan_versions recordID highest rest
      else if rd_IsLatest row then rd_Index row
      else scan_versions recordID (if highest <? rd_Index row then rd_Index row else highest) rest
  end.

Definition record_name (registryID recordID : Z) : string :=
  "registry " +:+ pretty registryID +:+ " record " +:+ pretty recordID.

Definition latestRecordIndex (registryID recordID : Z) : result error Z :=
  match GetRecords (mkGetRecords (Some registryID) (Some recordID) None None None) with
  | Err e =>
      if contains "not found" (error_text e)
      then Err (Wrap (record_name registryID recordID +:+ ": ") ErrRecordNotFound "")
      else Err (Wrap "resolve latest version index: " e "")
  | Ok resp =>
      let highest := scan_versions recordID 0 (gd_Records resp) in
      if highest =? 0
      then Err (Wrap (record_name registryID recordID +:+ " has no versions to update: ") ErrRecordNotFound "")
      else Ok highest
  end.

(** *** Building the transaction *)

Definition buildLegacyUnsignedTx (nonce gasLimit gasPrice : Z) (dataHex toHex fromChecksummed : string)
    : result error UnsignedTransaction :=
  match hex_decode (trim_prefix "0x" dataHex) with
  | None => Err (Wrap "decode calldata hex: " (Opaque "encoding/hex: invalid byte or odd length") "")
  | Some calldata =>
      let? txBytes := rmap_err (λ e, Wrap "serialize unsigned transaction: " e "")
        (tx_Raw (mkTxFields 0 None (ac_address c) 0 gasLimit (Some gasPrice) None None calldata nonce)) in
      Ok (mkUnsigned ("0x" +:+ hex_encode txBytes) 0 toHex dataHex nonce gasLimit (pretty gasPrice) "" "" "0"
            (ac_chainID c)
            (mkWallet fromChecksummed toHex dataHex "0x0" (quantity (ac_chainID c)) (quantity gasLimit)
               (quantity nonce) (quantity gasPrice) "" ""))
  end.

(** The tip and the fee cap of a type-2 transaction. *)
Definition tip_cap : Z :=
  match nd_SuggestGasTipCap nd with
  | Ok (Some tip) => if tip <=? 0 then defaultPriorityFeeWei else tip
  | Ok None | Err _ => defaultPriorityFeeWei
  end.
Definition max_fee (gasPrice tipCap : Z) : Z :=
  let maxFee := gasPrice * 2 in if maxFee <? tipCap then tipCap else maxFee.

Definition buildDynamicFeeUnsignedTx (nonce gasLimit gasPrice : Z) (calldata dataHex toHex fromChecksummed : string)
    : result error UnsignedTransaction :=
  let tipCap := tip_cap in
  let maxFee := max_fee gasPrice tipCap in
  if ac_chainID c <? 0 then Err (Wrap ("chain ID " +:+ pretty (ac_chainID c) +:+ ": ") ErrInvalidChainID "")
  else
    let? txBytes := rmap_err (λ e, Wrap "serialize unsigned transaction: " e "")
      (tx_Raw (mkTxFields 2 (Some (ac_chainID c)) (ac_address c) 0 gasLimit None (Some tipCap) (Some maxFee)
                 calldata nonce)) in
    Ok (mkUnsigned ("0x" +:+ hex_encode txBytes) 2 toHex dataHex nonce gasLimit (pretty maxFee) (pretty maxFee)
          (pretty tipCap) "0" (ac_chainID c)
          (mkWallet fromChecksummed toHex dataHex "0x0" (quantity (ac_chainID c)) (quantity gasLimit)
             (quantity nonce) "" (quantity maxFee) (quantity tipCap))).

Definition buildUnsignedTx (fromHex calldata : string) (preferLegacy : bool) : result error UnsignedTransaction :=
  let? from := rmap_err (λ e, Wrap "from " e "") (ParseAddress fromHex) in
  let? nonce := rmap_err (λ e, Wrap "get pending nonce: " e "") (nd_PendingNonceAt nd from) in
  let? gasPrice := rmap_err (λ e, Wrap "get gas price: " e "") (nd_SuggestGasPrice nd) in
  let? gasEstimate := rmap_err (precompile_error "estimate gas: ")
    (nd_EstimateGas nd (mkCall (Some from) (ac_address c) calldata)) in
  let gasLimit := applyGasBuffer gasEstimate in
  let dataHex := "0x" +:+ hex_encode calldata in
  let toHex := AddressHex (ac_address c) in
  let fromChecksummed := AddressHex from in
  if preferLegacy then buildLegacyUnsignedTx nonce gasLimit gasPrice dataHex toHex fromChecksummed
  else buildDynamicFeeUnsignedTx nonce gasLimit gasPrice calldata dataHex toHex fromChecksummed.

Definition pack_and_build (name : string) (args : list abi_arg) (from : string) (legacy : bool)
    : answer UnsignedTransaction :=
  let! calldata := pack name args in
  Some (buildUnsignedTx from calldata legacy).

(** *** The five write preparations *)

Definition PrepareAddRegistry (req : PrepareAddRegistryRequest) : answer UnsignedTransaction :=
  check! requireABI in
  refuse! ag_From req =s "" with Wrap "from address is required: " ErrMissingRequired "" in
  refuse! ag_Name req =s "" with Wrap "name is required: " ErrMissingRequired "" in
  refuse! maxRegistryNameLen <? slen (ag_Name req) with
    Wrap ("name is " +:+ pretty (slen (ag_Name req)) +:+ " characters, the anchoring precompile allows at most " +:+
          pretty maxRegistryNameLen +:+ ": ") ErrInputTooLarge "" in
  pack_and_build "addRegistry"
    [AbiString (ag_Name req); AbiString (ag_Description req); AbiString (ag_Metadata req)]
    (ag_From req) (ag_PreferLegacy req).

Definition recordTuple (req : PrepareAddRecordRequest) (checksum : string) : abi_arg :=
  AbiTuple [("uri", AbiString (ar_URI req)); ("checksum", AbiString checksum);
            ("checksumAlgo", AbiString (ar_ChecksumAlgo req)); ("metadata", AbiString (ar_Metadata req));
            ("timestamp", AbiString "");
            ("status", AbiString (if ar_Status req =s "" then "Active" else ar_Status req));
            ("recordId", AbiUint64 0); ("index", AbiUint64 0); ("isLatest", AbiBool false);
            ("registryId", AbiUint64 (ar_RegistryID req))].

Definition PrepareAddRecord (req : PrepareAddRecordRequest) : answer UnsignedTransaction :=
  check! requireABI in
  refuse! ar_From req =s "" with Wrap "from address is required: " ErrMissingRequired "" in
  refuse! ar_RegistryID req =? 0 with Wrap "registry_id must be > 0: " ErrInvalidRegistryID "" in
  let checksum := normalizeChecksum (ar_Checksum req) in
  refuse! checksum =s "" with Wrap "checksum is required: " ErrMissingRequired "" in
  refuse! ar_ChecksumAlgo req =s "" with Wrap "checksum_algo is required: " ErrMissingRequired "" in
  refuse! ar_Metadata req =s "" with Wrap "metadata is required: " ErrMissingRequired "" in
  refuse! trim_space (ar_Metadata req) =s "{}" with Sentinel ErrEmptyMetadataObject in
  pack_and_build "addRecord" [recordTuple req checksum] (ar_From req) (ar_PreferLegacy req).

Definition PrepareUpdateRecordStatus (req : PrepareUpdateRecordStatusRequest) : answer UnsignedTransaction :=
  check! requireABI in
  refuse! us_From req =s "" with Wrap "from address is required: " ErrMissingRequired "" in
  refuse! us_RegistryID req =? 0 with Wrap "registry_id must be > 0: " ErrInvalidRegistryID "" in
  refuse! us_RecordID req =? 0 with Wrap "record_id must be > 0: " ErrInvalidRecordID "" in
  refuse! us_Status req =s "" with Wrap "status is required: " ErrMissingRequired "" in
  let index := default 0 (us_Index req) in
  let! index := Some (if index =? 0 then latestRecordIndex (us_RegistryID req) (us_RecordID req) else Ok index) in
  pack_and_build "updateRecordStatus"
    [AbiUint64 (us_RegistryID req); AbiUint64 (us_RecordID req); AbiUint64 index; AbiString (us_Status req)]
    (us_From req) (us_PreferLegacy req).

(** PrepareGrantRole and PrepareRevokeRole are one text but for the method. *)
Definition prepare_role (method : string) (req : PrepareRoleRequest) : answer UnsignedTransaction :=
  check! requireABI in
  refuse! ro_From req =s "" with Wrap "from address is required: " ErrMissingRequired "" in
  refuse! ro_Account req =s "" with Wrap "account address is required: " ErrMissingRequired "" in
  check! validateRole (ro_Role req) in
  let! account := Some (rmap_err (λ e, Wrap "account " e "") (ParseAddress (ro_Account req))) in
  pack_and_build method
    [AbiUint64 (ro_RegistryID req); AbiString (normalizeChecksum (ro_Checksum req)); AbiAddress account;
     AbiString (ro_Role req)]
    (ro_From req) (ro_PreferLegacy req).

Definition PrepareGrantRole : PrepareRoleRequest → answer UnsignedTransaction := prepare_role "grantRole".
Definition PrepareRevokeRole : PrepareRoleRequest → answer UnsignedTransaction := prepare_role "revokeRole".
End Client.

(** ** Theorems *)

(** The five preparations as one operation. *)
Inductive prepare_req :=
| PAddRegistry (r : PrepareAddRegistryRequest)
| PAddRecord (r : PrepareAddRecordRequest)
| PUpdateRecordStatus (r : PrepareUpdateRecordStatusRequest)
| PGrantRole (r : PrepareRoleRequest)
| PRevokeRole (r : PrepareRoleRequest).

Definition prepare_from (r : prepare_req) : string :=
  match r with
  | PAddRegistry r => ag_From r | PAddRecord r => ar_From r | PUpdateRecordStatus r => us_From r
  | PGrantRole r | PRevokeRole r => ro_From r
  end.
Definition prepare_legacy (r : prepare_req) : bool :=
  match r with
  | PAddRegistry r => ag_PreferLegacy r | PAddRecord r => ar_PreferLegacy r
  | PUpdateRecordStatus r => us_PreferLegacy r | PGrantRole r | PRevokeRole r => ro_PreferLegacy r
  end.
Definition prepare_method (r : prepare_req) : string :=
  match r with
  | PAddRegistry _ => "addRegistry" | PAddRecord _ => "addRecord"
  | PUpdateRecordStatus _ => "updateRecordStatus" | PGrantRole _ => "grantRole" | PRevokeRole _ => "revokeRole"
  end.

(** The requests the precompile can accept: what a client must get right. *)
Definition role_valid (r : PrepareRoleRequest) : Prop :=
  ro_From r ≠ "" ∧ ro_Account r ≠ "" ∧ (ro_Role r = "admin" ∨ ro_Role r = "editor").
Definition prepare_valid (r : prepare_req) : Prop :=
  match r with
  | PAddRegistry r => ag_From r ≠ "" ∧ ag_Name r ≠ "" ∧ slen (ag_Name r) ≤ 128
  | PAddRecord r =>
      ar_From r ≠ "" ∧ ar_RegistryID r ≠ 0 ∧ normalizeChecksum (ar_Checksum r) ≠ "" ∧
      ar_ChecksumAlgo r ≠ "" ∧ ar_Metadata r ≠ "" ∧ trim_space (ar_Metadata r) ≠ "{}"
  | PUpdateRecordStatus r => us_From r ≠ "" ∧ us_RegistryID r ≠ 0 ∧ us_RecordID r ≠ 0 ∧ us_Status r ≠ ""
  | PGrantRole r | PRevokeRole r => role_valid r
  end.

Section Facts.
Context {EL : EthLib} {AL : AnchorLib}.
Implicit Types (c : anchor_client) (nd : evm_node).

Definition prepare c nd (r : prepare_req) : answer UnsignedTransaction :=
  match r with
  | PAddRegistry r => PrepareAddRegistry c nd r
  | PAddRecord r => PrepareAddRecord c nd r
  | PUpdateRecordStatus r => PrepareUpdateRecordStatus c nd r
  | PGrantRole r => PrepareGrantRole c nd r
  | PRevokeRole r => PrepareRevokeRole c nd r
  end.

Lemma requireABI_ok c : requireABI c = None ↔ is_Some (ac_parsedABI c).
Proof. unfold requireABI. destruct (ac_parsedABI c); naive_solver. Qed.

(** *** Input validation *)

Ltac refusals :=
  repeat lazymatch goal with
  | |- context [if ?b then Some (Err _) else _] => let E := fresh "E" in destruct b eqn:E; bool_to_prop
  end.

Ltac refused := eexists; split; [|intros ?; reflexivity]; reflexivity.

Lemma validateRole_spec role :
  match validateRole role with
  | None => role = "admin" ∨ role = "editor"
  | Some e => IsInputError e = true ∧ ¬ (role = "admin" ∨ role = "editor")
  end.
Proof.
  unfold validateRole. destruct (role =s "") eqn:E1; bool_to_prop; [subst; by split; [|intros [|]]|].
  destruct (negb _) eqn:E2; bool_to_prop.
  - split; [done|]. apply existsb_eqb_false in E2. unfold registryRoles in E2. set_solver.
  - apply existsb_eqb_true in E2. unfold registryRoles in E2. set_solver.
Qed.

(** What a valid request goes on to encode; the version index is resolved, and
    the account parsed, on the way. *)
Definition prepare_args c nd (r : prepare_req) : result error (list abi_arg) :=
  match r with
  | PAddRegistry r => Ok [AbiString (ag_Name r); AbiString (ag_Description r); AbiString (ag_Metadata r)]
  | PAddRecord r => Ok [recordTuple r (normalizeChecksum (ar_Checksum r))]
  | PUpdateRecordStatus r =>
      let? index := (if default 0 (us_Index r) =? 0 then latestRecordIndex c nd (us_RegistryID r) (us_RecordID r)
                     else Ok (default 0 (us_Index r))) in
      Ok [AbiUint64 (us_RegistryID r); AbiUint64 (us_RecordID r); AbiUint64 index; AbiString (us_Status r)]
  | PGrantRole r | PRevokeRole r =>
      let? account := rmap_err (λ e, Wrap "account " e "") (ParseAddress (ro_Account r)) in
      Ok [AbiUint64 (ro_RegistryID r); AbiString (normalizeChecksum (ro_Checksum r)); AbiAddress account;
          AbiString (ro_Role r)]
  end.

Lemma prepare_role_cases c nd method r :
  requireABI c = None →
  (role_valid r ∧ prepare_role c nd method r =
     let! args := Some (let? account := rmap_err (λ e, Wrap "account " e "") (ParseAddress (ro_Account r)) in
      Ok [AbiUint64 (ro_RegistryID r); AbiString (normalizeChecksum (ro_Checksum r)); AbiAddress account;
          AbiString (ro_Role r)]) in
     pack_and_build c nd method args (ro_From r) (ro_PreferLegacy r)) ∨
  (¬ role_valid r ∧ ∃ e, IsInputError e = true ∧ ∀ nd', prepare_role c nd' method r = Some (Err e)).
Proof.
  intros Habi. unfold prepare_role, role_valid. rewrite Habi.
  destruct (ro_From r =s "") eqn:E1; bool_to_prop; [right; split; [naive_solver|refused]|].
  destruct (ro_Account r =s "") eqn:E2; bool_to_prop; [right; split; [naive_solver|refused]|].
  pose proof (validateRole_spec (ro_Role r)) as Hr. destruct (validateRole _) as [e|].
  - right. destruct Hr. split; [naive_solver|]. by exists e.
  - left. split; [done|]. destruct (rmap_err _ _); done.
Qed.

(** With an ABI loaded, a request is either invalid, and refused with an error
    the caller may see, or valid, and encoded. *)
Lemma prepare_cases c nd r :
  requireABI c = None →
  (prepare_valid r ∧ prepare c nd r =
     let! args := Some (prepare_args c nd r) in
     pack_and_build c nd (prepare_method r) args (prepare_from r) (prepare_legacy r)) ∨
  (¬ prepare_valid r ∧ ∃ e, IsInputError e = true ∧ ∀ nd', prepare c nd' r = Some (Err e)).
Proof.
  intros Habi. destruct r as [r|r|r|r|r]; cbn [prepare prepare_valid prepare_args prepare_method prepare_from prepare_legacy];
    [| | |by apply prepare_role_cases|by apply prepare_role_cases].
  - unfold PrepareAddRegistry. rewrite Habi. unfold maxRegistryNameLen.
    refusals; try (right; split; [intros ?; destruct_and!; first [done|lia]|refused]).
    left. split; [by split_and!|done].
  - unfold PrepareAddRecord. rewrite Habi. cbv zeta.
    refusals; try (right; split; [intros ?; destruct_and!; done|refused]). left. split; [by split_and!|done].
  - unfold PrepareUpdateRecordStatus. rewrite Habi. cbv zeta.
    refusals; try (right; split; [intros ?; destruct_and!; done|refused]);
    (left; split; [by split_and!|]).
    destruct (default 0 (us_Index r) =? 0); [|done]. by destruct (latestRecordIndex _ _ _ _).
Qed.

(** *** One transaction, three renderings *)

Definition opt_quantity (n : option Z) : string := match n with Some n => quantity n | None => "" end.

(** [t] renders the transaction [f] of [sender] for each signing path: the raw
    bytes, the decimal fields, and the wallet's hexadecimal ones. *)
Record renders c (sender : address) (f : tx_fields) (t : UnsignedTransaction) : Prop := {
  rn_raw : ∃ b, tx_Raw f = Ok b ∧ ut_RawTx t = "0x" +:+ hex_encode b;
  rn_type : ut_Type t = tf_Type f;
  rn_to : ut_To t = AddressHex (tf_To f);
  rn_data : ut_Data t = "0x" +:+ hex_encode (tf_Input f);
  rn_nonce : ut_Nonce t = tf_Nonce f;
  rn_gas : ut_Gas t = tf_GasLimit f;
  rn_value : ut_Value t = pretty (tf_Value f);
  rn_chain : ut_ChainID t = ac_chainID c;
  rn_price : Some (ut_GasPrice t) =
    pretty <$> match tf_GasPrice f with Some p => Some p | None => tf_MaxFeePerGas f end;
  rn_wallet : ut_WalletTxRequest t =
    mkWallet (AddressHex sender) (AddressHex (tf_To f)) ("0x" +:+ hex_encode (tf_Input f))
      (quantity (tf_Value f)) (quantity (ac_chainID c)) (quantity (tf_GasLimit f)) (quantity (tf_Nonce f))
      (opt_quantity (tf_GasPrice f)) (opt_quantity (tf_MaxFeePerGas f)) (opt_quantity (tf_MaxPriorityFeePerGas f))
}.

(** The fees of a prepared transaction. *)
Definition fees_ok c (gasPrice : Z) (legacy : bool) (f : tx_fields) : Prop :=
  if legacy then tf_Type f = 0 ∧ tf_GasPrice f = Some gasPrice ∧ tf_MaxFeePerGas f = None ∧ tf_ChainID f = None
  else tf_Type f = 2 ∧ tf_GasPrice f = None ∧ tf_ChainID f = Some (ac_chainID c) ∧ 0 ≤ ac_chainID c ∧
    ∃ tip cap, tf_MaxPriorityFeePerGas f = Some tip ∧ tf_MaxFeePerGas f = Some cap ∧
      0 < tip ≤ cap ∧ 2 * gasPrice ≤ cap.

Lemma fee_bounds nd gasPrice :
  0 < tip_cap nd ≤ max_fee gasPrice (tip_cap nd) ∧ 2 * gasPrice ≤ max_fee gasPrice (tip_cap nd).
Proof.
  assert (0 < tip_cap nd) as Ht.
  { unfold tip_cap. destruct (nd_SuggestGasTipCap nd) as [[tip|]|]; try reflexivity.
    destruct (tip <=? 0) eqn:E; bool_to_prop; [reflexivity|lia]. }
  unfold max_fee. destruct (_ <? _) eqn:E; bool_to_prop; lia.
Qed.

Lemma buildUnsignedTx_ok c nd from calldata legacy t :
  buildUnsignedTx c nd from calldata legacy = Ok t →
  ∃ sender f estimate gasPrice,
    ParseAddress from = Ok sender ∧ nd_PendingNonceAt nd sender = Ok (tf_Nonce f) ∧
    nd_SuggestGasPrice nd = Ok gasPrice ∧
    nd_EstimateGas nd (mkCall (Some sender) (ac_address c) calldata) = Ok estimate ∧
    tf_GasLimit f = applyGasBuffer estimate ∧ tf_To f = ac_address c ∧ tf_Value f = 0 ∧
    tf_Input f = calldata ∧ fees_ok c gasPrice legacy f ∧ renders c sender f t.
Proof.
  unfold buildUnsignedTx. destruct (ParseAddress from) as [sender|]; [|done]. cbn [rbind rmap_err].
  destruct (nd_PendingNonceAt nd sender) as [nonce|] eqn:En; [|done]. cbn [rbind rmap_err].
  destruct (nd_SuggestGasPrice nd) as [gasPrice|] eqn:Ep; [|done]. cbn [rbind rmap_err].
  destruct (nd_EstimateGas nd _) as [estimate|] eqn:Ee; [|done]. cbn [rbind rmap_err]. cbv zeta.
  destruct legacy.
  - unfold buildLegacyUnsignedTx. rewrite trim_prefix_app, hex_decode_encode.
    destruct (tx_Raw _) as [b|] eqn:Eb; [|done]. intros [= <-].
    exists sender, (mkTxFields 0 None (ac_address c) 0 (applyGasBuffer estimate) (Some gasPrice) None None calldata nonce),
      estimate, gasPrice. split_and!; try done. split; try done. by exists b.
  - unfold buildDynamicFeeUnsignedTx. cbv zeta. destruct (ac_chainID c <? 0) eqn:Ec; [done|]. bool_to_prop.
    destruct (tx_Raw _) as [b|] eqn:Eb; [|done]. intros [= <-]. destruct (fee_bounds nd gasPrice).
    exists sender, (mkTxFields 2 (Some (ac_chainID c)) (ac_address c) 0 (applyGasBuffer estimate) None
      (Some (tip_cap nd)) (Some (max_fee gasPrice (tip_cap nd))) calldata nonce), estimate, gasPrice.
    split_and!; try done.
    2:{ split; try done. by exists b. }
    split_and!; try done. by eexists _, _.
Qed.

Lemma prepare_built c nd r t : prepare c nd r = Some (Ok t) →
  prepare_valid r ∧ ∃ m args calldata,
    find_method c (prepare_method r) = Some m ∧ prepare_args c nd r = Ok args ∧ EncodeArgs m args = Ok calldata ∧
    buildUnsignedTx c nd (prepare_from r) calldata (prepare_legacy r) = Ok t.
Proof.
  intros Hp. assert (requireABI c = None) as Habi.
  { destruct (requireABI c) eqn:E; [|done]. exfalso.
    destruct r; cbn [prepare] in Hp;
      unfold PrepareAddRegistry, PrepareAddRecord, PrepareUpdateRecordStatus, PrepareGrantRole, PrepareRevokeRole,
        prepare_role in Hp; by rewrite E in Hp. }
  destruct (prepare_cases c nd r Habi) as [[Hv E]|(_ & e & _ & E)]; rewrite E in Hp; [|done].
  split; [done|]. unfold abind, pack_and_build, pack in Hp.
  destruct (prepare_args c nd r) as [args|] eqn:Ea; [|done].
  destruct (find_method c _) as [m|] eqn:Em; [|done]. cbn [abind] in Hp.
  destruct (EncodeArgs m args) as [calldata|] eqn:Ec; [|done]. cbn [rmap_err] in Hp. injection Hp as Hp.
  by exists m, args, calldata.
Qed.

(** C11: Prepared transactions. Whatever a preparation returns, for any of the five
    writes, is one transaction rendered consistently for every signing path: the
    raw bytes, the decimal fields and the wallet request describe the same
    zero-value call of the precompile, carrying the ABI encoding of exactly the
    valid request, with the sender's pending nonce, the node's estimate for that
    very call plus the buffer as its gas, and fees of the chosen type that cover
    twice the suggested price and a positive tip. *)
Theorem prepare_renders_request c nd r t (Hp : prepare c nd r = Some (Ok t)) :
  prepare_valid r ∧
  ∃ m args sender f estimate gasPrice,
    find_method c (prepare_method r) = Some m ∧ prepare_args c nd r = Ok args ∧
    EncodeArgs m args = Ok (tf_Input f) ∧
    ParseAddress (prepare_from r) = Ok sender ∧ nd_PendingNonceAt nd sender = Ok (tf_Nonce f) ∧
    nd_SuggestGasPrice nd = Ok gasPrice ∧
    nd_EstimateGas nd (mkCall (Some sender) (ac_address c) (tf_Input f)) = Ok estimate ∧
    tf_GasLimit f = applyGasBuffer estimate ∧ tf_To f = ac_address c ∧ tf_Value f = 0 ∧
    fees_ok c gasPrice (prepare_legacy r) f ∧ renders c sender f t.
Proof.
  destruct (prepare_built c nd r t Hp) as (Hv & m & args & calldata & H1 & H2 & H3 & Hb). split; [done|].
  apply buildUnsignedTx_ok in Hb as (sender & f & estimate & gasPrice & ? & ? & ? & ? & ? & ? & ? & <- & ? & ?).
  by exists m, args, sender, f, estimate, gasPrice.
Qed.

(** Request validation. With an ABI loaded, a preparation refuses every
    request the precompile would reject for its form, with an error of the input
    class and without consulting the node; every other request is encoded. With
    no ABI it refuses everything, saying so. It panics only when the ABI lacks
    the method. *)
Theorem prepare_validates c nd r :
  (requireABI c = None → ¬ prepare_valid r →
     ∃ e, IsInputError e = true ∧ ∀ nd', prepare c nd' r = Some (Err e)) ∧
  (requireABI c = None → prepare_valid r → ∀ args, prepare_args c nd r = Ok args →
     prepare c nd r = pack_and_build c nd (prepare_method r) args (prepare_from r) (prepare_legacy r)) ∧
  (∀ e, requireABI c = Some e →
     prepare c nd r = Some (Err e) ∧ SafeForClient (Some e) = Some e ∧ errors_Is e ErrAnchorABIMissing = true) ∧
  (prepare c nd r = None → find_method c (prepare_method r) = None).
Proof.
  split_and!.
  - intros Habi Hnv. destruct (prepare_cases c nd r Habi) as [[Hv _]|(_ & H')]; [done|exact H'].
  - intros Habi Hv args Ha. destruct (prepare_cases c nd r Habi) as [[_ E]|(Hnv & _)]; [|done].
    by rewrite E, Ha.
  - intros e He. assert (prepare c nd r = Some (Err e)) as ->.
    { destruct r; cbn [prepare]; unfold PrepareAddRegistry, PrepareAddRecord, PrepareUpdateRecordStatus,
        PrepareGrantRole, PrepareRevokeRole, prepare_role; by rewrite He. }
    unfold requireABI in He. destruct (ac_parsedABI c); [done|]. injection He as <-. by vm_compute.
  - intros Hp. destruct (requireABI c) eqn:Habi.
    { unfold requireABI in Habi. unfold find_method. by destruct (ac_parsedABI c). }
    destruct (prepare_cases c nd r Habi) as [[_ E]|(_ & e & _ & E)]; rewrite E in Hp; [|done].
    unfold abind, pack_and_build, pack in Hp. destruct (prepare_args c nd r); [|done].
    destruct (find_method c _); [|done]. by destruct (EncodeArgs _ _).
Qed.

(** *** Version indexes *)

Definition version_of (recordID : Z) (row : Rec) : Prop := rd_RecordID row = recordID ∧ rd_Index row ≠ 0.

Lemma scan_versions_spec recordID rows highest :
  Forall (λ row, 0 ≤ rd_Index row) rows → 0 ≤ highest →
  let i := scan_versions recordID highest rows in
  (∃ row, row ∈ rows ∧ version_of recordID row ∧ rd_IsLatest row = true ∧ rd_Index row = i) ∨
  ((∀ row, row ∈ rows → version_of recordID row → rd_IsLatest row = false ∧ rd_Index row ≤ i) ∧ highest ≤ i ∧
   (i = highest ∨ ∃ row, row ∈ rows ∧ version_of recordID row ∧ rd_Index row = i)).
Proof.
  intros Hrows. revert highest. induction Hrows as [|row rows Hrow Hrows IH]; intros highest Hh; cbn [scan_versions].
  { right. split_and!; [intros row Hr; by apply not_elem_of_nil in Hr|done|by left]. }
  assert (∀ P : Rec → Prop, (∃ r, r ∈ rows ∧ P r) → ∃ r, r ∈ row :: rows ∧ P r) as Hmore
    by (intros P (r & ? & ?); exists r; split; [by right|done]).
  destruct (negb _ || _) eqn:E.
  - assert (¬ version_of recordID row) as Hnv.
    { unfold version_of. apply orb_true_iff in E as [E|E]; bool_to_prop; naive_solver. }
    destruct (IH highest Hh) as [?|(K1 & K2 & K3)]; [left; by apply Hmore|right].
    split_and!; [|done|destruct K3; [by left|right; by apply Hmore]].
    intros r [->|Hr]%elem_of_cons Hv; [done|by apply K1].
  - bool_to_prop. assert (version_of recordID row) as Hv by done.
    destruct (rd_IsLatest row) eqn:El; [left; exists row; split; [by left|done]|].
    set (h := if highest <? rd_Index row then rd_Index row else highest).
    assert (highest ≤ h ∧ rd_Index row ≤ h ∧ (h = highest ∨ h = rd_Index row)) as (G1 & G2 & G3)
      by (unfold h; destruct (_ <? _) eqn:?; bool_to_prop; lia).
    destruct (IH h ltac:(lia)) as [?|(K1 & K2 & K3)]; [left; by apply Hmore|right].
    split_and!; [|lia|].
    + intros r [->|Hr]%elem_of_cons Hv'; [split; [done|lia]|by apply K1].
    + destruct K3 as [->|?]; [|right; by apply Hmore].
      destruct G3 as [->| ->]; [by left|right]. exists row. split; [by left|done].
Qed.

(** What a caller learns about the version an update moves: a version the chain
    reports for the record, the latest one or else the highest. *)
Definition current_version (recordID : Z) (rows : list Rec) (i : Z) : Prop :=
  ∃ row, row ∈ rows ∧ version_of recordID row ∧ rd_Index row = i ∧
    (rd_IsLatest row = true ∨
     ∀ row', row' ∈ rows → version_of recordID row' → rd_IsLatest row' = false ∧ rd_Index row' ≤ i).

Lemma latestRecordIndex_spec c nd reg rid resp :
  GetRecords c nd (mkGetRecords (Some reg) (Some rid) None None None) = Ok resp →
  Forall (λ row, 0 ≤ rd_Index row) (gd_Records resp) →
  match latestRecordIndex c nd reg rid with
  | Ok i => current_version rid (gd_Records resp) i
  | Err e => errors_Is e ErrRecordNotFound = true ∧ ∀ row, row ∈ gd_Records resp → ¬ version_of rid row
  end.
Proof.
  intros Hr Hrows. unfold latestRecordIndex. rewrite Hr. cbv zeta.
  pose proof (scan_versions_spec rid _ 0 Hrows ltac:(lia)) as Hs. cbv zeta in Hs.
  destruct (_ =? 0) eqn:E; bool_to_prop.
  - rewrite E in Hs. split; [done|]. intros row Hrow Hv.
    destruct Hs as [(row' & ? & [? Hn] & _ & Hi)|(Hall & _)]; [done|].
    destruct (Hall row Hrow Hv) as [_ Hle]. rewrite Forall_forall in Hrows. specialize (Hrows row Hrow).
    destruct Hv. lia.
  - destruct Hs as [(row & ? & ? & ? & ?)|(Hall & _ & [Hz|(row & ? & ? & ?)])]; [by exists row; auto 6|lia|].
    exists row. auto 6.
Qed.

(** Version indexes. A prepared status update always names a version: the one
    the caller asked for, or, when the index is omitted or zero, one that the
    chain reports for this very record, which is the one flagged latest or else
    the highest. A record without versions is refused as not found; index 0,
    which the precompile rejects, is never encoded. *)
Theorem update_names_version c nd r resp
    (Hv : ∀ i, us_Index r = Some i → 0 ≤ i)
    (Hresp : GetRecords c nd (mkGetRecords (Some (us_RegistryID r)) (Some (us_RecordID r)) None None None) = Ok resp)
    (Hrows : Forall (λ row, 0 ≤ rd_Index row) (gd_Records resp)) :
  match prepare_args c nd (PUpdateRecordStatus r) with
  | Ok args =>
      ∃ i, args = [AbiUint64 (us_RegistryID r); AbiUint64 (us_RecordID r); AbiUint64 i; AbiString (us_Status r)] ∧
        0 < i ∧ (us_Index r = Some i ∨
                 (default 0 (us_Index r) = 0 ∧ current_version (us_RecordID r) (gd_Records resp) i))
  | Err e => errors_Is e ErrRecordNotFound = true ∧
      ∀ row, row ∈ gd_Records resp → ¬ version_of (us_RecordID r) row
  end.
Proof.
  cbn [prepare_args]. pose proof (latestRecordIndex_spec _ _ _ _ _ Hresp Hrows) as Hl.
  destruct (default 0 (us_Index r) =? 0) eqn:E; bool_to_prop.
  - destruct (latestRecordIndex _ _ _ _) as [i|e]; [|done]. exists i. split; [done|].
    split; [|by right]. destruct Hl as (row & Hin & [_ Hn] & Hi & _). rewrite Forall_forall in Hrows.
    specialize (Hrows row Hin). lia.
  - destruct (us_Index r) as [i|] eqn:Ei; [|done]. cbn in E |- *. exists i. split; [done|].
    split; [|by left]. specialize (Hv i eq_refl). lia.
Qed.

(** *** What a rejected call tells the client *)

(** The client-visible text of an error. *)
Definition visible (e : error) : option string := error_text <$> SafeForClient (Some e).

Definition curated_reasons : list (string * sentinel) :=
  (safePrecompileReverts.*2) ++
  [(sentinel_text ErrRegistryNotFound, ErrRegistryNotFound); (sentinel_text ErrRecordNotFound, ErrRecordNotFound)].

(** Every text a failed read or gas estimation can show. *)
Definition client_texts : list string :=
  (error_text ∘ (λ p, curatePrecompileErr p.1 p.2) <$> curated_reasons) ++
  (sentinel_text <$> [ErrSafeCircuitOpen; ErrSafeRateLimited; ErrSafeUpstreamFail]) ++
  ["registry lookup failed: registry not found"; "registry lookup returned no results: registry not found"].

Lemma classify_in e reason kind : classifyPrecompileRevert e = Some (reason, kind) → (reason, kind) ∈ curated_reasons.
Proof.
  destruct e as [e|]; [|done]. unfold classifyPrecompileRevert, curated_reasons. intros H.
  apply elem_of_app. destruct (contains collectionsNotFound _).
  - right. destruct (contains "registry" _); injection H as <- <-; [by left|right; by left].
  - left. revert H. generalize (to_lower (error_text e)). intros msg.
    induction safePrecompileReverts as [|[m r] rest IH]; [done|]. cbn [first_reason]. destruct (contains m msg).
    + intros [= ->]. by left.
    + intros H. right. auto.
Qed.

Lemma hidden_text e : disclosed e = false →
  visible e ∈ Some <$> (sentinel_text <$> [ErrSafeCircuitOpen; ErrSafeRateLimited; ErrSafeUpstreamFail]).
Proof.
  intros H. unfold visible. rewrite SafeForClient_hidden by done. cbn [fmap option_fmap option_map error_text].
  destruct (errors_Is e ErrCircuitOpen); [by left|]. destruct (errors_Is e ErrRateLimited); [right; by left|].
  right. right. by left.
Qed.

Lemma hidden_in e : disclosed e = false → visible e ∈ Some <$> client_texts.
Proof.
  intros H%hidden_text. unfold client_texts. rewrite !fmap_app, !elem_of_app. auto.
Qed.

(** A curated rejection is disclosed and is its own client text. *)
Lemma curated_text reason kind : (reason, kind) ∈ curated_reasons →
  visible (curatePrecompileErr reason kind) ∈ Some <$> client_texts ∧
  visible (curatePrecompileErr reason kind) = Some (error_text (curatePrecompileErr reason kind)).
Proof.
  intros H. assert (disclosed (curatePrecompileErr reason kind) = true) as Hd.
  { clear -H. repeat (apply elem_of_cons in H as [[= -> ->]|H]; [vm_compute; reflexivity|]). by apply not_elem_of_nil in H. }
  unfold visible. rewrite SafeForClient_disclosed by done. split; [|done].
  apply list_elem_of_fmap. eexists. split; [done|]. unfold client_texts. apply elem_of_app. left.
  apply list_elem_of_fmap. by exists (reason, kind).
Qed.

Lemma precompile_error_text pre e : disclosed e = false → visible (precompile_error pre e) ∈ Some <$> client_texts.
Proof.
  intros Hd. unfold precompile_error. destruct (classifyPrecompileRevert (Some e)) as [[reason kind]|] eqn:E.
  - by apply curated_text, (classify_in (Some e)).
  - apply hidden_in. change (Wrap pre e "") with (wrap_in [(pre, "")] e). by rewrite disclosed_wrap_in.
Qed.

(** The foreign code's own errors carry none of the server's disclosed
    sentinels. *)
Record foreign_errors nd : Prop := {
  fe_call : ∀ call e, nd_CallContract nd call = Err e → disclosed e = false;
  fe_estimate : ∀ call e, nd_EstimateGas nd call = Err e → disclosed e = false;
  fe_encode : ∀ m args e, EncodeArgs m args = Err e → disclosed e = false;
  fe_registries : ∀ m out e, DecodeRegistries m out = Some (Err e) → disclosed e = false;
  fe_records : ∀ m out e, DecodeRecords m out = Some (Err e) → disclosed e = false
}.

Lemma wrap_hidden pre e : disclosed e = false → visible (Wrap pre e "") ∈ Some <$> client_texts.
Proof. intros H. apply hidden_in. change (Wrap pre e "") with (wrap_in [(pre, "")] e). by rewrite disclosed_wrap_in. Qed.

Lemma callPrecompile_text c nd method args e : foreign_errors nd →
  callPrecompile c nd method args = Err e → visible e ∈ Some <$> client_texts.
Proof.
  intros Hf. unfold callPrecompile. destruct (find_method c method) as [m|].
  2:{ intros [= <-]. by apply hidden_in. }
  destruct (EncodeArgs m args) as [input|e'] eqn:Ee; cbn [rmap_err rbind].
  - destruct (nd_CallContract nd _) as [|e'] eqn:Ec; [done|]. intros [= <-].
    apply precompile_error_text. by eapply fe_call.
  - intros [= <-]. apply wrap_hidden. by eapply fe_encode.
Qed.

Lemma registry_lookup_text e : visible e ∈ Some <$> client_texts → visible (registry_lookup_error e) ∈ Some <$> client_texts.
Proof.
  unfold registry_lookup_error. destruct (contains _ _); [|done]. intros _.
  apply (list_elem_of_fmap_2' _ _ "registry lookup failed: registry not found"); [|by vm_compute].
  unfold client_texts. rewrite !elem_of_app. right. right. by left.
Qed.

Lemma guard_text {A} pre (fn : answer A) e :
  (∀ e', fn = Some (Err e') → disclosed e' = false) →
  rmap_err (λ e, Wrap pre e "") (guardABIDecode fn) = Err e → visible e ∈ Some <$> client_texts.
Proof.
  intros Hf. destruct fn as [[a|e']|]; cbn; [done|..]; intros [= <-].
  - apply wrap_hidden. by apply Hf.
  - by apply hidden_in.
Qed.

Lemma decode_registries_text c nd out e : foreign_errors nd →
  decode_registries c out = Err e → visible e ∈ Some <$> client_texts.
Proof.
  intros Hf. apply guard_text. intros e'. destruct (find_method c _) as [m|]; [|done]. apply (fe_registries _ Hf).
Qed.

(** What a failed read discloses. Whatever text the node or the ABI codec puts
    in an error, what the caller of a registry or record read can see of it is one
    of the curated reasons or of the fixed failure texts. *)
Theorem read_errors_closed c nd (Hf : foreign_errors nd) (Habi : requireABI c = None) :
  (∀ id e, id ≠ 0 → GetRegistry c nd id = Err e → visible e ∈ Some <$> client_texts) ∧
  (∀ req e, GetRegistries c nd req = Err e → visible e ∈ Some <$> client_texts) ∧
  (∀ req e, GetRecords c nd req = Err e → visible e ∈ Some <$> client_texts).
Proof.
  unfold GetRegistry, GetRegistries, GetRecords. rewrite Habi. split_and!.
  - intros id e Hid. rewrite (proj2 (Z.eqb_neq id 0)) by done.
    intros [H1|(out & _ & [H1|(rows & _ & H1)]%rbind_err)]%rbind_err.
    + destruct (callPrecompile _ _ _ _) eqn:E; [done|]. injection H1 as <-.
      by eapply registry_lookup_text, callPrecompile_text.
    + by eapply decode_registries_text.
    + destruct (toRegistries _); [|done]. injection H1 as <-.
      apply (list_elem_of_fmap_2' _ _ "registry lookup returned no results: registry not found"); [|by vm_compute].
      unfold client_texts. rewrite !elem_of_app. right. right. right. by left.
  - intros req e [H1|(out & _ & [H1|(rows & _ & H1)]%rbind_err)]%rbind_err; [| |done].
    + destruct (callPrecompile _ _ _ _) eqn:E; [done|]. injection H1 as <-.
      by eapply registry_lookup_text, callPrecompile_text.
    + by eapply decode_registries_text.
  - intros req e [H1|(out & _ & [H1|(rows & _ & H1)]%rbind_err)]%rbind_err; [| |done].
    + by eapply callPrecompile_text.
    + eapply guard_text; [|done]. intros e'. destruct (find_method c _) as [m|]; [|done]. apply (fe_records _ Hf).
Qed.
End Facts.

(** Gas buffer. Below the uint64 overflow point the gas limit is the estimate
    plus a fifth of it, rounded down, and so never below the estimate; at the top
    of the range both the product and the sum wrap, and the limit falls below the
    estimate. *)
Theorem gas_buffer_bounds e (He : 0 ≤ e) (Hmax : e * gasEstimateBufferPercent < u64_mod) :
  applyGasBuffer e = e + e / 5 ∧ e ≤ applyGasBuffer e < u64_mod ∧
  applyGasBuffer (u64_mod - 1) < u64_mod - 1.
Proof.
  unfold gasEstimateBufferPercent in *.
  assert (applyGasBuffer e = e + e / 5) as ->.
  { unfold applyGasBuffer, gasEstimateBufferPercent. rewrite (u64_small (e * 20)) by (split; lia). cbv zeta.
    replace (e * 20 / 100) with (e / 5) by (Z.to_euclidean_division_equations; lia).
    apply u64_small. unfold is_u64, u64_mod in *. Z.to_euclidean_division_equations; lia. }
  split_and!; [done|..|by vm_compute].
  - Z.to_euclidean_division_equations; lia.
  - unfold u64_mod in *. Z.to_euclidean_division_equations; lia.
Qed.

Lemma gas_buffer_bounds_witness : applyGasBuffer 21007 = 25208.
Proof.
  destruct (gas_buffer_bounds 21007) as (E & _); [lia|vm_compute; reflexivity|]. rewrite E. reflexivity.
Defined.

(** A missing method of a loaded ABI is reported as a missing registry, because
    the error's own text contains the words the lookup matches on. *)
Lemma missing_method_is_registry_not_found `{EthLib} `{AnchorLib} a n nd :
  ∃ e, GetRegistry (mkClient a n (Some ∅)) nd 7 = Err e ∧ errors_Is e ErrRegistryNotFound = true ∧
    errors_Is e ErrAnchorABIMethodMissing = false.
Proof. eexists. by vm_compute. Qed.

(** A missing method of a loaded ABI makes a preparation panic. *)
Lemma missing_method_panics `{EthLib} `{AnchorLib} a n nd from :
  from ≠ "" →
  PrepareAddRegistry (mkClient a n (Some ∅)) nd (mkAddRegistry from "n" "" "" false) = None.
Proof. intros Hf. unfold PrepareAddRegistry. cbn. apply String.eqb_neq in Hf. by rewrite Hf. Qed.

(** ** A concrete codec for the witnesses

    A method is its name, calldata the text of the call, and a node's answer to
    the records view two versions of record 9. *)

Fixpoint show_arg (a : abi_arg) : string :=
  match a with
  | AbiString s | AbiBytes s | AbiAddress s => s
  | AbiUint64 n => pretty n
  | AbiBool b => if b then "true" else "false"
  | AbiTuple fields =>
      (fix show fields := match fields with [] => "" | (n, a) :: rest => n +:+ "=" +:+ show_arg a +:+ ";" +:+ show rest end)
        fields
  end.

Definition demo_version (index : Z) (latest : bool) : abiRecordRow :=
  mkRecordRow "ipfs://x" "ab" "sha256" "m" "2026-04-14 13:10:26 +0000 UTC" "Active" 9 index latest 4.

#[export] Instance DemoAnchor : AnchorLib := {
  abi_method := string;
  EncodeArgs m args := Ok (m +:+ "(" +:+ join "," (show_arg <$> args) +:+ ")");
  FourBytes m := str_take 4 m;
  DecodeRegistries _ _ := Some (Ok ([], mkPageOut "" 0));
  DecodeRecords _ _ := Some (Ok ([demo_version 1 false; demo_version 2 true], mkPageOut "" 0));
  tx_Raw f := Ok (pretty (tf_Type f) +:+ tf_To f +:+ pretty (tf_Value f) +:+ tf_Input f +:+ pretty (tf_Nonce f))
}.

Definition demo_methods : gmap string string :=
  list_to_map ((λ m, (m, m)) <$>
    ["addRegistry"; "addRecord"; "updateRecordStatus"; "grantRole"; "revokeRole"; "registries"; "records"]).
Definition demo_client : anchor_client := mkClient "aaaaaaaaaaaaaaaaaaaa" 787111 (Some demo_methods).
Definition demo_node : evm_node :=
  mkNode (λ _, Ok 7) (Ok 100) (Ok None) (λ _, Ok 50000) (λ _, Ok "answer").
Definition demo_update : PrepareUpdateRecordStatusRequest :=
  mkUpdateStatus "0x6262626262626262626262626262626262626262" 4 9 None "Revoked" false.

Lemma prepare_renders_request_witness :
  ∃ t f sender, prepare demo_client demo_node (PUpdateRecordStatus demo_update) = Some (Ok t) ∧
    renders demo_client sender f t ∧ tf_Value f = 0 ∧ tf_Input f = "updateRecordStatus(4,9,2,Revoked)" ∧
    ut_Gas t = 60000.
Proof.
  destruct (prepare demo_client demo_node (PUpdateRecordStatus demo_update)) as [[t|]|] eqn:E;
    [|vm_compute in E; discriminate..].
  destruct (prepare_renders_request demo_client demo_node (PUpdateRecordStatus demo_update) t E)
    as (_ & m & args & sender & f & est & gp & Hm & Ha & He & _ & _ & _ & Hest & Hg & _ & Hv & _ & Hr).
  exists t, f, sender. split_and!; [done|exact Hr|exact Hv|..].
  - assert (Ok (tf_Input f) = Ok "updateRecordStatus(4,9,2,Revoked)" :> result error string) as Hi.
    { rewrite <- He. vm_compute in Hm. injection Hm as <-. vm_compute in Ha. injection Ha as <-. by vm_compute. }
    by injection Hi.
  - assert (Ok 50000 = Ok est :> result error Z) as Hi by exact Hest. injection Hi as <-.
    rewrite (rn_gas _ _ _ _ Hr), Hg. reflexivity.
Defined.

Lemma update_names_version_witness :
  ∃ args i, prepare_args demo_client demo_node (PUpdateRecordStatus demo_update) = Ok args ∧
    AbiUint64 i ∈ args ∧ 0 < i.
Proof.
  destruct (GetRecords demo_client demo_node (mkGetRecords (Some 4) (Some 9) None None None)) as [resp|] eqn:E;
    [|vm_compute in E; discriminate].
  pose proof (update_names_version demo_client demo_node demo_update resp) as H.
  destruct (prepare_args _ _ _) as [args|] eqn:Ea; [|vm_compute in Ea; discriminate].
  destruct H as (i & -> & Hi & _); [done|exact E| |].
  - vm_compute in E. injection E as <-. repeat constructor; discriminate.
  - eexists _, i. split; [done|]. split; [|done]. right. right. by left.
Defined.

Lemma read_errors_closed_witness :
  visible (Wrap "registry lookup failed: " ErrRegistryNotFound "") ∈ Some <$> client_texts ∧
  ∃ e, GetRegistry demo_client
         (mkNode (λ _, Ok 7) (Ok 100) (Ok None) (λ _, Ok 1)
            (λ _, Err (RPCError 3 "Collections: not found: key 5 of type gogoproto/registry"))) 5 = Err e ∧
    visible e ∈ Some <$> client_texts.
Proof.
  set (nd := mkNode _ _ _ _ _).
  assert (∀ e, GetRegistry demo_client nd 5 = Err e → visible e ∈ Some <$> client_texts) as H.
  { intros e He. refine (proj1 (read_errors_closed demo_client nd _ eq_refl) 5 e _ He); [|done].
    split; [intros call e' [= <-]; reflexivity|done..]. }
  split; [apply H; vm_compute; reflexivity|]. eexists. split; [vm_compute; reflexivity|]. apply H. vm_compute. reflexivity.
Defined.
