(* ===== verification/AbiLoad.v ===== *)
(** Loading the precompile's ABI (internal/anchor/client.go: loadABI, NewClient): a
    JSON array, or an artifact object with the array under its abi key.

    The JSON scanner is encoding/json's, over bytes: what Unmarshal accepts, and the
    text of a member as json.RawMessage keeps it. Parsing the ABI itself is
    defiweb's, a class. *)

From S2P Require Import Prelude GoErrors Hex GoParse Evm BlockArg Anchor.

(** abi.ParseJSON: the Methods map. *)
Class AbiParser `{AnchorLib} := { ParseJSON : string → result error (gmap string abi_method) }.

(** ** Scanning JSON *)

Definition is_digit (c : ascii) : bool := (48 <=? byte_val c) && (byte_val c <=? 57).

Fixpoint skip_digits (s : string) : string :=
  match s with
  | String c s' => if is_digit c then skip_digits s' else s
  | EmptyString => s
  end.

(** At least one digit. *)
Definition some_digits (s : string) : option string :=
  match s with String c s' => if is_digit c then Some (skip_digits s') else None | EmptyString => None end.

Definition scan_number (s : string) : option string :=
  let s := trim_prefix "-" s in
  s ← (if has_prefix "0" s then Some (trim_prefix "0" s) else some_digits s);
  s ← (if has_prefix "." s then some_digits (trim_prefix "." s) else Some s);
  if has_prefix "e" s || has_prefix "E" s then
    let s := trim_prefix "E" (trim_prefix "e" s) in
    some_digits (if has_prefix "+" s then trim_prefix "+" s else trim_prefix "-" s)
  else Some s.

Definition scan_word (s : string) : option string :=
  if has_prefix "true" s then Some (trim_prefix "true" s)
  else if has_prefix "false" s then Some (trim_prefix "false" s)
  else if has_prefix "null" s then Some (trim_prefix "null" s)
  else None.

(** The first [n] bytes of a text whose rest is [rest]. *)
Definition text_before (s rest : string) : string := str_take (String.length s - String.length rest) s.

(** What follows a value. [depth] is how many more objects and arrays may open
    (the scanner allows 10,000); [fuel] bounds the recursion, and twice the
    length of the text is enough (see [scan_enough]). An object gives its members, keys decoded
    and values as they are written. *)
Fixpoint scan_value (fuel depth : nat) (s : string) {struct fuel} : option string :=
  match fuel with
  | O => None
  | S fuel =>
      match s with
      | EmptyString => None
      | String c s' =>
          if Ascii.eqb c (byte_of 34) then snd <$> json_chars None s'
          else if Ascii.eqb c "{" then snd <$> scan_object fuel depth s'
          else if Ascii.eqb c "[" then
            match depth with
            | O => None
            | S depth =>
                match skip_space s' with
                | String e rest => if Ascii.eqb e "]" then Some rest else scan_items fuel depth (skip_space s')
                | EmptyString => None
                end
            end
          else if is_digit c || Ascii.eqb c "-" then scan_number s
          else scan_word s
      end
  end
with scan_items (fuel depth : nat) (s : string) {struct fuel} : option string :=
  match fuel with
  | O => None
  | S fuel =>
      rest ← scan_value fuel depth s;
      match skip_space rest with
      | String e s' =>
          if Ascii.eqb e "," then scan_items fuel depth (skip_space s') else if Ascii.eqb e "]" then Some s' else None
      | EmptyString => None
      end
  end
with scan_object (fuel depth : nat) (s : string) {struct fuel} : option (list (string * string) * string) :=
  match fuel, depth with
  | S fuel, S depth =>
      match skip_space s with
      | String e rest => if Ascii.eqb e "}" then Some ([], rest) else scan_members fuel depth (skip_space s)
      | EmptyString => None
      end
  | _, _ => None
  end
with scan_members (fuel depth : nat) (s : string) {struct fuel} : option (list (string * string) * string) :=
  match fuel, s with
  | S fuel, String q s =>
      if negb (Ascii.eqb q (byte_of 34)) then None
      else
        key ← json_chars None s;
        match skip_space key.2 with
        | String colon v =>
            if negb (Ascii.eqb colon ":") then None
            else
              let v := skip_space v in
              rest ← scan_value fuel depth v;
              let member := (key.1, text_before v rest) in
              match skip_space rest with
              | String e s =>
                  if Ascii.eqb e "," then m ← scan_members fuel depth (skip_space s); Some (member :: m.1, m.2)
                  else if Ascii.eqb e "}" then Some ([member], s)
                  else None
              | EmptyString => None
              end
        | EmptyString => None
        end
  | _, _ => None
  end.

Definition maxNestingDepth : nat := 100 * 100.

(** The members of a text that is one JSON object. *)
Definition object_members (raw : string) : option (list (string * string)) :=
  match raw with
  | String c s =>
      if Ascii.eqb c "{" then ends (scan_object (2 * String.length raw) maxNestingDepth s) else None
  | EmptyString => None
  end.

(** json.Unmarshal into struct{ ABI json.RawMessage `json:abi` }: the last member
    whose key is abi in any case; empty without one. *)
Definition unmarshal_wrapper (raw : string) : option string :=
  members ← object_members raw;
  Some (default "" (snd <$> last (filter (λ m, equal_fold m.1 "abi" = true) members))).

(** ** loadABI and NewClient *)

Section Load.
Context `{AbiParser}.

(** The text handed to the ABI parser. *)
Definition abi_text (data : string) : string :=
  let raw := trim_space data in
  if has_prefix "{" raw then
    match unmarshal_wrapper raw with
    | Some abi => if 0 <? slen abi then abi else raw
    | None => raw
    end
  else raw.

Definition loadABI (path : string) (file : result error string) : result error (gmap string abi_method) :=
  let? data := rmap_err (λ e, Wrap ("read ABI file " +:+ path +:+ ": ") e "") file in
  let? parsed := rmap_err (λ e, Wrap ("parse ABI from " +:+ path +:+ ": ") e "") (ParseJSON (abi_text data)) in
  if (size parsed =? 0)%nat then Err (Wrap ("ABI from " +:+ path +:+ ": ") ErrAnchorABIEmpty "") else Ok parsed.

(** What the constructor logs. *)
Inductive abi_line :=
  | AbiFailed (path msg : string)
  | AbiLoaded (address : string) (methods : nat)
  | AbiUnset (address : string).

(** [None] is a panic: the address is not one (MustAddressFromHex). *)
Definition NewClient (address : string) (chainID : Z) (abiPath : string) (file : result error string)
    : option (anchor_client * abi_line) :=
  addr ← AddressFromHex address;
  Some (if negb (abiPath =s "") then
          match loadABI abiPath file with
          | Err e => (mkClient addr chainID None, AbiFailed abiPath (error_text e))
          | Ok parsed => (mkClient addr chainID (Some parsed), AbiLoaded (AddressHex addr) (size parsed))
          end
        else (mkClient addr chainID None, AbiUnset (AddressHex addr))).
End Load.

(** ** Enough fuel *)

Lemma skip_space_len s : (String.length (skip_space s) ≤ String.length s)%nat.
Proof. induction s as [|c s IH]; cbn [skip_space String.length]; [lia|]. destruct (json_space c); cbn [String.length]; lia. Qed.
Lemma skip_digits_len s : (String.length (skip_digits s) ≤ String.length s)%nat.
Proof. induction s as [|c s IH]; cbn [skip_digits String.length]; [lia|]. destruct (is_digit c); cbn [String.length]; lia. Qed.
Lemma some_digits_len s r : some_digits s = Some r → (String.length r < String.length s)%nat.
Proof.
  destruct s as [|c s]; [done|]. cbn. destruct (is_digit c); [|done]. intros [= <-].
  pose proof (skip_digits_len s). lia.
Qed.
Lemma str_drop_len n s : String.length (str_drop n s) = (String.length s - n)%nat.
Proof. revert s. induction n as [|n IH]; intros [|c s]; cbn; first [done|apply IH]. Qed.
Lemma trim_prefix_len p s : (String.length (trim_prefix p s) ≤ String.length s)%nat.
Proof. unfold trim_prefix. destruct (has_prefix p s); [rewrite str_drop_len|]; lia. Qed.
Lemma trim_prefix_lt p s : has_prefix p s = true → p ≠ "" → s ≠ "" → (String.length (trim_prefix p s) < String.length s)%nat.
Proof.
  intros Hp Hne Hs. unfold trim_prefix. rewrite Hp, str_drop_len. destruct p, s; try done. cbn. lia.
Qed.

Lemma json_chars_len high s p : json_chars high s = Some p → (String.length p.2 < String.length s)%nat.
Proof.
  assert (∀ n high s p, (String.length s ≤ n)%nat → json_chars high s = Some p → (String.length p.2 < String.length s)%nat) as H;
    [|by apply (H (String.length s))].
  induction n as [|n IH]; intros h [|c t] q Hn; [done|cbn in Hn; lia|done|]. cbn [json_chars String.length] in *.
  destruct (Ascii.eqb c (byte_of 34)); [intros [= <-]; cbn [snd]; lia|].
  destruct (Ascii.eqb c "\").
  - destruct t as [|e t]; [done|]. cbn [String.length] in *. destruct (simple_escape e).
    { intros (r & Hr & [= <-])%bind_Some. apply IH in Hr; cbn [snd String.length] in *; lia. }
    destruct (negb _); [done|]. destruct t as [|a1 [|a2 [|a3 [|a4 t]]]]; try done. cbn [String.length] in *.
    intros (r & _ & (m & Hm & [= <-])%bind_Some)%bind_Some. apply IH in Hm; cbn [snd] in *; lia.
  - destruct (byte_val c <? 32); [done|]. intros (r & Hr & [= <-])%bind_Some. apply IH in Hr; cbn [snd] in *; lia.
Qed.

Lemma scan_number_len s r : scan_number s = Some r → (String.length r < String.length s)%nat.
Proof.
  unfold scan_number. set (s1 := trim_prefix "-" s). intros (s2 & H2 & (s3 & H3 & H4)%bind_Some)%bind_Some.
  assert (String.length s2 < String.length s1)%nat as L2.
  { destruct (has_prefix "0" s1) eqn:E; [|by apply some_digits_len]. injection H2 as <-.
    apply trim_prefix_lt; [done..|]. by destruct s1. }
  assert (String.length s3 ≤ String.length s2)%nat as L3.
  { destruct (has_prefix "." s2); [|by injection H3 as <-]. apply some_digits_len in H3.
    pose proof (trim_prefix_len "." s2). lia. }
  pose proof (trim_prefix_len "-" s). fold s1 in H.
  destruct (_ || _); [|injection H4 as <-; lia]. apply some_digits_len in H4.
  set (s4 := trim_prefix "e" s3) in *. pose proof (trim_prefix_len "e" s3). pose proof (trim_prefix_len "E" s4).
  destruct (has_prefix "+" _);
    [pose proof (trim_prefix_len "+" (trim_prefix "E" s4))|pose proof (trim_prefix_len "-" (trim_prefix "E" s4))];
    unfold s4 in *; lia.
Qed.

Lemma scan_word_len s r : scan_word s = Some r → (String.length r < String.length s)%nat.
Proof.
  unfold scan_word. intros H. destruct s as [|c s]; [done|].
  repeat match type of H with (if has_prefix ?p ?t then _ else _) = _ => destruct (has_prefix p t) eqn:? end;
    simplify_eq; by apply trim_prefix_lt.
Qed.

(** What is left after a value is shorter. *)
Definition shrinks (fuel : nat) : Prop := ∀ depth s,
  (∀ r, scan_value fuel depth s = Some r → (String.length r < String.length s)%nat) ∧
  (∀ r, scan_items fuel depth s = Some r → (String.length r < String.length s)%nat) ∧
  (∀ r, scan_object fuel depth s = Some r → (String.length r.2 < String.length s)%nat) ∧
  (∀ r, scan_members fuel depth s = Some r → (String.length r.2 < String.length s)%nat).

Ltac spaces := repeat match goal with
  | H : skip_space ?s = String _ _ |- _ =>
      let L := fresh "L" in pose proof (skip_space_len s) as L; rewrite H in L; cbn [String.length] in L; clear H
  end.

Lemma scan_shrinks fuel : shrinks fuel.
Proof.
  induction fuel as [|fuel IH]; intros depth s; [by destruct depth|]. split_and!.
  - destruct s as [|c s]; [done|]. cbn [scan_value]. intros r.
    destruct (Ascii.eqb c (byte_of 34)); [intros (p & Hp & ->)%fmap_Some; apply json_chars_len in Hp; cbn [String.length]; lia|].
    destruct (Ascii.eqb c "{"); [intros (p & Hp & ->)%fmap_Some; apply (IH depth s) in Hp; cbn [String.length]; lia|].
    destruct (Ascii.eqb c "[").
    { destruct depth as [|depth]; [done|]. destruct (skip_space s) as [|e t] eqn:Es; [done|].
      destruct (Ascii.eqb e "]"); [intros [= <-]; spaces; cbn; lia|]. intros Hr. apply (IH depth) in Hr.
      spaces; cbn in *; lia. }
    destruct (_ || _); [by intros ?%scan_number_len|by intros ?%scan_word_len].
  - cbn [scan_items]. intros r (t & Ht & Hr)%bind_Some. apply (IH depth) in Ht.
    destruct (skip_space t) as [|e u] eqn:Eu; [done|]. destruct (Ascii.eqb e ",").
    + apply (IH depth) in Hr. pose proof (skip_space_len u). spaces. lia.
    + destruct (Ascii.eqb e "]"); [|done]. injection Hr as <-. spaces. lia.
  - destruct depth as [|depth]; [done|]. cbn [scan_object]. intros r.
    destruct (skip_space s) as [|e t] eqn:Es; [done|]. destruct (Ascii.eqb e "}"); [intros [= <-]; spaces; cbn; lia|].
    intros Hr. apply (IH depth) in Hr. spaces. cbn in *. lia.
  - destruct s as [|q s]; [done|]. cbn [scan_members]. intros r. destruct (negb _); [done|].
    intros (k & Hk%json_chars_len & Hr)%bind_Some. destruct (skip_space k.2) as [|co v] eqn:Ev; [done|].
    destruct (negb _); [done|]. apply bind_Some in Hr as (t & Ht & Hr). apply (IH depth) in Ht.
    pose proof (skip_space_len v). destruct (skip_space t) as [|e u] eqn:Eu; [done|]. destruct (Ascii.eqb e ",").
    + apply bind_Some in Hr as (m & Hm & [= <-]). apply (IH depth) in Hm. pose proof (skip_space_len u). spaces. cbn. lia.
    + destruct (Ascii.eqb e "}"); [|done]. injection Hr as <-. spaces. cbn. lia.
Qed.

(** Fuel in terms of the text: twice its length, and up to two more. *)
Definition agrees (f1 f2 : nat) : Prop := ∀ depth s,
  let n := (2 * String.length s)%nat in
  ((n + 1 ≤ f1)%nat → (n + 1 ≤ f2)%nat → scan_value f1 depth s = scan_value f2 depth s) ∧
  ((n + 2 ≤ f1)%nat → (n + 2 ≤ f2)%nat → scan_items f1 depth s = scan_items f2 depth s) ∧
  ((n + 2 ≤ f1)%nat → (n + 2 ≤ f2)%nat → scan_object f1 depth s = scan_object f2 depth s) ∧
  ((n + 1 ≤ f1)%nat → (n + 1 ≤ f2)%nat → scan_members f1 depth s = scan_members f2 depth s).

Lemma scan_enough f1 f2 : agrees f1 f2.
Proof.
  revert f2. induction f1 as [|f1 IH]; intros f2 depth s n; [split_and!; intros; lia|].
  destruct f2 as [|f2]; [split_and!; intros; lia|]. specialize (IH f2). subst n. split_and!; intros H1 H2.
  - destruct s as [|c s]; [done|]. cbn [scan_value String.length] in *.
    rewrite (proj1 (proj2 (proj2 (IH depth s)))) by lia.
    destruct depth as [|depth]; [done|]. pose proof (skip_space_len s).
    by rewrite (proj1 (proj2 (IH depth (skip_space s)))) by lia.
  - cbn [scan_items]. rewrite (proj1 (IH depth s)) by lia.
    destruct (scan_value f2 depth s) as [r|] eqn:Er; [|done]. apply (scan_shrinks f2 depth) in Er. cbn [mbind option_bind].
    destruct (skip_space r) as [|e t] eqn:Et; [done|]. pose proof (skip_space_len t). spaces.
    by rewrite (proj1 (proj2 (IH depth (skip_space t)))) by lia.
  - destruct depth as [|depth]; [done|]. cbn [scan_object]. pose proof (skip_space_len s).
    by rewrite (proj2 (proj2 (proj2 (IH depth (skip_space s))))) by lia.
  - destruct s as [|q s]; [done|]. cbn [scan_members String.length] in *. destruct (negb _); [done|].
    destruct (json_chars None s) as [k|] eqn:Ek; [|done]. apply json_chars_len in Ek. cbn [mbind option_bind].
    destruct (skip_space k.2) as [|co v] eqn:Ev; [done|]. destruct (negb _); [done|]. pose proof (skip_space_len v).
    spaces. rewrite (proj1 (IH depth (skip_space v))) by lia.
    destruct (scan_value f2 depth (skip_space v)) as [r|] eqn:Er; [|done]. apply (scan_shrinks f2 depth) in Er.
    cbn [mbind option_bind]. destruct (skip_space r) as [|e t] eqn:Et; [done|]. pose proof (skip_space_len t). spaces.
    by rewrite (proj2 (proj2 (proj2 (IH depth (skip_space t))))) by lia.
Qed.

(** ** Both forms of the file *)

Lemma trim_right_end s c : is_space c = false → trim_right_by is_space (s +:+ String c "") = s +:+ String c "".
Proof.
  intros Hc. induction s as [|a s IH].
  - change (trim_right_by is_space (String c "") = String c ""). cbn [trim_right_by]. by rewrite Hc.
  - change (trim_right_by is_space (String a (s +:+ String c "")) = String a (s +:+ String c "")). cbn [trim_right_by].
    rewrite IH. by destruct s.
Qed.

Lemma trim_closed a s c : is_space a = false → is_space c = false →
  trim_space (String a (s +:+ String c "")) = String a (s +:+ String c "").
Proof.
  intros Ha Hc. unfold trim_space, trim_by. cbn [trim_left_by]. rewrite Ha. exact (trim_right_end (String a s) c Hc).
Qed.

(** A text that is one JSON value, with nothing around it, also inside an object. *)
Definition one_value (v : string) : Prop :=
  skip_space (v +:+ "}") = v +:+ "}" ∧
  ∃ fuel, (2 * String.length (v +:+ "}") + 1 ≤ fuel)%nat ∧
    scan_value fuel (pred maxNestingDepth) (v +:+ "}") = Some "}".

Definition artifact (v : string) : string := "{" +:+ quoted "abi" +:+ ":" +:+ v +:+ "}".

Lemma text_before_app v rest : text_before (v +:+ rest) rest = v.
Proof.
  unfold text_before. assert (String.length (v +:+ rest) = (String.length v + String.length rest)%nat) as ->.
  { induction v as [|c v IH]; [done|]. change (S (String.length (v +:+ rest)) = S (String.length v + String.length rest)). by rewrite IH. }
  replace (_ + _ - _)%nat with (String.length v) by lia. apply str_take_app.
Qed.

Lemma scan_artifact k d v : skip_space (v +:+ "}") = v +:+ "}" → scan_value k d (v +:+ "}") = Some "}" →
  scan_object (S (S k)) (S d) (quoted "abi" +:+ ":" +:+ v +:+ "}") = Some ([("abi", v)], "").
Proof.
  intros Hs Hv. change (quoted "abi" +:+ ":" +:+ v +:+ "}") with
    (String (byte_of 34) ("abi" +:+ String (byte_of 34) (":" +:+ v +:+ "}"))).
  cbn [scan_object]. change (skip_space (String (byte_of 34) ?t)) with (String (byte_of 34) t).
  cbv iota beta. change (Ascii.eqb (byte_of 34) "}") with false. cbv iota. cbn [scan_members].
  change (negb (Ascii.eqb (byte_of 34) (byte_of 34))) with false. cbv iota.
  change (json_chars None ("abi" +:+ String (byte_of 34) (":" +:+ v +:+ "}"))) with (Some ("abi", ":" +:+ v +:+ "}")).
  cbn [mbind option_bind fst snd]. change (skip_space (":" +:+ v +:+ "}")) with (String ":" (v +:+ "}")). cbv iota beta.
  change (negb (Ascii.eqb ":" ":")) with false. cbv iota. rewrite Hs, Hv. cbn [mbind option_bind].
  rewrite text_before_app. reflexivity.
Qed.

Lemma artifact_members v : one_value v → object_members (artifact v) = Some [("abi", v)].
Proof.
  intros (Hs & fuel & Hf & Hv). change (object_members (artifact v)) with
    (ends (scan_object (2 * (7 + String.length (v +:+ "}"))) maxNestingDepth (quoted "abi" +:+ ":" +:+ v +:+ "}"))).
  assert (2 * String.length (v +:+ "}") + 3 ≤ 2 * (7 + String.length (v +:+ "}")))%nat as Hn by lia.
  set (n := (2 * (7 + _))%nat) in *. clearbody n.
  destruct n as [|[|k]]; [lia..|]. change maxNestingDepth with (S (pred maxNestingDepth)).
  rewrite (scan_artifact k _ v Hs); [done|]. rewrite <-Hv. apply scan_enough; lia.
Qed.

(** An artifact is loaded as the array it wraps. *)
Lemma load_artifact `{AbiParser} path v : one_value v → v ≠ "" → has_prefix "{" v = false → trim_space v = v →
  loadABI path (Ok (artifact v)) = loadABI path (Ok v).
Proof.
  intros Hv Hne Hp Ht. unfold loadABI. cbn [rmap_err rbind]. do 3 f_equal. unfold abi_text. rewrite Ht, Hp.
  assert (trim_space (artifact v) = artifact v) as ->.
  { by apply (trim_closed "{" (quoted "abi" +:+ ":" +:+ v) "}"). }
  change (has_prefix "{" (artifact v)) with true. cbv iota. unfold unmarshal_wrapper. rewrite (artifact_members v Hv).
  cbn. by destruct v.
Qed.

(** What the constructor makes of its address and file. Only an address that is not
    one stops the server (by a panic); a file that is missing, is not an ABI or has
    no methods leaves a client that says so, counts no methods and refuses every
    query; a client that answers has at least one method. The address is the one the
    relay's scope check parses. *)
Theorem NewClient_spec `{AbiParser} address chainID path file :
  match NewClient address chainID path file with
  | None => AddressFromHex address = None
  | Some (c, line) =>
      AddressFromHex address = Some (ac_address c) ∧ ac_chainID c = chainID ∧
      (Available c = true ↔ path ≠ "" ∧ ∃ m, loadABI path file = Ok m) ∧
      (if Available c then requireABI c = None ∧ 0 < pi_MethodCount (Info c)
       else requireABI c ≠ None ∧ pi_MethodCount (Info c) = 0)
  end.
Proof.
  unfold NewClient. destruct (AddressFromHex address) as [addr|] eqn:Ea; [|done]. cbn [mbind option_bind].
  destruct (path =s "") eqn:Ep; bool_to_prop; cbn [negb].
  { cbn. split_and!; try done. split; [done|]. intros [Hp _]. by bool_to_prop. }
  destruct (loadABI path file) as [m|e] eqn:El; cbn; split_and!; try done.
  - split; [|done]. intros _. split; [by intros ->|eauto].
  - unfold loadABI in El. apply rbind_ok in El as (d & _ & El). apply rbind_ok in El as (q & _ & El).
    destruct (size q =? 0)%nat eqn:Es; [done|]. injection El as <-. apply Nat.eqb_neq in Es. lia.
  - split; [done|]. by intros [_ [m Hm]].
Qed.

(** ** Concrete files *)

Definition demo_abi : string := "[{" +:+ quoted "type" +:+ ": [1.5e3, {}, null]}]".

#[export] Instance DemoParser : AbiParser (H := DemoAnchor) := {
  ParseJSON raw := if raw =s demo_abi then Ok demo_methods else if raw =s "[]" then Ok ∅ else Err (Opaque "not an ABI")
}.

(** The array, an artifact, an artifact with other members and another spelling of
    the key, one with text after it, one without an ABI, and an empty ABI. *)
Example load_forms :
  (λ file, match loadABI "abi.json" (Ok file) with Ok m => Some (size m) | Err _ => None end) <$>
    ["  " +:+ demo_abi; artifact demo_abi;
     "{" +:+ quoted "name" +:+ ":" +:+ quoted "a\u0041" +:+ ", " +:+ quoted "Abi" +:+ " : " +:+ demo_abi +:+ "} ";
     artifact demo_abi +:+ "x"; "{}"; artifact "[]"] =
  [Some 7; Some 7; Some 7; None; None; None]%nat.
Proof. vm_compute. reflexivity. Qed.

Example artifact_is_value : one_value demo_abi.
Proof. split; [reflexivity|]. exists 100%nat. split; [vm_compute; lia|vm_compute; reflexivity]. Qed.
