(* ===== verification/EvmTools.v ===== *)
(** The EVM read tools (internal/mcp/tools_evm.go): the eight handlers, their
    input validation and their outputs.

    The handlers work against [evm_api], the interface evm.Client; [evm_client] is
    the client of Evm.v over a node. Where the client may return a nil pointer
    without an error, the handler's dereference of it is [None], a panic. *)

From stdpp Require Import pretty.
From S2P Require Import Prelude GoErrors Hex GoParse Http Auth Catalogue Evm BlockArg Config ChainForms Anchor.

(** ** The client *)

(** defitypes.FilterLogsQuery *)
Record FilterLogsQuery := mkLogsQuery {
  q_Address : list address; q_FromBlock : option BlockNumber; q_ToBlock : option BlockNumber;
  q_Topics : list (list hash)
}.

Record evm_api := mkEvmApi {
  ea_GetChainInfo : result error ChainInfo;
  ea_BlockByNumber : option Z → bool → result error NormalizedBlock;
  ea_BlockByHash : hash → bool → result error NormalizedBlock;
  ea_TransactionByHash : hash → result error NormalizedTransaction;
  ea_TransactionReceipt : hash → result error NormalizedReceipt;
  ea_BalanceAt : address → option Z → result error (option NormalizedBalance);
  ea_CodeAt : address → option Z → result error CodeResult;
  ea_CallContract : Call → option Z → result error string;
  ea_FilterLogs : FilterLogsQuery → result error (list NormalizedLog);
  ea_PendingNonceAt : address → result error Z
}.

(** The node behind the client, method by method; see Evm.v for [answer]. *)
Record wire := mkWire {
  wr_ChainID : result error Z;
  wr_BlockNumber : answer (option Z);
  wr_BlockByNumber : BlockNumber → answer (option Block);
  wr_BlockByHash : hash → answer (option Block);
  wr_TransactionByHash : hash → answer (option Transaction);
  wr_TransactionReceipt : hash → answer (option TransactionReceipt);
  wr_Balance : address → BlockNumber → answer (option Z);
  wr_Code : address → BlockNumber → result error string;
  wr_Call : Call → BlockNumber → result error string;
  wr_Logs : FilterLogsQuery → answer (list Log);
  wr_TransactionCount : address → result error Z
}.

Section Client.
Context `{EthLib}.

Definition PendingNonceAt (n : result error Z) : result error Z := n.

Definition evm_client (w : wire) : evm_api :=
  mkEvmApi (GetChainInfo (wr_ChainID w) (wr_BlockNumber w))
    (λ n full, BlockByNumber n full (wr_BlockByNumber w))
    (λ h full, BlockByHash h full (wr_BlockByHash w))
    (λ h, TransactionByHash (wr_TransactionByHash w h))
    (λ h, TransactionReceipt_ (wr_TransactionReceipt w h))
    (λ a n, let? b := BalanceAt a n (wr_Balance w a) in Ok (Some b))
    (λ a n, CodeAt a n (wr_Code w a))
    (λ c n, CallContract n (wr_Call w c))
    (λ q, FilterLogs (wr_Logs w q))
    (λ a, PendingNonceAt (wr_TransactionCount w a)).
End Client.

(** ** Inputs and outputs *)

Record getBlockInput := mkBlockInput { bi_BlockNumber : blockNumberArg; bi_BlockHash : option string; bi_FullTx : bool }.
Record getBalanceInput := mkBalanceInput { gi_Address : string; gi_BlockNum : blockNumberArg }.
Record getCodeInput := mkCodeInput { ki_Address : string; ki_BlockNum : blockNumberArg }.
Record getLogsInput := mkLogsInput {
  lg_Address : option string; lg_FromBlock : blockNumberArg; lg_ToBlock : blockNumberArg; lg_Topics : list string
}.
Record callContractInput := mkCallInput {
  xi_To : string; xi_Data : string; xi_From : string; xi_BlockNum : blockNumberArg
}.

Record chainIDOutput := mkChainIDOutput { co_Info : ChainInfo; co_Next : list NextAction }.
Record blockOutput := mkBlockOutput { bo_Block : NormalizedBlock; bo_Next : list NextAction }.
Record transactionOutput := mkTxOutput { to_Tx : NormalizedTransaction; to_Next : list NextAction }.
Record receiptOutput := mkReceiptOutput { eo_Receipt : NormalizedReceipt; eo_Next : list NextAction }.
Record balanceOutput := mkBalanceOutput {
  bl_Balance : NormalizedBalance; bl_BalanceHuman : string; bl_TokenWrapped : string; bl_Next : list NextAction
}.
Record codeOutput := mkCodeOutput { cd_Code : CodeResult; cd_Next : list NextAction }.
Record getLogsOutput := mkLogsOutput { go_Logs : list NormalizedLog; go_Count : Z; go_Next : list NextAction }.
Record callContractOutput := mkCallOutput { xo_Result : string; xo_Next : list NextAction }.

(** ** Validation helpers *)

Definition trim_0x (s : string) : string := trim_prefix "0x" s.

Definition parseAddress `{EthLib} (s : string) : result error address := ParseAddress s.

Definition parseHash32 (s : string) (kind : sentinel) : result error hash :=
  let raw := trim_0x s in
  if negb (slen raw =? 64)
  then Err (Wrap (quoted s +:+ ": want 32 bytes (64 hex digits), got " +:+ pretty (slen raw) +:+ ": ") kind "")
  else match hex_decode raw with
       | None => Err (Wrap (quoted s +:+ ": not valid hex: ") kind "")
       | Some b => if slen b =? 32 then Ok b else Err (Wrap (quoted s +:+ ": ") kind "")   (* HashFromBytes *)
       end.

Definition parseHash (s : string) : result error hash := parseHash32 s ErrInvalidTxHash.

Definition maxHexDataLen : Z := 2 * 1024 * 1024.

Definition parseHexData (s : string) : result error string :=
  let s := trim_0x s in
  if maxHexDataLen <? slen s
  then Err (Wrap ("hex data too large (" +:+ pretty (slen s) +:+ " chars, max " +:+ pretty maxHexDataLen +:+ "): ")
              ErrInvalidABI "")
  else match hex_decode s with None => Err (Wrap "" ErrInvalidHexData "") | Some b => Ok b end.

(** The loop over topics, naming the index of the one that is malformed. *)
Fixpoint parse_topics (i : nat) (topics : list string) : result error (list hash) :=
  match topics with
  | [] => Ok []
  | t :: rest =>
      let? h := rmap_err (λ e, Wrap ("invalid topic at index " +:+ pretty (Z.of_nat i) +:+ ": ") e "")
                  (parseHash32 t ErrInvalidTopics) in
      let? hs := parse_topics (S i) rest in Ok (h :: hs)
  end.

(** ** Handlers *)

Section Handlers.
Context `{EthLib}.
Variable c : evm_api.

Definition makeChainIDHandler (claims : option Claims) : result error chainIDOutput :=
  with_role claims read_roles
    (let? info := rmap_err (λ e, Wrap "failed to get chain info: " e "") (ea_GetChainInfo c) in
     Ok (mkChainIDOutput info evmChainIDNext)).

Definition both_refs : error := Wrap "provide block_number or block_hash, not both: " ErrInvalidBlockRef "".

Definition makeGetBlockHandler (claims : option Claims) (input : getBlockInput) : result error blockOutput :=
  with_role claims read_roles
    match bi_BlockHash input with
    | Some h =>
        if isSet (bi_BlockNumber input) then Err both_refs
        else
          let? hash := rmap_err (λ e, Wrap "invalid block_hash: " e "") (parseHash32 h ErrInvalidHash) in
          let? block := ea_BlockByHash c hash (bi_FullTx input) in
          Ok (mkBlockOutput block evmGetBlockNext)
    | None =>
        let? block := ea_BlockByNumber c (bigInt (bi_BlockNumber input)) (bi_FullTx input) in
        Ok (mkBlockOutput block evmGetBlockNext)
    end.

Definition makeGetTransactionHandler (claims : option Claims) (txHash : string) : result error transactionOutput :=
  with_role claims read_roles
    (let? hash := rmap_err (λ e, Wrap "invalid tx_hash: " e "") (parseHash txHash) in
     let? tx := ea_TransactionByHash c hash in
     Ok (mkTxOutput tx evmGetTransactionNext)).

(** The lookup runs under the receipt deadline: an error for which it (or the
    caller) is the cause is reported as not found. *)
Definition makeGetReceiptHandler (claims : option Claims) (txHash : string) : result error receiptOutput :=
  with_role claims read_roles
    (let? hash := rmap_err (λ e, Wrap "invalid tx_hash: " e "") (parseHash txHash) in
     match ea_TransactionReceipt c hash with
     | Err e => if errors_Is e CtxDeadlineExceeded || errors_Is e CtxCanceled
                then Err (Sentinel ErrTxNotFound) else Err e
     | Ok receipt => Ok (mkReceiptOutput receipt (evmGetReceiptNext (nr_Status receipt)))
     end).

Definition makeGetBalanceHandler (cfg : Config) (claims : option Claims) (input : getBalanceInput)
    : answer balanceOutput :=
  match requireRole claims read_roles with
  | Some e => Some (Err e)
  | None =>
      match parseAddress (gi_Address input) with
      | Err e => Some (Err e)
      | Ok addr =>
          match ea_BalanceAt c addr (bigInt (gi_BlockNum input)) with
          | Err e => Some (Err (Wrap "failed to get balance: " e ""))
          | Ok None => None
          | Ok (Some balance) =>
              let naming := NamingFor (ChainEnv (site cfg)) in
              Some (Ok (mkBalanceOutput balance (nbal_Ether balance +:+ " " +:+ tn_Wrapped naming) (tn_Wrapped naming)
                          evmGetBalanceNext))
          end
      end
  end.

Definition makeGetCodeHandler (cfg : Config) (claims : option Claims) (input : getCodeInput) : result error codeOutput :=
  with_role claims read_roles
    (let? addr := parseAddress (ki_Address input) in
     let? code := rmap_err (λ e, Wrap "failed to get code: " e "")
                    (ea_CodeAt c addr (bigInt (ki_BlockNum input))) in
     let isPrecompile := equal_fold (cd_Address code) (AnchorAddress (core cfg)) in
     Ok (mkCodeOutput code (evmGetCodeNext (cd_IsContract code) isPrecompile))).

Definition makeGetLogsHandler (claims : option Claims) (input : getLogsInput) : result error getLogsOutput :=
  with_role claims read_roles
    (let? addrs := match lg_Address input with
                   | None => Ok []
                   | Some s => let? a := parseAddress s in Ok [a]
                   end in
     let? topics := match lg_Topics input with
                    | [] => Ok []
                    | ts => let? hs := parse_topics 0 ts in Ok [hs]
                    end in
     let? logs := ea_FilterLogs c
       (mkLogsQuery addrs (blockNumber (lg_FromBlock input)) (blockNumber (lg_ToBlock input)) topics) in
     Ok (mkLogsOutput logs (Z.of_nat (length logs)) evmGetLogsNext)).

Definition makeCallContractHandler (claims : option Claims) (input : callContractInput)
    : result error callContractOutput :=
  with_role claims read_roles
    (let? toAddr := parseAddress (xi_To input) in
     let? data := rmap_err (λ e, Wrap "invalid calldata: " e "") (parseHexData (xi_Data input)) in
     let? from := (if xi_From input =s "" then Ok None else let? a := parseAddress (xi_From input) in Ok (Some a)) in
     match ea_CallContract c (mkCall from toAddr data) (bigInt (xi_BlockNum input)) with
     | Err e =>
         match ClassifyCallRevert (Some e) with
         | Some curated => Err (Sentinel curated)
         | None => Err (Wrap "contract call failed: " e "")
         end
     | Ok result => Ok (mkCallOutput (data_hex result) evmCallContractNext)
     end).
End Handlers.

(** ** What the tools ask of the chain *)

(** A text names the bytes: hex in any letter case, with or without 0x. *)
Definition hex_names (b s : string) : Prop := to_lower (trim_0x s) = hex_encode b.

Lemma slen_hex_decode raw b : hex_decode raw = Some b → slen raw = 2 * slen b.
Proof. intros H%hex_decode_length. unfold slen. lia. Qed.

Lemma slen_to_lower s : slen (to_lower s) = slen s.
Proof.
  induction s as [|c s IH]; [done|]. unfold slen in *.
  change (String.length (to_lower (String c s))) with (S (String.length (to_lower s))). cbn [String.length]. lia.
Qed.

Lemma slen_hex_encode b : slen (hex_encode b) = 2 * slen b.
Proof. unfold slen. rewrite length_hex_encode. lia. Qed.

Lemma parseHash32_spec s kind :
  match parseHash32 s kind with
  | Ok h => slen h = 32 ∧ hex_names h s
  | Err e => errors_Is e kind = true ∧ ∀ h, slen h = 32 → ¬ hex_names h s
  end.
Proof.
  unfold parseHash32, hex_names. cbv zeta. destruct (slen (trim_0x s) =? 64) eqn:El; cbn [negb]; bool_to_prop.
  - destruct (hex_decode (trim_0x s)) as [b|] eqn:Ed.
    + pose proof (slen_hex_decode _ _ Ed). rewrite (proj2 (Z.eqb_eq _ _)) by lia. split; [lia|].
      by apply hex_decode_spelling.
    + split; [cbn; by apply bool_decide_eq_true_2|]. intros h _ Hh%hex_decode_spelling. congruence.
  - split; [cbn; by apply bool_decide_eq_true_2|]. intros h Hl Hh. apply El.
    rewrite <- slen_to_lower, Hh, slen_hex_encode. lia.
Qed.

Lemma parseHexData_spec s :
  match parseHexData s with
  | Ok b => hex_names b s ∧ 2 * slen b ≤ maxHexDataLen
  | Err e => IsInputError e = true ∧ ∀ b, 2 * slen b ≤ maxHexDataLen → ¬ hex_names b s
  end.
Proof.
  unfold parseHexData, hex_names. cbv zeta. destruct (maxHexDataLen <? slen (trim_0x s)) eqn:El; bool_to_prop.
  - split; [done|]. intros b Hb Hh. rewrite <- slen_hex_encode, <- Hh, slen_to_lower in Hb. lia.
  - destruct (hex_decode (trim_0x s)) as [b|] eqn:Ed.
    + pose proof (slen_hex_decode _ _ Ed). split; [by apply hex_decode_spelling|lia].
    + split; [done|]. intros b _ Hh%hex_decode_spelling. congruence.
Qed.

(** The handler makes one call of the client and wraps up its answer. *)
Definition asks {A B} (handler : evm_api → result error B) (query : evm_api → result error A) (out : A → B) : Prop :=
  ∀ c, handler c = let? a := query c in Ok (out a).
(** The handler refuses by itself, with an input error the caller is shown. *)
Definition refuses {B} (handler : evm_api → result error B) (kind : sentinel) : Prop :=
  ∃ e, errors_Is e kind = true ∧ IsInputError e = true ∧ ∀ c, handler c = Err e.

Lemma input_kind e kind : kind ∈ inputErrors → errors_Is e kind = true → IsInputError e = true.
Proof. intros Hk H. unfold IsInputError, errors_Is_any. apply existsb_exists. exists kind. by rewrite <- list_elem_of_In. Qed.

Lemma asked_by_hash {A B} s kind pre (query : hash → evm_api → result error A) (out : A → B)
    (handler : evm_api → result error B) : kind ∈ inputErrors →
  (∀ c, handler c = let? h := rmap_err (λ e, Wrap pre e "") (parseHash32 s kind) in
                    let? a := query h c in Ok (out a)) →
  (∀ h, slen h = 32 → hex_names h s → asks handler (query h) out) ∧
  ((∀ h, slen h = 32 → ¬ hex_names h s) → refuses handler kind).
Proof.
  intros Hk Hh. pose proof (parseHash32_spec s kind) as Hs. destruct (parseHash32 s kind) as [h|e]; cbn in Hh.
  - destruct Hs as [Hl Hn]. split; [|intros Hno; by destruct (Hno h Hl)]. intros h' _ Hh'.
    unfold hex_names in *. rewrite Hn in Hh'. apply (f_equal hex_decode) in Hh'.
    rewrite !hex_decode_encode in Hh'. injection Hh' as <-. exact Hh.
  - destruct Hs as [He Hno]. split; [intros h' Hl' Hh'; by destruct (Hno h' Hl')|]. intros _.
    exists (Wrap pre e ""). split_and!; [done|by eapply input_kind|exact Hh].
Qed.

(** Lookups by hash. A block, transaction or receipt is looked up under the 32
    bytes whose hex the caller wrote, in either letter case, with or without 0x,
    and under nothing else; any other text is refused with the error of its kind
    whatever the chain, as is a block asked for both by number and by hash. A
    receipt lookup that was aborted, or ran out of time, is reported as not found
    and never as an outage. *)
Theorem evm_lookup_by_hash `{EthLib} claims (Hrole : requireRole claims read_roles = None) :
  (∀ s full,
     let h c := makeGetBlockHandler c claims (mkBlockInput not_provided (Some s) full) in
     (∀ b, slen b = 32 → hex_names b s → asks h (λ c, ea_BlockByHash c b full) (λ x, mkBlockOutput x evmGetBlockNext)) ∧
     ((∀ b, slen b = 32 → ¬ hex_names b s) → refuses h ErrInvalidHash)) ∧
  (∀ s num full, isSet num = true →
     refuses (λ c, makeGetBlockHandler c claims (mkBlockInput num (Some s) full)) ErrInvalidBlockRef) ∧
  (∀ s, let h c := makeGetTransactionHandler c claims s in
     (∀ b, slen b = 32 → hex_names b s → asks h (λ c, ea_TransactionByHash c b) (λ x, mkTxOutput x evmGetTransactionNext)) ∧
     ((∀ b, slen b = 32 → ¬ hex_names b s) → refuses h ErrInvalidTxHash)) ∧
  (∀ s, let h c := makeGetReceiptHandler c claims s in
     (∀ b, slen b = 32 → hex_names b s → ∀ c, h c =
        match ea_TransactionReceipt c b with
        | Ok r => Ok (mkReceiptOutput r (evmGetReceiptNext (nr_Status r)))
        | Err e => Err (if isReceiptLookupAborted e then Sentinel ErrTxNotFound else e)
        end) ∧
     ((∀ b, slen b = 32 → ¬ hex_names b s) → refuses h ErrInvalidTxHash)).
Proof.
  unfold makeGetBlockHandler, makeGetTransactionHandler, makeGetReceiptHandler, with_role. rewrite Hrole. split_and!.
  - intros s full. apply (asked_by_hash s ErrInvalidHash "invalid block_hash: " (λ b c, ea_BlockByHash c b full)); [|done].
    by (apply list_elem_of_In; vm_compute; tauto).
  - intros s num full Hs. cbn [bi_BlockNumber bi_BlockHash]. rewrite Hs. eexists. split_and!; [| |done]; done.
  - intros s. apply (asked_by_hash s ErrInvalidTxHash "invalid tx_hash: " (λ b c, ea_TransactionByHash c b)); [|done].
    by (apply list_elem_of_In; vm_compute; tauto).
  - intros s.
    destruct (asked_by_hash s ErrInvalidTxHash "invalid tx_hash: "
      (λ b c, match ea_TransactionReceipt c b with
              | Err e => Err (if isReceiptLookupAborted e then Sentinel ErrTxNotFound else e)
              | Ok r => Ok r end) (λ r, mkReceiptOutput r (evmGetReceiptNext (nr_Status r)))
      (λ c, makeGetReceiptHandler c claims s)) as [H1 H2].
    { apply list_elem_of_In; vm_compute; tauto. }
    { intros c. unfold makeGetReceiptHandler, with_role, parseHash. rewrite Hrole. destruct (parseHash32 s ErrInvalidTxHash) as [b|]; [|done]. cbn [rmap_err rbind].
      unfold isReceiptLookupAborted. destruct (ea_TransactionReceipt c b); [done|]. by destruct (_ || _). }
    unfold makeGetReceiptHandler, with_role in *. rewrite Hrole in *.
    split; [|done]. intros b Hl Hb c. rewrite (H1 b Hl Hb c). by destruct (ea_TransactionReceipt c b).
Qed.

Lemma parse_topics_spec ts : ∀ i,
  match parse_topics i ts with
  | Ok hs => Forall2 (λ h s, slen h = 32 ∧ hex_names h s) hs ts
  | Err e => ∃ k s e0, ts !! k = Some s ∧ (∀ h, slen h = 32 → ¬ hex_names h s) ∧
      (∀ j s', (j < k)%nat → ts !! j = Some s' → ∃ h, slen h = 32 ∧ hex_names h s') ∧
      e = Wrap ("invalid topic at index " +:+ pretty (Z.of_nat (i + k)) +:+ ": ") e0 "" ∧
      errors_Is e0 ErrInvalidTopics = true
  end.
Proof.
  induction ts as [|t ts IH]; intros i; [by constructor|]. cbn [parse_topics].
  pose proof (parseHash32_spec t ErrInvalidTopics) as Hs. destruct (parseHash32 t ErrInvalidTopics) as [h|e]; cbn [rmap_err rbind].
  - specialize (IH (S i)). destruct (parse_topics (S i) ts) as [hs|e]; cbn [rbind]; [by constructor|].
    destruct IH as (k & s & e0 & Hk & Hno & Hlt & -> & He). exists (S k), s, e0. split_and!; [done..| |by rewrite Nat.add_succ_r|done].
    intros [|j] s' Hj; cbn; [intros [= <-]; by exists h|]. intros Hs'. apply (Hlt j); [lia|done].
  - exists 0%nat, t, e. rewrite Nat.add_0_r. split_and!; try done; [apply Hs|intros; lia|apply Hs].
Qed.

(** Log queries. evm_get_logs asks the node for the address, the block range
    and the topics the caller wrote: absent bounds stay absent, every topic is the
    32 bytes its hex names, and the topics are alternatives for the first
    position. The answer is reported with its length. A malformed address or topic
    is refused whatever the chain, and a topic error names the index of the first
    topic that is not 32 bytes of hex. *)
Theorem evm_logs_filter `{EthLib} claims input (Hrole : requireRole claims read_roles = None) :
  let h c := makeGetLogsHandler c claims input in
  let range topics addrs := mkLogsQuery addrs (blockNumber (lg_FromBlock input)) (blockNumber (lg_ToBlock input)) topics in
  let addrs := match lg_Address input with None => Ok [] | Some s => let? a := parseAddress s in Ok [a] end in
  match addrs with
  | Err e => errors_Is e ErrInvalidAddress = true ∧ ∀ c, h c = Err e
  | Ok addrs =>
      (∀ hs, Forall2 (λ h s, slen h = 32 ∧ hex_names h s) hs (lg_Topics input) →
         asks h (λ c, ea_FilterLogs c (range (if bool_decide (hs = []) then [] else [hs]) addrs))
           (λ logs, mkLogsOutput logs (Z.of_nat (length logs)) evmGetLogsNext)) ∧
      ((∀ hs, ¬ Forall2 (λ h s, slen h = 32 ∧ hex_names h s) hs (lg_Topics input)) →
         refuses h ErrInvalidTopics ∧
         ∃ k s e0, lg_Topics input !! k = Some s ∧ (∀ h, slen h = 32 → ¬ hex_names h s) ∧
           (∀ j s', (j < k)%nat → lg_Topics input !! j = Some s' → ∃ h, slen h = 32 ∧ hex_names h s') ∧
           ∀ c, h c = Err (Wrap ("invalid topic at index " +:+ pretty (Z.of_nat k) +:+ ": ") e0 ""))
  end.
Proof.
  intros h range addrs. unfold h, makeGetLogsHandler, with_role. rewrite Hrole.
  assert (∀ s, match parseAddress s with Ok _ => True | Err e => errors_Is e ErrInvalidAddress = true end) as Haddr.
  { intros s. unfold parseAddress, ParseAddress. destruct (AddressFromHex s); [|by apply bool_decide_eq_true_2].
    destruct (_ || _); [done|]. cbv zeta. destruct (_ && _); [by apply bool_decide_eq_true_2|done]. }
  destruct addrs as [al|e] eqn:Ea; subst addrs; rewrite Ea; cbn [rbind].
  2: { split; [|done]. destruct (lg_Address input) as [s|]; [|done]. specialize (Haddr s).
       destruct (parseAddress s); [done|]. by injection Ea as <-. }
  pose proof (parse_topics_spec (lg_Topics input) 0) as Hs. split.
  - intros hs Hhs. destruct (lg_Topics input) as [|t ts]; [by inversion Hhs; subst|].
    destruct (parse_topics 0 (t :: ts)) as [hs'|e]; cbn [rbind].
    + assert (hs' = hs) as ->; [|by inversion Hhs; subst].
      clear -Hs Hhs. revert hs Hhs. induction Hs as [|x s xs ss [_ Hx] _ IH]; intros hs Hhs; inversion Hhs as [|y s' ys ss' [_ Hy] Hys]; [done|].
      subst. f_equal; [|by apply IH]. unfold hex_names in *. rewrite Hx in Hy. apply (f_equal hex_decode) in Hy.
      rewrite !hex_decode_encode in Hy. by injection Hy.
    + destruct Hs as (k & s & e0 & Hk & Hno & _). destruct (Forall2_lookup_r _ _ _ _ _ Hhs Hk) as (x & _ & Hl & Hx).
      by destruct (Hno x Hl).
  - intros Hno. destruct (lg_Topics input) as [|t ts]; [by destruct (Hno []); constructor|].
    destruct (parse_topics 0 (t :: ts)) as [hs'|e]; [by destruct (Hno hs')|]. cbn [rbind].
    destruct Hs as (k & s & e0 & Hk & Hnos & Hlt & -> & He). split.
    + exists (Wrap ("invalid topic at index " +:+ pretty (Z.of_nat k) +:+ ": ") e0 ""). split_and!; [exact He| |done].
      apply (input_kind _ ErrInvalidTopics); [|exact He]. apply list_elem_of_In; vm_compute; tauto.
    + exists k, s, e0. done.
Qed.

(** ** What a failed call tells the client *)

Inductive evm_request :=
  | ReqChainID | ReqBlock (i : getBlockInput) | ReqTransaction (txHash : string) | ReqReceipt (txHash : string)
  | ReqBalance (i : getBalanceInput) | ReqCode (i : getCodeInput) | ReqLogs (i : getLogsInput)
  | ReqCall (i : callContractInput).

Definition err_of {A} (r : result error A) : option error := match r with Ok _ => None | Err e => Some e end.

(** The error a tool call ends with, before sanitizeToolErr. *)
Definition tool_error `{EthLib} (c : evm_api) (cfg : Config) (claims : option Claims) (r : evm_request) : option error :=
  match r with
  | ReqChainID => err_of (makeChainIDHandler c claims)
  | ReqBlock i => err_of (makeGetBlockHandler c claims i)
  | ReqTransaction s => err_of (makeGetTransactionHandler c claims s)
  | ReqReceipt s => err_of (makeGetReceiptHandler c claims s)
  | ReqBalance i => r ← makeGetBalanceHandler c cfg claims i; err_of r
  | ReqCode i => err_of (makeGetCodeHandler c cfg claims i)
  | ReqLogs i => err_of (makeGetLogsHandler c claims i)
  | ReqCall i => err_of (makeCallContractHandler c claims i)
  end.

(** The node's and the transport's own errors carry none of the server's
    disclosed sentinels. *)
Record foreign_wire (w : wire) : Prop := {
  fw_id : ∀ e, wr_ChainID w = Err e → disclosed e = false;
  fw_number : ∀ e, wr_BlockNumber w = Some (Err e) → disclosed e = false;
  fw_by_number : ∀ n e, wr_BlockByNumber w n = Some (Err e) → disclosed e = false;
  fw_by_hash : ∀ h e, wr_BlockByHash w h = Some (Err e) → disclosed e = false;
  fw_tx : ∀ h e, wr_TransactionByHash w h = Some (Err e) → disclosed e = false;
  fw_receipt : ∀ h e, wr_TransactionReceipt w h = Some (Err e) → disclosed e = false;
  fw_balance : ∀ a n e, wr_Balance w a n = Some (Err e) → disclosed e = false;
  fw_code : ∀ a n e, wr_Code w a n = Err e → disclosed e = false;
  fw_call : ∀ c n e, wr_Call w c n = Err e → disclosed e = false;
  fw_logs : ∀ q e, wr_Logs w q = Some (Err e) → disclosed e = false
}.

Definition node_sentinels : list sentinel :=
  safeNodeRPCErrors.*2 ++ [ErrBlockNotFound; ErrTxNotFound; ErrCallReverted].
Definition prefixes : list string := [""; "failed to get balance: "; "failed to get code: "].
Definition evm_texts : list string :=
  flat_map (λ p, (λ s, p +:+ sentinel_text s) <$> node_sentinels) prefixes ++
  (sentinel_text <$> [ErrSafeCircuitOpen; ErrSafeRateLimited; ErrSafeUpstreamFail]).

Definition told (e : error) : Prop := visible e ∈ Some <$> evm_texts.

Lemma told_hidden e : disclosed e = false → told e.
Proof. intros H%hidden_text. unfold told, evm_texts. rewrite fmap_app, elem_of_app. auto. Qed.

Lemma node_sentinels_disclosed s : s ∈ node_sentinels → disclosed (Sentinel s) = true.
Proof.
  intros H%list_elem_of_In. assert (forallb (λ s, disclosed (Sentinel s)) node_sentinels = true) as Hall by by vm_compute.
  rewrite forallb_forall in Hall. auto.
Qed.

Lemma text_in p s : p ∈ prefixes → s ∈ node_sentinels → Some (p +:+ sentinel_text s) ∈ Some <$> evm_texts.
Proof.
  intros Hp Hs. apply list_elem_of_fmap_2. unfold evm_texts. rewrite elem_of_app. left.
  apply list_elem_of_In, in_flat_map. exists p. split; [by apply list_elem_of_In|].
  apply list_elem_of_In, list_elem_of_fmap. by exists s.
Qed.

(** A client error: a recognised rejection, or one whose text is hidden. *)
Definition is_sentinel (s : sentinel) (e : error) : Prop :=
  error_text e = sentinel_text s ∧ ∀ t, errors_Is e t = errors_Is s t.
Definition client_error (e : error) : Prop := (∃ s, s ∈ node_sentinels ∧ is_sentinel s e) ∨ disclosed e = false.

Lemma is_sentinel_refl s : is_sentinel s (Sentinel s). Proof. done. Qed.
#[local] Hint Resolve is_sentinel_refl : core.

(** What the client itself returns is exactly such a rejection. *)
Definition base_error (e : error) : Prop := (∃ s, s ∈ node_sentinels ∧ e = Sentinel s) ∨ disclosed e = false.
Lemma base_client e : base_error e → client_error e.
Proof. intros [(s & Hs & ->)|H]; [left; by exists s|by right]. Qed.

Lemma is_sentinel_disclosed s e : is_sentinel s e → disclosed e = disclosed s.
Proof.
  intros [_ H]. rewrite !disclosed_any. unfold errors_Is_any. induction disclosed_sentinels as [|t ts IH]; [done|].
  cbn [existsb]. by rewrite H, IH.
Qed.

Lemma hidden_wrap pre e : disclosed e = false → disclosed (Wrap pre e "") = false.
Proof. intros H. change (Wrap pre e "") with (wrap_in [(pre, "")] e). by rewrite disclosed_wrap_in. Qed.

Lemma told_client e : client_error e → told e.
Proof.
  intros [(s & Hs & He)|H]; [|by apply told_hidden]. unfold told, visible.
  rewrite SafeForClient_disclosed by by rewrite (is_sentinel_disclosed s e He), node_sentinels_disclosed.
  cbn. rewrite (proj1 He). apply (text_in ""); [by left|done].
Qed.

Lemma told_wrap pre e : pre ∈ prefixes → client_error e → told (Wrap pre e "").
Proof.
  intros Hp [(s & Hs & He)|H]; [|by apply told_hidden, hidden_wrap]. unfold told, visible.
  rewrite SafeForClient_disclosed.
  - cbn. rewrite string_app_nil_r, (proj1 He). by apply text_in.
  - change (Wrap pre e "") with (wrap_in [(pre, "")] e). rewrite disclosed_wrap_in, (is_sentinel_disclosed s e He).
    by apply node_sentinels_disclosed.
Qed.

(** The client's methods keep to that. *)
Lemma node_error_base op e : disclosed e = false → base_error (node_error op e).
Proof.
  intros H. unfold node_error. destruct (classifyNodeRPCError (Some e)) as [s|] eqn:E.
  - left. exists s. split; [|done]. apply first_match_in in E. unfold node_sentinels. apply elem_of_app. by left.
  - right. by apply hidden_wrap.
Qed.

Lemma guard_base {A} op (fn : answer A) e :
  (∀ e', fn = Some (Err e') → base_error e') → guardNodeDecode op fn = Err e → base_error e.
Proof.
  intros H. destruct fn as [[a|e']|]; cbn; [done| |].
  - intros [= <-]. by apply H.
  - intros [= <-]. by right.
Qed.

Section Errors.
Context `{EthLib}.
Variable w : wire.
Hypothesis Hf : foreign_wire w.

Lemma block_answer_base op full b e :
  (∀ e', b = Some (Err e') → disclosed e' = false) → block_answer op full b = Err e → base_error e.
Proof using Type.
  intros Hb. apply guard_base. intros e'. destruct b as [[b|e0]|]; cbn; [|intros [= <-]; by apply node_error_base, Hb|done].
  destruct (isMissingBlock b); [intros [= <-]; left; eexists; split; [|done]; apply list_elem_of_In; vm_compute; tauto|].
  destruct b as [b|]; [|done]. cbn. by destruct (normalizeBlock b full).
Qed.

Lemma not_found_base s : s ∈ [ErrBlockNotFound; ErrTxNotFound; ErrCallReverted] → base_error (Sentinel s).
Proof using Type. intros Hs. left. exists s. split; [|done]. unfold node_sentinels. apply elem_of_app. by right. Qed.

Lemma chain_info_base e : ea_GetChainInfo (evm_client w) = Err e → disclosed e = false.
Proof using All.
  cbn [evm_client ea_GetChainInfo]. unfold GetChainInfo, ChainID. intros [E|(id & _ & [E|(n & _ & E)]%rbind_err)]%rbind_err; [| |done].
  - destruct (wr_ChainID w) eqn:Ew; [done|]. injection E as <-. apply hidden_wrap. by eapply fw_id.
  - destruct (LatestBlockNumber_ _) as [|e'] eqn:Ew; [done|]. injection E as <-. apply hidden_wrap.
    unfold LatestBlockNumber_, guardNodeDecode in Ew. destruct (wr_BlockNumber w) as [[[n|]|e0]|] eqn:En; cbn in Ew; try done.
    + by injection Ew as <-.
    + injection Ew as <-. by eapply fw_number.
    + by injection Ew as <-.
Qed.

Lemma tx_base h e : ea_TransactionByHash (evm_client w) h = Err e → base_error e.
Proof using All.
  cbn [evm_client ea_TransactionByHash]. unfold TransactionByHash. apply guard_base. intros e'.
  destruct (wr_TransactionByHash w h) as [[[t|]|e0]|] eqn:E; cbn; [|intros [= <-]..|done].
  - destruct (t_Hash t); [done|]. intros [= <-]. by apply not_found_base; right; left.
  - by apply not_found_base; right; left.
  - right. apply hidden_wrap. by eapply fw_tx.
Qed.

Lemma receipt_base h e : ea_TransactionReceipt (evm_client w) h = Err e → base_error e.
Proof using All.
  cbn [evm_client ea_TransactionReceipt]. unfold TransactionReceipt_. apply guard_base. intros e'.
  destruct (wr_TransactionReceipt w h) as [[[t|]|e0]|] eqn:E; cbn; [done| | |done].
  - intros [= <-]. by apply not_found_base; right; left.
  - destruct (isReceiptLookupAborted e0); intros [= <-]; [by apply not_found_base; right; left|].
    right. apply hidden_wrap. by eapply fw_receipt.
Qed.

Lemma balance_base a n e : ea_BalanceAt (evm_client w) a n = Err e → base_error e.
Proof using All.
  cbn [evm_client ea_BalanceAt]. unfold BalanceAt. intros [E|(b & _ & E)]%rbind_err; [|done].
  revert E. apply guard_base. intros e'. destruct (wr_Balance w a _) as [[[b|]|e0]|] eqn:E; cbn; try done.
  intros [= <-]. apply node_error_base. by eapply fw_balance.
Qed.

Lemma code_base a n e : ea_CodeAt (evm_client w) a n = Err e → base_error e.
Proof using All.
  cbn [evm_client ea_CodeAt]. unfold CodeAt. destruct (wr_Code w a _) eqn:E; [done|]. intros [= <-].
  apply node_error_base. by eapply fw_code.
Qed.

Lemma logs_base q e : ea_FilterLogs (evm_client w) q = Err e → base_error e.
Proof using All.
  cbn [evm_client ea_FilterLogs]. unfold FilterLogs. apply guard_base. intros e'.
  destruct (wr_Logs w q) as [[l|e0]|] eqn:E; cbn; [done| |done]. intros [= <-]. apply node_error_base. by eapply fw_logs.
Qed.
End Errors.

(** What the tools rely on: the errors of the client are fit to be passed on. *)
Class ClosedErrors (c : evm_api) : Prop := {
  ce_info : ∀ e, ea_GetChainInfo c = Err e → disclosed e = false;
  ce_by_number : ∀ n full e, ea_BlockByNumber c n full = Err e → client_error e;
  ce_by_hash : ∀ h full e, ea_BlockByHash c h full = Err e → client_error e;
  ce_tx : ∀ h e, ea_TransactionByHash c h = Err e → client_error e;
  ce_receipt : ∀ h e, ea_TransactionReceipt c h = Err e → client_error e;
  ce_balance : ∀ a n e, ea_BalanceAt c a n = Err e → client_error e;
  ce_code : ∀ a n e, ea_CodeAt c a n = Err e → client_error e;
  ce_call : ∀ x n e, ea_CallContract c x n = Err e → disclosed e = false;
  ce_logs : ∀ q e, ea_FilterLogs c q = Err e → client_error e
}.

Lemma evm_client_closed `{EthLib} w : foreign_wire w → ClosedErrors (evm_client w).
Proof.
  intros Hf. split.
  - by apply chain_info_base.
  - intros n full e He. eapply base_client, block_answer_base; [|exact He]. intros e'. by eapply fw_by_number.
  - intros h full e He. eapply base_client, block_answer_base; [|exact He]. intros e'. by eapply fw_by_hash.
  - intros h e He. by eapply base_client, tx_base.
  - intros h e He. by eapply base_client, receipt_base.
  - intros a n e He. by eapply base_client, balance_base.
  - intros a n e He. by eapply base_client, code_base.
  - intros x n e He. by apply (fw_call _ Hf x (blockNumOrLatest n)).
  - intros q e He. by eapply base_client, logs_base.
Qed.

(** Refusals by validation are disclosed. *)
Lemma input_disclosed e : IsInputError e = true → disclosed e = true.
Proof. intros H. unfold disclosed. by rewrite H. Qed.

Lemma role_disclosed claims roles e : requireRole claims roles = Some e → disclosed e = true.
Proof. intros H%requireRole_err. unfold disclosed. rewrite H. by rewrite !orb_true_r. Qed.

Lemma address_disclosed `{EthLib} s e : parseAddress s = Err e → disclosed e = true.
Proof.
  intros Hp. apply input_disclosed. revert Hp. unfold parseAddress, ParseAddress.
  destruct (AddressFromHex s); [|by intros [= <-]]. destruct (_ || _); [done|]. cbv zeta.
  destruct (_ && _); [by intros [= <-]|done].
Qed.

Lemma hash_disclosed s kind e : kind ∈ inputErrors → parseHash32 s kind = Err e → disclosed e = true.
Proof.
  intros Hk H. pose proof (parseHash32_spec s kind) as Hs. rewrite H in Hs.
  by eapply input_disclosed, input_kind, Hs.
Qed.

Lemma data_disclosed s e : parseHexData s = Err e → disclosed e = true.
Proof. intros H. pose proof (parseHexData_spec s) as Hs. rewrite H in Hs. by apply input_disclosed, Hs. Qed.

Lemma wrap_disclosed pre e : disclosed e = true → disclosed (Wrap pre e "") = true.
Proof. intros H. change (Wrap pre e "") with (wrap_in [(pre, "")] e). by rewrite disclosed_wrap_in. Qed.

Lemma err_of_ok {A} (r : result error A) e : err_of r = Some e → r = Err e.
Proof. destruct r; [done|]. by intros [= <-]. Qed.

(** A refused request is refused whatever the chain; a failed call is told to the
    client in a text of the list. *)
Definition closed `{EthLib} cfg claims (r : evm_request) (e : error) : Prop :=
  ((∀ c, tool_error c cfg claims r = Some e) ∧ disclosed e = true) ∨ told e.

Section Closed.
Context `{EthLib} (api : evm_api) `{!ClosedErrors api} (cfg : Config) (claims : option Claims).

Lemma closed_role r e : requireRole claims read_roles = Some e → tool_error api cfg claims r = Some e →
  closed cfg claims r e.
Proof using Type.
  intros Hr _. left. split; [|by eapply role_disclosed]. intros c.
  destruct r; cbn [tool_error]; unfold makeChainIDHandler, makeGetBlockHandler, makeGetTransactionHandler,
    makeGetReceiptHandler, makeGetBalanceHandler, makeGetCodeHandler, makeGetLogsHandler, makeCallContractHandler, with_role;
    by rewrite Hr.
Qed.

Hypothesis Hrole : requireRole claims read_roles = None.

Ltac open_tool :=
  unfold closed; cbn [tool_error]; unfold makeChainIDHandler, makeGetBlockHandler, makeGetTransactionHandler,
    makeGetReceiptHandler, makeGetBalanceHandler, makeGetCodeHandler, makeGetLogsHandler, makeCallContractHandler, with_role;
  rewrite Hrole; cbn [option_bind mbind].

Lemma closed_block i e : tool_error api cfg claims (ReqBlock i) = Some e → closed cfg claims (ReqBlock i) e.
Proof using All.
  open_tool. destruct i as [num [h|] full]; cbn [bi_BlockNumber bi_BlockHash bi_FullTx].
  - destruct (isSet num); [intros [= <-]; by left|]. destruct (parseHash32 h ErrInvalidHash) as [b|e0] eqn:Ep; cbn [rmap_err rbind].
    + intros [E|(x & _ & E)]%err_of_ok%rbind_err; [|done]. right. apply told_client.
      by eapply ce_by_hash.
    + intros [= <-]. left. split; [done|]. apply wrap_disclosed. eapply hash_disclosed; [|done].
      apply list_elem_of_In; vm_compute; tauto.
  - intros [E|(x & _ & E)]%err_of_ok%rbind_err; [|done]. right. apply told_client.
    by eapply ce_by_number.
Qed.

Lemma closed_hash s e :
  (tool_error api cfg claims (ReqTransaction s) = Some e → closed cfg claims (ReqTransaction s) e) ∧
  (tool_error api cfg claims (ReqReceipt s) = Some e → closed cfg claims (ReqReceipt s) e).
Proof using All.
  open_tool. unfold parseHash. destruct (parseHash32 s ErrInvalidTxHash) as [b|e0] eqn:Ep; cbn [rmap_err rbind].
  - split.
    + intros [E|(x & _ & E)]%err_of_ok%rbind_err; [|done]. right. by eapply told_client, ce_tx.
    + intros E%err_of_ok. right. destruct (ea_TransactionReceipt api b) as [r|e0] eqn:Er; [done|].
      destruct (_ || _); injection E as <-; [|by eapply told_client, ce_receipt].
      by apply told_client, base_client, not_found_base; right; left.
  - assert (disclosed (Wrap "invalid tx_hash: " e0 "") = true).
    { apply wrap_disclosed. eapply hash_disclosed; [|done]. apply list_elem_of_In; vm_compute; tauto. }
    split; intros [= <-]; by left.
Qed.

Lemma closed_chain e : tool_error api cfg claims ReqChainID = Some e → closed cfg claims ReqChainID e.
Proof using All.
  open_tool. destruct (ea_GetChainInfo api) as [i|e0] eqn:E; cbn [rmap_err rbind]; [done|]. intros [= <-].
  right. by eapply told_hidden, hidden_wrap, ce_info.
Qed.

Lemma closed_balance i e : tool_error api cfg claims (ReqBalance i) = Some e → closed cfg claims (ReqBalance i) e.
Proof using All.
  open_tool. destruct (parseAddress (gi_Address i)) as [a|e0] eqn:Ea; cbn.
  - destruct (ea_BalanceAt api a _) as [[b|]|e0] eqn:Eb; cbn; [done..|]. intros [= <-]. right.
    apply told_wrap; [right; by left|]. by eapply ce_balance.
  - intros [= <-]. left. split; [done|]. by eapply address_disclosed.
Qed.

Lemma closed_code i e : tool_error api cfg claims (ReqCode i) = Some e → closed cfg claims (ReqCode i) e.
Proof using All.
  open_tool. destruct (parseAddress (ki_Address i)) as [a|e0] eqn:Ea; cbn [rbind].
  - destruct (ea_CodeAt api a _) as [b|e0] eqn:Eb; cbn [rmap_err rbind err_of]; [done|]. intros [= <-]. right.
    apply told_wrap; [right; right; by left|]. by eapply ce_code.
  - intros [= <-]. left. split; [done|]. by eapply address_disclosed.
Qed.

Lemma closed_logs i e : tool_error api cfg claims (ReqLogs i) = Some e → closed cfg claims (ReqLogs i) e.
Proof using All.
  open_tool. destruct (match lg_Address i with None => _ | Some s => _ end) as [addrs|e0] eqn:Ea; cbn [rbind].
  - assert (∀ t, match lg_Topics i with [] => Ok [] | ts => let? hs := parse_topics 0 ts in Ok [hs] end = Err t →
      disclosed t = true) as Ht.
    { intros t. destruct (lg_Topics i) as [|x ts]; [done|]. pose proof (parse_topics_spec (x :: ts) 0) as Hs.
      destruct (parse_topics 0 (x :: ts)) as [hs|e0]; [done|]. intros [= <-].
      destruct Hs as (k & s & e1 & _ & _ & _ & -> & He). apply wrap_disclosed, input_disclosed.
      eapply input_kind; [|exact He]. apply list_elem_of_In; vm_compute; tauto. }
    destruct (match lg_Topics i with [] => _ | _ :: _ => _ end) as [ts|e0] eqn:Et; cbn [rbind].
    + intros [E|(x & _ & E)]%err_of_ok%rbind_err; [|done]. right. by eapply told_client, ce_logs.
    + intros [= <-]. left. split; [done|]. by apply Ht.
  - intros [= <-]. left. split; [done|]. destruct (lg_Address i) as [s|]; [|done].
    destruct (parseAddress s) as [a|e1] eqn:Ep; [done|]. injection Ea as <-. by eapply address_disclosed.
Qed.

Lemma closed_call i e : tool_error api cfg claims (ReqCall i) = Some e → closed cfg claims (ReqCall i) e.
Proof using All.
  open_tool. destruct (parseAddress (xi_To i)) as [a|e0] eqn:Ea; cbn [rbind].
  2: { intros [= <-]. left. split; [done|]. by eapply address_disclosed. }
  destruct (parseHexData (xi_Data i)) as [d|e0] eqn:Ed; cbn [rmap_err rbind].
  2: { intros [= <-]. left. split; [done|]. by eapply wrap_disclosed, data_disclosed. }
  destruct (if xi_From i =s "" then _ else _) as [f|e0] eqn:Ef; cbn [rbind].
  2: { intros [= <-]. left. split; [done|]. destruct (xi_From i =s ""); [done|].
       destruct (parseAddress (xi_From i)) as [x|e1] eqn:Ep; [done|]. injection Ef as <-. by eapply address_disclosed. }
  intros E%err_of_ok. right. destruct (ea_CallContract api _ _) as [r|e0] eqn:Ec; [done|].
  apply ce_call in Ec.
  destruct (ClassifyCallRevert (Some e0)) as [s|] eqn:Er; injection E as <-.
  - unfold ClassifyCallRevert in Er. cbv zeta in Er. destruct (existsb _ _); [|done]. injection Er as <-.
    by apply told_client, base_client, not_found_base; right; right; left.
  - by apply told_hidden, hidden_wrap.
Qed.
End Closed.

(** Over any client whose errors are fit to be passed on. *)
Lemma tool_errors_closed `{EthLib} api `{!ClosedErrors api} cfg claims r e : tool_error api cfg claims r = Some e →
  (disclosed e = true ∧ ∀ c, tool_error c cfg claims r = Some e) ∨
  ∃ text, visible e = Some text ∧ text ∈ evm_texts.
Proof.
  intros He. assert (closed cfg claims r e) as [[H1 H2]|Ht]; [|by left|right].
  2: { apply list_elem_of_fmap in Ht as (text & Ht & Hin). by exists text. }
  destruct (requireRole claims read_roles) as [e0|] eqn:Hr.
  - assert (e0 = e) as ->; [|by apply (closed_role api)].
    revert He. destruct r; cbn [tool_error]; unfold makeChainIDHandler, makeGetBlockHandler, makeGetTransactionHandler,
      makeGetReceiptHandler, makeGetBalanceHandler, makeGetCodeHandler, makeGetLogsHandler, makeCallContractHandler, with_role;
      rewrite Hr; by intros [= ->].
  - destruct r; [by apply (closed_chain api)|by apply (closed_block api)|by apply (closed_hash api)|by apply (closed_hash api)|
      by apply (closed_balance api)|by apply (closed_code api)|by apply (closed_logs api)|by apply (closed_call api)].
Qed.

(** What a failed read tells the client. Whatever text the node puts into its
    errors, an EVM read tool either refuses the request by itself (no role, or
    malformed input), in the same words for every chain, or the client is shown
    one text of a fixed list: a recognised rejection, a missing block or
    transaction, a revert, or one of the three generic failures. *)
Theorem evm_errors_closed `{EthLib} w cfg claims r e
    (Hf : foreign_wire w) (He : tool_error (evm_client w) cfg claims r = Some e) :
  (disclosed e = true ∧ ∀ c, tool_error c cfg claims r = Some e) ∨
  ∃ text, visible e = Some text ∧ text ∈ evm_texts.
Proof. pose proof (evm_client_closed w Hf). by eapply tool_errors_closed. Qed.

(** ** A concrete chain *)

Definition demo_hash : hash := sha256 "block".
Definition demo_balance : Z := 1500000000000000000.
Definition demo_wire : wire :=
  mkWire (Ok 787111) (Some (Ok (Some 7))) (λ _, Some (Err (Opaque "http://10.0.0.7: boom")))
    (λ _, Some (Ok None)) (λ _, Some (Ok None)) (λ _, Some (Err (NetError "http://10.0.0.7: timeout")))
    (λ _ _, Some (Ok (Some demo_balance)))
    (λ _ _, Err (Opaque "http://10.0.0.7: block not found")) (λ _ _, Err (Opaque "http://10.0.0.7: execution reverted"))
    (λ _, Some (Ok [])) (λ _, Ok 3).

Lemma demo_wire_foreign : foreign_wire demo_wire.
Proof. split; cbn; intros; simplify_eq; reflexivity. Qed.

Lemma evm_lookup_by_hash_witness :
  let s := to_upper (hex_encode demo_hash) in
  makeGetTransactionHandler (evm_client demo_wire) None s = Err (Sentinel ErrTxNotFound) ∧
  refuses (λ c, makeGetTransactionHandler c None "0x1234") ErrInvalidTxHash ∧
  refuses (λ c, makeGetBlockHandler c None (mkBlockInput (mkBlockArg "latest" None) (Some s) false)) ErrInvalidBlockRef.
Proof.
  intros s. destruct (evm_lookup_by_hash None eq_refl) as (_ & Hboth & Htx & _). split_and!.
  - rewrite (proj1 (Htx s) demo_hash); [reflexivity|vm_compute; reflexivity|vm_compute; reflexivity].
  - apply (proj2 (Htx "0x1234")). intros b Hb Hn. unfold hex_names in Hn. apply (f_equal slen) in Hn.
    rewrite slen_hex_encode, Hb in Hn. vm_compute in Hn. discriminate.
  - by apply Hboth.
Defined.

Lemma evm_logs_filter_witness :
  refuses (λ c, makeGetLogsHandler c None (mkLogsInput None not_provided not_provided ["0x12"])) ErrInvalidTopics ∧
  asks (λ c, makeGetLogsHandler c None (mkLogsInput None (mkBlockArg "earliest" None) not_provided [hex_encode demo_hash]))
    (λ c, ea_FilterLogs c (mkLogsQuery [] (Some EarliestBlockNumber) None [[demo_hash]]))
    (λ logs, mkLogsOutput logs (Z.of_nat (length logs)) evmGetLogsNext).
Proof.
  split.
  - destruct (evm_logs_filter None (mkLogsInput None not_provided not_provided ["0x12"]) eq_refl) as [_ H].
    apply H. intros hs Hhs. inversion Hhs as [|x y xs ys [Hl Hn] _]; subst. unfold hex_names in Hn. apply (f_equal slen) in Hn.
    rewrite slen_hex_encode, Hl in Hn. vm_compute in Hn. discriminate.
  - destruct (evm_logs_filter None (mkLogsInput None (mkBlockArg "earliest" None) not_provided [hex_encode demo_hash]) eq_refl)
      as [H _]. apply (H [demo_hash]). constructor; [|constructor]. split; vm_compute; reflexivity.
Defined.

Definition demo_config_env : environ :=
  list_to_map [("NVNM_EVM_RPC_URL", "http://node"); ("NVNM_CHAIN_ID", "787111")].
Definition demo_code_request : evm_request := ReqCode (mkCodeInput (hex_encode (zeros 20)) not_provided).

Lemma evm_errors_closed_witness :
  ∃ cfg e, Load demo_config_env = Ok cfg ∧ tool_error (evm_client demo_wire) cfg None demo_code_request = Some e ∧
    ((disclosed e = true ∧ ∀ c, tool_error c cfg None demo_code_request = Some e) ∨
     ∃ text, visible e = Some text ∧ text ∈ evm_texts).
Proof.
  destruct (Load demo_config_env) as [cfg|] eqn:E; [|vm_compute in E; discriminate].
  destruct (tool_error (evm_client demo_wire) cfg None demo_code_request) as [e|] eqn:Ee; [|vm_compute in Ee; discriminate].
  exists cfg, e. split_and!; [done|done|].
  exact (evm_errors_closed demo_wire cfg None demo_code_request e demo_wire_foreign Ee).
Defined.
