(* ===== verification/Onboarding.v ===== *)
(** The onboarding tools: nvnm_overview (internal/mcp/tools_overview.go),
    wallet_status (tools_wallet.go), nvnm_setup_wizard (tools_setup_wizard.go) and
    the two verification helpers (tools_setup_verify.go).

    Signature recovery is vendored code, behind [Recoverer]. *)

From stdpp Require Import pretty.
From S2P Require Import Prelude GoErrors Hex GoParse Http Auth Catalogue Evm BlockArg Config ChainForms Anchor EvmTools.

(** ** Wallets *)

Definition WalletStatusUnfunded : string := "unfunded".
Definition WalletStatusFundedUnused : string := "funded_unused".
Definition WalletStatusFundedActive : string := "funded_active".

Record walletStatusOutput := mkWalletOutput {
  ws_Address : string; ws_BalanceWei : string; ws_BalanceHuman : string; ws_Nonce : Z; ws_HasSentTx : bool;
  ws_Status : string; ws_ChainID : Z; ws_ChainEnvironment : string; ws_TokenNative : string; ws_TokenWrapped : string;
  ws_Next : list NextAction
}.

Definition walletStatusNextActions (status : string) : list NextAction :=
  if status =s WalletStatusUnfunded then
    [next_call "nvnm_setup_wizard"
       "Walk through the funding flow. The wizard's `unfunded` state points at the bridge."]
  else if status =s WalletStatusFundedUnused then
    [next_call "nvnm_setup_verify_hash" "Optional: prove off-chain hash computation works.";
     next_call "nvnm_setup_verify_signature"
       "Optional: prove off-chain signing works before sending an on-chain tx.";
     next_call "anchor_get_registries" "Browse existing registries before creating your own."]
  else if status =s WalletStatusFundedActive then
    [next_call "anchor_get_registries" "Discover registries you may want to write into.";
     next_call "anchor_prepare_add_registry" "Create your own registry (you become admin).";
     next_call "anchor_prepare_add_record" "Anchor a checksum + URI into a registry you have editor on."]
  else [].

(** new(big.Int).SetString(s, 10) *)
Definition SetString10 (s : string) : option Z :=
  let '(neg, u) := split_sign s in
  if u =s "" then None else n ← decimal 0 u; Some (if neg then - n else n).

(** hasFunds, from the decimal text of the balance. *)
Definition has_funds (balance : option NormalizedBalance) : bool :=
  match balance with
  | Some b => match SetString10 (nbal_Wei b) with Some n => 0 <? n | None => false end
  | None => false
  end.

Section Wallet.
Context `{EthLib}.

Definition makeWalletStatusHandler (c : evm_api) (cfg : Config) (claims : option Claims) (input : string)
    : result error walletStatusOutput :=
  let naming := NamingFor (ChainEnv (site cfg)) in
  with_role claims read_roles
    (let? addr := parseAddress input in
     let? balance := rmap_err (λ e, Wrap "get balance: " e "") (ea_BalanceAt c addr None) in
     let? nonce := rmap_err (λ e, Wrap "get nonce: " e "") (ea_PendingNonceAt c addr) in
     let hasFunds := has_funds balance in
     let hasSentTx := 0 <? nonce in
     let status := if hasFunds && hasSentTx then WalletStatusFundedActive
                   else if hasFunds && negb hasSentTx then WalletStatusFundedUnused
                   else WalletStatusUnfunded in
     let '(wei, human) := match balance with
                          | Some b => (nbal_Wei b, nbal_Ether b +:+ " " +:+ tn_Wrapped naming)
                          | None => ("0", "0 " +:+ tn_Wrapped naming)
                          end in
     Ok (mkWalletOutput (AddressHex addr) wei human nonce hasSentTx status (ChainID (core cfg)) (ChainEnv (site cfg))
           (tn_Native naming) (tn_Wrapped naming) (walletStatusNextActions status))).

(** ** The wizard *)

(** A raw string literal, line by line. *)
Definition code_lines (l : list string) : string := String.concat (String (ascii_of_nat 10) "") l.

Definition WizardStateNeedsWallet : string := "needs_wallet".
Definition WizardStateUnfunded : string := "unfunded".
Definition WizardStateFundedUnused : string := "funded_unused".
Definition WizardStateFundedActive : string := "funded_active".

Record walletSnapshot := mkSnapshot {
  sn_Address : string; sn_BalanceWei : string; sn_BalanceHuman : string; sn_Nonce : Z; sn_HasSentTx : bool;
  sn_ChainID : Z; sn_ChainEnvironment : string; sn_TokenNative : string; sn_TokenWrapped : string
}.
Record sampleCode := mkSample { sc_Language : string; sc_Title : string; sc_Code : string }.
Record setupWizardOutput := mkWizardOutput {
  wz_State : string; wz_Message : string; wz_Wallet : option walletSnapshot; wz_SampleCode : list sampleCode;
  wz_BridgeURL : string; wz_WalletGeneratorURL : string; wz_Next : list NextAction
}.

Definition needsWalletSamples : list sampleCode :=
  [mkSample "python"
     "Generate an EVM wallet and store the key via the `keyring` library"
     (code_lines
      ["# Recent Linux distros mark system Python as PEP 668 externally-";
       "# managed, so " +:+ dq +:+ "pip install" +:+ dq +:+ " outside a venv errors with";
       "# " +:+ dq +:+ "error: externally-managed-environment" +:+ dq +:+ " unless --break-system-packages";
       "# is passed. The supported path is a per-project venv:";
       "#";
       "#   python3 -m venv .venv";
       "#   source .venv/bin/activate    # Windows: .venv\Scripts\activate";
       "#   pip install eth-account keyring";
       "#";
       "from eth_account import Account";
       "import keyring";
       "";
       "# Generates a new wallet. The private key bytes live only in";
       "# the local 'acct' object; we hand them straight to keyring and";
       "# do not print them.";
       "acct = Account.create()";
       "keyring.set_password(" +:+ dq +:+ "nvnm-wallet" +:+ dq +:+ ", " +:+ dq +:+ "default" +:+ dq +:+ ", acct.key.hex())";
       "";
       "# Pass ONLY the address to your code that talks to the MCP server.";
       "print(f" +:+ dq +:+ "Address: {acct.address}" +:+ dq +:+ ")";
       "# Retrieve the key later with:";
       "#   keyring.get_password(" +:+ dq +:+ "nvnm-wallet" +:+ dq +:+ ", " +:+ dq +:+ "default" +:+ dq +:+ ")";
       ""]);
   mkSample "javascript"
     "Generate an EVM wallet and store the key via env var (e.g. .env file, never committed)"
     (code_lines
      ["// npm install ethers dotenv";
       "import { Wallet } from " +:+ dq +:+ "ethers" +:+ dq +:+ ";";
       "import fs from " +:+ dq +:+ "fs" +:+ dq +:+ ";";
       "";
       "// Generates a new wallet. Write the private key into a .env file";
       "// excluded from version control; do not print it to stdout.";
       "const w = Wallet.createRandom();";
       "// The " +:+ dq +:+ "mode" +:+ dq +:+ " option to appendFileSync is only honored when the file";
       "// is created -- on an existing .env it is silently a no-op. Set 0o600";
       "// explicitly when we created the file; leave a pre-existing .env's";
       "// mode alone (the user may have intentionally chosen different perms).";
       "const existed = fs.existsSync(" +:+ dq +:+ ".env" +:+ dq +:+ ");";
       "fs.appendFileSync(" +:+ dq +:+ ".env" +:+ dq +:+ ", `NVNM_PRIVATE_KEY=${w.privateKey}";
       "`);";
       "if (!existed) {";
       "    fs.chmodSync(" +:+ dq +:+ ".env" +:+ dq +:+ ", 0o600);";
       "}";
       "console.log(" +:+ dq +:+ "Address:" +:+ dq +:+ ", w.address);";
       "// In your app, load via process.env.NVNM_PRIVATE_KEY (dotenv).";
       ""]);
   mkSample "go"
     "Generate an EVM wallet and store the key as a 0600 file"
     (code_lines
      ["// go get github.com/defiweb/go-eth/wallet";
       "package main";
       "";
       "import (";
       "    " +:+ dq +:+ "fmt" +:+ dq;
       "    " +:+ dq +:+ "os" +:+ dq;
       "";
       "    defiwallet " +:+ dq +:+ "github.com/defiweb/go-eth/wallet" +:+ dq;
       ")";
       "";
       "func main() {";
       "    priv := defiwallet.NewRandomKey()";
       "    if err := os.WriteFile(";
       "        " +:+ dq +:+ ".nvnm-key" +:+ dq +:+ ", []byte(fmt.Sprintf(" +:+ dq +:+ "%x" +:+ dq +:+ ", priv.PrivateKey().D.Bytes())), 0o600,";
       "    ); err != nil {";
       "        panic(err)";
       "    }";
       "    fmt.Println(" +:+ dq +:+ "Address:" +:+ dq +:+ ", priv.Address().String())";
       "    // Load later: read .nvnm-key, hex-decode, defiwallet.NewKeyFromBytes(...)";
       "}";
       ""])].

Definition needsWalletResponse (cfg : Config) (naming : TokenNaming) : setupWizardOutput :=
  let msg :=
    "No address provided. Two ways to get one: " +:+
    "(1) the browser-hosted wallet generator at `wallet_generator_url` " +:+
    "(opens in a tab, creates a key entirely in the browser, hands you " +:+
    "the artifacts to self-custody -- nothing leaves the page); " +:+
    "(2) the language-specific samples below, which generate a key in " +:+
    "a local runtime and IMMEDIATELY hand it to a secrets mechanism -- " +:+
    "they never print the private key to stdout. Once you have an " +:+
    "address, fund it with " +:+ tn_Wrapped naming +:+ " (see `bridge_url`) " +:+
    "and call this wizard again with the address." in
  mkWizardOutput WizardStateNeedsWallet msg None needsWalletSamples (BridgeURL (site cfg))
    (WalletGeneratorURL (site cfg))
    [next_call "nvnm_setup_wizard"
       "Re-call with the generated address to derive the next state (likely `unfunded`).";
     next_call "nvnm_setup_verify_hash"
       ("Optional: prove off-chain hashing before funding the wallet. " +:+
        "Surfaced here so an agent that never funds the wallet still knows the verify step exists.")].

Definition unfundedResponse (cfg : Config) (snap : walletSnapshot) : setupWizardOutput :=
  let msg := "Wallet has no balance. Fund it with " +:+ sn_TokenWrapped snap +:+
             " via the bridge, then re-call this wizard." in
  let msg := if BridgeURL (site cfg) =s "" then msg else msg +:+ " Bridge: " +:+ BridgeURL (site cfg) in
  mkWizardOutput WizardStateUnfunded msg (Some snap) [] (BridgeURL (site cfg)) ""
    [next_call "nvnm_setup_wizard" "Re-call after funding; the wizard will detect the new balance automatically.";
     next_call "wallet_status" "Equivalent one-shot snapshot if you don't need the prose guidance."].

Definition fundedUnusedResponse (snap : walletSnapshot) : setupWizardOutput :=
  let msg :=
    "Wallet has " +:+ sn_BalanceHuman snap +:+ " but has never sent a " +:+
    "transaction. Optional: prove your hashing and signing paths " +:+
    "work via the verify_hash and verify_signature tools below. " +:+
    "When you are ready, browse registries or create one of your own." in
  mkWizardOutput WizardStateFundedUnused msg (Some snap) [] "" ""
    [next_call "nvnm_setup_verify_hash" "Optional: prove off-chain hashing before broadcasting.";
     next_call "nvnm_setup_verify_signature" "Optional: prove off-chain signing before broadcasting.";
     next_call "anchor_get_registries" "Browse registries before creating your own."].

Definition fundedActiveResponse (snap : walletSnapshot) : setupWizardOutput :=
  let msg :=
    "Wallet has " +:+ sn_BalanceHuman snap +:+ " and has sent " +:+
    "transactions (nonce > 0). Important: this state means " +:+ dq +:+ "has " +:+
    "sent any transaction," +:+ dq +:+ " NOT " +:+ dq +:+ "has anchored." +:+ dq +:+ " This wizard reads " +:+
    "only balance and nonce, never transaction contents, so only you " +:+
    "(or your user) know what those transactions did. Use the " +:+
    "anchor_prepare_* tools to build new writes, or anchor_get_records " +:+
    "to browse on-chain records." in
  mkWizardOutput WizardStateFundedActive msg (Some snap) [] "" ""
    [next_call "anchor_get_registries" "Discover registries you may want to write into.";
     next_call "anchor_prepare_add_registry" "Create your own registry (you become admin).";
     next_call "anchor_prepare_add_record" "Anchor a checksum + URI into a registry you have editor on."].

Definition makeSetupWizardHandler (c : evm_api) (cfg : Config) (claims : option Claims) (address : string)
    : result error setupWizardOutput :=
  let naming := NamingFor (ChainEnv (site cfg)) in
  with_role claims read_roles
    (if address =s "" then Ok (needsWalletResponse cfg naming)
     else
       let? addr := parseAddress address in
       let? balance := rmap_err (λ e, Wrap "get balance: " e "") (ea_BalanceAt c addr None) in
       let? nonce := rmap_err (λ e, Wrap "get nonce: " e "") (ea_PendingNonceAt c addr) in
       let hasFunds := has_funds balance in
       let hasSentTx := 0 <? nonce in
       let '(wei, human) := match balance with
                            | Some b => (nbal_Wei b, nbal_Ether b +:+ " " +:+ tn_Wrapped naming)
                            | None => ("0", "0 " +:+ tn_Wrapped naming)
                            end in
       let snap := mkSnapshot (AddressHex addr) wei human nonce hasSentTx (ChainID (core cfg)) (ChainEnv (site cfg))
                     (tn_Native naming) (tn_Wrapped naming) in
       Ok (if negb hasFunds then unfundedResponse cfg snap
           else if hasFunds && negb hasSentTx then fundedUnusedResponse snap
           else fundedActiveResponse snap)).
End Wallet.

(** ** Verification helpers *)

Definition challengeVersionTag : string := "nvnm-setup-challenge-v1".

Definition challengeForAddress (addr : address) : string :=
  let lower := to_lower (address_String addr) in
  "0x" +:+ hex_encode (sha256 (lower +:+ ":" +:+ challengeVersionTag)).

Definition expectedHashForChallenge (challenge : string) : string := "0x" +:+ hex_encode (sha256 challenge).

Record verifyHashOutput := mkVerifyHash {
  vh_OK : bool; vh_Address : string; vh_Challenge : string; vh_Expected : string; vh_Got : string;
  vh_Next : list NextAction
}.

Definition verify_hash_retry : list NextAction :=
  [next_call "nvnm_setup_verify_hash"
     ("Recompute SHA-256 over the challenge string verbatim (UTF-8 bytes, including the 0x prefix). " +:+
      "The expected digest is in this response's `expected` field.")].
Definition verify_hash_done : list NextAction :=
  [next_call "nvnm_setup_verify_signature" "Hash path proven. Next: prove your signing path works."].

Definition makeVerifyHashHandler `{EthLib} (claims : option Claims) (address hash : string)
    : result error verifyHashOutput :=
  with_role claims read_roles
    (let? addr := parseAddress address in
     if hash =s "" then Err (Wrap "hash is required: " ErrMissingRequired "")
     else
       let challenge := challengeForAddress addr in
       let expected := expectedHashForChallenge challenge in
       let got := to_lower hash in
       let got := if has_prefix "0x" got then got else "0x" +:+ got in
       let ok := got =s expected in
       Ok (mkVerifyHash ok (address_String addr) challenge expected got
             (if ok then verify_hash_done else verify_hash_retry))).

(** types.Signature; SignatureFromBytes takes V from byte 64 on. *)
Record Signature := mkSignature { sig_V : Z; sig_R : Z; sig_S : Z }.
Definition SignatureFromBytes (b : string) : option Signature :=
  if slen b <? 65 then None
  else Some (mkSignature (be_val (str_drop 64 b)) (be_val (str_take 32 b)) (be_val (str_take 32 (str_drop 32 b)))).
Definition SignatureFromHex (h : string) : option Signature := b ← HexToBytes h; SignatureFromBytes b.

(** crypto.ECRecoverer: [None] is an error or a nil address. *)
Class Recoverer := { RecoverMessage : string → Signature → option address }.

Record verifySignatureOutput := mkVerifySig {
  vs_OK : bool; vs_Address : string; vs_Challenge : string; vs_RecoveredAt : string; vs_Next : list NextAction
}.

Definition verify_sig_unrecoverable : list NextAction :=
  [next_call "nvnm_setup_verify_signature"
     ("Could not recover a signer. Produce an EIP-191 personal_sign signature over the `challenge` " +:+
      "string in this response (do not pre-hash), then resubmit.")].
Definition verify_sig_mismatch : list NextAction :=
  [next_call "nvnm_setup_verify_signature"
     ("Recovered signer does not match the input address. Sign the " +:+
      "challenge with the private key for the input address; do not pre-hash.")].
Definition verify_sig_done : list NextAction :=
  [next_call "wallet_status"
     "Signing path proven. Check the wallet's on-chain state and move on to anchor tools."].

Definition makeVerifySignatureHandler `{EthLib} `{Recoverer} (claims : option Claims) (address signature : string)
    : result error verifySignatureOutput :=
  with_role claims read_roles
    (let? addr := parseAddress address in
     if signature =s "" then Err (Wrap "signature is required: " ErrMissingRequired "")
     else match SignatureFromHex signature with
          | None => Err (Wrap "signature must be 65-byte 0x-prefixed hex: " ErrInvalidSignature "")
          | Some sig =>
              let challenge := challengeForAddress addr in
              match RecoverMessage challenge sig with
              | None => Ok (mkVerifySig false (address_String addr) challenge "" verify_sig_unrecoverable)
              | Some recovered =>
                  let ok := recovered =s addr in
                  Ok (mkVerifySig ok (address_String addr) challenge (address_String recovered)
                        (if ok then verify_sig_done else verify_sig_mismatch))
              end
          end).

(** ** The overview *)

Record canonicalJourneyStep := mkStep { cj_Step : Z; cj_Tool : string; cj_Hint : string }.

Definition whatIsNVNMChainText : string :=
  "NVNM Chain is an EVM L2 on MANTRA Chain " +:+
  "used as a neutral notary for document anchoring. It stores only " +:+
  "one-way hash fingerprints (SHA-256) of documents, never the " +:+
  "documents themselves. Anchor writes are publicly observable: " +:+
  "add_record logs the SHA-256 hash and add_registry logs the " +:+
  "registry name in public on-chain logs. A hash is one-way, so the " +:+
  "underlying document is not derivable -- counterparties exchange " +:+
  "the file off-band and verify by recomputing the hash; encode or " +:+
  "salt sensitive registry names before anchoring.".

Definition privacyByDesignText : string :=
  "This server's onboarding wizard and " +:+
  "wallet_status tool read only balance and nonce -- never " +:+
  "transaction contents -- so they can tell you whether a wallet has " +:+
  "been funded or has sent transactions, but not whether it anchored " +:+
  "anything specifically. The anchored data itself is public on-chain " +:+
  "(the SHA-256 hash and registry name appear in transaction logs), " +:+
  "but a hash does not reveal the underlying document; only you (or " +:+
  "your user) hold the pre-image.".

Definition canonicalJourney : list canonicalJourneyStep :=
  [mkStep 1 "nvnm_setup_wizard"
     ("Find out what state your wallet is in (no wallet / unfunded / funded " +:+
      "but unused / has sent a transaction). The wizard tells you what to do next.");
   mkStep 2 "wallet_status"
     ("Once you have an address, get a one-shot snapshot: balance, nonce, " +:+
      "status. Equivalent to wizard's state derivation but without the prose guidance.");
   mkStep 3 "anchor_get_registries"
     ("List the registries on chain. A registry is a logical container for " +:+
      "records; each is owned by an admin who can grant editor roles.");
   mkStep 4 "anchor_prepare_add_registry"
     ("Create your own registry. You become its admin automatically. " +:+
      "Returns an unsigned transaction; sign and broadcast separately.");
   mkStep 5 "anchor_prepare_add_record"
     ("Anchor a SHA-256 checksum + URI into your registry. " +:+
      "Returns an unsigned transaction; sign and broadcast separately.");
   mkStep 6 "evm_send_raw_transaction"
     ("Submit the signed bytes from any anchor_prepare_* call. After this, " +:+
      "evm_get_transaction_receipt confirms inclusion.")].

Definition basePrereqs : list string :=
  ["An EVM wallet you control. Server never holds private keys.";
   "That wallet funded with the gas token. See bridge_url for the funding flow.";
   ("A signing path: either a browser wallet (MetaMask via the wallet_tx_request " +:+
    "field returned by anchor_prepare_*) or a local/headless signer " +:+
    "(sign raw_tx, broadcast via evm_send_raw_transaction).")].

Definition prereqsFor (cfg : Config) : list string :=
  let broadcast :=
    if KeylessWrites (keyless cfg) then
      "For broadcasting (evm_send_raw_transaction): no credential of " +:+
      "any kind. This deployment is keyless: it issues no accounts and no API " +:+
      "keys, and accepts an anonymous signed transaction whose destination is " +:+
      "the anchor precompile. Your wallet signature is the only identity the " +:+
      "server sees. Per-signer volume quotas and a signer blacklist apply."
    else
      "For broadcasting (evm_send_raw_transaction): an API key on this " +:+
      "server with the writer or admin role. The anchor_prepare_* tools return " +:+
      "unsigned bytes and may be callable without authentication under a " +:+
      "keyless-read deployment (per the deployment's auth policy)." in
  basePrereqs ++ [broadcast].

Record overviewOutput := mkOverview {
  ov_ChainName : string; ov_ChainEnvironment : string; ov_ChainID : Z; ov_AnchorPrecompile : string;
  ov_ExplorerURL : string; ov_DocsURL : string; ov_BridgeURL : string; ov_TokenNative : string; ov_TokenWrapped : string;
  ov_WhatIsNVNMChain : string; ov_PrivacyByDesign : string; ov_Prereqs : list string;
  ov_CanonicalJourney : list canonicalJourneyStep; ov_Next : list NextAction
}.

Definition makeOverviewHandler (cfg : Config) (claims : option Claims) : result error overviewOutput :=
  let naming := NamingFor (ChainEnv (site cfg)) in
  with_role claims read_roles
    (Ok (mkOverview "NVNM Chain" (ChainEnv (site cfg)) (ChainID (core cfg)) (AnchorAddress (core cfg))
           (ExplorerURL (site cfg)) (DocsURL (site cfg)) (BridgeURL (site cfg)) (tn_Native naming) (tn_Wrapped naming)
           whatIsNVNMChainText privacyByDesignText (prereqsFor cfg) canonicalJourney
           [next_call "nvnm_setup_wizard"
              "Recommended first call. The wizard derives your wallet state and tells you what to do next."])).

(** ** The two wallet tools agree, and classify what the chain says *)

Lemma SetString10_pretty n : 0 ≤ n → SetString10 (pretty n) = Some n.
Proof.
  intros Hn. unfold SetString10. pose proof (decimal_pretty n Hn) as Hd. pose proof (decimal_all_digits _ _ _ Hd) as Ha.
  destruct (pretty_head n Hn) as (c & s & Ep & _). rewrite Ep in *. cbn [BlockArg.all_digits] in Ha.
  destruct (digit_of c) as [v|] eqn:Ec; [|done]. pose proof (digit_char c v Ec) as (_ & _ & Hm & _). cbn [split_sign].
  rewrite Hm. assert (Ascii.eqb c "+" = false) as ->.
  { destruct (Ascii.eqb c "+") eqn:E; [|done]. apply Ascii.eqb_eq in E as ->. by vm_compute in Ec. }
  cbn [String.eqb]. by rewrite Hd.
Qed.

(** The snapshot a status answer contains. *)
Definition snapshot_of (o : walletStatusOutput) : walletSnapshot :=
  mkSnapshot (ws_Address o) (ws_BalanceWei o) (ws_BalanceHuman o) (ws_Nonce o) (ws_HasSentTx o) (ws_ChainID o)
    (ws_ChainEnvironment o) (ws_TokenNative o) (ws_TokenWrapped o).

(** Wallet states. For every client and every address text, wallet_status and
    the setup wizard give the same answer: the same error, or the same state with
    the same snapshot. Over a node that reports a balance and a nonce the state is
    the one they imply (unfunded without funds, whatever was sent; active once a
    transaction was sent), the wei text is the balance, and the wizard asks the
    node nothing when no address is given. *)
Theorem wallet_states `{EthLib} cfg claims :
  (∀ c s, s ≠ "" →
     match makeWalletStatusHandler c cfg claims s, makeSetupWizardHandler c cfg claims s with
     | Ok o, Ok z => wz_State z = ws_Status o ∧ wz_Wallet z = Some (snapshot_of o)
     | Err e, Err e' => e = e'
     | _, _ => False
     end) ∧
  (∀ w s a v n o, 0 ≤ v → parseAddress s = Ok a → wr_Balance w a LatestBlockNumber = Some (Ok (Some v)) →
     wr_TransactionCount w a = Ok n → makeWalletStatusHandler (evm_client w) cfg claims s = Ok o →
     ws_BalanceWei o = pretty v ∧ ws_Nonce o = n ∧ ws_Address o = AddressHex a ∧
     ws_Status o = if v =? 0 then WalletStatusUnfunded
                   else if 0 <? n then WalletStatusFundedActive else WalletStatusFundedUnused) ∧
  (∀ c c', makeSetupWizardHandler c cfg claims "" = makeSetupWizardHandler c' cfg claims "").
Proof.
  unfold makeWalletStatusHandler, makeSetupWizardHandler, with_role. destruct (requireRole claims read_roles) as [e|].
  { split_and!; try done. }
  split_and!; [| |done].
  - intros c s Hs. rewrite (proj2 (String.eqb_neq s "") Hs). destruct (parseAddress s) as [a|e]; [|done]. cbn [rbind].
    destruct (ea_BalanceAt c a None) as [b|e]; [|done]. cbn [rmap_err rbind].
    destruct (ea_PendingNonceAt c a) as [n|e]; [|done]. cbn [rmap_err rbind]. cbv zeta.
    destruct b as [b|]; destruct (has_funds _), (0 <? n); cbn; done.
  - intros w s a v n o Hv Ha Hb Hn. rewrite Ha. cbn [rbind evm_client ea_BalanceAt ea_PendingNonceAt].
    unfold BalanceAt, PendingNonceAt. cbn [blockNumOrLatest]. rewrite Hb, Hn. cbn [mbind option_bind guardNodeDecode rbind rmap_err].
    cbv zeta. assert (has_funds (Some (normalizeBalance a v)) = negb (v =? 0)) as ->.
    { cbn [has_funds normalizeBalance nbal_Wei]. rewrite SetString10_pretty by done.
      destruct (v =? 0) eqn:E; bool_to_prop; [by subst|]. apply Z.ltb_lt. lia. }
    intros [= <-]. cbn [ws_BalanceWei ws_Nonce ws_Address ws_Status normalizeBalance nbal_Wei]. split_and!; try done.
    by destruct (v =? 0), (0 <? n).
Qed.

(** *** Spelling of digests *)

Lemma string_app_inj (p a b : string) : p +:+ a = p +:+ b → a = b.
Proof. induction p as [|c p IH]; [done|]. by intros [= ?%IH]. Qed.

Lemma to_lower_hex b : to_lower (hex_encode b) = hex_encode b.
Proof. apply hex_decode_spelling, hex_decode_encode. Qed.

Lemma to_lower_upper s : to_lower (to_upper s) = to_lower s.
Proof.
  induction s as [|c s IH]; [done|].
  change (String (lower_char (upper_char c)) (to_lower (to_upper s)) = String (lower_char c) (to_lower s)). rewrite IH.
  f_equal. by destruct c as [[] [] [] [] [] [] [] []].
Qed.

Lemma trim_0x_hex b : trim_0x (hex_encode b) = hex_encode b.
Proof.
  pose proof (Has0xPrefix_hex_encode b) as H. unfold Has0xPrefix in H. bool_to_prop.
  unfold trim_0x, trim_prefix. by destruct (has_prefix "0x" (hex_encode b)).
Qed.

(** The hashing challenge corrects itself. A digest is accepted exactly when it
    is the SHA-256 of the challenge, in either letter case, with or without its
    prefix; the challenge depends on the address alone and not on its spelling;
    and whatever was submitted, the expected digest of the answer is accepted
    when it is resubmitted, as it stands, in capitals or without the prefix. *)
Theorem verify_hash_selfcorrecting `{EthLib} claims s h out
    (Hout : makeVerifyHashHandler claims s h = Ok out) :
  (∃ a, parseAddress s = Ok a ∧ vh_Challenge out = challengeForAddress a ∧ vh_Address out = address_String a) ∧
  (vh_OK out = true ↔ trim_0x (to_lower h) = hex_encode (sha256 (vh_Challenge out))) ∧
  (∀ h', h' ∈ [vh_Expected out; to_upper (vh_Expected out); trim_0x (vh_Expected out)] →
     ∃ out', makeVerifyHashHandler claims s h' = Ok out' ∧ vh_OK out' = true ∧ vh_Challenge out' = vh_Challenge out).
Proof.
  revert Hout. unfold makeVerifyHashHandler, with_role. destruct (requireRole claims read_roles); [done|].
  destruct (parseAddress s) as [a|e]; [|done]. cbn [rbind]. destruct (h =s "") eqn:Eh; [done|]. cbv zeta.
  intros [= <-]. cbn [vh_Challenge vh_Address vh_OK vh_Expected].
  set (d := hex_encode (sha256 (challengeForAddress a))).
  assert (∀ x, ((if has_prefix "0x" (to_lower x) then to_lower x else "0x" +:+ to_lower x)
    =s expectedHashForChallenge (challengeForAddress a)) = true ↔ trim_0x (to_lower x) = d) as Hok.
  { intros x. rewrite String.eqb_eq. unfold trim_0x, trim_prefix, expectedHashForChallenge. fold d.
    destruct (has_prefix "0x" (to_lower x)) eqn:Ep.
    - apply has_prefix_spec in Ep as [y ->]. rewrite str_drop_app. split; [apply string_app_inj|by intros ->].
    - split; [apply string_app_inj|by intros ->]. }
  split_and!; [by exists a|apply Hok|].
  assert (to_lower d = d) as Hd by apply to_lower_hex.
  intros h' Hh'. assert (h' ≠ "" ∧ trim_0x (to_lower h') = d) as [Hne Hh].
  { unfold expectedHashForChallenge in Hh'. fold d in Hh'. rewrite !elem_of_cons, elem_of_nil in Hh'.
    destruct Hh' as [->|[->|[->|[]]]].
    - split; [done|]. change (to_lower ("0x" +:+ d)) with ("0x" +:+ to_lower d). by rewrite Hd.
    - split; [done|]. rewrite to_lower_upper. change (to_lower ("0x" +:+ d)) with ("0x" +:+ to_lower d). by rewrite Hd.
    - change (trim_0x ("0x" +:+ d)) with d. rewrite Hd. split; [|apply trim_0x_hex].
      intros E. pose proof (length_hex_encode (sha256 (challengeForAddress a))) as Hl. fold d in Hl.
      by rewrite E, length_sha256 in Hl. }
  rewrite (proj2 (String.eqb_neq h' "") Hne). eexists. split; [done|]. cbn [vh_OK vh_Challenge]. split; [|done].
  by apply Hok.
Qed.

(** *** The signing challenge *)

(** A signature is accepted exactly when the signer recovered over the challenge
    is the address asked about, and the challenge is the one of the hashing
    helper; the answer to a rejected signature carries it as well. *)
Lemma verify_signature_spec `{EthLib} `{Recoverer} claims s sg out :
  makeVerifySignatureHandler claims s sg = Ok out →
  ∃ a sig, parseAddress s = Ok a ∧ SignatureFromHex sg = Some sig ∧ vs_Challenge out = challengeForAddress a ∧
    (vs_OK out = true ↔ RecoverMessage (challengeForAddress a) sig = Some a) ∧
    (∀ h o, makeVerifyHashHandler claims s h = Ok o → vh_Challenge o = vs_Challenge out).
Proof.
  unfold makeVerifySignatureHandler, makeVerifyHashHandler, with_role. destruct (requireRole claims read_roles); [done|].
  destruct (parseAddress s) as [a|]; [|done]. cbn [rbind]. destruct (sg =s ""); [done|].
  destruct (SignatureFromHex sg) as [sig|]; [|done]. cbv zeta. intros Hout. exists a, sig.
  assert (vs_Challenge out = challengeForAddress a) as Hc by (destruct (RecoverMessage _ sig); by simplify_eq).
  split_and!; try done.
  - destruct (RecoverMessage (challengeForAddress a) sig) as [r|]; simplify_eq; cbn [vs_OK]; [|done].
    rewrite String.eqb_eq. split; [by intros ->|by intros [= ->]].
  - intros h o. destruct (h =s ""); [done|]. by intros [= <-].
Qed.

(** *** Hints *)

(** With write tools every hint of the onboarding tools names a registered tool. *)
Lemma onboarding_hints :
  (∀ status, hints_registered true (walletStatusNextActions status)) ∧
  (∀ cfg naming, hints_registered true (wz_Next (needsWalletResponse cfg naming))) ∧
  (∀ cfg snap, hints_registered true (wz_Next (unfundedResponse cfg snap))) ∧
  (∀ snap, hints_registered true (wz_Next (fundedUnusedResponse snap))) ∧
  (∀ snap, hints_registered true (wz_Next (fundedActiveResponse snap))) ∧
  hints_registered true (verify_hash_retry ++ verify_hash_done) ∧
  hints_registered true (verify_sig_unrecoverable ++ verify_sig_mismatch ++ verify_sig_done) ∧
  Forall (λ s, cj_Tool s ∈ tool_names (registered_tools true)) canonicalJourney.
Proof.
  split_and!; try (intros; hints).
  - intros status. unfold walletStatusNextActions.
    destruct (status =s WalletStatusUnfunded); [hints|]. destruct (status =s WalletStatusFundedUnused); [hints|].
    destruct (status =s WalletStatusFundedActive); hints.
  - assert (hints_registered true ((λ s, next_call (cj_Tool s) "") <$> canonicalJourney)) as Hh by hints.
    by apply Forall_fmap in Hh.
Qed.

(** Without them, the default, an active wallet is sent to tools that do not exist. *)
Lemma onboarding_hints_dangle :
  ¬ hints_registered false (walletStatusNextActions WalletStatusFundedActive) ∧
  ¬ Forall (λ s, cj_Tool s ∈ tool_names (registered_tools false)) canonicalJourney.
Proof.
  split; [by rewrite <- hints_check_spec|]. intros Hj.
  assert (hints_registered false ((λ s, next_call (cj_Tool s) "") <$> canonicalJourney)) as Hh
    by (by apply Forall_fmap).
  apply hints_check_spec in Hh. by vm_compute in Hh.
Qed.

(** ** A concrete wallet *)

Definition demo_wallet : string := hex_encode (zeros 20).

Lemma verify_hash_selfcorrecting_witness :
  ∃ out, makeVerifyHashHandler None demo_wallet "ABCD" = Ok out ∧ vh_OK out = false ∧
    ∃ out', makeVerifyHashHandler None demo_wallet (vh_Expected out) = Ok out' ∧ vh_OK out' = true.
Proof.
  destruct (makeVerifyHashHandler None demo_wallet "ABCD") as [out|e] eqn:E; [|vm_compute in E; discriminate].
  exists out. split; [done|]. split; [vm_compute in E; by injection E as <-|].
  destruct (verify_hash_selfcorrecting None demo_wallet "ABCD" out E) as (_ & _ & H).
  destruct (H (vh_Expected out)) as (out' & H1 & H2 & _); [left|]. by exists out'.
Defined.
