(* ===== verification/SignerStores.v ===== *)
(** The shared tables of the keyless bundle: the per-signer quota counter
    (internal/mcp/signer_quota.go), the signer ban list (signer_blacklist.go)
    and the write-audit log (write_audit.go).

    The tables are in Postgres: a statement that does not reach the database
    (its flag in [db_env] is false) fails and has no effect. *)

From S2P Require Import Prelude GoErrors Hex.

Record BlacklistEntry := mkBan { bl_Signer : string; bl_Reason : string; bl_CreatedAt : Z }.

Record WriteAuditEntry := mkAudit {
  wa_Signer : string; wa_ToAddr : string; wa_ValueWei : string; wa_CalldataLen : Z;
  wa_MethodSelector : string; wa_TxHash : string; wa_Outcome : string; wa_Error : string;
  wa_CreatedAt : Z
}.

Record keyless_db := mkDb {
  signer_quota : gmap (string * Z) Z;
  signer_blacklist : gmap string BlacklistEntry;
  write_audit : list WriteAuditEntry
}.

Record db_env := mkDbEnv {
  up_count : bool; up_increment : bool; up_is_banned : bool; up_ban : bool; up_record : bool; up_query : bool
}.

Definition db_error : error := Opaque "database error".

(** ** Quota *)

(** now.UTC().Truncate(window): rounding down to a multiple of the window since
    the zero time; a window that is not positive leaves the time alone. *)
Definition WindowStart (now window : Z) : Z := if window <=? 0 then now else now - now mod window.

Definition Count (env : db_env) (signer : string) (windowStart : Z) (db : keyless_db) : result error Z :=
  if negb (up_count env) then Err (Wrap "count signer_quota: " db_error "")
  else Ok (default 0 (signer_quota db !! (to_lower signer, windowStart))).

Definition Increment (env : db_env) (signer : string) (windowStart : Z) (db : keyless_db)
    : option error * keyless_db :=
  if negb (up_increment env) then (Some (Wrap "increment signer_quota: " db_error ""), db)
  else
    let key := (to_lower signer, windowStart) in
    (None, mkDb (<[key := default 0 (signer_quota db !! key) + 1]> (signer_quota db))
             (signer_blacklist db) (write_audit db)).

(** ** Ban list *)

Definition IsBlacklisted (env : db_env) (signer : string) (db : keyless_db) : result error bool :=
  if negb (up_is_banned env) then Err (Wrap "query signer_blacklist: " db_error "")
  else Ok (bool_decide (is_Some (signer_blacklist db !! to_lower signer))).

(** created_at keeps its first value on conflict. *)
Definition Add (env : db_env) (now : Z) (signer reason : string) (db : keyless_db)
    : option error * keyless_db :=
  if negb (up_ban env) then (Some (Wrap "add signer_blacklist: " db_error ""), db)
  else
    let k := to_lower signer in
    let e := match signer_blacklist db !! k with
             | Some e => mkBan k reason (bl_CreatedAt e)
             | None => mkBan k reason now
             end in
    (None, mkDb (signer_quota db) (<[k := e]> (signer_blacklist db)) (write_audit db)).

Definition Remove (env : db_env) (signer : string) (db : keyless_db) : option error * keyless_db :=
  if negb (up_ban env) then (Some (Wrap "remove signer_blacklist: " db_error ""), db)
  else (None, mkDb (signer_quota db) (delete (to_lower signer) (signer_blacklist db)) (write_audit db)).

(** ORDER BY created_at DESC *)
Definition ban_newer (a b : BlacklistEntry) : Prop := bl_CreatedAt b ≤ bl_CreatedAt a.
#[export] Instance ban_newer_dec a b : Decision (ban_newer a b).
Proof. unfold ban_newer. apply _. Defined.

Definition ListBans (env : db_env) (db : keyless_db) : result error (list BlacklistEntry) :=
  if negb (up_is_banned env) then Err (Wrap "list signer_blacklist: " db_error "")
  else Ok (merge_sort ban_newer (map_to_list (signer_blacklist db)).*2).

(** ** Write audit *)

Definition defaultWriteAuditQueryLimit : Z := 100.
Definition maxWriteAuditQueryLimit : Z := 1000.

Definition MethodSelectorOf (calldata : string) : string :=
  if slen calldata <? 4 then "" else "0x" +:+ hex_encode (str_take 4 calldata).

Definition Record_ (env : db_env) (now : Z) (e : WriteAuditEntry) (db : keyless_db)
    : option error * keyless_db :=
  if negb (up_record env) then (Some (Wrap "record write_audit: " db_error ""), db)
  else
    let row := mkAudit (to_lower (wa_Signer e)) (wa_ToAddr e) (wa_ValueWei e) (wa_CalldataLen e)
                 (to_lower (wa_MethodSelector e)) (wa_TxHash e) (wa_Outcome e) (wa_Error e) now in
    (None, mkDb (signer_quota db) (signer_blacklist db) (write_audit db ++ [row])).

Record WriteAuditFilter := mkFilter {
  wf_Signer : string; wf_From : option Z; wf_To : option Z; wf_Limit : Z
}.

Definition audit_newer (a b : WriteAuditEntry) : Prop := wa_CreatedAt b ≤ wa_CreatedAt a.
#[export] Instance audit_newer_dec a b : Decision (audit_newer a b).
Proof. unfold audit_newer. apply _. Defined.

Definition query_limit (f : WriteAuditFilter) : Z :=
  let limit := wf_Limit f in
  let limit := if limit <=? 0 then defaultWriteAuditQueryLimit else limit in
  if maxWriteAuditQueryLimit <? limit then maxWriteAuditQueryLimit else limit.

Definition audit_match (f : WriteAuditFilter) (e : WriteAuditEntry) : bool :=
  ((to_lower (wf_Signer f) =s "") || (wa_Signer e =s to_lower (wf_Signer f))) &&
  match wf_From f with None => true | Some t => t <=? wa_CreatedAt e end &&
  match wf_To f with None => true | Some t => wa_CreatedAt e <=? t end.

Definition Query (env : db_env) (f : WriteAuditFilter) (db : keyless_db) : result error (list WriteAuditEntry) :=
  if negb (up_query env) then Err (Wrap "query write_audit: " db_error "")
  else Ok (take (Z.to_nat (query_limit f))
             (merge_sort audit_newer (List.filter (audit_match f) (write_audit db)))).

(** ** Lemmas *)

Lemma Sorted_app_left {A} (R : A → A → Prop) l1 l2 : Sorted R (l1 ++ l2) → Sorted R l1.
Proof.
  induction l1 as [|x l1 IH]; [constructor|]. simpl. intros [Hs Hh]%Sorted_inv.
  constructor; [auto|]. destruct l1; [constructor|]. apply HdRel_inv in Hh. by constructor.
Qed.

Lemma lower_char_idem c : lower_char (lower_char c) = lower_char c.
Proof. destruct c as [[][][][][][][][]]; reflexivity. Qed.

Lemma to_lower_idem s : to_lower (to_lower s) = to_lower s.
Proof. induction s as [|c s IH]; [done|]. cbn [to_lower smap]. by rewrite lower_char_idem, IH. Qed.

Lemma WindowStart_bounds now window :
  0 < window → WindowStart now window ≤ now < WindowStart now window + window ∧
  WindowStart now window mod window = 0.
Proof.
  intros Hw. unfold WindowStart. rewrite (proj2 (Z.leb_gt _ _)) by done.
  pose proof (Z.mod_pos_bound now window Hw). split; [lia|].
  rewrite Zminus_mod, Zmod_mod, Z.sub_diag. apply Zmod_0_l.
Qed.

Lemma query_limit_bounds f : 1 ≤ query_limit f ≤ maxWriteAuditQueryLimit.
Proof.
  unfold query_limit, defaultWriteAuditQueryLimit, maxWriteAuditQueryLimit.
  destruct (wf_Limit f <=? 0) eqn:E1, (1000 <? _) eqn:E2; bool_to_prop; lia.
Qed.

#[export] Hint Resolve query_limit_bounds : go.
#[export] Hint Rewrite to_lower_idem : go_rw.

(** Audit queries. A query returns at most the hard ceiling of rows,
    whatever limit the caller asks for; every row returned is a stored row in
    the time window whose signer is the requested one in any letter case; the
    rows come newest first; and a matching row is left out only when the limit
    is reached. *)
Theorem audit_query_spec env f db rows
    (Hq : Query env f db = Ok rows) :
  Z.of_nat (length rows) ≤ query_limit f ≤ maxWriteAuditQueryLimit ∧
  (∀ e, e ∈ rows → e ∈ write_audit db ∧ audit_match f e = true) ∧
  Sorted audit_newer rows ∧
  (Z.of_nat (length rows) < query_limit f → ∀ e, e ∈ write_audit db → audit_match f e = true → e ∈ rows).
Proof.
  unfold Query in Hq. destruct (negb _); [done|]. injection Hq as <-.
  set (l := List.filter _ _). pose proof (query_limit_bounds f) as [Hl1 Hl2].
  assert (Sorted audit_newer (merge_sort audit_newer l)) as Hsorted.
  { apply Sorted_merge_sort. intros x y. unfold audit_newer. lia. }
  assert (∀ e, e ∈ merge_sort audit_newer l ↔ e ∈ write_audit db ∧ audit_match f e = true) as Hin.
  { intros e. rewrite merge_sort_Permutation. unfold l.
    rewrite list_elem_of_In, filter_In, list_elem_of_In. done. }
  split_and!.
  - rewrite length_take. lia.
  - done.
  - intros e He. apply Hin. by eapply elem_of_sublist, sublist_take.
  - rewrite <- (take_drop (Z.to_nat (query_limit f)) (merge_sort audit_newer l)) in Hsorted.
    by eapply Sorted_app_left.
  - intros Hlt e He Hm. rewrite length_take in Hlt.
    rewrite take_ge by lia. by apply Hin.
Qed.

Lemma audit_query_spec_witness :
  let e := mkAudit "0xab" "" "0" 0 "" "" "broadcast_ok" "" 7 in
  let db := mkDb ∅ ∅ [e] in
  Z.of_nat (length [e]) ≤ 1000.
Proof.
  intros e db.
  destruct (audit_query_spec (mkDbEnv true true true true true true) (mkFilter "0xAB" None None 5000) db [e] eq_refl)
    as ([H1 H2] & _). unfold maxWriteAuditQueryLimit in H2. lia.
Defined.
