(* ===== verification/Relay.v ===== *)
(** The broadcast relay: the anchor-scope check (internal/mcp/relayscope.go)
    and the evm_send_raw_transaction handler with its three modes, its
    per-signer gates, its audit row and its quota charge (tools_evm_write.go).

    The handler's state [relay_st] is what it can change: the keyless tables,
    the raw transactions handed to the EVM client's node, and the metrics. Log
    lines are not modelled. The EVM client is the argument [re_send]: from a
    signed hex string, the bytes handed to the node (if any) and the outcome. *)

From stdpp Require Import pretty.
From S2P Require Import Prelude GoErrors Hex Http Auth Evm SignerStores.

Inductive RelayRejectCause :=
| CauseDecode | CauseAnchorMisconfig | CauseRelayScope | CauseSignerBlacklist | CauseSignerQuota
| CauseQuotaStoreErr | CauseBlacklistStoreErr.

Record relay_st := mkRelay {
  rl_db : keyless_db;
  rl_sent : list string;                    (* raw transactions, oldest first *)
  rl_broadcasts : list string;              (* RecordBroadcast outcomes *)
  rl_rejects : list RelayRejectCause        (* RecordRelayReject causes *)
}.

Record signerGates := mkGates {
  g_blacklist : bool;                       (* a store is configured *)
  g_quota : bool;
  g_rate : Z;
  g_window : Z;
  g_quotaFailOpen : bool;
  g_blacklistFailOpen : bool
}.

(** The handler's configuration: makeSendRawTxHandler's arguments. *)
Record relay_cfg := mkRelayCfg {
  rc_anchorAddr : string; rc_keylessWrites : bool; rc_relayAllowAny : bool;
  rc_audit : bool; rc_metrics : bool; rc_gates : signerGates
}.

Record relay_env := mkRelayEnv {
  re_now : Z;
  re_db : db_env;
  re_send : string → option string * result error string
}.

Definition set_db (db : keyless_db) (st : relay_st) : relay_st :=
  mkRelay db (rl_sent st) (rl_broadcasts st) (rl_rejects st).

Definition recordReject (cfg : relay_cfg) (c : RelayRejectCause) (st : relay_st) : relay_st :=
  if rc_metrics cfg then mkRelay (rl_db st) (rl_sent st) (rl_broadcasts st) (rl_rejects st ++ [c]) else st.

Definition recordBroadcast (cfg : relay_cfg) (outcome : string) (st : relay_st) : relay_st :=
  if rc_metrics cfg then mkRelay (rl_db st) (rl_sent st) (rl_broadcasts st ++ [outcome]) (rl_rejects st) else st.

Definition maxAuditErrLen : Z := 512.

Definition boundAuditErr (err : option error) : string :=
  match err with
  | None => ""
  | Some e =>
      let s := error_text e in
      if maxAuditErrLen <? slen s then str_take (Z.to_nat maxAuditErrLen) s +:+ "...[truncated]" else s
  end.

Section Relay.
Context `{EthLib}.

Definition checkRelayScope (to : option address) (value : Z) (anchor : address) : option sentinel :=
  match to with
  | None => Some ErrRelayScopeRejected
  | Some a =>
      if negb (a =s anchor) then Some ErrRelayScopeRejected
      else if negb (value =? 0) then Some ErrRelayValueRejected
      else None
  end.

Definition addrString (to : option address) : string :=
  match to with None => "" | Some a => address_String a end.

Definition decodeAndScope (cfg : relay_cfg) (signedTxHex : string) (st : relay_st)
    : result error DecodedTx * relay_st :=
  match DecodeSignedTx signedTxHex with
  | Err e => (Err e, recordReject cfg CauseDecode st)
  | Ok dtx =>
      match AddressFromHex (rc_anchorAddr cfg) with
      | None => (Err (Wrap "anchor address misconfigured: " ErrInvalidAddress ""),
                 recordReject cfg CauseAnchorMisconfig st)
      | Some anchor =>
          match checkRelayScope (dt_To dtx) (dt_Value dtx) anchor with
          | Some s => (Err (Sentinel s), recordReject cfg CauseRelayScope st)
          | None => (Ok dtx, st)
          end
      end
  end.

(** The blacklist part of checkSignerGates: a rejection, or go on. *)
Definition blacklist_gate (cfg : relay_cfg) (env : relay_env) (signer : string) (st : relay_st)
    : option error * relay_st :=
  let g := rc_gates cfg in
  if g_blacklist g then
    match IsBlacklisted (re_db env) signer (rl_db st) with
    | Err e =>
        if negb (g_blacklistFailOpen g)
        then (Some (Wrap "blacklist store unavailable: " e ""), recordReject cfg CauseBlacklistStoreErr st)
        else (None, st)
    | Ok true => (Some (Sentinel ErrSignerBlacklisted), recordReject cfg CauseSignerBlacklist st)
    | Ok false => (None, st)
    end
  else (None, st).

Definition quota_gate (cfg : relay_cfg) (env : relay_env) (signer : string) (ws : Z) (st : relay_st)
    : option error * relay_st :=
  let g := rc_gates cfg in
  if g_quota g then
    match Count (re_db env) signer ws (rl_db st) with
    | Err e =>
        if negb (g_quotaFailOpen g)
        then (Some (Wrap "quota store unavailable: " e ""), recordReject cfg CauseQuotaStoreErr st)
        else (None, st)
    | Ok n =>
        if g_rate g <=? n then (Some (Sentinel ErrSignerQuotaExceeded), recordReject cfg CauseSignerQuota st)
        else (None, st)
    end
  else (None, st).

Definition checkSignerGates (cfg : relay_cfg) (env : relay_env) (signer : string) (st : relay_st)
    : Z * option error * relay_st :=
  let ws := WindowStart (re_now env) (g_window (rc_gates cfg)) in
  match blacklist_gate cfg env signer st with
  | (Some e, st) => (ws, Some e, st)
  | (None, st) =>
      let '(e, st) := quota_gate cfg env signer ws st in (ws, e, st)
  end.

(** The decoded transaction (if any), the quota window and the hex to send. *)
Definition broadcast_plan : Type := option DecodedTx * Z * string.

Definition prepareKeylessBroadcast (cfg : relay_cfg) (env : relay_env) (signedTxHex : string) (st : relay_st)
    : result error broadcast_plan * relay_st :=
  match decodeAndScope cfg signedTxHex st with
  | (Err e, st) => (Err e, st)
  | (Ok dtx, st) =>
      match checkSignerGates cfg env (address_String (dt_Signer dtx)) st with
      | (_, Some e, st) => (Err e, st)
      | (ws, None, st) => (Ok (Some dtx, ws, "0x" +:+ hex_encode (dt_CanonicalRaw dtx)), st)
      end
  end.

(** The zero time.Time. *)
Definition zero_time : Z := 0.

Definition resolveBroadcast (cfg : relay_cfg) (env : relay_env) (signedTxHex : string) (st : relay_st)
    : result error broadcast_plan * relay_st :=
  if rc_keylessWrites cfg then prepareKeylessBroadcast cfg env signedTxHex st
  else if rc_relayAllowAny cfg then
    match DecodeSignedTx signedTxHex with
    | Ok dtx => (Ok (Some dtx, zero_time, signedTxHex), st)
    | Err _ => (Ok (None, zero_time, signedTxHex), st)
    end
  else
    match decodeAndScope cfg signedTxHex st with
    | (Err e, st) => (Err e, st)
    | (Ok dtx, st) => (Ok (Some dtx, zero_time, signedTxHex), st)
    end.

(** recordAudit: best effort, one row per broadcast attempt with a signer. *)
Definition recordAudit (cfg : relay_cfg) (env : relay_env) (decoded : option DecodedTx)
    (outcome txHash errMsg : string) (st : relay_st) : relay_st :=
  match decoded with
  | Some d =>
      if rc_audit cfg then
        set_db (Record_ (re_db env) (re_now env)
          (mkAudit (address_String (dt_Signer d)) (addrString (dt_To d)) (pretty (dt_Value d))
             (slen (dt_Input d)) (MethodSelectorOf (dt_Input d)) txHash outcome errMsg 0) (rl_db st)).2 st
      else st
  | None => st
  end.

Definition writer_roles : list string := ["writer"; "admin"; "automation"].

(** c.SendRawTransaction: the bytes that reach the node are remembered. *)
Definition do_send (env : relay_env) (hex : string) (st : relay_st) : result error string * relay_st :=
  let '(bytes, r) := re_send env hex in
  (r, mkRelay (rl_db st) (rl_sent st ++ match bytes with Some b => [b] | None => [] end)
        (rl_broadcasts st) (rl_rejects st)).

(** The quota charge after a successful broadcast. *)
Definition charge_quota (cfg : relay_cfg) (env : relay_env) (decoded : option DecodedTx) (ws : Z)
    (st : relay_st) : relay_st :=
  match decoded with
  | Some d =>
      if g_quota (rc_gates cfg)
      then set_db (Increment (re_db env) (address_String (dt_Signer d)) ws (rl_db st)).2 st
      else st
  | None => st
  end.

(** The handler of evm_send_raw_transaction: the transaction hash or an error. *)
Definition sendRawTxHandler (cfg : relay_cfg) (env : relay_env) (c : option Claims) (signedTxHex : string)
    (st : relay_st) : result error string * relay_st :=
  match requireRole c writer_roles with
  | Some e => (Err e, st)
  | None =>
      if signedTxHex =s "" then (Err (Wrap "signed_tx is required: " ErrMissingRequired ""), st)
      else
        match resolveBroadcast cfg env signedTxHex st with
        | (Err e, st) => (Err e, st)
        | (Ok (decoded, ws, hex), st) =>
            match do_send env hex st with
            | (Err e, st) =>
                let auditErr := boundAuditErr (Some (RawCause e)) in
                let st := recordAudit cfg env decoded "broadcast_failed" "" auditErr st in
                (Err e, recordBroadcast cfg "failed" st)
            | (Ok txHash, st) =>
                let st := recordAudit cfg env decoded "broadcast_ok" txHash "" st in
                let st := recordBroadcast cfg "ok" st in
                (Ok txHash, charge_quota cfg env decoded ws st)
            end
        end
  end.
End Relay.

(** What the relay relies on in its EVM client: the node gets exactly the bytes
    of the hex string. *)
Definition sends_decoded (send : string → option string * result error string) : Prop :=
  ∀ hex b, (send hex).1 = Some b → hex_decode (strip_0x hex) = Some b.

Lemma SendRawTransaction_sends_decoded rpc : sends_decoded (λ hex, SendRawTransaction hex rpc).
Proof.
  intros hex b. unfold SendRawTransaction. destruct (_ <? _); [done|].
  destruct (hex_decode _); [|done]. by intros [= ->].
Qed.

(** ** Lemmas *)

(** Equal but for the rejection metrics. *)
Definition same_but_rejects (st st' : relay_st) : Prop :=
  rl_db st' = rl_db st ∧ rl_sent st' = rl_sent st ∧ rl_broadcasts st' = rl_broadcasts st.

Lemma recordReject_same cfg c st : same_but_rejects st (recordReject cfg c st).
Proof. unfold recordReject, same_but_rejects. by destruct (rc_metrics cfg). Qed.

#[export] Hint Resolve recordReject_same : go.

Section Facts.
Context `{EthLib}.

Definition scope_ok (cfg : relay_cfg) (dtx : DecodedTx) : Prop :=
  ∃ anchor, AddressFromHex (rc_anchorAddr cfg) = Some anchor ∧ dt_To dtx = Some anchor ∧ dt_Value dtx = 0.

Lemma checkRelayScope_None to value anchor :
  checkRelayScope to value anchor = None ↔ to = Some anchor ∧ value = 0.
Proof.
  unfold checkRelayScope. destruct to as [a|]; [|naive_solver].
  destruct (a =s anchor) eqn:E1, (value =? 0) eqn:E2; bool_to_prop; simpl; naive_solver.
Qed.

Lemma decodeAndScope_spec cfg s st :
  match decodeAndScope cfg s st with
  | (Ok dtx, st') => st' = st ∧ DecodeSignedTx s = Ok dtx ∧ scope_ok cfg dtx
  | (Err e, st') => same_but_rejects st st'
  end.
Proof.
  unfold decodeAndScope. destruct (DecodeSignedTx s) as [dtx|e]; [|apply recordReject_same].
  destruct (AddressFromHex _) as [anchor|] eqn:Ea; [|apply recordReject_same].
  destruct (checkRelayScope _ _ _) eqn:Es; [apply recordReject_same|].
  apply checkRelayScope_None in Es as [? ?]. split_and!; [done..|]. by exists anchor.
Qed.

(** What a signer that passes each gate satisfies. *)
Definition blacklist_pass (cfg : relay_cfg) (env : relay_env) (signer : string) (db : keyless_db) : Prop :=
  g_blacklist (rc_gates cfg) = true →
  match IsBlacklisted (re_db env) signer db with
  | Ok banned => banned = false
  | Err _ => g_blacklistFailOpen (rc_gates cfg) = true
  end.

Definition quota_pass (cfg : relay_cfg) (env : relay_env) (signer : string) (ws : Z) (db : keyless_db) : Prop :=
  g_quota (rc_gates cfg) = true →
  match Count (re_db env) signer ws db with
  | Ok n => n < g_rate (rc_gates cfg)
  | Err _ => g_quotaFailOpen (rc_gates cfg) = true
  end.

Definition gates_pass (cfg : relay_cfg) (env : relay_env) (signer : string) (db : keyless_db) : Prop :=
  blacklist_pass cfg env signer db ∧
  quota_pass cfg env signer (WindowStart (re_now env) (g_window (rc_gates cfg))) db.

(** The state after a gate: untouched when it passes. *)
Definition gate_result (pass : Prop) (st : relay_st) (r : option error * relay_st) : Prop :=
  match r with
  | (None, st') => st' = st ∧ pass
  | (Some _, st') => same_but_rejects st st' ∧ ¬ pass
  end.

Lemma blacklist_gate_spec cfg env signer st :
  gate_result (blacklist_pass cfg env signer (rl_db st)) st (blacklist_gate cfg env signer st).
Proof.
  unfold blacklist_gate, blacklist_pass. destruct (g_blacklist _); [|by split].
  destruct (IsBlacklisted _ _ _) as [[]|]; simpl;
    [split; [auto with go|intros Hp; by specialize (Hp eq_refl)]|by split|].
  destruct (g_blacklistFailOpen _); simpl; [by split|]. split; [auto with go|].
  intros Hp. by specialize (Hp eq_refl).
Qed.

Lemma quota_gate_spec cfg env signer ws st :
  gate_result (quota_pass cfg env signer ws (rl_db st)) st (quota_gate cfg env signer ws st).
Proof.
  unfold quota_gate, quota_pass. destruct (g_quota _); [|by split].
  destruct (Count _ _ _ _) as [n|]; simpl.
  - destruct (_ <=? n) eqn:E; bool_to_prop; (split; [auto with go|]); [|done].
    intros Hp. specialize (Hp eq_refl). lia.
  - destruct (g_quotaFailOpen _); simpl; [by split|]. split; [auto with go|].
  intros Hp. by specialize (Hp eq_refl).
Qed.

Lemma checkSignerGates_spec cfg env signer st :
  match checkSignerGates cfg env signer st with
  | (ws, e, st') => ws = WindowStart (re_now env) (g_window (rc_gates cfg)) ∧
      gate_result (gates_pass cfg env signer (rl_db st)) st (e, st')
  end.
Proof.
  unfold checkSignerGates, gates_pass. pose proof (blacklist_gate_spec cfg env signer st) as Hb.
  destruct (blacklist_gate cfg env signer st) as [[e|] st1]; simpl in Hb.
  { split; [done|]. split; [apply Hb|]. intros [? _]. by apply Hb. }
  destruct Hb as [-> Hb].
  pose proof (quota_gate_spec cfg env signer (WindowStart (re_now env) (g_window (rc_gates cfg))) st) as Hq.
  destruct (quota_gate _ _ _ _ _) as [[e|] st2]; simpl in *.
  - split; [done|]. split; [apply Hq|]. intros [_ ?]. by apply Hq.
  - destruct Hq as [-> Hq]. done.
Qed.

(** The plan resolveBroadcast accepts, by mode. *)
Definition plan_ok (cfg : relay_cfg) (env : relay_env) (s : string) (db : keyless_db)
    (plan : broadcast_plan) : Prop :=
  let '(decoded, ws, hex) := plan in
  if rc_keylessWrites cfg then
    ∃ d, decoded = Some d ∧ DecodeSignedTx s = Ok d ∧ scope_ok cfg d ∧
      gates_pass cfg env (address_String (dt_Signer d)) db ∧
      ws = WindowStart (re_now env) (g_window (rc_gates cfg)) ∧ hex = "0x" +:+ hex_encode (dt_CanonicalRaw d)
  else if rc_relayAllowAny cfg then
    hex = s ∧ ws = zero_time ∧ decoded = match DecodeSignedTx s with Ok d => Some d | Err _ => None end
  else hex = s ∧ ws = zero_time ∧ ∃ d, decoded = Some d ∧ DecodeSignedTx s = Ok d ∧ scope_ok cfg d.

Lemma resolveBroadcast_spec cfg env s st :
  match resolveBroadcast cfg env s st with
  | (Ok plan, st') => st' = st ∧ plan_ok cfg env s (rl_db st) plan
  | (Err e, st') => same_but_rejects st st'
  end.
Proof.
  unfold resolveBroadcast, plan_ok, prepareKeylessBroadcast.
  destruct (rc_keylessWrites cfg).
  - pose proof (decodeAndScope_spec cfg s st) as Hd.
    destruct (decodeAndScope cfg s st) as [[d|e] st1]; [|done]. destruct Hd as (-> & Hd & Hs).
    pose proof (checkSignerGates_spec cfg env (address_String (dt_Signer d)) st) as Hg.
    destruct (checkSignerGates _ _ _ _) as [[ws [e|]] st2]; [by destruct Hg as (_ & Hg & _)|].
    destruct Hg as (-> & -> & Hg). split; [done|]. by exists d.
  - destruct (rc_relayAllowAny cfg); [by destruct (DecodeSignedTx s)|].
    pose proof (decodeAndScope_spec cfg s st) as Hd.
    destruct (decodeAndScope cfg s st) as [[d|e] st1]; [|done]. destruct Hd as (-> & Hd & Hs).
    split; [done|]. split_and!; [done..|]. by exists d.
Qed.

Lemma recordAudit_frame cfg env decoded o h m st :
  signer_quota (rl_db (recordAudit cfg env decoded o h m st)) = signer_quota (rl_db st) ∧
  signer_blacklist (rl_db (recordAudit cfg env decoded o h m st)) = signer_blacklist (rl_db st) ∧
  rl_sent (recordAudit cfg env decoded o h m st) = rl_sent st.
Proof.
  unfold recordAudit, Record_. destruct decoded; [|done]. destruct (rc_audit cfg); [|done].
  by destruct (up_record (re_db env)).
Qed.

Lemma recordBroadcast_frame cfg o st :
  rl_db (recordBroadcast cfg o st) = rl_db st ∧ rl_sent (recordBroadcast cfg o st) = rl_sent st.
Proof. unfold recordBroadcast. by destruct (rc_metrics cfg). Qed.

(** The rows a call adds to the audit table. *)
Definition audit_rows (cfg : relay_cfg) (env : relay_env) (decoded : option DecodedTx)
    (r : result error string) : list WriteAuditEntry :=
  match decoded with
  | Some d =>
      if rc_audit cfg && up_record (re_db env) then
        [mkAudit (to_lower (address_String (dt_Signer d))) (addrString (dt_To d)) (pretty (dt_Value d))
           (slen (dt_Input d)) (to_lower (MethodSelectorOf (dt_Input d)))
           (match r with Ok h => h | Err _ => "" end)
           (match r with Ok _ => "broadcast_ok" | Err _ => "broadcast_failed" end)
           (match r with Ok _ => "" | Err e => boundAuditErr (Some (RawCause e)) end) (re_now env)]
      else []
  | None => []
  end.

(** The quota table after a call. *)
Definition quota_after (cfg : relay_cfg) (env : relay_env) (decoded : option DecodedTx) (ws : Z)
    (r : result error string) (q : gmap (string * Z) Z) : gmap (string * Z) Z :=
  match decoded, r with
  | Some d, Ok _ =>
      if g_quota (rc_gates cfg) && up_increment (re_db env) then
        let k := (to_lower (address_String (dt_Signer d)), ws) in <[k := default 0 (q !! k) + 1]> q
      else q
  | _, _ => q
  end.

(** Whether a call is handed to the EVM client, and what was decoded of it. *)
Definition attempted (cfg : relay_cfg) (env : relay_env) (c : option Claims) (s : string) (st : relay_st)
    : option (option DecodedTx) :=
  match requireRole c writer_roles with
  | Some _ => None
  | None =>
      if s =s "" then None
      else match (resolveBroadcast cfg env s st).1 with Ok (decoded, _, _) => Some decoded | Err _ => None end
  end.

(** The handler in one equation: rejected before the send, with nothing changed
    but the rejection metrics; or one send, and its consequences. *)
Lemma handler_attempted cfg env c s st r st' :
  sendRawTxHandler cfg env c s st = (r, st') →
  match attempted cfg env c s st with
  | None => is_ok r = false ∧ same_but_rejects st st'
  | Some decoded => ∃ ws hex, requireRole c writer_roles = None ∧ plan_ok cfg env s (rl_db st) (decoded, ws, hex) ∧
     r = (re_send env hex).2 ∧
     rl_sent st' = rl_sent st ++ match (re_send env hex).1 with Some b => [b] | None => [] end ∧
     rl_db st' = mkDb (quota_after cfg env decoded ws r (signer_quota (rl_db st)))
       (signer_blacklist (rl_db st)) (write_audit (rl_db st) ++ audit_rows cfg env decoded r)
  end.
Proof.
  unfold sendRawTxHandler, attempted. destruct (requireRole c writer_roles) eqn:Er; [by intros [= <- <-]|].
  destruct (s =s ""); [by intros [= <- <-]|].
  pose proof (resolveBroadcast_spec cfg env s st) as Hr.
  destruct (resolveBroadcast cfg env s st) as [[[[decoded ws] hex]|e] st1]; cbn [fst]; [|by intros [= <- <-]].
  destruct Hr as [-> Hplan]. intros Hrun. exists ws, hex.
  unfold do_send in Hrun. destruct (re_send env hex) as [bytes sr]. cbn [fst snd].
  split_and!; [done|done|destruct sr; by injection Hrun as <- _| |];
    (destruct sr as [txh|e]; injection Hrun as <- <-;
     unfold charge_quota, recordBroadcast, recordAudit, set_db, Increment, Record_, quota_after, audit_rows;
     destruct decoded, (rc_audit cfg), (rc_metrics cfg), (g_quota (rc_gates cfg)), (up_record (re_db env)),
       (up_increment (re_db env)); simpl; rewrite ?app_nil_r; try done; by destruct (rl_db st)).
Qed.

Lemma handler_spec cfg env c s st r st' :
  sendRawTxHandler cfg env c s st = (r, st') →
  (is_ok r = false ∧ same_but_rejects st st') ∨
  (∃ decoded ws hex, requireRole c writer_roles = None ∧ plan_ok cfg env s (rl_db st) (decoded, ws, hex) ∧
     r = (re_send env hex).2 ∧
     rl_sent st' = rl_sent st ++ match (re_send env hex).1 with Some b => [b] | None => [] end ∧
     rl_db st' = mkDb (quota_after cfg env decoded ws r (signer_quota (rl_db st)))
       (signer_blacklist (rl_db st)) (write_audit (rl_db st) ++ audit_rows cfg env decoded r)).
Proof.
  intros Hrun%handler_attempted. destruct (attempted cfg env c s st) as [decoded|]; [right; by exists decoded|by left].
Qed.

Lemma boundAuditErr_bound e : slen (boundAuditErr e) ≤ maxAuditErrLen + 14.
Proof using Type.
  destruct e as [e|]; [|vm_compute; discriminate]. unfold boundAuditErr. destruct (_ <? _) eqn:E; bool_to_prop; [|lia].
  unfold slen in *. rewrite string_app_length.
  assert (String.length (str_take (Z.to_nat maxAuditErrLen) (error_text e)) ≤ Z.to_nat maxAuditErrLen)%nat.
  { generalize (Z.to_nat maxAuditErrLen). generalize (error_text e). clear.
    intros t n. revert t. induction n as [|n IH]; intros [|ch t]; simpl; try lia. specialize (IH t). lia. }
  change (String.length "...[truncated]") with 14%nat. unfold maxAuditErrLen in *. lia.
Qed.
End Facts.

(** ** Theorems *)

Lemma hex_prefix_strip b : hex_decode (strip_0x ("0x" +:+ hex_encode b)) = Some b.
Proof. unfold strip_0x. rewrite has_prefix_app, (str_drop_app "0x"). apply hex_decode_encode. Qed.

(** C8: Relay scope. Unless the operator lifted it (authenticated mode with
    relay-allow-any), at most one transaction reaches the node per call, the
    caller held a write role (or is anonymous), and the transaction decodes, with
    a recovered signer, to a zero-value call to the configured anchor address.
    Under keyless writes the bytes sent are the canonical re-encoding of the
    decoded transaction, not the caller's bytes. *)
Theorem relay_scope_enforced `{EthLib} cfg env c s st r st'
    (Hmode : rc_keylessWrites cfg = true ∨ rc_relayAllowAny cfg = false)
    (Hsend : sends_decoded (re_send env))
    (Hrun : sendRawTxHandler cfg env c s st = (r, st')) :
  rl_sent st' = rl_sent st ∨
  ∃ b dtx, rl_sent st' = rl_sent st ++ [b] ∧ DecodeSignedTx s = Ok dtx ∧ scope_ok cfg dtx ∧
    requireRole c writer_roles = None ∧
    (if rc_keylessWrites cfg then b = dt_CanonicalRaw dtx else hex_decode (strip_0x s) = Some b).
Proof.
  destruct (handler_spec _ _ _ _ _ _ _ Hrun) as [(_ & _ & Hs & _)|(decoded & ws & hex & Hrole & Hplan & _ & Hs & _)];
    [by left|].
  destruct (re_send env hex).1 as [b|] eqn:Eb; [|left; by rewrite Hs, app_nil_r].
  right. apply Hsend in Eb. unfold plan_ok in Hplan. destruct (rc_keylessWrites cfg).
  - destruct Hplan as (d & -> & Hd & Hsc & _ & _ & ->). exists b, d. split_and!; try done.
    rewrite hex_prefix_strip in Eb. congruence.
  - destruct (rc_relayAllowAny cfg); [by destruct Hmode|].
    destruct Hplan as (-> & _ & d & -> & Hd & Hsc). by exists b, d.
Qed.

(** C9: Per-signer gates under keyless writes. A transaction reaches the node only
    if, for each gate that is on, the store was read and the signer is not banned
    (is below its quota for the current window), or the store could not be read and
    the gate is configured to fail open. *)
Theorem signer_gates_enforced `{EthLib} cfg env c s st r st'
    (Hmode : rc_keylessWrites cfg = true) (Hrun : sendRawTxHandler cfg env c s st = (r, st')) :
  rl_sent st' = rl_sent st ∨
  ∃ dtx, DecodeSignedTx s = Ok dtx ∧
    let signer := to_lower (address_String (dt_Signer dtx)) in
    let ws := WindowStart (re_now env) (g_window (rc_gates cfg)) in
    (g_blacklist (rc_gates cfg) = true →
       up_is_banned (re_db env) = true ∧ signer_blacklist (rl_db st) !! signer = None ∨
       up_is_banned (re_db env) = false ∧ g_blacklistFailOpen (rc_gates cfg) = true) ∧
    (g_quota (rc_gates cfg) = true →
       up_count (re_db env) = true ∧
         default 0 (signer_quota (rl_db st) !! (signer, ws)) < g_rate (rc_gates cfg) ∨
       up_count (re_db env) = false ∧ g_quotaFailOpen (rc_gates cfg) = true).
Proof.
  destruct (handler_spec _ _ _ _ _ _ _ Hrun) as [(_ & _ & Hs & _)|(decoded & ws & hex & _ & Hplan & _)];
    [by left|]. right.
  unfold plan_ok in Hplan. rewrite Hmode in Hplan.
  destruct Hplan as (d & _ & Hd & _ & [Hb Hq] & _). exists d. split; [done|]. cbv zeta. split.
  - intros Hg. specialize (Hb Hg). unfold IsBlacklisted in Hb.
    destruct (up_is_banned _); simpl in Hb; [left; split; [done|]|by right].
    apply bool_decide_eq_false in Hb. by apply eq_None_not_Some.
  - intros Hg. specialize (Hq Hg). unfold Count in Hq. destruct (up_count _); simpl in Hq; [by left|by right].
Qed.

(** A call of the handler in a sequence: its environment, caller and input. *)
Record relay_call := mkRelayCall { cl_env : relay_env; cl_claims : option Claims; cl_input : string }.

Fixpoint run_calls `{EthLib} (cfg : relay_cfg) (calls : list relay_call) (st : relay_st)
    : list (result error string) * relay_st :=
  match calls with
  | [] => ([], st)
  | cl :: calls =>
      let '(r, st) := sendRawTxHandler cfg (cl_env cl) (cl_claims cl) (cl_input cl) st in
      let '(rs, st) := run_calls cfg calls st in (r :: rs, st)
  end.

(** The successful broadcasts of a signer in a window. *)
Fixpoint successes `{EthLib} (cfg : relay_cfg) (signer : string) (ws : Z)
    (calls : list relay_call) (rs : list (result error string)) : Z :=
  match calls, rs with
  | cl :: calls, r :: rs =>
      (match DecodeSignedTx (cl_input cl) with
       | Ok d => if is_ok r && (to_lower (address_String (dt_Signer d)) =s signer)
                    && (WindowStart (re_now (cl_env cl)) (g_window (rc_gates cfg)) =? ws) then 1 else 0
       | Err _ => 0
       end) + successes cfg signer ws calls rs
  | _, _ => 0
  end.

(** One call: the tally grows by the success it is, and only below the rate. *)
Lemma quota_step `{EthLib} cfg cl st r st' signer ws :
  rc_keylessWrites cfg = true → g_quota (rc_gates cfg) = true → g_quotaFailOpen (rc_gates cfg) = false →
  up_increment (re_db (cl_env cl)) = true →
  sendRawTxHandler cfg (cl_env cl) (cl_claims cl) (cl_input cl) st = (r, st') →
  let tally st := default 0 (signer_quota (rl_db st) !! (signer, ws)) in
  tally st' = tally st + successes cfg signer ws [cl] [r] ∧
  tally st' ≤ Z.max (tally st) (g_rate (rc_gates cfg)).
Proof.
  intros Hk Hg Hf Hi Hrun. cbv zeta. cbn [successes].
  destruct (handler_spec _ _ _ _ _ _ _ Hrun) as [(Hr & Hdb & _)|(decoded & ws' & hex & _ & Hplan & Hr & _ & Hdb)].
  - rewrite Hdb. destruct (DecodeSignedTx _) as [d|]; rewrite ?Hr; simpl; lia.
  - rewrite Hdb. cbn [signer_quota]. unfold plan_ok in Hplan. rewrite Hk in Hplan.
    destruct Hplan as (d & -> & Hd & _ & [_ Hq] & -> & _). rewrite Hd.
    specialize (Hq Hg). unfold Count in Hq.
    destruct (up_count _); simpl in Hq; [|congruence].
    unfold quota_after. rewrite Hg, Hi. generalize dependent (to_lower (address_String (dt_Signer d))).
    intros k Hq. set (w := WindowStart _ _) in *.
    destruct r as [txh|e]; simpl; [|lia].
    destruct ((k =s signer) && (w =? ws)) eqn:E.
    + bool_to_prop. rewrite <- H0, <- H1, lookup_insert_eq. simpl. lia.
    + rewrite lookup_insert_ne; [lia|]. intros [= <- <-]. by rewrite String.eqb_refl, Z.eqb_refl in E.
Qed.

(** Quota accounting. Over any sequence of calls under keyless writes with the
    stores reachable and the gate failing closed, the tally of a signer in a window
    grows by exactly its successful broadcasts, and so a signer whose window starts
    empty gets at most the configured rate of broadcasts through; failed
    broadcasts cost nothing. *)
Theorem quota_never_exceeded `{EthLib} cfg calls st rs st' signer ws
    (Hmode : rc_keylessWrites cfg = true) (Hgate : g_quota (rc_gates cfg) = true)
    (Hclosed : g_quotaFailOpen (rc_gates cfg) = false) (Hrate : 0 ≤ g_rate (rc_gates cfg))
    (Hup : Forall (λ cl, up_increment (re_db (cl_env cl)) = true) calls)
    (Hrun : run_calls cfg calls st = (rs, st')) :
  let tally st := default 0 (signer_quota (rl_db st) !! (signer, ws)) in
  tally st' = tally st + successes cfg signer ws calls rs ∧
  (tally st = 0 → successes cfg signer ws calls rs ≤ g_rate (rc_gates cfg)).
Proof.
  cbv zeta.
  assert (default 0 (signer_quota (rl_db st') !! (signer, ws)) =
      default 0 (signer_quota (rl_db st) !! (signer, ws)) + successes cfg signer ws calls rs ∧
    default 0 (signer_quota (rl_db st') !! (signer, ws)) ≤
      Z.max (default 0 (signer_quota (rl_db st) !! (signer, ws))) (g_rate (rc_gates cfg))) as [H1 H2];
    [|split; [done|lia]].
  revert st rs Hrun. induction Hup as [|cl calls Hi _ IH]; intros st rs Hrun; simpl in Hrun.
  { injection Hrun as <- <-. simpl. lia. }
  destruct (sendRawTxHandler _ _ _ _ _) as [r st1] eqn:E1.
  destruct (run_calls cfg calls st1) as [rs1 st2] eqn:E2. injection Hrun as <- <-.
  destruct (quota_step cfg cl st r st1 signer ws Hmode Hgate Hclosed Hi E1) as [Ht1 Hm1].
  destruct (IH st1 rs1 E2) as [Ht2 Hm2]. cbn [successes] in *. lia.
Qed.

(** C27: Audit trail. A call that is refused before the send changes nothing and
    adds no row. One that is handed to the EVM client adds at most one row, and
    exactly one when the transaction was decoded, an audit store is configured and
    the store takes the row (auditing is best effort); a transaction that does not
    decode is handed over, without a row, only in authenticated mode with
    relay-allow-any. The row names the lower-cased recovered signer and the outcome,
    carries the hash of a success, and its error text is bounded however long the
    node's answer is. The ban list is never touched. *)
Theorem audit_trail `{EthLib} cfg env c s st r st' (Hrun : sendRawTxHandler cfg env c s st = (r, st')) :
  signer_blacklist (rl_db st') = signer_blacklist (rl_db st) ∧
  match attempted cfg env c s st with
  | None => is_ok r = false ∧ rl_db st' = rl_db st ∧ rl_sent st' = rl_sent st
  | Some None => rc_keylessWrites cfg = false ∧ rc_relayAllowAny cfg = true ∧ is_ok (DecodeSignedTx s) = false ∧
      write_audit (rl_db st') = write_audit (rl_db st)
  | Some (Some d) => DecodeSignedTx s = Ok d ∧ ∃ row,
      write_audit (rl_db st') = write_audit (rl_db st) ++ (if rc_audit cfg && up_record (re_db env) then [row] else []) ∧
      wa_Signer row = to_lower (address_String (dt_Signer d)) ∧ wa_CreatedAt row = re_now env ∧
      slen (wa_Error row) ≤ maxAuditErrLen + 14 ∧
      match r with
      | Ok h => wa_Outcome row = "broadcast_ok" ∧ wa_TxHash row = h ∧ wa_Error row = ""
      | Err e => wa_Outcome row = "broadcast_failed" ∧ wa_TxHash row = "" ∧
          wa_Error row = boundAuditErr (Some (RawCause e))
      end
  end.
Proof.
  apply handler_attempted in Hrun. destruct (attempted cfg env c s st) as [decoded|].
  2: { destruct Hrun as (Hr & Hdb & Hs & _). by rewrite Hdb. }
  destruct Hrun as (ws & hex & _ & Hplan & _ & _ & Hdb). rewrite Hdb. cbn [signer_blacklist write_audit].
  split; [done|]. unfold audit_rows. destruct decoded as [d|].
  - split; [|eexists; split; [reflexivity|]; cbn [wa_Signer wa_CreatedAt wa_Error wa_Outcome wa_TxHash];
      split; [done|]; split; [done|]; split; [|by destruct r];
      destruct r as [h|e]; [unfold slen, maxAuditErrLen; simpl; lia|apply boundAuditErr_bound]].
    unfold plan_ok in Hplan. destruct (rc_keylessWrites cfg); [naive_solver|].
    destruct (rc_relayAllowAny cfg); [|naive_solver]. destruct Hplan as (_ & _ & Hd).
    by destruct (DecodeSignedTx s); simplify_eq.
  - rewrite app_nil_r. unfold plan_ok in Hplan. destruct (rc_keylessWrites cfg); [naive_solver|].
    destruct (rc_relayAllowAny cfg); [|naive_solver]. destruct Hplan as (_ & _ & Hd). by destruct (DecodeSignedTx s).
Qed.

(** Gate rejections. A banned signer's transaction, and one beyond the quota,
    is refused without being sent, charged or audited; but the two rejections are
    not in a disclosed class, so what the client sees at the tool boundary is the
    generic upstream failure. *)
Theorem gate_rejections_collapsed `{EthLib} cfg env c s st d
    (Hmode : rc_keylessWrites cfg = true) (Hrole : requireRole c writer_roles = None)
    (Hd : DecodeSignedTx s = Ok d) (Hscope : scope_ok cfg d)
    (Hfail : let signer := to_lower (address_String (dt_Signer d)) in
       (g_blacklist (rc_gates cfg) = true ∧ up_is_banned (re_db env) = true ∧
        is_Some (signer_blacklist (rl_db st) !! signer)) ∨
       (g_blacklist (rc_gates cfg) = false ∧ g_quota (rc_gates cfg) = true ∧ up_count (re_db env) = true ∧
        g_rate (rc_gates cfg) ≤ default 0 (signer_quota (rl_db st) !!
          (signer, WindowStart (re_now env) (g_window (rc_gates cfg)))))) :
  let '(r, st') := sendRawTxHandler cfg env c s st in
  sanitizeToolErr r = Err (Sentinel ErrSafeUpstreamFail) ∧ same_but_rejects st st'.
Proof.
  unfold sendRawTxHandler. rewrite Hrole.
  destruct (s =s "") eqn:E; bool_to_prop; [by subst|].
  unfold resolveBroadcast, prepareKeylessBroadcast, decodeAndScope. rewrite Hmode, Hd.
  destruct Hscope as (anchor & Ha & Hscope%checkRelayScope_None). rewrite Ha, Hscope.
  unfold checkSignerGates, blacklist_gate, quota_gate, IsBlacklisted, Count.
  destruct Hfail as [(Hg & Hu & Hb)|(Hg & Hq & Hu & Hn)]; rewrite Hg.
  - rewrite Hu. cbn [negb]. rewrite bool_decide_eq_true_2 by done. split; [done|apply recordReject_same].
  - rewrite Hq, Hu. cbn [negb]. rewrite (proj2 (Z.leb_le _ _)) by done. split; [done|apply recordReject_same].
Qed.

(** ** Concrete inputs for the witnesses *)

Definition demo_anchor : string := "0x6161616161616161616161616161616161616161".
Definition demo_signer : string := "bbbbbbbbbbbbbbbbbbbb".
Definition demo_signed (value : Z) : string :=
  "0x" +:+ hex_encode (demo_signer +:+ "aaaaaaaaaaaaaaaaaaaa" +:+ String (byte_of value) "data").
Definition all_up : db_env := mkDbEnv true true true true true true.
Definition demo_gates : signerGates := mkGates true true 1 86400 false false.
Definition demo_cfg : relay_cfg := mkRelayCfg demo_anchor true false true true demo_gates.
Definition demo_relay_env : relay_env :=
  mkRelayEnv 100000 all_up (λ hex, SendRawTransaction hex (λ _, Ok (Some (sha256 "tx")))).
Definition demo_relay_st : relay_st := mkRelay (mkDb ∅ ∅ []) [] [] [].
Definition demo_run (s : string) := sendRawTxHandler demo_cfg demo_relay_env None s demo_relay_st.

Lemma demo_run_eq s : sendRawTxHandler demo_cfg demo_relay_env None s demo_relay_st = ((demo_run s).1, (demo_run s).2).
Proof. unfold demo_run. by destruct (sendRawTxHandler _ _ _ _ _). Qed.

Lemma relay_scope_enforced_witness : ∃ b, rl_sent (demo_run (demo_signed 0)).2 = [b].
Proof.
  destruct (relay_scope_enforced demo_cfg demo_relay_env None (demo_signed 0) demo_relay_st _ _
    (or_introl eq_refl) (SendRawTransaction_sends_decoded _) (demo_run_eq _)) as [H|(b & d & H & _)].
  - vm_compute in H. discriminate.
  - exists b. exact H.
Defined.

Lemma signer_gates_enforced_witness :
  rl_sent (sendRawTxHandler demo_cfg demo_relay_env None (demo_signed 0)
    (mkRelay (mkDb {[("0x6262626262626262626262626262626262626262", 86400) := 1]} ∅ []) [] [] [])).2 = [].
Proof.
  set (st := mkRelay _ _ _ _).
  destruct (sendRawTxHandler demo_cfg demo_relay_env None (demo_signed 0) st) as [r st'] eqn:E.
  destruct (signer_gates_enforced demo_cfg demo_relay_env None (demo_signed 0) st r st' eq_refl E)
    as [H|(d & Hd & _ & Hq)]; [exact H|].
  destruct (Hq eq_refl) as [[_ Hlt]|[Hup _]]; [|discriminate].
  vm_compute in Hd. injection Hd as <-. vm_compute in Hlt. discriminate.
Defined.

Lemma quota_never_exceeded_witness :
  let calls := [mkRelayCall demo_relay_env None (demo_signed 0); mkRelayCall demo_relay_env None (demo_signed 0)] in
  successes demo_cfg "0x6262626262626262626262626262626262626262" 86400 calls
    (run_calls demo_cfg calls demo_relay_st).1 ≤ 1.
Proof.
  intros calls. destruct (run_calls demo_cfg calls demo_relay_st) as [rs st'] eqn:E.
  apply (quota_never_exceeded demo_cfg calls demo_relay_st rs st'
    "0x6262626262626262626262626262626262626262" 86400);
    [reflexivity|reflexivity|reflexivity|simpl; lia|repeat constructor|exact E|reflexivity].
Defined.

Lemma audit_trail_witness :
  (∃ row, write_audit (rl_db (demo_run (demo_signed 0)).2) = [row] ∧ wa_Outcome row = "broadcast_ok") ∧
  write_audit (rl_db (demo_run (demo_signed 1)).2) = [].
Proof.
  split.
  - destruct (audit_trail demo_cfg demo_relay_env None (demo_signed 0) demo_relay_st _ _ (demo_run_eq _))
      as [_ (_ & row & Hrow & _ & _ & _ & Hout)].
    exists row. split; [exact Hrow|exact (proj1 Hout)].
  - destruct (audit_trail demo_cfg demo_relay_env None (demo_signed 1) demo_relay_st _ _ (demo_run_eq _))
      as [_ (_ & Hdb & _)].
    rewrite Hdb. reflexivity.
Defined.

Lemma gate_rejections_collapsed_witness :
  sanitizeToolErr (sendRawTxHandler demo_cfg demo_relay_env None (demo_signed 0)
    (mkRelay (mkDb ∅ {["0x6262626262626262626262626262626262626262" := mkBan "" "" 0]} []) [] [] [])).1
  = Err (Sentinel ErrSafeUpstreamFail).
Proof.
  set (st := mkRelay _ _ _ _).
  destruct (DecodeSignedTx (demo_signed 0)) as [d|e] eqn:Ed; [|vm_compute in Ed; discriminate].
  pose proof (gate_rejections_collapsed demo_cfg demo_relay_env None (demo_signed 0) st d eq_refl eq_refl Ed) as H.
  vm_compute in Ed. injection Ed as <-.
  destruct (sendRawTxHandler demo_cfg demo_relay_env None (demo_signed 0) st) as [r st'].
  apply H.
  - eexists. split; [reflexivity|]. split; reflexivity.
  - left. split; [reflexivity|]. split; [reflexivity|]. eexists. reflexivity.
Defined.

(** ** Concurrent broadcasts

    The check and the charge are separate statements, so calls of one signer can
    interleave. A step is one statement of one call: passing the quota check, or
    charging after a success, or ending without a success. At most [width] calls
    are between the two at any time. The counts are of the acknowledged broadcasts,
    of those whose charge did not reach the database, and of the checks that passed
    on an unreadable counter. *)

Record race := mkRace { ra_db : keyless_db; ra_inflight : Z; ra_acked : Z; ra_lost : Z; ra_unread : Z }.

Inductive race_step `{EthLib} (cfg : relay_cfg) (signer : string) (ws width : Z) : race → race → Prop :=
| StepCheck env db n a l u : n < width → (quota_gate cfg env signer ws (mkRelay db [] [] [])).1 = None →
    race_step cfg signer ws width (mkRace db n a l u)
      (mkRace db (n + 1) a l (if up_count (re_db env) then u else u + 1))
| StepCharge env d db n a l u : 0 < n → address_String (dt_Signer d) = signer →
    race_step cfg signer ws width (mkRace db n a l u)
      (mkRace (rl_db (charge_quota cfg env (Some d) ws (mkRelay db [] [] []))) (n - 1) (a + 1)
        (if up_increment (re_db env) then l else l + 1) u)
| StepFail db n a l u : 0 < n → race_step cfg signer ws width (mkRace db n a l u) (mkRace db (n - 1) a l u).

Definition race_tally (signer : string) (ws : Z) (db : keyless_db) : Z :=
  default 0 (signer_quota db !! (to_lower signer, ws)).

(** What every interleaving keeps. *)
Definition race_ok `{EthLib} (cfg : relay_cfg) (signer : string) (ws width : Z) (s : race) : Prop :=
  race_tally signer ws (ra_db s) + ra_inflight s ≤ g_rate (rc_gates cfg) + width - 1 + ra_unread s ∧
  0 ≤ ra_inflight s ≤ width ∧ 0 ≤ ra_unread s ∧ ra_acked s = race_tally signer ws (ra_db s) + ra_lost s ∧
  (g_quotaFailOpen (rc_gates cfg) = false → ra_unread s = 0).

Lemma race_step_ok `{EthLib} cfg signer ws width s s' : g_quota (rc_gates cfg) = true →
  race_step cfg signer ws width s s' → race_ok cfg signer ws width s → race_ok cfg signer ws width s'.
Proof.
  intros Hg Hstep. unfold race_ok. destruct Hstep as [env db n a l u Hn Hq|env d db n a l u Hn Hd|db n a l u Hn];
    cbn [ra_db ra_inflight ra_acked ra_lost ra_unread]; intros (Ht & Hw & Hu & Ha & Hclosed).
  - pose proof (quota_gate_spec cfg env signer ws (mkRelay db [] [] [])) as Hspec.
    destruct (quota_gate _ _ _ _ _) as [[e|] st']; [done|]. destruct Hspec as [_ Hpass].
    specialize (Hpass Hg). unfold Count in Hpass. cbn [rl_db] in Hpass. fold (race_tally signer ws db) in Hpass.
    destruct (up_count (re_db env)); cbn [negb] in Hpass; split_and!; try done; try lia. congruence.
  - unfold charge_quota. rewrite Hg, Hd. unfold Increment. cbn [set_db rl_db].
    destruct (up_increment (re_db env)); cbn [negb snd]; [|split_and!; try done; lia].
    unfold race_tally in *. cbn [signer_quota]. rewrite lookup_insert_eq. cbn [default id]. split_and!; try done; lia.
  - split_and!; try done; lia.
Qed.

(** C26: The soft ceiling. With the quota on, however the checks and charges of
    concurrent broadcasts of one signer in one window interleave, at most [width] of
    them between check and charge at once, the acknowledged broadcasts exceed the
    configured rate by less than [width], plus the checks that passed on an
    unreadable counter (none when the gate fails closed) and the successes whose
    charge was lost; the stored tally shows all the others. *)
Theorem quota_soft_ceiling `{EthLib} cfg signer ws width db s
    (Hgate : g_quota (rc_gates cfg) = true) (Hwidth : 1 ≤ width) (Hrate : 0 ≤ g_rate (rc_gates cfg))
    (Hstart : race_tally signer ws db = 0)
    (Hreach : rtc (race_step cfg signer ws width) (mkRace db 0 0 0 0) s) :
  ra_acked s + ra_inflight s ≤ g_rate (rc_gates cfg) + width - 1 + ra_unread s + ra_lost s ∧
  ra_acked s = race_tally signer ws (ra_db s) + ra_lost s ∧ 0 ≤ ra_inflight s ∧
  (g_quotaFailOpen (rc_gates cfg) = false → ra_unread s = 0).
Proof.
  assert (race_ok cfg signer ws width s) as (Ht & Hw & Hu & Ha & Hclosed); [|split_and!; [lia|done|lia|done]].
  assert (race_ok cfg signer ws width (mkRace db 0 0 0 0)) as Hok by (unfold race_ok; cbn; split_and!; (done || lia)).
  clear Hstart. induction Hreach as [s|s1 s2 s3 Hstep _ IH]; [done|]. apply IH. by eapply race_step_ok.
Qed.

(** Two calls pass the check together, and both are acknowledged: one more than the
    rate. *)
Lemma quota_soft_ceiling_witness :
  let d := mkDecodedTx "abababababababababab" None "" 0 "" in
  let signer := address_String (dt_Signer d) in
  let db := rl_db (charge_quota demo_cfg demo_relay_env (Some d) 0 (mkRelay (mkDb ∅ ∅ []) [] [] [])) in
  let s := mkRace (rl_db (charge_quota demo_cfg demo_relay_env (Some d) 0 (mkRelay db [] [] []))) 0 2 0 0 in
  race_tally signer 0 (ra_db s) = 2 ∧ ra_acked s + 0 ≤ 1 + 2 - 1 + 0 + 0.
Proof.
  intros d signer db s. split; [vm_compute; reflexivity|].
  refine (proj1 (quota_soft_ceiling demo_cfg signer 0 2 (mkDb ∅ ∅ []) s eq_refl _ _ eq_refl _)); [lia|simpl; lia|].
  apply rtc_l with (mkRace (mkDb ∅ ∅ []) 1 0 0 0); [apply (StepCheck demo_cfg signer 0 2 demo_relay_env); [lia|reflexivity]|].
  apply rtc_l with (mkRace (mkDb ∅ ∅ []) 2 0 0 0); [apply (StepCheck demo_cfg signer 0 2 demo_relay_env); [lia|reflexivity]|].
  apply rtc_l with (mkRace db 1 1 0 0); [apply (StepCharge demo_cfg signer 0 2 demo_relay_env d); [lia|reflexivity]|].
  apply rtc_l with s; [apply (StepCharge demo_cfg signer 0 2 demo_relay_env d); [lia|reflexivity]|]. apply rtc_refl.
Defined.
