(* ===== verification/Telemetry.v ===== *)
(** The start-up of telemetry (internal/telemetry/telemetry.go) and its instruments
    (metrics.go): which exporters, providers and instruments New creates from its
    configuration, in which order, what it gives back when a step fails, and what
    Shutdown does.

    Exporters, the resource and the meter are third-party: the environment says of
    each constructor whether it fails, of each exporter how its shutdown ends, and
    whether the context had expired when its turn came. Providers are values, as
    the SDK's constructors are infallible; their shutdown is the SDK's loop over
    what is registered. *)

From S2P Require Import Prelude GoErrors GoParse Ledger Relay.

(** ** Configuration and environment *)

Record tel_config := mkTelConfig {
  tc_ServiceName : string; tc_ServiceVersion : string;
  tc_OTLPEndpoint : string;                          (* empty: disabled *)
  tc_EnablePrometheus : bool; tc_EnableStdout : bool;
  tc_TraceSampleRatio : SpecFloat.spec_float; tc_OTLPInsecure : bool
}.

Record tel_env := mkTelEnv {
  te_resource : option error;                        (* resource.New *)
  te_exporter : exporter → option error;             (* its constructor *)
  te_instrument : string → option error;             (* the meter, by instrument name *)
  te_shutdown : exporter → option error;
  te_expired : exporter → bool
}.

(** ** Instruments *)

Variant instrument_kind := Float64Histogram | Int64Counter | Int64UpDownCounter | Int64Gauge.
Record instrument := mkInstrument {
  in_kind : instrument_kind; in_name : string; in_description : string; in_unit : string
}.

(** Fields are interfaces: [None] is nil. *)
Record Metrics := mkMetrics {
  ToolCallDuration : option instrument; ToolCallCount : option instrument; ToolErrorCount : option instrument;
  ActiveRequests : option instrument; RPCDuration : option instrument; RPCErrorCount : option instrument;
  RPCRetryCount : option instrument; CircuitBreakerState : option instrument; RPCRateLimited : option instrument;
  HTTPResponses : option instrument; WriteBroadcasts : option instrument; WriteRelayScopeRejected : option instrument
}.

Definition metrics_fields (m : Metrics) : list (option instrument) :=
  [ToolCallDuration m; ToolCallCount m; ToolErrorCount m; ActiveRequests m; RPCDuration m; RPCErrorCount m;
   RPCRetryCount m; CircuitBreakerState m; RPCRateLimited m; HTTPResponses m; WriteBroadcasts m;
   WriteRelayScopeRejected m].

Section Metrics.
Context (env : tel_env).

Definition create (kind : instrument_kind) (name description unit_ label : string) : result error instrument :=
  match te_instrument env name with
  | Some e => Err (Wrap (label +:+ ": ") e "")
  | None => Ok (mkInstrument kind name description unit_)
  end.

Definition NewMetrics : result error Metrics :=
  let? toolDur := create Float64Histogram "mcp.server.tool.duration" "Duration of MCP tool calls in seconds" "s"
    "tool duration histogram" in
  let? toolCount := create Int64Counter "mcp.server.tool.calls" "Total MCP tool calls by name and status" ""
    "tool call counter" in
  let? toolErrors := create Int64Counter "mcp.server.tool.errors" "Total MCP tool errors by name and error type" ""
    "tool error counter" in
  let? active := create Int64UpDownCounter "mcp.server.active_requests" "Number of in-flight MCP requests" ""
    "active requests gauge" in
  let? rpcDur := create Float64Histogram "evm.rpc.duration" "Duration of upstream EVM RPC calls in seconds" "s"
    "rpc duration histogram" in
  let? rpcErrors := create Int64Counter "evm.rpc.errors" "Total upstream EVM RPC errors by method" ""
    "rpc error counter" in
  let? rpcRetries := create Int64Counter "evm.rpc.retries" "Total retry attempts for upstream EVM RPC calls" ""
    "rpc retry counter" in
  let? cbState := create Int64Gauge "evm.rpc.circuit_breaker.state"
    "Circuit breaker state: 0=closed, 1=half-open, 2=open" "" "circuit breaker state gauge" in
  let? rateLimited := create Int64Counter "evm.rpc.rate_limited" "Total rate-limit rejections for upstream RPC calls" ""
    "rate limited counter" in
  let? httpResponses := create Int64Counter "mcp.http.responses"
    "Total MCP HTTP responses, labeled by SLI class (server_fault|customer_impact|client_error|success)" ""
    "http responses counter" in
  let? writeBroadcasts := create Int64Counter "mcp.write.broadcasts"
    "Broadcast attempts that passed relay scope, by outcome (ok|failed)" "" "write broadcasts counter" in
  let? writeRelayRejected := create Int64Counter "mcp.write.relay_scope_rejected"
    ("Pre-broadcast write rejections, by cause " +:+
     "(decode|anchor_misconfig|relay_scope|signer_blacklist|" +:+
     "signer_quota|quota_store_error|blacklist_store_error)") "" "write relay-scope rejected counter" in
  Ok (mkMetrics (Some toolDur) (Some toolCount) (Some toolErrors) (Some active) (Some rpcDur) (Some rpcErrors)
        (Some rpcRetries) (Some cbState) (Some rateLimited) (Some httpResponses) (Some writeBroadcasts)
        (Some writeRelayRejected)).
End Metrics.

(** ** The relay's two counters *)

(** A sample: the instrument and its attribute. *)
Definition sample : Type := string * (string * string).

Definition RecordBroadcast (m : option Metrics) (outcome : string) (samples : list sample) : list sample :=
  match m with
  | None => samples
  | Some m =>
      match WriteBroadcasts m with
      | None => samples
      | Some i => samples ++ [(in_name i, ("outcome", outcome))]
      end
  end.

Definition cause_label (c : RelayRejectCause) : string :=
  match c with
  | CauseDecode => "decode"
  | CauseAnchorMisconfig => "anchor_misconfig"
  | CauseRelayScope => "relay_scope"
  | CauseSignerBlacklist => "signer_blacklist"
  | CauseSignerQuota => "signer_quota"
  | CauseQuotaStoreErr => "quota_store_error"
  | CauseBlacklistStoreErr => "blacklist_store_error"
  end.

Definition RecordRelayReject (m : option Metrics) (cause : RelayRejectCause) (samples : list sample) : list sample :=
  match m with
  | None => samples
  | Some m =>
      match WriteRelayScopeRejected m with
      | None => samples
      | Some i => samples ++ [(in_name i, ("cause", cause_label cause))]
      end
  end.

(** ** Providers *)

(** Where an exporter sends: an OTLP endpoint, over TLS unless insecure; the
    standard output; a scrape registry. *)
Variant target := ToOTLP (endpoint : string) (insecure : bool) | ToStdout | ToRegistry.

(** A provider is what it was built with. Its samplers are parent-based, by trace
    id ratio. *)
Record provider := mkProvider {
  pv_resource : string * string;                     (* service name and version *)
  pv_sampler : option SpecFloat.spec_float;
  pv_exporters : list (exporter * target)
}.
Definition with_exporter (x : exporter) (t : target) (p : provider) : provider :=
  mkProvider (pv_resource p) (pv_sampler p) (pv_exporters p ++ [(x, t)]).

Record Telemetry := mkTelemetry {
  tel_tracerProvider : provider; tel_meterProvider : provider; tel_promHandler : bool; tel_Metrics : Metrics
}.

(** errors.Join: [None] when there is nothing to join. *)
Definition errors_Join (es : list error) : option error :=
  match es with [] => None | e :: es => Some (foldl (λ a b, Wrap2 a (String "010" "") b) e es) end.

Section Startup.
Context (env : tel_env) (cfg : tel_config).

Definition new_exporter (x : exporter) (label : string) : M error unit :=
  match te_exporter env x with
  | Some e => lift (Err (Wrap (label +:+ ": ") e ""))
  | None => emit [Open (Exporter x)] (ret tt)
  end.

Definition otlp : bool := negb (tc_OTLPEndpoint cfg =s "").
Definition otlp_target : target := ToOTLP (tc_OTLPEndpoint cfg) (tc_OTLPInsecure cfg).

Definition buildTracerProvider (res : string * string) : M error provider :=
  let opts := mkProvider res
    (if flt (tc_TraceSampleRatio cfg) float_one then Some (tc_TraceSampleRatio cfg) else None) [] in
  let! opts := if otlp then let! _ := new_exporter OtlpTrace "otlp trace exporter" in
                            ret (with_exporter OtlpTrace otlp_target opts)
               else ret opts in
  let! opts := if tc_EnableStdout cfg then let! _ := new_exporter StdoutTrace "stdout trace exporter" in
                                           ret (with_exporter StdoutTrace ToStdout opts)
               else ret opts in
  emit [Open TracerProvider] (ret opts).

(** The provider, and whether there is a scrape handler. *)
Definition buildMeterProvider (res : string * string) : M error (provider * bool) :=
  let opts := mkProvider res None [] in
  let! opts := if tc_EnablePrometheus cfg then let! _ := new_exporter Prometheus "prometheus exporter" in
                                               ret (with_exporter Prometheus ToRegistry opts)
               else ret opts in
  let! opts := if otlp then let! _ := new_exporter OtlpMetric "otlp metric exporter" in
                            ret (with_exporter OtlpMetric otlp_target opts)
               else ret opts in
  let! opts := if tc_EnableStdout cfg then let! _ := new_exporter StdoutMetric "stdout metric exporter" in
                                           ret (with_exporter StdoutMetric ToStdout opts)
               else ret opts in
  emit [Open MeterProvider] (ret (opts, tc_EnablePrometheus cfg)).

(** The tracer provider's shutdown gives up at the first processor whose turn
    comes after the context expired; the meter provider's visits every reader. *)
Fixpoint shutdown_processors (xs : list exporter) (errs : list error) : option error * list act :=
  match xs with
  | [] => (errors_Join errs, [])
  | x :: xs =>
      if te_expired env x then (Some (Opaque "context deadline exceeded"), [])
      else
        let '(r, acts) := shutdown_processors xs (errs ++ option_list (te_shutdown env x)) in
        (r, Close (Exporter x) :: acts)
  end.
Definition tracer_shutdown (p : provider) : option error * list act :=
  let '(err, acts) := shutdown_processors (pv_exporters p).*1 [] in (err, Close TracerProvider :: acts).
Definition meter_shutdown (p : provider) : option error * list act :=
  (errors_Join (omap (te_shutdown env) (pv_exporters p).*1), Close MeterProvider :: (Close ∘ Exporter <$> (pv_exporters p).*1)).

Definition New : M error Telemetry :=
  let! res := lift (match te_resource env with
                    | Some e => Err (Wrap "create otel resource: " e "")
                    | None => Ok (tc_ServiceName cfg, tc_ServiceVersion cfg)
                    end) in
  let! tp := fail_with (λ e, Wrap "create tracer provider: " e "") (buildTracerProvider res) in
  emit [SetTracerProvider] (
  let! mp := on_error (tracer_shutdown tp).2
               (fail_with (λ e, Wrap "create meter provider: " e "") (buildMeterProvider res)) in
  emit [SetMeterProvider] (
  let! metrics := on_error ((tracer_shutdown tp).2 ++ (meter_shutdown mp.1).2)
                    (fail_with (λ e, Wrap "create metrics: " e "") (lift (NewMetrics env))) in
  ret (mkTelemetry tp mp.1 mp.2 metrics))).

Definition Shutdown (t : Telemetry) : option error * list act :=
  let '(e1, a1) := tracer_shutdown (tel_tracerProvider t) in
  let '(e2, a2) := meter_shutdown (tel_meterProvider t) in
  (errors_Join (option_list ((λ e, Wrap "tracer shutdown: " e "") <$> e1) ++
                option_list ((λ e, Wrap "meter shutdown: " e "") <$> e2)), a1 ++ a2).
End Startup.

(** ** Lemmas *)

Section Facts.
Context (env : tel_env) (cfg : tel_config).

Definition trace_exporters : list exporter :=
  (if otlp cfg then [OtlpTrace] else []) ++ (if tc_EnableStdout cfg then [StdoutTrace] else []).
Definition metric_exporters : list exporter :=
  (if tc_EnablePrometheus cfg then [Prometheus] else []) ++ (if otlp cfg then [OtlpMetric] else []) ++
  (if tc_EnableStdout cfg then [StdoutMetric] else []).

(** The exporters constructed before the first failure, and those a tracer
    provider's shutdown does not reach. *)
Fixpoint created (xs : list exporter) : list exporter :=
  match xs with
  | [] => []
  | x :: xs => match te_exporter env x with Some _ => [] | None => x :: created xs end
  end.
Fixpoint missed (xs : list exporter) : list exporter :=
  match xs with [] => [] | x :: xs' => if te_expired env x then xs else missed xs' end.

(** What telemetry holds once it is up, last opened first; and what is still open
    when New has failed. *)
Definition telemetry_held : list resource :=
  MeterProvider :: reverse (Exporter <$> metric_exporters) ++ TracerProvider :: reverse (Exporter <$> trace_exporters).

Definition failed_half (xs : list exporter) : option (list exporter) :=
  if bool_decide (created xs = xs) then None else Some (created xs).
Definition leaked : list exporter :=
  match te_resource env with
  | Some _ => []
  | None =>
      match failed_half trace_exporters with
      | Some xs => reverse xs
      | None => reverse (default [] (failed_half metric_exporters)) ++ reverse (missed trace_exporters)
      end
  end.

Lemma NewMetrics_complete m : NewMetrics env = Ok m → ∃ ins, metrics_fields m = Some <$> ins ∧ NoDup (in_name <$> ins).
Proof using Type.
  unfold NewMetrics, create. intros H. repeat (destruct (te_instrument env _); [done|]; cbn [rbind] in H).
  injection H as <-. eexists [_; _; _; _; _; _; _; _; _; _; _; _]. split; [reflexivity|]. by apply (bool_decide_unpack _).
Qed.

Ltac cases :=
  repeat (match goal with
  | |- context [otlp cfg] => destruct (otlp cfg)
  | |- context [tc_EnableStdout cfg] => destruct (tc_EnableStdout cfg)
  | |- context [tc_EnablePrometheus cfg] => destruct (tc_EnablePrometheus cfg)
  end); cbn; repeat match goal with
  | |- context [te_exporter env ?x] => destruct (te_exporter env x)
  end; cbn; repeat match goal with
  | |- context [te_expired env ?x] => destruct (te_expired env x)
  end.

Lemma New_leaves held : below 1 held →
  leaves held (New env cfg)
    (λ r, match r with Ok _ => telemetry_held | Err _ => Exporter <$> leaked end ++ held).
Proof using Type.
  intros Hb. apply (leaves_frame 1 held (New env cfg) (λ r, match r with Ok _ => telemetry_held | Err _ => Exporter <$> leaked end));
    [|done|]; unfold New, leaked; (destruct (te_resource env); [reflexivity|]);
    unfold leaves, buildTracerProvider, buildMeterProvider, new_exporter, failed_half, telemetry_held, trace_exporters,
      metric_exporters, tracer_shutdown, meter_shutdown;
    destruct (NewMetrics env); cases; reflexivity.
Qed.

Lemma New_serves : serves (New env cfg).2 = false.
Proof using Type.
  unfold New. destruct (te_resource env); [done|].
  unfold buildTracerProvider, buildMeterProvider, new_exporter, tracer_shutdown, meter_shutdown.
  destruct (NewMetrics env); cases; reflexivity.
Qed.

Lemma New_starts_no_purge : starts_purge (New env cfg).2 = false.
Proof using Type.
  unfold New. destruct (te_resource env); [done|].
  unfold buildTracerProvider, buildMeterProvider, new_exporter, tracer_shutdown, meter_shutdown.
  destruct (NewMetrics env); cases; reflexivity.
Qed.

Definition target_of (x : exporter) : target :=
  match x with
  | OtlpTrace | OtlpMetric => otlp_target cfg
  | StdoutTrace | StdoutMetric => ToStdout
  | Prometheus => ToRegistry
  end.

(** What New builds when it succeeds. *)
Definition as_configured (t : Telemetry) : Prop :=
  let res := (tc_ServiceName cfg, tc_ServiceVersion cfg) in
  let exports xs := (λ x, (x, target_of x)) <$> xs in
  tel_tracerProvider t = mkProvider res
    (if flt (tc_TraceSampleRatio cfg) float_one then Some (tc_TraceSampleRatio cfg) else None) (exports trace_exporters) ∧
  tel_meterProvider t = mkProvider res None (exports metric_exporters) ∧
  tel_promHandler t = tc_EnablePrometheus cfg ∧ NewMetrics env = Ok (tel_Metrics t).

Lemma New_ok t : (New env cfg).1 = Ok t → as_configured t.
Proof using Type.
  unfold New, as_configured. destruct (te_resource env); [done|].
  unfold buildTracerProvider, buildMeterProvider, new_exporter, trace_exporters, metric_exporters.
  destruct (NewMetrics env) as [m|e]; cases; intros H; try discriminate H; by injection H as <-.
Qed.

Lemma created_all xs : Forall (λ x, te_exporter env x = None) xs ↔ created xs = xs.
Proof using Type.
  induction xs as [|x xs IH]; [done|]. rewrite Forall_cons, IH. cbn [created].
  destruct (te_exporter env x); [by split; [intros [? _]|]|].
  split; [by intros [_ ->]|]. by intros [= ->].
Qed.

Lemma New_succeeds : is_ok (New env cfg).1 = true ↔
  te_resource env = None ∧ Forall (λ x, te_exporter env x = None) (trace_exporters ++ metric_exporters) ∧
  is_ok (NewMetrics env) = true.
Proof using Type.
  rewrite Forall_app, !created_all.
  unfold New, trace_exporters, metric_exporters. destruct (te_resource env); [by split; [|intros [? _]]|].
  unfold buildTracerProvider, buildMeterProvider, new_exporter.
  destruct (NewMetrics env) as [m|e]; cases; (split; [by intros; split_and!|by intros (_ & [] & ?)]).
Qed.

Lemma shutdown_acts xs errs : (shutdown_processors env xs errs).2 = Close ∘ Exporter <$> take (length xs - length (missed xs)) xs.
Proof using Type.
  revert errs. induction xs as [|x xs IH]; intros errs; [done|]. cbn [shutdown_processors missed].
  destruct (te_expired env x); [by rewrite Nat.sub_diag|].
  specialize (IH (errs ++ option_list (te_shutdown env x))).
  destruct (shutdown_processors _ _ _) as [r acts]. cbn [snd] in *. rewrite IH.
  assert (length (missed xs) <= length xs)%nat.
  { clear. induction xs as [|y ys IH]; [done|]. cbn. destruct (te_expired env y); cbn; lia. }
  cbn [length]. rewrite Nat.sub_succ_l by done. done.
Qed.

Lemma Shutdown_serves t : serves (Shutdown env t).2 = false.
Proof using Type.
  unfold Shutdown, tracer_shutdown, meter_shutdown. destruct (shutdown_processors _ _ _) as [r acts] eqn:E.
  apply (f_equal snd) in E. rewrite shutdown_acts in E. cbn [snd] in *. subst acts.
  rewrite !list_fmap_compose. cbn [app]. change (serves (Close TracerProvider :: ?l)) with (serves l).
  rewrite serves_app, serves_closes. apply (serves_closes (MeterProvider :: _)).
Qed.

Lemma Shutdown_starts_no_purge t : starts_purge (Shutdown env t).2 = false.
Proof using Type.
  unfold Shutdown, tracer_shutdown, meter_shutdown. destruct (shutdown_processors _ _ _) as [r acts] eqn:E.
  apply (f_equal snd) in E. rewrite shutdown_acts in E. cbn [snd] in *. subst acts.
  rewrite !list_fmap_compose. cbn [app]. change (starts_purge (Close TracerProvider :: ?l)) with (starts_purge l).
  rewrite starts_purge_app, starts_purge_closes. apply (starts_purge_closes (MeterProvider :: _)).
Qed.

(** Shutdown closes everything but the exporters its context expired on. *)
Lemma Shutdown_leaves t held : (New env cfg).1 = Ok t → below 1 held →
  play uses (Shutdown env t).2 (telemetry_held ++ held) = Some ((Exporter <$> reverse (missed trace_exporters)) ++ held).
Proof using Type.
  intros Ht Hb. destruct (New_ok t Ht) as (Htp & Hmp & _ & _). unfold Shutdown, tracer_shutdown, meter_shutdown.
  rewrite Htp, Hmp. cbn [pv_exporters]. rewrite <-!list_fmap_compose.
  destruct (shutdown_processors _ _ _) as [r acts] eqn:E. apply (f_equal snd) in E. rewrite shutdown_acts in E.
  cbn [snd] in *. subst acts. apply (play_frame 1); [|done|]; unfold telemetry_held, trace_exporters, metric_exporters; cases;
    reflexivity.
Qed.
End Facts.

(** C19: Telemetry starts and stops cleanly, its shutdown context not expiring. New
    succeeds exactly when every constructor it needs does, and then has built what
    is configured: the tracer and meter providers with exactly the enabled
    exporters, the sampler when the ratio is below one, a scrape handler exactly
    when Prometheus is on, and twelve instruments of different names; a shutdown
    gives everything back. When New fails, all that stays open are the exporters
    built before the failing one of the same provider. *)
Theorem telemetry_lifecycle env cfg held (Hheld : below 1 held) (Hlive : ∀ x, te_expired env x = false) :
  let '(r, acts) := New env cfg in
  (is_ok r = true ↔ te_resource env = None ∧
     Forall (λ x, te_exporter env x = None) (trace_exporters cfg ++ metric_exporters cfg) ∧ is_ok (NewMetrics env) = true) ∧
  match r with
  | Ok t =>
      as_configured env cfg t ∧
      (∃ ins, metrics_fields (tel_Metrics t) = Some <$> ins ∧ length ins = 12%nat ∧ NoDup (in_name <$> ins)) ∧
      play uses (acts ++ (Shutdown env t).2) held = Some held
  | Err e =>
      ∃ xs x rest, play uses acts held = Some ((Exporter <$> reverse xs) ++ held) ∧
        (xs = [] ∨ (te_exporter env x ≠ None ∧
          (xs ++ x :: rest = trace_exporters cfg ∨ xs ++ x :: rest = metric_exporters cfg)))
  end.
Proof.
  assert (∀ xs, missed env xs = []) as Hm by (induction xs as [|x xs IH]; cbn; [done|by rewrite Hlive]).
  pose proof (New_leaves env cfg held Hheld) as Hl. pose proof (New_succeeds env cfg) as Hs. pose proof (New_ok env cfg) as Hok.
  pose proof (λ t, Shutdown_leaves env cfg t held) as Hsh. unfold leaves in Hl.
  destruct (New env cfg) as [r acts]. cbn [fst snd] in *. split; [done|]. destruct r as [t|e].
  - specialize (Hok t eq_refl). split; [done|]. split.
    + destruct Hok as (_ & _ & _ & Hmet). destruct (NewMetrics_complete env _ Hmet) as (ins & Hins & Hnd).
      exists ins. split; [done|]. split; [|done]. apply (f_equal length) in Hins. by rewrite length_fmap in Hins.
    + rewrite play_app, Hl. rewrite (Hsh t eq_refl Hheld). by rewrite Hm.
  - rewrite Hl. unfold leaked, failed_half. rewrite Hm. cbn [reverse].
    assert (∀ xs, created env xs ≠ xs → ∃ x rest, te_exporter env x ≠ None ∧ created env xs ++ x :: rest = xs) as Hc.
    { clear. induction xs as [|x xs IH]; [done|]. cbn [created]. destruct (te_exporter env x) eqn:E.
      - intros _. exists x, xs. split; [congruence|done].
      - intros Hne. destruct IH as (y & rest & Hy & Heq); [congruence|]. exists y, rest. split; [done|]. cbn. by rewrite Heq. }
    destruct (te_resource env); [exists [], OtlpTrace, []; split; [done|by left]|].
    destruct (bool_decide _) eqn:Et; [destruct (bool_decide (created env (metric_exporters cfg) = _)) eqn:Em|]; bool_to_prop.
    + exists [], OtlpTrace, []. split; [done|by left].
    + apply bool_decide_eq_false in Em. destruct (Hc _ Em) as (x & rest & Hx & Heq).
      exists (created env (metric_exporters cfg)), x, rest. split; [by rewrite app_nil_r|]. right. auto.
    + apply bool_decide_eq_false in Et. destruct (Hc _ Et) as (x & rest & Hx & Heq).
      exists (created env (trace_exporters cfg)), x, rest. split; [done|]. right. auto.
Qed.

Definition demo_tel_env : tel_env := mkTelEnv None (λ _, None) (λ _, None) (λ _, None) (λ _, false).
Definition demo_tel_config : tel_config :=
  mkTelConfig "nvnm-mcp-server" "dev" "collector:4317" true true (float_of_Z 1) true.

Lemma telemetry_lifecycle_witness :
  is_ok (New demo_tel_env demo_tel_config).1 = true ∧ length (New demo_tel_env demo_tel_config).2 = 9%nat ∧
  ∃ t, (New demo_tel_env demo_tel_config).1 = Ok t ∧
    play uses ((New demo_tel_env demo_tel_config).2 ++ (Shutdown demo_tel_env t).2) [SignalContext] = Some [SignalContext].
Proof.
  assert (below 1 [SignalContext]) as Hb by (constructor; [reflexivity|constructor]).
  pose proof (telemetry_lifecycle demo_tel_env demo_tel_config [SignalContext] Hb (λ _, eq_refl)) as H.
  split; [vm_compute; reflexivity|]. split; [vm_compute; reflexivity|].
  destruct (New demo_tel_env demo_tel_config) as [[t|e] acts] eqn:E; [|vm_compute in E; discriminate].
  exists t. split; [reflexivity|]. apply H.
Defined.
