(* ===== verification/Resilient.v ===== *)
(** The resilience wrapper of the EVM client (internal/evm/resilient.go): the
    circuit breaker (vendor/github.com/sony/gobreaker/v2, with the settings
    NewResilientClient passes: Interval 0, so one bucket that never rolls and
    ages that stay 0, MaxRequests 0, IsExcluded absent), the retry loop
    (vendor/github.com/cenkalti/backoff/v5), and the calls composed of them.

    Concurrent calls interleave between the two critical sections of
    Execute: [run] plays any schedule of them. The randomised delays and the
    context are observed by the retry loop through [retry_env]. *)

From Stdlib Require Import Floats.SpecFloat.
From S2P Require Import Prelude GoErrors Hex Evm.

(** ** The circuit breaker *)

Definition u32_mod : Z := 4294967296.
Definition u32 (x : Z) : Z := x mod u32_mod.

Inductive State := StateClosed | StateHalfOpen | StateOpen.

#[export] Instance State_eq_dec : EqDecision State.
Proof. solve_decision. Defined.

Record Counts := mkCounts {
  Requests : Z; TotalSuccesses : Z; TotalFailures : Z;
  TotalExclusions : Z; ConsecutiveSuccesses : Z; ConsecutiveFailures : Z
}.

Definition clear : Counts := mkCounts 0 0 0 0 0 0.

Definition counts_onRequest (c : Counts) : Counts :=
  mkCounts (u32 (Requests c + 1)) (TotalSuccesses c) (TotalFailures c)
    (TotalExclusions c) (ConsecutiveSuccesses c) (ConsecutiveFailures c).

Definition counts_onSuccess (c : Counts) : Counts :=
  mkCounts (Requests c) (u32 (TotalSuccesses c + 1)) (TotalFailures c)
    (TotalExclusions c) (u32 (ConsecutiveSuccesses c + 1)) 0.

Definition counts_onFailure (c : Counts) : Counts :=
  mkCounts (Requests c) (TotalSuccesses c) (u32 (TotalFailures c + 1))
    (TotalExclusions c) 0 (u32 (ConsecutiveFailures c + 1)).

Definition validRequests (c : Counts) : Z :=
  if Requests c <? TotalExclusions c then 0 else u32 (Requests c - TotalExclusions c).

Record ResilientConfig := mkResilientConfig {
  MaxRetries : Z; InitialBackoff : Z; MaxBackoff : Z;
  RateLimit : spec_float; RateBurst : Z; BreakerThreshold : Z; BreakerTimeout : Z
}.

(** [expiry] is None for the zero time. *)
Record CircuitBreaker := mkCB {
  cb_maxRequests : Z; cb_timeout : Z; cb_threshold : Z;
  cb_state : State; cb_generation : Z; cb_counts : Counts; cb_expiry : option Z
}.

Definition with_counts (c : Counts) (cb : CircuitBreaker) : CircuitBreaker :=
  mkCB (cb_maxRequests cb) (cb_timeout cb) (cb_threshold cb) (cb_state cb) (cb_generation cb) c (cb_expiry cb).

Definition toNewGeneration (now : Z) (cb : CircuitBreaker) : CircuitBreaker :=
  mkCB (cb_maxRequests cb) (cb_timeout cb) (cb_threshold cb) (cb_state cb)
    (u64 (cb_generation cb + 1)) clear
    (match cb_state cb with
     | StateOpen => Some (now + cb_timeout cb)
     | StateClosed | StateHalfOpen => None
     end).

Definition state_eqb (a b : State) : bool :=
  match a, b with
  | StateClosed, StateClosed | StateHalfOpen, StateHalfOpen | StateOpen, StateOpen => true
  | _, _ => false
  end.

Definition setState (s : State) (now : Z) (cb : CircuitBreaker) : CircuitBreaker :=
  if state_eqb (cb_state cb) s then cb
  else toNewGeneration now
         (mkCB (cb_maxRequests cb) (cb_timeout cb) (cb_threshold cb) s
            (cb_generation cb) (cb_counts cb) (cb_expiry cb)).

(** cb.expiry.Before(now); the zero time is before every instant. *)
Definition expired (cb : CircuitBreaker) (now : Z) : bool :=
  match cb_expiry cb with None => true | Some x => x <? now end.

Definition currentState (now : Z) (cb : CircuitBreaker) : CircuitBreaker :=
  match cb_state cb with
  | StateClosed =>
      match cb_expiry cb with
      | Some x => if x <? now then toNewGeneration now cb else cb
      | None => cb
      end
  | StateOpen => if expired cb now then setState StateHalfOpen now cb else cb
  | StateHalfOpen => cb
  end.

Definition defaultTimeout : Z := 60 * second.

(** gobreaker.NewCircuitBreaker with NewResilientClient's settings. *)
Definition NewCircuitBreaker (cfg : ResilientConfig) (now : Z) : CircuitBreaker :=
  toNewGeneration now
    (mkCB 1 (if BreakerTimeout cfg <=? 0 then defaultTimeout else BreakerTimeout cfg)
       (BreakerThreshold cfg) StateClosed 0 clear None).

(** The ReadyToTrip closure of NewResilientClient. *)
Definition ReadyToTrip (cb : CircuitBreaker) (c : Counts) : bool :=
  cb_threshold cb <=? ConsecutiveFailures c.

Definition breakerCountsAsSuccess (err : option error) : bool :=
  match err with
  | None => true
  | Some e => if as_rpc_error e then true else IsInputError e || IsNotFound e
  end.

Definition beforeRequest (now : Z) (cb : CircuitBreaker) : result sentinel Z * CircuitBreaker :=
  let cb := currentState now cb in
  match cb_state cb with
  | StateOpen => (Err BreakerErrOpenState, cb)
  | StateHalfOpen =>
      if cb_maxRequests cb <=? validRequests (cb_counts cb) then (Err BreakerErrTooManyRequests, cb)
      else (Ok (cb_generation cb), with_counts (counts_onRequest (cb_counts cb)) cb)
  | StateClosed => (Ok (cb_generation cb), with_counts (counts_onRequest (cb_counts cb)) cb)
  end.

Definition onSuccess (now : Z) (cb : CircuitBreaker) : CircuitBreaker :=
  match cb_state cb with
  | StateClosed => with_counts (counts_onSuccess (cb_counts cb)) cb
  | StateHalfOpen =>
      let cb := with_counts (counts_onSuccess (cb_counts cb)) cb in
      if cb_maxRequests cb <=? ConsecutiveSuccesses (cb_counts cb) then setState StateClosed now cb else cb
  | StateOpen => cb
  end.

Definition onFailure (now : Z) (cb : CircuitBreaker) : CircuitBreaker :=
  match cb_state cb with
  | StateClosed =>
      let cb := with_counts (counts_onFailure (cb_counts cb)) cb in
      if ReadyToTrip cb (cb_counts cb) then setState StateOpen now cb else cb
  | StateHalfOpen => setState StateOpen now cb
  | StateOpen => cb
  end.

Definition afterRequest (previous : Z) (err : option error) (now : Z) (cb : CircuitBreaker) : CircuitBreaker :=
  let cb := currentState now cb in
  if negb (cb_generation cb =? previous) then cb
  else if breakerCountsAsSuccess err then onSuccess now cb else onFailure now cb.

(** Execute: [req] is what the request function returned (None: it
    panicked, which is recorded as a failure and re-raised); [others] is what
    concurrent calls did to the breaker while it ran. *)
Definition req_error {A} (r : answer A) : option error :=
  match r with
  | None => Some (Opaque "panic")
  | Some (Err e) => Some e
  | Some (Ok _) => None
  end.

Definition Execute {A} (t0 t1 : Z) (others : CircuitBreaker → CircuitBreaker)
    (req : answer A) (cb : CircuitBreaker) : result sentinel (answer A) * CircuitBreaker :=
  match beforeRequest t0 cb with
  | (Err e, cb) => (Err e, cb)
  | (Ok generation, cb) => (Ok req, afterRequest generation (req_error req) t1 (others cb))
  end.

(** ** The retry loop *)

Definition Stop : Z := -1.

(** errors.As with a *PermanentError target: the wrapped error of the first
    one of a pre-order walk. *)
Fixpoint as_permanent (e : error) : option error :=
  match e with
  | Permanent e => Some e
  | Sentinel _ | Opaque _ | RPCError _ _ | NetError _ => None
  | Wrap _ e _ => as_permanent e
  | Wrap2 e1 _ e2 | Curated e1 e2 =>
      match as_permanent e1 with Some p => Some p | None => as_permanent e2 end
  end.

(** What attempt number n observes of the world: context.Cause after a failed
    attempt, the delay NextBackOff draws, and whether the wait for it ended by
    the context. *)
Record retry_env := mkEnv {
  re_cause : nat → option error;
  re_next : nat → Z;
  re_wait : nat → option error
}.

Section Retry.
Context {A : Type}.

(** The loop from attempt [numTries] on, with [rest] = MaxTries - numTries
    attempts to go after it; the elapsed-time limit is switched off
    (WithMaxElapsedTime(0)). Returns the outcome and the number of attempts. *)
Fixpoint Retry_loop (env : retry_env) (operation : nat → answer A) (rest numTries : nat) : answer A * nat :=
  match operation numTries with
  | None => (None, numTries)
  | Some (Ok res) => (Some (Ok res), numTries)
  | Some (Err err) =>
      match rest with
      | O => (Some (Err err), numTries)
      | S rest =>
          match as_permanent err with
          | Some p => (Some (Err p), numTries)
          | None =>
              match re_cause env numTries with
              | Some cerr => (Some (Err cerr), numTries)
              | None =>
                  if re_next env numTries =? Stop then (Some (Err err), numTries)
                  else match re_wait env numTries with
                       | Some cerr => (Some (Err cerr), numTries)
                       | None => Retry_loop env operation rest (S numTries)
                       end
              end
          end
      end
  end.

Definition Retry (env : retry_env) (operation : nat → answer A) (MaxTries : nat) : answer A * nat :=
  Retry_loop env operation (MaxTries - 1) 1.
End Retry.

(** ** Resilient calls *)

Definition cometReceiptsRaceMarker : string := "failed to get receipts from comet block".

Definition isTransientRPCError (err : error) : bool :=
  if IsTransientError err then true
  else if errors_Is err CtxDeadlineExceeded then true
  else if as_net_error err then true
  else if errors_Is err IoEOF || errors_Is err IoErrUnexpectedEOF then true
  else contains cometReceiptsRaceMarker (error_text err).

(** The operation handed to Retry: permanent errors are marked. *)
Definition retry_operation {A} (fn : nat → answer A) (n : nat) : answer A :=
  match fn n with
  | Some (Err callErr) => Some (Err (if isTransientRPCError callErr then callErr else Permanent callErr))
  | r => r
  end.

Definition maxTries (cfg : ResilientConfig) : nat :=
  S (Z.to_nat (if MaxRetries cfg <? 0 then 0 else MaxRetries cfg)).

Definition circuit_error (e : sentinel) : error := Wrap2 ErrCircuitOpen ": " e.

Section Calls.
Context {A : Type}.
Context (cfg : ResilientConfig) (others : CircuitBreaker → CircuitBreaker) (t0 t1 : Z).

(** r.limiter.Wait(ctx) failed with this error. *)
Definition rate_limited (e : error) : error := Wrap2 ErrRateLimited ": " e.

(** The errors Execute can return besides the request's own: the code's test
    is errors.Is on whatever came back. *)
Definition map_breaker_error (e : error) : error :=
  if errors_Is e BreakerErrOpenState || errors_Is e BreakerErrTooManyRequests
  then Wrap2 ErrCircuitOpen ": " e else e.

Definition finish_call (x : result sentinel (answer A)) : answer A :=
  match x with
  | Err s => Some (Err (map_breaker_error s))
  | Ok None => None
  | Ok (Some (Err e)) => Some (Err (map_breaker_error e))
  | Ok (Some (Ok v)) => Some (Ok v)
  end.

(** resilientCall: the outcome, the number of times [fn] ran, and the breaker.
    [fn n] is what the n-th run returns. *)
Definition resilientCall (wait : option error) (env : retry_env) (fn : nat → answer A)
    (cb : CircuitBreaker) : answer A * nat * CircuitBreaker :=
  match wait with
  | Some e => (Some (Err (rate_limited e)), 0%nat, cb)
  | None =>
      let '(res, n) := Retry env (retry_operation fn) (maxTries cfg) in
      let '(x, cb) := Execute t0 t1 others res cb in
      (finish_call x, match x with Ok _ => n | Err _ => 0%nat end, cb)
  end.
End Calls.

(** resilientClient.SendRawTransaction around client.SendRawTransaction: no
    retry. Also returns the byte strings handed to the node. *)
Definition resilient_SendRawTransaction (others : CircuitBreaker → CircuitBreaker) (t0 t1 : Z)
    (wait : option error) (signedTxHex : string) (rpc : string → result error (option hash))
    (cb : CircuitBreaker) : list string * result error string * CircuitBreaker :=
  match wait with
  | Some e => ([], Err (rate_limited e), cb)
  | None =>
      let '(sent, res) := SendRawTransaction signedTxHex rpc in
      match Execute t0 t1 others (Some res) cb with
      | (Err s, cb) => ([], Err (map_breaker_error s), cb)
      | (Ok _, cb) => (option_list sent, rmap_err map_breaker_error res, cb)
      end
  end.

(** ** Schedules of concurrent calls *)

Inductive event :=
| Begin (now : Z)                                   (* a call enters Execute *)
| Finish (i : nat) (err : option error) (now : Z).  (* the i-th call in flight ends *)

(** The breaker and the generations of the calls in flight. *)
Definition sys : Type := CircuitBreaker * list Z.

Definition step (ev : event) (s : sys) : option bool * sys :=
  let '(cb, flight) := s in
  match ev with
  | Begin now =>
      match beforeRequest now cb with
      | (Ok g, cb) => (Some true, (cb, flight ++ [g]))
      | (Err _, cb) => (Some false, (cb, flight))
      end
  | Finish i err now =>
      match flight !! i with
      | Some g => (None, (afterRequest g err now cb, delete i flight))
      | None => (None, (cb, flight))
      end
  end.

Fixpoint run (evs : list event) (s : sys) : list bool * sys :=
  match evs with
  | [] => ([], s)
  | ev :: evs =>
      let '(d, s) := step ev s in
      let '(ds, s) := run evs s in
      (option_list d ++ ds, s)
  end.

(** ** The breaker's contract: three states, no counters *)

Inductive spec :=
| AClosed (failures : Z)     (* consecutive failures so far *)
| AOpen (until : Z)
| AHalf (probing : bool).

Definition spec_begin (now : Z) (a : spec) : bool * spec :=
  match a with
  | AClosed k => (true, AClosed k)
  | AOpen u => if u <? now then (true, AHalf true) else (false, AOpen u)
  | AHalf p => (negb p, AHalf true)
  end.

(** Calls admitted before the last change of state no longer count. *)
Definition spec_stale (now : Z) (a : spec) : spec :=
  match a with AOpen u => if u <? now then AHalf false else a | _ => a end.

Definition spec_finish (threshold timeout now : Z) (ok : bool) (a : spec) : spec :=
  match a with
  | AClosed k => if ok then AClosed 0
                 else if threshold <=? k + 1 then AOpen (now + timeout) else AClosed (k + 1)
  | AHalf _ => if ok then AClosed 0 else AOpen (now + timeout)
  | AOpen _ => spec_stale now a
  end.

Definition same_phase (a b : spec) : bool :=
  match a, b with
  | AClosed _, AClosed _ | AOpen _, AOpen _ | AHalf _, AHalf _ => true
  | _, _ => false
  end.

(** Calls in flight carry whether they count in the present phase. *)
Definition aged (a b : spec) (flight : list bool) : list bool :=
  if same_phase a b then flight else (λ _, false) <$> flight.

Definition spec_step (threshold timeout : Z) (ev : event) (s : spec * list bool)
    : option bool * (spec * list bool) :=
  let '(a, flight) := s in
  match ev with
  | Begin now =>
      let '(ok, a') := spec_begin now a in
      (Some ok, (a', aged a a' flight ++ (if ok then [true] else [])))
  | Finish i err now =>
      match flight !! i with
      | Some cur =>
          let a' := if (cur : bool) then spec_finish threshold timeout now (breakerCountsAsSuccess err) a
                    else spec_stale now a in
          (None, (a', aged a a' (delete i flight)))
      | None => (None, (a, flight))
      end
  end.

Fixpoint spec_run (threshold timeout : Z) (evs : list event) (s : spec * list bool)
    : list bool * (spec * list bool) :=
  match evs with
  | [] => ([], s)
  | ev :: evs =>
      let '(d, s) := spec_step threshold timeout ev s in
      let '(ds, s) := spec_run threshold timeout evs s in
      (option_list d ++ ds, s)
  end.

Definition abs_breaker (cb : CircuitBreaker) : spec :=
  match cb_state cb with
  | StateClosed => AClosed (ConsecutiveFailures (cb_counts cb))
  | StateOpen => AOpen (default 0 (cb_expiry cb))
  | StateHalfOpen => AHalf (1 <=? validRequests (cb_counts cb))
  end.

Definition abs_sys (s : sys) : spec * list bool :=
  (abs_breaker s.1, (λ g : Z, g =? cb_generation s.1) <$> s.2).

(** ** Lemmas *)

Record breaker_inv (threshold timeout : Z) (cb : CircuitBreaker) : Prop := {
  bi_max : cb_maxRequests cb = 1;
  bi_timeout : cb_timeout cb = timeout;
  bi_threshold : cb_threshold cb = threshold;
  bi_excl : TotalExclusions (cb_counts cb) = 0;
  bi_state : match cb_state cb with
             | StateClosed => cb_expiry cb = None ∧ 0 ≤ ConsecutiveFailures (cb_counts cb) < Z.max 1 threshold
             | StateHalfOpen => 0 ≤ Requests (cb_counts cb) ≤ 1 ∧ ConsecutiveSuccesses (cb_counts cb) = 0
             | StateOpen => is_Some (cb_expiry cb)
             end
}.

Definition sys_inv (threshold timeout : Z) (s : sys) : Prop :=
  breaker_inv threshold timeout s.1 ∧ 0 ≤ cb_generation s.1 ∧ Forall (λ g, g ≤ cb_generation s.1) s.2.

Lemma u32_small x : 0 ≤ x < u32_mod → u32 x = x.
Proof. apply Z.mod_small. Qed.

(** A new generation makes every call in flight stale. *)
Lemma flight_stale g (l : list Z) (f : Z → bool) (Hl : Forall (λ x, x ≤ g) l) :
  (λ x : Z, x =? g + 1) <$> l = (λ _ : bool, false) <$> (f <$> l).
Proof.
  induction Hl as [|x l Hx Hl IH]; [done|]. rewrite !fmap_cons, IH. f_equal. lia.
Qed.

Lemma Forall_le_weaken (l : list Z) a b : a ≤ b → Forall (λ x, x ≤ a) l → Forall (λ x, x ≤ b) l.
Proof. intros Hab Hl. eapply Forall_impl; [exact Hl|]. cbn. lia. Qed.

(** The generation advances by one exactly when the phase changes. *)
Definition tracks (cb cb' : CircuitBreaker) : Prop :=
  (cb_generation cb' = cb_generation cb ∧ same_phase (abs_breaker cb) (abs_breaker cb') = true) ∨
  (cb_generation cb' = cb_generation cb + 1 ∧ same_phase (abs_breaker cb) (abs_breaker cb') = false).

Lemma tracks_flight cb cb' (l : list Z) :
  tracks cb cb' → Forall (λ x, x ≤ cb_generation cb) l →
  (λ g : Z, g =? cb_generation cb') <$> l =
    aged (abs_breaker cb) (abs_breaker cb') ((λ g : Z, g =? cb_generation cb) <$> l).
Proof.
  unfold aged. intros [[-> ->]|[-> ->]] Hl; [done|]. by apply flight_stale.
Qed.

Section Simulation.
Context (threshold timeout : Z) (Hthr : 0 ≤ threshold < u32_mod).

Ltac breaker cb :=
  destruct cb as [mr tmo thr st g [rq ts tf te cs cf] ex];
  unfold tracks, abs_breaker, currentState, beforeRequest, onSuccess, onFailure,
    setState, toNewGeneration, expired, ReadyToTrip, validRequests, with_counts, counts_onRequest,
    counts_onSuccess, counts_onFailure in *;
  cbn in *.

Lemma currentState_sim now cb :
  breaker_inv threshold timeout cb → 0 ≤ cb_generation cb → cb_generation cb + 1 < u64_mod →
  breaker_inv threshold timeout (currentState now cb) ∧ tracks cb (currentState now cb) ∧
  abs_breaker (currentState now cb) = spec_stale now (abs_breaker cb).
Proof using All.
  intros [Hm Ht Hth He Hs] Hg Hg'. breaker cb. subst.
  destruct st; cbn in *.
  - destruct Hs as [-> Hs]. split; [by constructor|]. split; [by left|done].
  - split; [by constructor|]. split; [by left|done].
  - destruct Hs as [u ->]. cbn.
    destruct (u <? now) eqn:Hu; cbn.
    + split; [constructor; cbn; lia|]. split; [right|done].
      rewrite u64_small; [done|]. unfold is_u64. lia.
    + split; [constructor; cbn; eauto|]. split; [by left|done].
Qed.

Lemma u32_0 : u32 0 = 0. Proof. reflexivity. Qed.
Lemma u32_1 : u32 1 = 1. Proof. reflexivity. Qed.

(** What a breaker that is not open, or whose open period is over, does with a
    request. *)
Lemma admit_sim cb now :
  breaker_inv threshold timeout cb → (∀ u, cb_expiry cb = Some u → cb_state cb = StateOpen → now ≤ u) →
  currentState now cb = cb →
  let '(r, cb') := beforeRequest now cb in
  breaker_inv threshold timeout cb' ∧ cb_generation cb' = cb_generation cb ∧ spec_begin now (abs_breaker cb) = (is_ok r, abs_breaker cb') ∧
  (∀ g, r = Ok g → g = cb_generation cb).
Proof using All.
  intros [Hm Ht Hth He Hs] Hx Hc. unfold beforeRequest. rewrite Hc. breaker cb. subst.
  destruct st; cbn in *.
  - split; [by constructor|]. repeat split; naive_solver.
  - destruct Hs as [Hrq ->]. replace (rq <? 0) with false by lia. rewrite Z.sub_0_r.
    assert (rq = 0 ∨ rq = 1) as [-> | ->] by lia; cbn.
    + split; [constructor; cbn; try done; rewrite ?u32_1; lia|]. repeat split; naive_solver.
    + split; [constructor; cbn; try done; lia|]. repeat split; naive_solver.
  - destruct Hs as [u ->]. specialize (Hx u eq_refl eq_refl). cbn.
    replace (u <? now) with false by lia.
    split; [constructor; cbn; eauto|]. repeat split; naive_solver.
Qed.

Lemma currentState_idem now cb :
  breaker_inv threshold timeout cb →
  currentState now (currentState now cb) = currentState now cb.
Proof.
  intros [Hm Ht Hth He Hs]. breaker cb. subst. destruct st; cbn in *.
  - destruct Hs as [-> _]. done.
  - done.
  - destruct Hs as [u ->]. cbn. destruct (u <? now) eqn:Hu; cbn; [done|]. by rewrite Hu.
Qed.

Lemma currentState_unexpired now cb u :
  breaker_inv threshold timeout cb →
  cb_expiry (currentState now cb) = Some u → cb_state (currentState now cb) = StateOpen → now ≤ u.
Proof.
  intros [Hm Ht Hth He Hs]. breaker cb. subst. destruct st; cbn in *; [by destruct Hs as [-> _]|done|].
  destruct Hs as [v ->]. cbn. destruct (v <? now) eqn:Hv; cbn; [done|]. intros [= ->] _. lia.
Qed.

Lemma spec_begin_stale now a : spec_begin now (spec_stale now a) = spec_begin now a.
Proof. destruct a as [k|u|p]; cbn; [done| |done]. destruct (u <? now) eqn:Hu; cbn; by rewrite ?Hu. Qed.

Lemma same_phase_refl a : same_phase a a = true.
Proof. by destruct a. Qed.

Lemma beforeRequest_sim now cb :
  breaker_inv threshold timeout cb → 0 ≤ cb_generation cb → cb_generation cb + 1 < u64_mod →
  let '(r, cb') := beforeRequest now cb in
  breaker_inv threshold timeout cb' ∧ tracks cb cb' ∧
  spec_begin now (abs_breaker cb) = (is_ok r, abs_breaker cb') ∧ (∀ g, r = Ok g → g = cb_generation cb').
Proof using All.
  intros Hi Hg Hg'.
  destruct (currentState_sim now cb Hi Hg Hg') as (Hi' & Ht & Ha).
  assert (beforeRequest now cb = beforeRequest now (currentState now cb)) as ->
    by (unfold beforeRequest; by rewrite (currentState_idem now cb Hi)).
  pose proof (admit_sim (currentState now cb) now Hi'
                (λ u, currentState_unexpired now cb u Hi) (currentState_idem now cb Hi)) as H.
  destruct (beforeRequest now (currentState now cb)) as [r cb'].
  destruct H as (Hi'' & Hgen & Hs & Hr). split; [done|].
  rewrite Ha, spec_begin_stale in Hs. split.
  - unfold tracks in *. rewrite Hgen. rewrite Ha in Ht.
    replace (same_phase (abs_breaker cb) (abs_breaker cb'))
      with (same_phase (abs_breaker cb) (spec_stale now (abs_breaker cb))); [done|].
    destruct (abs_breaker cb) as [k|u|p]; cbn in *; [| destruct (u <? now) |];
      injection Hs as Hr' Ha'; by rewrite <-Ha'.
  - split; [done|]. intros g E. rewrite Hgen. by apply Hr.
Qed.

(** The outcome of a counted call, on a breaker whose open period is not
    over at that instant. *)
Lemma outcome_sim now err cb :
  breaker_inv threshold timeout cb → 0 ≤ cb_generation cb → cb_generation cb + 1 < u64_mod →
  cb_state cb ≠ StateOpen →
  let cb' := if breakerCountsAsSuccess err then onSuccess now cb else onFailure now cb in
  breaker_inv threshold timeout cb' ∧ tracks cb cb' ∧
  abs_breaker cb' = spec_finish threshold timeout now (breakerCountsAsSuccess err) (abs_breaker cb).
Proof using All.
  intros [Hm Ht Hth He Hs] Hg Hg' Ho. unfold u32_mod in Hthr.
  assert (u64 (cb_generation cb + 1) = cb_generation cb + 1) as Hu by (apply u64_small; unfold is_u64; lia).
  destruct (breakerCountsAsSuccess err); breaker cb; subst; destruct st; cbn in *; try done.
  - destruct Hs as [-> Hs]. split; [constructor; cbn; repeat split; eauto; lia|]. split; [by left|done].
  - destruct Hs as [Hs ->]. change (u32 (0 + 1)) with 1. cbn.
    split; [constructor; cbn; repeat split; eauto; lia|]. split; [by right|done].
  - destruct Hs as [-> Hs].
    rewrite (u32_small (cf + 1)) by (unfold u32_mod; lia).
    destruct (threshold <=? cf + 1) eqn:E; cbn.
    + split; [constructor; cbn; repeat split; eauto; lia|]. split; [by right|done].
    + split; [constructor; cbn; repeat split; eauto; lia|]. split; [by left|done].
  - split; [constructor; cbn; repeat split; eauto; lia|]. split; [by right|done].
Qed.

Lemma afterRequest_sim previous now err cb :
  breaker_inv threshold timeout cb → 0 ≤ cb_generation cb → cb_generation cb + 1 < u64_mod →
  previous ≤ cb_generation cb →
  let cb' := afterRequest previous err now cb in
  breaker_inv threshold timeout cb' ∧ tracks cb cb' ∧
  abs_breaker cb' = if previous =? cb_generation cb
                    then spec_finish threshold timeout now (breakerCountsAsSuccess err) (abs_breaker cb)
                    else spec_stale now (abs_breaker cb).
Proof using All.
  intros Hi Hg Hg' Hle. unfold afterRequest.
  destruct (currentState_sim now cb Hi Hg Hg') as (Hi' & Ht & Ha).
  pose proof (currentState_unexpired now cb) as Hx.
  assert (currentState now cb = cb ∨ cb_state cb = StateOpen ∧
            cb_generation (currentState now cb) = cb_generation cb + 1) as [Hc|[Ho Hc]].
  { clear Hx. destruct Hi as [_ _ _ _ Hs]. destruct Ht as [[Ht _]|[Ht _]].
    - left. breaker cb. destruct st; cbn in *; [by destruct Hs as [-> _]|done|].
      destruct Hs as [u ->]. cbn in *. destruct (u <? now); [|done]. cbn in Ht.
      rewrite u64_small in Ht by (unfold is_u64; lia). lia.
    - right. split; [|done]. breaker cb. destruct st; cbn in *; [destruct Hs as [-> _]; cbn in *; lia|lia|done]. }
  - rewrite Hc in *. rewrite (Z.eqb_sym (cb_generation cb) previous).
    destruct (previous =? cb_generation cb); cbn; [|done].
    destruct (decide (cb_state cb = StateOpen)) as [Ho|Ho]; [|by apply outcome_sim].
    rewrite Ha.
    destruct (breakerCountsAsSuccess err); unfold onSuccess, onFailure; rewrite Ho;
      (split; [done|split; [done|]]); rewrite <-Ha; unfold abs_breaker in *; rewrite Ho in *; by cbn in *.
  - rewrite Hc. replace (cb_generation cb + 1 =? previous) with false by lia. cbn.
    split; [done|]. split; [done|]. rewrite Ha.
    destruct (previous =? cb_generation cb); [|done]. unfold abs_breaker. by rewrite Ho.
Qed.

Lemma tracks_gen cb cb' : tracks cb cb' →
  cb_generation cb ≤ cb_generation cb' ≤ cb_generation cb + 1.
Proof. intros [[-> _]|[-> _]]; lia. Qed.

Lemma step_sim ev s :
  sys_inv threshold timeout s → cb_generation s.1 + 1 < u64_mod →
  let '(d, s') := step ev s in
  sys_inv threshold timeout s' ∧ cb_generation s'.1 ≤ cb_generation s.1 + 1 ∧
  spec_step threshold timeout ev (abs_sys s) = (d, abs_sys s').
Proof using All.
  destruct s as [cb flight]. intros (Hi & Hg & Hf) Hg'. cbn in Hi, Hg, Hf, Hg'.
  destruct ev as [now|i err now]; cbn.
  - pose proof (beforeRequest_sim now cb Hi Hg Hg') as H.
    destruct (beforeRequest now cb) as [r cb'] eqn:E. destruct H as (Hi' & Ht & Hs & Hr).
    pose proof (tracks_gen _ _ Ht) as Hgen. pose proof (tracks_flight _ _ flight Ht Hf) as Hfl.
    destruct r as [g|e]; cbn in *; rewrite Hs; (split; [split; [done|]; split; [cbn; lia|]; cbn|]).
    + apply Forall_app. split; [by eapply Forall_le_weaken; [|exact Hf]; lia|].
      apply Forall_singleton. rewrite (Hr g eq_refl). lia.
    + split; [cbn; lia|]. unfold abs_sys; cbn. rewrite fmap_app, Hfl. cbn.
      rewrite (Hr g eq_refl), Z.eqb_refl. done.
    + by eapply Forall_le_weaken; [|exact Hf]; lia.
    + split; [cbn; lia|]. unfold abs_sys; cbn. by rewrite Hfl, app_nil_r.
  - unfold abs_sys; cbn. rewrite list_lookup_fmap.
    destruct (flight !! i) as [previous|] eqn:E; cbn; [|split; [done|split; [lia|done]]].
    assert (previous ≤ cb_generation cb) as Hle
      by exact (proj1 (Forall_lookup _ _) Hf i previous E).
    pose proof (afterRequest_sim previous now err cb Hi Hg Hg' Hle) as (Hi' & Ht & Ha).
    pose proof (tracks_gen _ _ Ht) as Hgen.
    pose proof (Forall_delete _ _ i Hf) as Hd.
    split; [split; [done|split; [cbn; lia|]]; cbn; by eapply Forall_le_weaken; [|exact Hd]; lia|].
    split; [lia|]. rewrite <-Ha, <-list_fmap_delete, (tracks_flight _ _ _ Ht Hd). done.
Qed.

Lemma run_sim evs s :
  sys_inv threshold timeout s → cb_generation s.1 + Z.of_nat (length evs) < u64_mod →
  let '(ds, s') := run evs s in
  sys_inv threshold timeout s' ∧ spec_run threshold timeout evs (abs_sys s) = (ds, abs_sys s').
Proof using All.
  revert s. induction evs as [|ev evs IH]; intros s Hi Hlen; cbn [run spec_run]; [done|]. cbn in Hlen.
  pose proof (step_sim ev s Hi ltac:(lia)) as H.
  destruct (step ev s) as [d s1]. destruct H as (Hi1 & Hg1 & Hs).
  specialize (IH s1 Hi1 ltac:(lia)).
  destruct (run evs s1) as [ds s2]. destruct IH as (Hi2 & IH).
  split; [done|]. rewrite Hs, IH. done.
Qed.
End Simulation.

Lemma NewCircuitBreaker_inv cfg now :
  0 ≤ BreakerThreshold cfg →
  sys_inv (BreakerThreshold cfg) (cb_timeout (NewCircuitBreaker cfg now)) (NewCircuitBreaker cfg now, []).
Proof.
  intros H. split; [|split; [cbn; rewrite u64_small; [lia|done]|constructor]].
  constructor; cbn; try done. split; [done|lia].
Qed.

(** ** Theorems *)

(** C16: under every schedule of concurrent calls, the circuit breaker with its
    six wrapping counters and its generation numbers decides exactly as the
    three-state contract: closed while fewer than BreakerThreshold consecutive
    counted calls failed, then open until BreakerTimeout has passed, then one
    probe at a time whose outcome closes or reopens it; calls admitted before
    the last change of state never count. *)
Theorem breaker_refines cfg now evs
    (Hthr : 0 ≤ BreakerThreshold cfg < u32_mod) (Hlen : Z.of_nat (length evs) < u64_mod - 1) :
  let cb := NewCircuitBreaker cfg now in
  let '(decisions, s) := run evs (cb, []) in
  spec_run (BreakerThreshold cfg) (cb_timeout cb) evs (AClosed 0, []) = (decisions, abs_sys s).
Proof.
  cbv zeta. pose proof (NewCircuitBreaker_inv cfg now ltac:(lia)) as Hi.
  pose proof (run_sim _ _ Hthr evs _ Hi) as H.
  specialize (H ltac:(change (1 + Z.of_nat (length evs) < u64_mod); lia)).
  destruct (run evs (NewCircuitBreaker cfg now, [])) as [ds s]. exact (proj2 H).
Qed.

(** Three failures in a row open the breaker; the call that was in flight
    before it opened does not close it; the probe does. *)
Definition demo_cfg : ResilientConfig := mkResilientConfig 2 0 0 (S754_zero false) 0 3 (30 * second).
Definition node_down : option error := Some (NetError "connection refused").
Definition demo_schedule : list event :=
  [Begin 0; Begin 0; Finish 1 node_down 1; Begin 2; Finish 1 node_down 3; Begin 4; Finish 1 node_down 5;
   Begin 6; Finish 0 None 7; Begin (30 * second); Begin (31 * second); Begin (31 * second);
   Finish 0 None (32 * second); Begin (33 * second)].

Lemma breaker_refines_witness :
  let cb := NewCircuitBreaker demo_cfg 0 in
  let '(decisions, s) := run demo_schedule (cb, []) in
  spec_run 3 (30 * second) demo_schedule (AClosed 0, []) = (decisions, abs_sys s) ∧
  decisions = [true; true; true; true; false; false; true; false; true].
Proof.
  assert (Z.of_nat (length demo_schedule) < u64_mod - 1) as Hl by (vm_compute; reflexivity).
  assert (0 ≤ BreakerThreshold demo_cfg < u32_mod) as Ht by (cbn; unfold u32_mod; lia).
  pose proof (breaker_refines demo_cfg 0 demo_schedule Ht Hl) as H.
  vm_compute in H. vm_compute. split; [exact H|reflexivity].
Defined.

(** *** Callers cannot open the breaker *)

Definition healthy (ev : event) : Prop :=
  match ev with Begin _ => True | Finish _ err _ => breakerCountsAsSuccess err = true end.

Lemma closed_begin now cb : cb_state cb = StateClosed → cb_expiry cb = None →
  beforeRequest now cb = (Ok (cb_generation cb), with_counts (counts_onRequest (cb_counts cb)) cb).
Proof. destruct cb; cbn; intros -> ->. done. Qed.

Lemma closed_after g err now cb : cb_state cb = StateClosed → cb_expiry cb = None →
  breakerCountsAsSuccess err = true →
  cb_state (afterRequest g err now cb) = StateClosed ∧ cb_expiry (afterRequest g err now cb) = None.
Proof.
  destruct cb; cbn; intros -> -> Hok. unfold afterRequest; cbn. rewrite Hok. cbn.
  by destruct (negb _).
Qed.

Lemma open_begin now cb u : cb_state cb = StateOpen → cb_expiry cb = Some u → now ≤ u →
  beforeRequest now cb = (Err BreakerErrOpenState, cb).
Proof.
  destruct cb; cbn; intros -> -> Hu. unfold beforeRequest, currentState, expired; cbn.
  by replace (u <? now) with false by lia.
Qed.

Lemma open_after g err now cb u : cb_state cb = StateOpen → cb_expiry cb = Some u → now ≤ u →
  afterRequest g err now cb = cb.
Proof.
  destruct cb; cbn; intros -> -> Hu. unfold afterRequest, currentState, expired; cbn.
  replace (u <? now) with false by lia. cbn.
  destruct (negb _); [done|]. by destruct (breakerCountsAsSuccess err).
Qed.

Definition event_time (ev : event) : Z := match ev with Begin now | Finish _ _ now => now end.

(** while every call that ends has an outcome the breaker counts as
    success (an answer of the node, a rejected input, a not-found), whatever
    the number of calls and their interleaving, no call is shed and the breaker
    stays closed; and once it is open, no call reaches the node and nothing
    changes it until its open period is over. *)
Theorem breaker_sheds_only_failing_node cb flight evs :
  (cb_state cb = StateClosed → cb_expiry cb = None → Forall healthy evs →
   Forall (λ d, d = true) (run evs (cb, flight)).1 ∧ cb_state (run evs (cb, flight)).2.1 = StateClosed) ∧
  (∀ u, cb_state cb = StateOpen → cb_expiry cb = Some u → Forall (λ ev, event_time ev ≤ u) evs →
   Forall (λ d, d = false) (run evs (cb, flight)).1 ∧ (run evs (cb, flight)).2.1 = cb).
Proof.
  split.
  - revert cb flight. induction evs as [|ev evs IH]; intros cb flight Hs Hx Hok; [done|].
    inversion Hok as [|? ? Hev Hok']; subst. cbn [run].
    destruct ev as [now|i err now]; cbn [step].
    + rewrite closed_begin by done.
      specialize (IH (with_counts (counts_onRequest (cb_counts cb)) cb) (flight ++ [cb_generation cb]) Hs Hx Hok').
      destruct (run evs _) as [ds s]. cbn in *. split; [constructor; [done|]|]; apply IH.
    + destruct (flight !! i) as [g|]; [|specialize (IH cb flight Hs Hx Hok'); by destruct (run evs _)].
      destruct (closed_after g err now cb Hs Hx Hev) as [Hs' Hx'].
      specialize (IH _ (delete i flight) Hs' Hx' Hok'). by destruct (run evs _).
  - intros u Hs Hx. revert flight. induction evs as [|ev evs IH]; intros flight Ht; [done|].
    inversion Ht as [|? ? Hev Ht']; subst. cbn [run].
    destruct ev as [now|i err now]; cbn [step]; cbn in Hev.
    + rewrite (open_begin now cb u) by done. specialize (IH flight Ht').
      destruct (run evs _) as [ds s]. cbn in *. split; [constructor; [done|]|]; apply IH.
    + destruct (flight !! i) as [g|]; [|specialize (IH flight Ht'); by destruct (run evs _)].
      rewrite (open_after g err now cb u) by done.
      specialize (IH (delete i flight) Ht'). by destruct (run evs _).
Qed.

(** Signed hex that does not decode is the caller's mistake, yet its error is
    not of the input class: the breaker counts it as a failure of the node. *)
Theorem undecodable_hex_counts_as_node_failure s rpc :
  hex_decode (strip_0x s) = None → slen (strip_0x s) ≤ maxSignedTxHexLen →
  ∃ e, SendRawTransaction s rpc = (None, Err e) ∧ breakerCountsAsSuccess (Some e) = false.
Proof.
  intros Hd Hl. unfold SendRawTransaction.
  replace (maxSignedTxHexLen <? slen (strip_0x s)) with false by lia. rewrite Hd. eauto.
Qed.

(** *** Retries *)

Lemma retry_operation_ok {A} (fn : nat → answer A) n v : retry_operation fn n = Some (Ok v) ↔ fn n = Some (Ok v).
Proof. unfold retry_operation. destruct (fn n) as [[w|e]|]; naive_solver. Qed.

(** What ended the loop at attempt n, whose error is e, with outcome e'. *)
Definition retry_end (env : retry_env) (n : nat) (e e' : error) : Prop :=
  re_cause env n = Some e' ∨ re_wait env n = Some e' ∨ (re_next env n = Stop ∧ e' = e).

Lemma Retry_loop_spec {A} env (op : nat → answer A) rest numTries :
  let '(r, n) := Retry_loop env op rest numTries in
  (numTries ≤ n ≤ numTries + rest)%nat ∧
  (∀ i, (numTries ≤ i < n)%nat → ∃ e, op i = Some (Err e) ∧ as_permanent e = None) ∧
  match op n with
  | None => r = None
  | Some (Ok v) => r = Some (Ok v)
  | Some (Err e) => ∃ e', r = Some (Err e') ∧
      ((n = numTries + rest)%nat ∧ e' = e ∨ as_permanent e = Some e' ∨
       as_permanent e = None ∧ retry_end env n e e')
  end.
Proof.
  revert numTries. induction rest as [|rest IH]; intros k; cbn [Retry_loop].
  - destruct (op k) as [[v|e]|] eqn:E; (split; [lia|split; [lia|rewrite E]]); try done.
    exists e. split; [done|]. left. split; [lia|done].
  - destruct (op k) as [[v|e]|] eqn:E; [split; [lia|split; [lia|by rewrite E]]| |split; [lia|split; [lia|by rewrite E]]].
    destruct (as_permanent e) as [p|] eqn:Ep; [split; [lia|split; [lia|rewrite E; eauto 10]]|].
    destruct (re_cause env k) as [c|] eqn:Ec.
    { split; [lia|split; [lia|rewrite E]]. exists c. unfold retry_end. rewrite Ec. eauto 10. }
    destruct (re_next env k =? Stop) eqn:Es.
    { split; [lia|split; [lia|rewrite E]]. exists e. unfold retry_end. apply Z.eqb_eq in Es. eauto 10. }
    destruct (re_wait env k) as [c|] eqn:Ew.
    { split; [lia|split; [lia|rewrite E]]. exists c. unfold retry_end. rewrite Ew. eauto 10. }
    specialize (IH (S k)). destruct (Retry_loop env op rest (S k)) as [r n].
    destruct IH as (Hn & Hi & Hr). split; [lia|]. split.
    + intros i Hik. destruct (decide (i = k)) as [->|Hne]; [eauto|]. apply Hi. lia.
    + destruct (op n) as [[v|e0]|]; try done. destruct Hr as (e' & -> & Hr). exists e'. split; [done|].
      destruct Hr as [[-> ->]|Hr]; [left; split; [lia|done]|by right].
Qed.

(** Errors of the inner client, which never mentions the retry loop or the
    breaker. *)
Definition plain (e : error) : bool :=
  match as_permanent e with Some _ => false | None => true end &&
  negb (errors_Is e BreakerErrOpenState || errors_Is e BreakerErrTooManyRequests).

(** Two errors no caller can tell apart. *)
Definition same_error (e e' : error) : Prop :=
  error_text e = error_text e' ∧ (∀ t, errors_Is e t = errors_Is e' t) ∧ as_rpc_error e = as_rpc_error e'.

Lemma map_breaker_plain e : plain e = true → map_breaker_error e = e ∧ map_breaker_error (Permanent e) = Permanent e.
Proof.
  unfold plain, map_breaker_error. intros [_ H]%andb_true_iff. apply negb_true_iff in H. cbn. by rewrite H.
Qed.

Lemma map_breaker_sentinel s : s = BreakerErrOpenState ∨ s = BreakerErrTooManyRequests →
  errors_Is (map_breaker_error s) ErrCircuitOpen = true.
Proof. by intros [-> | ->]. Qed.

Lemma beforeRequest_err now cb s cb' :
  beforeRequest now cb = (Err s, cb') → s = BreakerErrOpenState ∨ s = BreakerErrTooManyRequests.
Proof. unfold beforeRequest. intros H. repeat case_match; simplify_eq; auto. Qed.

(** a resilient read runs the call at most MaxRetries + 1 times and repeats
    it only after a transient failure. A call shed by the rate limiter or the
    breaker never runs and reports exactly that; otherwise the outcome is the
    last run's: its value, its panic, its non-transient error unchanged as far
    as any caller can tell, or its transient error once the attempts are used
    up, unless the context ended first. *)
Theorem resilientCall_spec {A} cfg others t0 t1 wait env (fn : nat → answer A) cb
    (Hfn : ∀ k e, fn k = Some (Err e) → plain e = true) :
  let '(r, n, cb') := resilientCall cfg others t0 t1 wait env fn cb in
  (n ≤ maxTries cfg)%nat ∧
  (n = 0%nat → ∃ e, r = Some (Err e) ∧
     errors_Is e (match wait with Some _ => ErrRateLimited | None => ErrCircuitOpen end) = true) ∧
  (0 < n → wait = None ∧
     (∀ i, (0 < i < n)%nat → ∃ e, fn i = Some (Err e) ∧ isTransientRPCError e = true) ∧
     match fn n with
     | None => r = None
     | Some (Ok v) => r = Some (Ok v)
     | Some (Err e) => ∃ e', r = Some (Err e') ∧
         (if isTransientRPCError e then (n = maxTries cfg ∧ e' = e) ∨ ∃ c, e' = map_breaker_error c ∧ retry_end env n e c
          else same_error e' e)
     end)%nat.
Proof.
  unfold resilientCall. destruct wait as [w|].
  { split; [lia|]. split; [|lia]. intros _. exists (rate_limited w). by split. }
  unfold Retry. pose proof (Retry_loop_spec env (retry_operation fn) (maxTries cfg - 1) 1) as H.
  destruct (Retry_loop env (retry_operation fn) (maxTries cfg - 1) 1) as [res n].
  destruct H as (Hn & Hi & Hr). assert (1 ≤ maxTries cfg)%nat by (unfold maxTries; lia).
  unfold Execute. destruct (beforeRequest t0 cb) as [[g|s] cb1] eqn:Eb.
  2: { split; [lia|]. split; [|lia]. intros _. exists (map_breaker_error s). split; [done|].
       apply map_breaker_sentinel. by eapply beforeRequest_err. }
  split; [lia|]. split; [lia|]. intros _. split; [done|]. split.
  - intros i Hin. destruct (Hi i ltac:(lia)) as (e & He & Hp). unfold retry_operation in He.
    destruct (fn i) as [[v|e0]|]; simplify_eq. exists e0. split; [done|].
    destruct (isTransientRPCError e0); [done|by cbn in Hp].
  - unfold retry_operation in Hr. specialize (Hfn n). destruct (fn n) as [[v|e]|]; [by subst| |by subst].
    destruct Hr as (e' & -> & Hr). cbn. exists (map_breaker_error e'). split; [done|].
    specialize (Hfn e eq_refl). destruct (map_breaker_plain e Hfn) as [Hm HmP].
    apply andb_true_iff in Hfn as [Hp _].
    destruct (isTransientRPCError e).
    + destruct Hr as [[-> ->]|[Hr|[_ Hr]]]; [|by rewrite Hr in Hp|right; eauto].
      left. rewrite Hm. split; [lia|done].
    + cbn in Hr. destruct Hr as [[_ ->]|[[= ->]|[? _]]]; [by rewrite HmP|by rewrite Hm|done].
Qed.

(** A node that fails twice and then answers. *)
Definition flaky (n : nat) : answer Z :=
  match n with 1%nat | 2%nat => Some (Err (NetError "timeout")) | _ => Some (Ok 7) end.
Definition quiet : retry_env := mkEnv (λ _, None) (λ _, 0) (λ _, None).

Lemma resilientCall_spec_witness :
  let '(r, n, cb') := resilientCall demo_cfg id 0 1 None quiet flaky (NewCircuitBreaker demo_cfg 0) in
  r = Some (Ok 7) ∧ n = 3%nat ∧ (n ≤ maxTries demo_cfg)%nat.
Proof.
  assert (∀ k e, flaky k = Some (Err e) → plain e = true) as H by (intros [|[|[|k]]] e [= <-]; reflexivity).
  pose proof (resilientCall_spec demo_cfg id 0 1 None quiet flaky (NewCircuitBreaker demo_cfg 0) H) as Hs.
  vm_compute in Hs. vm_compute. destruct Hs as (Hn & _). split; [reflexivity|]. split; [reflexivity|exact Hn].
Defined.

(** broadcasting is never repeated: whatever the rate limiter, the breaker
    and the node do, the node is handed at most the decoded bytes once; a hash
    is returned only when the node acknowledged those bytes with it; and a
    submission shed before it reached the node says so. *)
Theorem send_at_most_once others t0 t1 wait s rpc cb :
  let '(sent, r, cb') := resilient_SendRawTransaction others t0 t1 wait s rpc cb in
  (sent = [] ∨ ∃ tx, sent = [tx] ∧ hex_decode (strip_0x s) = Some tx) ∧
  match r with
  | Ok h => ∃ tx nh, sent = [tx] ∧ rpc tx = Ok (Some nh) ∧ h = HashHex nh
  | Err e => sent = [] → errors_Is e ErrRateLimited = true ∧ wait ≠ None ∨
                         errors_Is e ErrCircuitOpen = true ∨ (SendRawTransaction s rpc).1 = None
  end.
Proof.
  unfold resilient_SendRawTransaction. destruct wait as [w|].
  { split; [by left|]. intros _. left. by split. }
  destruct (SendRawTransaction s rpc) as [sent res] eqn:E.
  assert (match sent with Some tx => hex_decode (strip_0x s) = Some tx | None => is_ok res = false end ∧
          ∀ h, res = Ok h → ∃ tx nh, sent = Some tx ∧ rpc tx = Ok (Some nh) ∧ h = HashHex nh) as [Hs Hok].
  { unfold SendRawTransaction in E. repeat case_match; simplify_eq; split; try done; naive_solver. }
  unfold Execute. destruct (beforeRequest t0 cb) as [[g|b] cb1] eqn:Eb.
  - split; [destruct sent; cbn; eauto|].
    destruct res as [h|e]; cbn.
    + destruct (Hok h eq_refl) as (tx & nh & -> & Hr & Hh). exists tx, nh. by split.
    + destruct sent; [done|]. cbn. auto.
  - split; [by left|]. cbn. intros _. right. left.
    apply map_breaker_sentinel. by eapply beforeRequest_err.
Qed.
