(* ===== verification/PendingKeys.v ===== *)
(** Self-serve key requests: the file-backed review queue
    (internal/mcp/keys_pending.go) and the public endpoint that feeds it
    (keys_request_http.go).

    An operation holds the store's lock, so operations do not interleave. A store
    carries the world of its file and is its only writer here; the two stores that
    main opens over one file are Boot's subject. UUIDs,
    the clock and the failures of the file system are arguments; JSON decoding
    of the body and net/mail's address syntax are parameters of the endpoint. *)

From S2P Require Import Prelude Http Ingress RateLimit GoErrors Fs Hex.

(** ** The store *)

Definition PendingStatusPending : string := "pending".
Definition PendingStatusApproved : string := "approved".
Definition PendingStatusRejected : string := "rejected".

Record PendingKeyRequest := mkPending {
  pr_ID : string; pr_Email : string; pr_Company : string; pr_IntendedUse : string;
  pr_Status : string; pr_CreatedAt : Z; pr_DecidedAt : option Z; pr_DeciderID : string;
  pr_KeyID : string; pr_RemoteAddr : string
}.

Definition pending_world : Type := world (list PendingKeyRequest).

Record PendingKeyStore := mkPendingStore {
  ps_path : string;
  ps_items : list PendingKeyRequest;
  ps_disk : pending_world
}.

Definition with_items (items : list PendingKeyRequest) (w : pending_world) (s : PendingKeyStore) : PendingKeyStore :=
  mkPendingStore (ps_path s) items w.

(** PendingKeyStore.load: the items read from the path. *)
Definition load (env : os_env) (path : string) (w : pending_world) : result error (list PendingKeyRequest) :=
  match ReadFile env path w with
  | Err e => if errors_Is e FsErrNotExist then Ok [] else Err (Wrap "read pending keys file: " e "")
  | Ok (Parsed entries) => Ok entries
  | Ok (Raw data) =>
      if slen data =? 0 then Ok []
      else Err (Wrap "parse pending keys file: " (Opaque "invalid character in JSON text") "")
  end.

Definition NewPendingKeyStore (env : os_env) (path : string) (w : pending_world) : result error PendingKeyStore :=
  if path =s "" then Err (Sentinel ErrPendingEmptyPath)
  else let? items := load env path w in Ok (mkPendingStore path items w).

(** PendingKeyStore.Add. [s.items[:len(s.items)-1]] on failure. *)
Definition Add (env : os_env) (now : Z) (uuid email company intendedUse remoteAddr : string)
    (s : PendingKeyStore) : result error PendingKeyRequest * PendingKeyStore :=
  let req := mkPending uuid email company intendedUse PendingStatusPending now None "" "" remoteAddr in
  let items := ps_items s ++ [req] in
  match save_file env "pending" (ps_path s) items (ps_disk s) with
  | (Some err, w) => (Err err, with_items (take (length items - 1) items) w s)
  | (None, w) => (Ok req, with_items items w s)
  end.

Definition Get (id : string) (s : PendingKeyStore) : option PendingKeyRequest :=
  List.find (λ r, pr_ID r =s id) (ps_items s).

Definition ListPending (s : PendingKeyStore) : list PendingKeyRequest := ps_items s.

Definition CountByStatus (s : PendingKeyStore) : gmap string Z :=
  foldl (λ counts r, <[pr_Status r := default 0 (counts !! pr_Status r) + 1]> counts)
    (<[PendingStatusPending := 0]> (<[PendingStatusApproved := 0]> {[PendingStatusRejected := 0]}))
    (ps_items s).

(** The index of the first request with the id ([None] for -1). *)
Fixpoint find_request (id : string) (l : list PendingKeyRequest) : option nat :=
  match l with
  | [] => None
  | r :: l => if pr_ID r =s id then Some O else S <$> find_request id l
  end.

(** The assignments of Decide to s.items[idx]. *)
Definition decide_request (now : Z) (status deciderID keyID : string) (r : PendingKeyRequest) : PendingKeyRequest :=
  mkPending (pr_ID r) (pr_Email r) (pr_Company r) (pr_IntendedUse r) status (pr_CreatedAt r) (Some now)
    deciderID (if status =s PendingStatusApproved then keyID else pr_KeyID r) (pr_RemoteAddr r).

Definition invalid_status (status : string) : error :=
  Wrap "" ErrPendingInvalidStatus
    (" " +:+ dq +:+ status +:+ dq +:+ " (want " +:+ dq +:+ PendingStatusApproved +:+ dq
     +:+ " or " +:+ dq +:+ PendingStatusRejected +:+ dq +:+ ")").

Definition Decide (env : os_env) (now : Z) (id status deciderID keyID : string) (s : PendingKeyStore)
    : result error PendingKeyRequest * PendingKeyStore :=
  if negb (status =s PendingStatusApproved) && negb (status =s PendingStatusRejected)
  then (Err (invalid_status status), s)
  else
    match find_request id (ps_items s) with
    | None => (Err (Sentinel ErrPendingNotFound), s)
    | Some idx =>
        match ps_items s !! idx with
        | None => (Err (Opaque "index out of range"), s)
        | Some prev =>
            if negb (pr_Status prev =s PendingStatusPending) then (Err (Sentinel ErrPendingNotPending), s)
            else
              let r := decide_request now status deciderID keyID prev in
              let items := <[idx := r]> (ps_items s) in
              match save_file env "pending" (ps_path s) items (ps_disk s) with
              | (Some err, w) => (Err err, with_items (<[idx := prev]> items) w s)
              | (None, w) => (Ok r, with_items items w s)
              end
        end
    end.

(** ** The public endpoint *)

Definition KeyRequestPath : string := "/api/v1/keys/request".
Definition keyRequestMaxEmailLen : Z := 320.
Definition keyRequestMaxIntendedUseLen : Z := 2000.
Definition keyRequestMaxCompanyLen : Z := 200.

(** The runes a range loop over a string yields: UTF-8 with U+FFFD, one byte
    wide, for anything else. *)
Definition is_cont (b : Z) (lo hi : Z) : bool := (lo <=? b) && (b <=? hi).

Fixpoint runes (s : string) : list Z :=
  match s with
  | EmptyString => []
  | String a s1 =>
      let b0 := byte_val a in
      let bad := 65533 :: runes s1 in
      if b0 <? 128 then b0 :: runes s1
      else if b0 <? 194 then bad
      else if b0 <? 224 then
        match s1 with
        | String b s2 =>
            if is_cont (byte_val b) 128 191 then ((b0 - 192) * 64 + (byte_val b - 128)) :: runes s2 else bad
        | EmptyString => bad
        end
      else if b0 <? 240 then
        match s1 with
        | String b (String c s3) =>
            if is_cont (byte_val b) (if b0 =? 224 then 160 else 128) (if b0 =? 237 then 159 else 191)
               && is_cont (byte_val c) 128 191
            then ((b0 - 224) * 4096 + (byte_val b - 128) * 64 + (byte_val c - 128)) :: runes s3 else bad
        | _ => bad
        end
      else if b0 <? 245 then
        match s1 with
        | String b (String c (String d s4)) =>
            if is_cont (byte_val b) (if b0 =? 240 then 144 else 128) (if b0 =? 244 then 143 else 191)
               && is_cont (byte_val c) 128 191 && is_cont (byte_val d) 128 191
            then ((b0 - 240) * 262144 + (byte_val b - 128) * 4096 + (byte_val c - 128) * 64
                  + (byte_val d - 128)) :: runes s4 else bad
        | _ => bad
        end
      else bad
  end.

(** unicode.IsControl and the table unicode.Cf (Unicode 15). *)
Definition IsControl (r : Z) : bool := (r <? 32) || ((127 <=? r) && (r <? 160)).

Definition Cf : list (Z * Z) :=
  [(173, 173); (1536, 1541); (1564, 1564); (1757, 1757); (1807, 1807); (2192, 2193); (2274, 2274);
   (6158, 6158); (8203, 8207); (8234, 8238); (8288, 8292); (8294, 8303); (65279, 65279);
   (65529, 65531); (69821, 69821); (69837, 69837); (78896, 78911); (113824, 113827);
   (119155, 119162); (917505, 917505); (917536, 917631)].

Definition In_Cf (r : Z) : bool := existsb (λ p, (p.1 <=? r) && (r <=? p.2)) Cf.

Definition hasDisallowedControlChars (s : string) : bool :=
  existsb (λ r, negb ((r =? 9) || (r =? 10)) && (IsControl r || In_Cf r)) (runes s).

Record KeyRequestInput := mkInput { ki_Email : string; ki_Company : string; ki_IntendedUse : string }.

Section Endpoint.
Context {B : Type} `{TokenBucket B} {St : Type}.
Context (mail_ok : string → bool)                                (* mail.ParseAddress succeeds *)
        (decode_body : Z → string → option KeyRequestInput).     (* strict JSON of a capped body *)

Definition validateKeyRequest (i : KeyRequestInput) : string :=
  if Prelude.trim_space (ki_Email i) =s "" then "email is required"
  else if keyRequestMaxEmailLen <? slen (ki_Email i) then "email too long"
  else if negb (mail_ok (ki_Email i)) then "email is not a valid address"
  else if keyRequestMaxCompanyLen <? slen (ki_Company i) then "company too long"
  else if hasDisallowedControlChars (ki_Company i) then "company contains disallowed control characters"
  else if Prelude.trim_space (ki_IntendedUse i) =s "" then "intended_use is required"
  else if keyRequestMaxIntendedUseLen <? slen (ki_IntendedUse i) then "intended_use too long"
  else if hasDisallowedControlChars (ki_IntendedUse i)
       then "intended_use contains disallowed control characters"
  else "".

Record KeyRequestHandlerConfig := mkKRConfig {
  kr_limited : bool;                   (* a RateLimiter is configured *)
  kr_MaxBodyBytes : Z; kr_TrustProxy : bool; kr_TrustedProxyHops : Z
}.

(** The parts of the server state the handler uses: the limiter's buckets and
    the queue. *)
Record kr_state := mkKRState { kr_buckets : keyedRateLimiter B; kr_store : PendingKeyStore }.

Definition StatusMethodNotAllowed : Z := 405.
Definition StatusUnsupportedMediaType : Z := 415.

Definition writeKeyRequestError (status : Z) (extra : list (string * string)) (msg : string) : response :=
  mkResponse status (extra ++ [("Content-Type", "application/json")])
    ("{" +:+ dq +:+ "error" +:+ dq +:+ ":" +:+ dq +:+ msg +:+ dq +:+ "}").

Definition accepted (req : PendingKeyRequest) : response :=
  mkResponse StatusAccepted [("Content-Type", "application/json")]
    ("{" +:+ dq +:+ "request_id" +:+ dq +:+ ":" +:+ dq +:+ pr_ID req +:+ dq +:+ "," +:+ dq
     +:+ "status" +:+ dq +:+ ":" +:+ dq +:+ pr_Status req +:+ dq +:+ "}").

Definition KeyRequestHandler (range : gmap string (clientBucket B) → list (string * clientBucket B))
    (cfg : KeyRequestHandlerConfig) (env : os_env) (uuid : string) : handler kr_state := λ r st,
  let maxBody := if kr_MaxBodyBytes cfg =? 0 then 16 * 1024 else kr_MaxBodyBytes cfg in
  if negb (rq_method r =s "POST") then
    (writeKeyRequestError StatusMethodNotAllowed [("Allow", "POST")] "method not allowed", st)
  else
    let ct := header r "Content-Type" in
    if negb (ct =s "") && negb (has_prefix "application/json" ct) then
      (writeKeyRequestError StatusUnsupportedMediaType [] "Content-Type must be application/json", st)
    else
      let ip := clientIP r (kr_TrustProxy cfg) (kr_TrustedProxyHops cfg) in
      let '(ok, l) := if kr_limited cfg then allow range ip (rq_now r) (kr_buckets st) else (true, kr_buckets st) in
      let st := mkKRState l (kr_store st) in
      if negb ok then (writeRateLimited, st)
      else
        match decode_body maxBody (rq_body r) with
        | None => (writeKeyRequestError StatusBadRequest [] "invalid JSON body", st)
        | Some i =>
            let msg := validateKeyRequest i in
            if negb (msg =s "") then (writeKeyRequestError StatusBadRequest [] msg, st)
            else
              match Add env (rq_now r) uuid (ki_Email i) (ki_Company i) (ki_IntendedUse i) ip (kr_store st) with
              | (Err _, s) => (writeKeyRequestError StatusInternalServerError [] "internal error", mkKRState l s)
              | (Ok req, s) => (accepted req, mkKRState l s)
              end
        end.
End Endpoint.

(** ** Lemmas *)

Inductive queue_op :=
| OpAdd (env : os_env) (now : Z) (uuid email company intendedUse remoteAddr : string)
| OpDecide (env : os_env) (now : Z) (id status deciderID keyID : string).

(** One operation: its error, if any, and the store it leaves. *)
Definition queue_step (op : queue_op) (s : PendingKeyStore) : option error * PendingKeyStore :=
  match op with
  | OpAdd env now uuid email company use addr =>
      match Add env now uuid email company use addr s with
      | (Ok _, s) => (None, s) | (Err e, s) => (Some e, s)
      end
  | OpDecide env now id status decider key =>
      match Decide env now id status decider key s with
      | (Ok _, s) => (None, s) | (Err e, s) => (Some e, s)
      end
  end.

Definition queue_run (ops : list queue_op) (s : PendingKeyStore) : PendingKeyStore :=
  foldl (λ s op, (queue_step op s).2) s ops.

Definition on_disk (s : PendingKeyStore) : option (content (list PendingKeyRequest)) :=
  w_files (ps_disk s) !! ps_path s.

(** Memory and disk agree. *)
Definition coherent (s : PendingKeyStore) : Prop :=
  match on_disk s with
  | Some (Parsed l) => ps_items s = l
  | Some (Raw d) => d = "" ∧ ps_items s = []
  | None => ps_items s = []
  end.

(** The fields a request is submitted with. *)
Definition submission (r : PendingKeyRequest) :=
  (pr_ID r, pr_Email r, pr_Company r, pr_IntendedUse r, pr_CreatedAt r, pr_RemoteAddr r).

(** What an operation may do to the requests already queued. *)
Definition keeps (l l' : list PendingKeyRequest) : Prop :=
  ∀ i r, l !! i = Some r → ∃ r', l' !! i = Some r' ∧ submission r' = submission r ∧
    (pr_Status r ≠ PendingStatusPending → r' = r).

Lemma keeps_refl l : keeps l l.
Proof. intros i r H. by exists r. Qed.

Lemma keeps_trans l1 l2 l3 : keeps l1 l2 → keeps l2 l3 → keeps l1 l3.
Proof.
  intros H12 H23 i r H. destruct (H12 i r H) as (r2 & H2 & Hs2 & Hd2).
  destruct (H23 i r2 H2) as (r3 & H3 & Hs3 & Hd3). exists r3. split; [done|].
  split; [by rewrite Hs3|]. intros Hp. specialize (Hd2 Hp) as ->. by apply Hd3.
Qed.

Lemma find_request_spec id l idx : find_request id l = Some idx →
  ∃ r, l !! idx = Some r ∧ pr_ID r = id.
Proof.
  revert idx. induction l as [|r l IH]; intros idx; cbn; [done|].
  destruct (pr_ID r =s id) eqn:E; [intros [= <-]; exists r; by apply String.eqb_eq in E|].
  destruct (find_request id l) as [j|]; cbn; [|done]. intros [= <-]. by apply IH.
Qed.

(** Every operation is a save of new items: all or nothing, in memory and on
    disk. *)
Lemma queue_step_spec op s : coherent s →
  let '(err, s') := queue_step op s in
  ps_path s' = ps_path s ∧ coherent s' ∧ keeps (ps_items s) (ps_items s') ∧
  (err ≠ None → ps_items s' = ps_items s ∧ on_disk s' = on_disk s) ∧
  history_in (ps_path s) [on_disk s; on_disk s'] (ps_disk s) (ps_disk s').
Proof.
  intros Hc.
  assert (history_in (ps_path s) [on_disk s; on_disk s] (ps_disk s) (ps_disk s)) as Hh0
    by (exists []; split; [done|constructor]).
  assert (∀ env what items old, keeps (ps_items s) items → old = ps_items s →
    let '(err, w') := save_file env what (ps_path s) items (ps_disk s) in
    let s' := with_items (match err with Some _ => old | None => items end) w' s in
    coherent s' ∧ keeps (ps_items s) (ps_items s') ∧
    (err ≠ None → ps_items s' = ps_items s ∧ on_disk s' = on_disk s) ∧
    history_in (ps_path s) [on_disk s; on_disk s'] (ps_disk s) (ps_disk s')) as Hsave.
  { intros env what items old Hk ->.
    destruct (save_file env what (ps_path s) items (ps_disk s)) as [err w'] eqn:E.
    destruct (save_file_spec _ _ _ _ _ _ _ E) as [_ Hp].
    destruct (save_file_history _ _ _ _ _ _ _ E) as (h & Hh & Hf).
    unfold coherent, on_disk, with_items in *; cbn.
    destruct err as [e|]; rewrite Hp; cbn; (split_and!; [done|try done; apply keeps_refl|done|]);
      exists h; (split; [done|]); (eapply Forall_impl; [exact Hf|]); intros m; rewrite !elem_of_cons; tauto. }
  destruct op as [env now uuid em co us ad|env now id st de ke]; cbn; unfold Add, Decide.
  - assert (keeps (ps_items s) (ps_items s ++ [mkPending uuid em co us PendingStatusPending now None "" "" ad])) as Hk.
    { intros i r H. exists r. split; [by apply lookup_app_l_Some|done]. }
    specialize (Hsave env "pending" _ (ps_items s) Hk eq_refl).
    destruct (save_file env "pending" _ _ _) as [[e|] w']; cbn in *; split; try done.
    rewrite length_app, Nat.add_sub, take_app_length. done.
  - destruct (negb _ && negb _) eqn:Est; [split_and!; eauto using keeps_refl|].
    destruct (find_request id (ps_items s)) as [idx|] eqn:Ef; [|split_and!; eauto using keeps_refl].
    destruct (ps_items s !! idx) as [prev|] eqn:Ei; [|split_and!; eauto using keeps_refl].
    destruct (negb (pr_Status prev =s PendingStatusPending)) eqn:Ep; [split_and!; eauto using keeps_refl|].
    assert (keeps (ps_items s) (<[idx := decide_request now st de ke prev]> (ps_items s))) as Hk.
    { intros i r H. destruct (decide (i = idx)) as [->|Hne].
      - assert (r = prev) as -> by congruence. eexists. split; [by apply list_lookup_insert_eq; eapply lookup_lt_Some|].
        split; [done|]. intros Hn. bool_to_prop. congruence.
      - exists r. split; [by rewrite list_lookup_insert_ne|done]. }
    specialize (Hsave env "pending" _ (<[idx := prev]> (<[idx := decide_request now st de ke prev]> (ps_items s))) Hk).
    rewrite list_insert_insert_eq, list_insert_id in Hsave by done. specialize (Hsave eq_refl).
    destruct (save_file env "pending" _ _ _) as [[e|] w']; cbn in *; split; try done.
    by rewrite list_insert_insert_eq, list_insert_id.
Qed.

Lemma load_coherent env path w items : load env path w = Ok items →
  coherent (mkPendingStore path items w).
Proof.
  unfold load, ReadFile, coherent, on_disk; cbn.
  destruct (w_files w !! path) as [[l|d]|]; cbn; [| |by intros [= ->]].
  - destruct (os_fails env OpRead path); cbn; [done|]. by intros [= ->].
  - destruct (os_fails env OpRead path); cbn; [done|].
    destruct (slen d =? 0) eqn:E; [|done]. intros [= <-]. split; [|done].
    apply Z.eqb_eq in E. by destruct d.
Qed.

Lemma coherent_load env s : coherent s → os_fails env OpRead (ps_path s) = false →
  load env (ps_path s) (ps_disk s) = Ok (ps_items s).
Proof.
  unfold load, ReadFile, coherent, on_disk. intros Hc Hr.
  destruct (w_files (ps_disk s) !! ps_path s) as [[l|d]|]; [| |by rewrite Hc].
  - by rewrite Hr, Hc.
  - rewrite Hr. destruct Hc as [-> ->]. done.
Qed.

Lemma queue_run_spec ops s : coherent s →
  let s' := queue_run ops s in
  ps_path s' = ps_path s ∧ coherent s' ∧ keeps (ps_items s) (ps_items s') ∧
  ∃ h, w_hist (ps_disk s') = h ++ w_hist (ps_disk s) ∧
    Forall (λ m, ∃ k, m !! ps_path s = on_disk (queue_run (take k ops) s)) h.
Proof.
  intros Hc. cbv zeta. induction ops as [|op ops IH] using rev_ind.
  - cbn. split_and!; [done|done|apply keeps_refl|]. exists []. by split; [|constructor].
  - destruct IH as (Hp & Hc' & Hk & h & Hh & Hf). unfold queue_run in *. rewrite foldl_app; cbn.
    set (s1 := foldl _ s ops) in *.
    pose proof (queue_step_spec op s1 Hc') as Hs. destruct (queue_step op s1) as [err s2] eqn:E.
    destruct Hs as (Hp2 & Hc2 & Hk2 & _ & h2 & Hh2 & Hf2). cbn.
    split_and!; [congruence|done|by eapply keeps_trans|].
    exists (h2 ++ h). split; [by rewrite Hh2, Hh, app_assoc|]. apply Forall_app. split.
    + eapply Forall_impl; [exact Hf2|]. intros m Hm. cbn in Hm. rewrite Hp in Hm.
      rewrite !elem_of_cons in Hm. destruct Hm as [Hm|[Hm|Hm]]; [| |by apply not_elem_of_nil in Hm].
      * exists (length ops). rewrite take_app_length. rewrite Hm. by subst s1.
      * exists (length (ops ++ [op])). rewrite firstn_all, foldl_app. cbn. fold s1. by rewrite E, Hm.
    + eapply Forall_impl; [exact Hf|]. intros m (k & Hm).
      exists (Nat.min k (length ops)). rewrite take_app_le by lia.
      rewrite Hm. f_equal. f_equal. 
      destruct (decide (k ≤ length ops)%nat); [by rewrite Nat.min_l|].
      rewrite Nat.min_r, firstn_all, firstn_all2 by lia. done.
Qed.

(** ** Theorems *)

(** C33: The review queue of a store that alone writes its file is durable and
    append-only. Whatever operations run and whatever system calls fail, reopening
    the file gives the running queue back; a queued request is never dropped or
    reordered, its submitted fields never change, and a decided request never
    changes at all; and a crash at any point leaves on disk the queue as it was
    after some prefix of the operations. The deployed server opens two stores over
    one file, which this does not cover: C39. *)
Theorem pending_queue_durable env path w s0 ops (Hopen : NewPendingKeyStore env path w = Ok s0) :
  let s := queue_run ops s0 in
  (∀ env', os_fails env' OpRead path = false → NewPendingKeyStore env' path (ps_disk s) = Ok s) ∧
  (∀ i r, ps_items s0 !! i = Some r → ∃ r', ps_items s !! i = Some r' ∧ submission r' = submission r ∧
     (pr_Status r ≠ PendingStatusPending → r' = r)) ∧
  ∃ h, w_hist (ps_disk s) = h ++ w_hist w ∧
    Forall (λ m, ∃ k, m !! path = on_disk (queue_run (take k ops) s0)) h.
Proof.
  unfold NewPendingKeyStore in *. destruct (path =s "") eqn:Epath; [done|].
  destruct (load env path w) as [items|] eqn:El; [|done]. injection Hopen as <-.
  destruct (queue_run_spec ops _ (load_coherent _ _ _ _ El)) as (Hp & Hc & Hk & Hh). cbn in Hp, Hh.
  cbv zeta. set (s := queue_run ops _) in *. split_and!; [|exact Hk|exact Hh].
  intros env' Hr. rewrite <-Hp in Hr. pose proof (coherent_load _ _ Hc Hr) as Hl. rewrite Hp in Hl.
  rewrite Hl. cbn. destruct s as [p its wd]; cbn in *. by subst p.
Qed.

(** A queue on an empty disk: a request is added, a decision fails to be
    saved, then succeeds, then is refused. *)
Definition disk_ok : os_env := mkOs (λ _ _, false) "1".
Definition disk_full : os_env := mkOs (λ op _, match op with OpWrite => true | _ => false end) "2".
Definition demo_ops : list queue_op :=
  [OpAdd disk_ok 10 "u1" "a@b.c" "" "bots" "192.0.2.1";
   OpDecide disk_full 20 "u1" PendingStatusApproved "alice" "k1";
   OpDecide disk_ok 30 "u1" PendingStatusRejected "bob" "";
   OpDecide disk_ok 40 "u1" PendingStatusApproved "alice" "k1"].
Definition demo_queue : PendingKeyStore := mkPendingStore "p.json" [] (mkWorld ∅ []).

Lemma pending_queue_durable_witness :
  ps_items (queue_run demo_ops demo_queue) =
    [mkPending "u1" "a@b.c" "" "bots" PendingStatusRejected 10 (Some 30) "bob" "" "192.0.2.1"] ∧
  NewPendingKeyStore disk_ok "p.json" (ps_disk (queue_run demo_ops demo_queue)) = Ok (queue_run demo_ops demo_queue).
Proof.
  split; [vm_compute; reflexivity|].
  pose proof (pending_queue_durable disk_ok "p.json" (mkWorld ∅ []) demo_queue demo_ops eq_refl) as H.
  exact (proj1 H disk_ok eq_refl).
Defined.

(** the public endpoint. A request queues at most one entry: exactly when
    it is a POST of JSON that its source's budget admits, that decodes and that
    passes validation, and when the save succeeds; the entry is pending, carries
    the submitted text and the address derived from the connection, and the
    answer names it. In every other case the queue is unchanged, and the answer
    to a storage failure does not depend on what failed. *)
Theorem key_request_endpoint {B} `{TokenBucket B} mail_ok decode_body range cfg env uuid r st :
  let maxBody := if kr_MaxBodyBytes cfg =? 0 then 16 * 1024 else kr_MaxBodyBytes cfg in
  let ip := clientIP r (kr_TrustProxy cfg) (kr_TrustedProxyHops cfg) in
  let '(resp, st') := KeyRequestHandler mail_ok decode_body range cfg env uuid r st in
  (ps_items (kr_store st') = ps_items (kr_store st) ∧ rs_status resp ≠ StatusAccepted ∧
   (rs_status resp = StatusInternalServerError →
      resp = writeKeyRequestError StatusInternalServerError [] "internal error")) ∨
  (∃ i, rq_method r = "POST" ∧
     (header r "Content-Type" = "" ∨ has_prefix "application/json" (header r "Content-Type") = true) ∧
     (kr_limited cfg = true → (allow range ip (rq_now r) (kr_buckets st)).1 = true) ∧
     decode_body maxBody (rq_body r) = Some i ∧ validateKeyRequest mail_ok i = "" ∧
     let req := mkPending uuid (ki_Email i) (ki_Company i) (ki_IntendedUse i) PendingStatusPending
                  (rq_now r) None "" "" ip in
     ps_items (kr_store st') = ps_items (kr_store st) ++ [req] ∧ resp = accepted req).
Proof.
  cbv zeta. unfold KeyRequestHandler.
  destruct (negb (rq_method r =s "POST")) eqn:Em; [by left|].
  destruct (negb _ && negb _) eqn:Ect; [by left|].
  destruct (if kr_limited cfg then _ else _) as [ok l] eqn:El.
  destruct (negb ok) eqn:Eok; [by left|].
  destruct (decode_body _ (rq_body r)) as [i|] eqn:Ed; [|by left].
  destruct (negb (validateKeyRequest mail_ok i =s "")) eqn:Ev; [by left|].
  unfold Add. destruct (save_file env "pending" _ _ _) as [[e|] w']; cbn [fst snd].
  - left. split; [by cbn; rewrite length_app, Nat.add_sub, take_app_length|]. by split.
  - right. exists i. split_and!; try done.
    + by bool_to_prop.
    + apply andb_false_iff in Ect as [H1|H1]; bool_to_prop; [by left|by right].
    + intros Hl. rewrite Hl in El. rewrite El. by bool_to_prop.
    + by bool_to_prop.
Qed.
