(* ===== verification/Admin.v ===== *)
(** The admin API (internal/mcp/admin.go, admin_identity.go, admin_audit.go,
    admin_keys_pending.go, admin_signer_blacklist.go, admin_write_audit.go) and
    the admin identity map (cmd/nvnm-mcp-server/admin_keys.go).

    Handlers are functions of the decoded request and the server's state, over
    any key-store backend. A request body arrives decoded ([None]: invalid
    JSON); time.Parse is a parameter, and of the errors of time.ParseDuration
    only that there is one is kept.
    Email delivery and the audit table are observed through [admin_env]. *)

From S2P Require Import Prelude GoParse Http Hex GoErrors Fs Evm SignerStores Auth KeyStore ManagedKeys PendingKeys.

(** ** Identities *)

Record adminKeyEntry := mkAdminKey { ak_ID : string; ak_Key : string }.

Record admin_key_config := mkAdminKeyConfig {
  AdminAPIKey : string;
  AdminAPIKeysFile : string
}.

(** The loop of loadAdminKeys over the file's entries: the ids and the map
    from digest to id so far. *)
Fixpoint add_admin_keys (file : string) (entries : list adminKeyEntry) (ids : gset string)
    (keys : gmap string string) : result error (gmap string string) :=
  let err s := Err (Wrap "" (Sentinel s) (": file " +:+ quoted file)) in
  let err_id s id := Err (Wrap "" (Sentinel s) (": file " +:+ quoted file +:+ ", id " +:+ quoted id)) in
  match entries with
  | [] => Ok keys
  | e :: entries =>
      if ak_ID e =s "" then err ErrAdminKeyEmptyID
      else if ak_Key e =s "" then err_id ErrAdminKeyEmptyKey (ak_ID e)
      else if bool_decide (ak_ID e ∈ ids) then err_id ErrAdminKeyDuplicateID (ak_ID e)
      else
        let hash := sha256 (ak_Key e) in
        if bool_decide (is_Some (keys !! hash)) then err_id ErrAdminKeyDuplicateHash (ak_ID e)
        else add_admin_keys file entries ({[ak_ID e]} ∪ ids) (<[hash := ak_ID e]> keys)
  end.

(** [file] is the outcome of reading the keys file and parsing it. *)
Definition loadAdminKeys (cfg : admin_key_config) (file : result error (list adminKeyEntry))
    : result error (gmap string string) :=
  let '(ids, keys) := if AdminAPIKey cfg =s "" then (∅ : gset string, ∅ : gmap string string)
                      else ({["admin"]}, {[sha256 (AdminAPIKey cfg) := "admin"]}) in
  let? keys := if AdminAPIKeysFile cfg =s "" then Ok keys
               else let? entries := file in add_admin_keys (AdminAPIKeysFile cfg) entries ids keys in
  if bool_decide (keys = ∅) then Err (Sentinel ErrAdminKeyNoneConfigured) else Ok keys.

Definition contextWithAdminActor (id : string) : option string := Some id.
Definition adminActorFromContext (ctx : option string) : string :=
  match ctx with
  | Some id => if id =s "" then "admin" else id
  | None => "admin"
  end.

(** adminAuth: [range] is Go's map iteration order; the comparison loop visits
    every entry. [next] receives the actor in its context. *)
Definition adminAuth {St} (range : gmap string string → list (string * string))
    (keys : gmap string string) (next : option string → handler St) : handler St := λ r st,
  let authHeader := header r "Authorization" in
  let refuse msg := (http_error StatusUnauthorized msg, st) in
  if authHeader =s "" then refuse ("{" +:+ quoted "error" +:+ ":" +:+ quoted "missing Authorization header" +:+ "}")
  else if negb (has_prefix "Bearer " authHeader) then
    refuse ("{" +:+ quoted "error" +:+ ":" +:+ quoted "invalid Authorization scheme; expected Bearer" +:+ "}")
  else
    let got := sha256 (trim_prefix "Bearer " authHeader) in
    let '(matched, id) := foldl (λ acc he, if got =s he.1 then (true, he.2) else acc) (false, "") (range keys) in
    if negb matched then refuse ("{" +:+ quoted "error" +:+ ":" +:+ quoted "invalid admin key" +:+ "}")
    else next (contextWithAdminActor id) r st.

(** ** Server state *)

Inductive AdminAction :=
| AdminActionKeyCreate | AdminActionKeyUpdate | AdminActionKeyDelete
| AdminActionBlacklistAdd | AdminActionBlacklistRemove
| AdminActionPendingApprove | AdminActionPendingReject.

Record AdminAuditEntry := mkAdminAudit {
  aa_ActorID : string; aa_Action : AdminAction; aa_Target : string; aa_Detail : string; aa_Outcome : string
}.

Inductive admin_body (A : Type) :=
| BodyError (msg : string)
| BodyEmpty
| BodyOf (a : A).
Arguments BodyError {A} _.
Arguments BodyEmpty {A}.
Arguments BodyOf {A} _.

Definition admin_response (A : Type) : Type := Z * admin_body A.

Record admin_cfg := mkAdminCfg {
  ac_defaultTTL : Z;
  ac_pendingStore : bool;              (* WithPendingKeyStore *)
  ac_email : bool;                     (* an EmailSender is wired *)
  ac_writeAudit : bool; ac_blacklist : bool; ac_adminAudit : bool
}.

Record admin_env (E : Type) := mkAdminEnv {
  ae_now : Z; ae_call : call_env; ae_kb : E; ae_kb_rollback : E; ae_os : os_env; ae_db : db_env;
  ae_mail_fails : bool; ae_audit_fails : bool
}.
Arguments mkAdminEnv {E} _ _ _ _ _ _ _ _.
Arguments ae_now {E} _. Arguments ae_call {E} _. Arguments ae_kb {E} _. Arguments ae_kb_rollback {E} _.
Arguments ae_os {E} _. Arguments ae_db {E} _. Arguments ae_mail_fails {E} _. Arguments ae_audit_fails {E} _.

(** The audit trail: rows of the admin_audit table, or attributed log lines
    when no table is wired. *)
Record admin_st (S : Type) := mkAdmin {
  ad_keys : S;
  ad_pending : PendingKeyStore;
  ad_db : keyless_db;
  ad_audit : list AdminAuditEntry;
  ad_audit_log : list AdminAuditEntry;
  ad_mail : list (string * string)         (* delivered: recipient, body *)
}.
Arguments mkAdmin {S} _ _ _ _ _ _.
Arguments ad_keys {S} _. Arguments ad_pending {S} _. Arguments ad_db {S} _.
Arguments ad_audit {S} _. Arguments ad_audit_log {S} _. Arguments ad_mail {S} _.

Definition with_keys {S} (k : S) (st : admin_st S) : admin_st S :=
  mkAdmin k (ad_pending st) (ad_db st) (ad_audit st) (ad_audit_log st) (ad_mail st).
Definition with_pending {S} (p : PendingKeyStore) (st : admin_st S) : admin_st S :=
  mkAdmin (ad_keys st) p (ad_db st) (ad_audit st) (ad_audit_log st) (ad_mail st).
Definition with_db {S} (db : keyless_db) (st : admin_st S) : admin_st S :=
  mkAdmin (ad_keys st) (ad_pending st) db (ad_audit st) (ad_audit_log st) (ad_mail st).

Definition recordAdminAudit {S E} (cfg : admin_cfg) (env : admin_env E) (ctx : option string)
    (action : AdminAction) (target detail outcome : string) (st : admin_st S) : admin_st S :=
  let entry := mkAdminAudit (adminActorFromContext ctx) action target detail outcome in
  if negb (ac_adminAudit cfg) then
    mkAdmin (ad_keys st) (ad_pending st) (ad_db st) (ad_audit st) (ad_audit_log st ++ [entry]) (ad_mail st)
  else if ae_audit_fails env then st
  else mkAdmin (ad_keys st) (ad_pending st) (ad_db st) (ad_audit st ++ [entry]) (ad_audit_log st) (ad_mail st).

(** email.Send: whether it was delivered. *)
Definition send_mail {S E} (cfg : admin_cfg) (env : admin_env E) (to body : string) (st : admin_st S)
    : bool * admin_st S :=
  if ac_email cfg then
    if ae_mail_fails env then (false, st)
    else (true, mkAdmin (ad_keys st) (ad_pending st) (ad_db st) (ad_audit st) (ad_audit_log st) (ad_mail st ++ [(to, body)]))
  else (false, st).

(** ** Keys *)

Definition validateRoles (roles : list string) : bool := forallb IsValidRole roles.

Section Handlers.
Context {S E : Type} `{KeyStoreBackend S E}.
Context (ParseTime : string → option Z).
Context (cfg : admin_cfg).

Definition parse_duration (s : string) : result error Z :=
  rmap_err (λ _, Opaque "time: invalid duration") (ParseDuration s).

Definition resolveExpiry (ttl : option string) (defaultTTL now : Z) : result error Z :=
  match ttl with
  | None => if defaultTTL =? 0 then Ok 0 else Ok (now + defaultTTL)
  | Some t =>
      if existsb (String.eqb t) ["0"; "none"; "never"] then Ok 0
      else
        match parse_duration t with
        | Err e => Err (Wrap ("invalid ttl " +:+ quoted t +:+ ": ") e "")
        | Ok d => if d <=? 0 then Err (Wrap "" ErrTTLNotPositive (": got " +:+ quoted t)) else Ok (now + d)
        end
  end.

Record createRequest := mkCreateReq { cq_ClientID : string; cq_Roles : list string; cq_TTL : option string }.

Definition handleCreate (env : admin_env E) (ctx : option string) (body : option createRequest)
    (st : admin_st S) : admin_response KeyCreateResult * admin_st S :=
  match body with
  | None => ((StatusBadRequest, BodyError "invalid JSON body"), st)
  | Some req =>
      if cq_ClientID req =s "" then ((StatusBadRequest, BodyError "client_id is required"), st)
      else if bool_decide (cq_Roles req = []) then
        ((StatusBadRequest, BodyError "at least one role is required; a key with no roles authorizes nothing"), st)
      else if negb (validateRoles (cq_Roles req)) then
        ((StatusBadRequest, BodyError "roles must be one or more of: reader, writer, admin, automation"), st)
      else
        match resolveExpiry (cq_TTL req) (ac_defaultTTL cfg) (ae_now env) with
        | Err e => ((StatusBadRequest, BodyError (error_text e)), st)
        | Ok expiresAt =>
            match kb_Create (ae_kb env) (ae_call env) (cq_ClientID req) (cq_Roles req) expiresAt (ad_keys st) with
            | (Err e, k) =>
                let st := with_keys k st in
                if errors_Is e ErrClientExists then ((StatusConflict, BodyError (error_text e)), st)
                else ((StatusInternalServerError, BodyError "internal error"),
                      recordAdminAudit cfg env ctx AdminActionKeyCreate (cq_ClientID req) "" "error" st)
            | (Ok res, k) =>
                ((StatusCreated, BodyOf res),
                 recordAdminAudit cfg env ctx AdminActionKeyCreate (cq_ClientID req)
                   ("roles=" +:+ join "," (cq_Roles req)) "ok" (with_keys k st))
            end
        end
  end.

Definition handleList (env : admin_env E) (st : admin_st S) : admin_response (list KeySummary) * admin_st S :=
  ((StatusOK, BodyOf (kb_List (ae_kb env) (ad_keys st))), st).

Record updateRequest := mkUpdateReq {
  uq_Enabled : option bool; uq_Roles : option (list string); uq_TTL : option string
}.

Definition updateAuditDetail (req : updateRequest) : string :=
  let changed :=
    (if uq_Enabled req is Some _ then ["enabled"] else []) ++ (if uq_Roles req is Some _ then ["roles"] else [])
    ++ (if uq_TTL req is Some _ then ["ttl"] else []) in
  "fields=" +:+ join "," changed.

Definition handleUpdate (env : admin_env E) (ctx : option string) (clientID : string)
    (body : option updateRequest) (st : admin_st S) : admin_response KeySummary * admin_st S :=
  let bad msg := ((StatusBadRequest, BodyError msg), st) in
  if clientID =s "" then bad "client id is required in path"
  else
    match body with
    | None => bad "invalid JSON body"
    | Some req =>
        if match uq_Enabled req, uq_Roles req, uq_TTL req with None, None, None => true | _, _, _ => false end
        then bad "at least one of enabled, roles, or ttl must be provided"
        else
          let apply_ (exp : option Z) :=
            match kb_Update (ae_kb env) clientID (mkUpdate (uq_Enabled req) (uq_Roles req) exp) (ad_keys st) with
            | (Err e, k) =>
                let st := with_keys k st in
                if errors_Is e ErrClientMissing then ((StatusNotFound, BodyError (error_text e)), st)
                else ((StatusInternalServerError, BodyError "internal error"), st)
            | (Ok summary, k) =>
                ((StatusOK, BodyOf summary),
                 recordAdminAudit cfg env ctx AdminActionKeyUpdate clientID (updateAuditDetail req) "ok" (with_keys k st))
            end in
          let with_ttl :=
            match uq_TTL req with
            | None => apply_ None
            | Some t =>
                match resolveExpiry (Some t) (ac_defaultTTL cfg) (ae_now env) with
                | Err e => bad (error_text e)
                | Ok exp => apply_ (Some exp)
                end
            end in
          match uq_Roles req with
          | Some roles =>
              if bool_decide (roles = []) then bad "roles cannot be cleared; use enabled:false to deactivate a key"
              else if negb (validateRoles roles) then
                bad "roles must be one or more of: reader, writer, admin, automation"
              else with_ttl
          | None => with_ttl
          end
    end.

Definition handleDelete (env : admin_env E) (ctx : option string) (clientID : string)
    (st : admin_st S) : admin_response unit * admin_st S :=
  if clientID =s "" then ((StatusBadRequest, BodyError "client id is required in path"), st)
  else
    match kb_Delete (ae_kb env) clientID (ad_keys st) with
    | (Some e, k) =>
        let st := with_keys k st in
        if errors_Is e ErrClientMissing then ((StatusNotFound, BodyError (error_text e)), st)
        else ((StatusInternalServerError, BodyError "internal error"), st)
    | (None, k) =>
        ((StatusNoContent, BodyEmpty),
         recordAdminAudit cfg env ctx AdminActionKeyDelete clientID "" "ok" (with_keys k st))
    end.

(** ** Pending requests *)

Record pendingItemSummary := mkItem {
  pi_ID : string; pi_Email : string; pi_Company : string; pi_IntendedUse : string; pi_Status : string;
  pi_CreatedAt : string; pi_DecidedAt : string; pi_DeciderID : string; pi_KeyID : string; pi_RemoteAddr : string
}.

(** [FormatTime] is the UTC layout the code uses. *)
Definition toSummary (FormatTime : Z → string) (r : PendingKeyRequest) : pendingItemSummary :=
  mkItem (pr_ID r) (pr_Email r) (pr_Company r) (pr_IntendedUse r) (pr_Status r) (FormatTime (pr_CreatedAt r))
    (match pr_DecidedAt r with Some t => FormatTime t | None => "" end)
    (pr_DeciderID r) (pr_KeyID r) (pr_RemoteAddr r).

Definition handleListPending (FormatTime : Z → string) (st : admin_st S)
    : admin_response (list pendingItemSummary) * admin_st S :=
  if negb (ac_pendingStore cfg) then
    ((StatusServiceUnavailable,
      BodyError "pending key store is not configured (set NVNM_KEY_REQUEST_ENABLED + NVNM_KEY_PENDING_FILE)"), st)
  else ((StatusOK, BodyOf (toSummary FormatTime <$> ListPending (ad_pending st))), st).

Record approveResponse := mkApprove {
  ap_RequestID : string; ap_Status : string; ap_KeyID : string; ap_APIKey : string; ap_EmailDelivered : bool
}.

Definition nl : string := String (ascii_of_nat 10) "".

Definition approvalEmailBody (rawKey : string) : string :=
  "Hello," +:+ nl +:+ nl
  +:+ "Your request for an NVNM Chain MCP Server API key has been approved." +:+ nl +:+ nl
  +:+ "Your API key:" +:+ nl +:+ nl
  +:+ "    " +:+ rawKey +:+ nl +:+ nl
  +:+ "Use it as a Bearer token on requests to the MCP server:" +:+ nl +:+ nl
  +:+ "    Authorization: Bearer <your-key>" +:+ nl +:+ nl
  +:+ "If you did not request this key, please contact security@nvnmchain.io." +:+ nl +:+ nl
  +:+ "Welcome to the closed beta." +:+ nl.

(** The client id derived from a request. *)
Definition pending_client (id : string) : string := "pending:" +:+ id.

(** handleApprovePending takes three separately locked actions on the stores;
    concurrent reviews interleave between them. First: look the request up. *)
Definition approve_check (id : string) (st : admin_st S)
    : result (admin_response approveResponse) PendingKeyRequest :=
  if negb (ac_pendingStore cfg) then
    Err (StatusServiceUnavailable, BodyError "pending key store is not configured")
  else if id =s "" then Err (StatusBadRequest, BodyError "missing request id")
  else
    match Get id (ad_pending st) with
    | None => Err (StatusNotFound, BodyError "pending request not found")
    | Some req =>
        if negb (pr_Status req =s PendingStatusPending) then
          Err (StatusConflict, BodyError ("request already decided: status=" +:+ quoted (pr_Status req)))
        else Ok req
    end.

(** Second: mint the key. *)
Definition approve_mint (env : admin_env E) (req : PendingKeyRequest) (st : admin_st S)
    : result (admin_response approveResponse) KeyCreateResult * admin_st S :=
  match kb_Create (ae_kb env) (ae_call env) (pending_client (pr_ID req)) ["reader"] 0 (ad_keys st) with
  | (Err _, k) => (Err (StatusInternalServerError, BodyError "key mint failed"), with_keys k st)
  | (Ok created, k) => (Ok created, with_keys k st)
  end.

(** Third: record the decision, or take the key back. *)
Definition approve_decide (env : admin_env E) (ctx : option string) (req : PendingKeyRequest)
    (created : KeyCreateResult) (st : admin_st S) : admin_response approveResponse * admin_st S :=
  let keyID := su_ID (cr_Summary created) in
  match Decide (ae_os env) (ae_now env) (pr_ID req) PendingStatusApproved (adminActorFromContext ctx) keyID
          (ad_pending st) with
  | (Err err, p) =>
      let st := with_pending p st in
      let st := with_keys (kb_Delete (ae_kb_rollback env) keyID (ad_keys st)).2 st in
      let status := if errors_Is err ErrPendingNotPending || errors_Is err ErrPendingNotFound
                    then StatusConflict else StatusInternalServerError in
      ((status, BodyError (error_text err)), st)
  | (Ok decided, p) =>
      let '(delivered, st) := send_mail cfg env (pr_Email req) (approvalEmailBody (cr_Key created)) (with_pending p st) in
      ((StatusOK, BodyOf (mkApprove (pr_ID decided) (pr_Status decided) keyID (cr_Key created) delivered)),
       recordAdminAudit cfg env ctx AdminActionPendingApprove (pr_ID req)
         ("client_id=" +:+ keyID +:+ ",roles=reader") "ok" st)
  end.

Definition handleApprovePending (env : admin_env E) (ctx : option string) (id : string) (st : admin_st S)
    : admin_response approveResponse * admin_st S :=
  match approve_check id st with
  | Err resp => (resp, st)
  | Ok req =>
      match approve_mint env req st with
      | (Err resp, st) => (resp, st)
      | (Ok created, st) => approve_decide env ctx req created st
      end
  end.

Record rejectResponse := mkReject { rj_RequestID : string; rj_Status : string; rj_EmailDelivered : bool }.

Definition rejectionEmailBody (reason : string) : string :=
  let opening := "Hello," +:+ nl +:+ nl
    +:+ "Your recent NVNM Chain MCP Server API key request was not approved at this time." in
  if reason =s "" then
    opening +:+ " You can re-apply after addressing any concerns; reply to this email if you have questions." +:+ nl
  else
    opening +:+ nl +:+ nl +:+ "Reason: " +:+ reason +:+ nl +:+ nl
    +:+ "You can re-apply after addressing the concern; reply to this email if you have questions." +:+ nl.

(** [body]: the reason, the empty string when there is no body. *)
Definition handleRejectPending (env : admin_env E) (ctx : option string) (id : string) (body : option string)
    (st : admin_st S) : admin_response rejectResponse * admin_st S :=
  if negb (ac_pendingStore cfg) then
    ((StatusServiceUnavailable, BodyError "pending key store is not configured"), st)
  else if id =s "" then ((StatusBadRequest, BodyError "missing request id"), st)
  else
    match body with
    | None => ((StatusBadRequest, BodyError "invalid JSON body"), st)
    | Some reason =>
        match Decide (ae_os env) (ae_now env) id PendingStatusRejected (adminActorFromContext ctx) ""
                (ad_pending st) with
        | (Err err, p) =>
            let status := if errors_Is err ErrPendingNotFound then StatusNotFound
                          else if errors_Is err ErrPendingNotPending then StatusConflict
                          else StatusInternalServerError in
            ((status, BodyError (error_text err)), with_pending p st)
        | (Ok decided, p) =>
            let '(delivered, st) := send_mail cfg env (pr_Email decided) (rejectionEmailBody reason) (with_pending p st) in
            ((StatusOK, BodyOf (mkReject (pr_ID decided) (pr_Status decided) delivered)),
             recordAdminAudit cfg env ctx AdminActionPendingReject id ("reason=" +:+ reason) "ok" st)
        end
    end.

(** ** Ban list and write audit *)

Definition handleListBlacklist (env : admin_env E) (st : admin_st S)
    : admin_response (list BlacklistEntry) * admin_st S :=
  if negb (ac_blacklist cfg) then ((StatusNotFound, BodyError "signer blacklist not configured"), st)
  else match ListBans (ae_db env) (ad_db st) with
       | Err _ => ((StatusInternalServerError, BodyError "list failed"), st)
       | Ok entries => ((StatusOK, BodyOf entries), st)
       end.

Definition handleAddBlacklist (env : admin_env E) (ctx : option string) (body : option (string * string))
    (st : admin_st S) : admin_response unit * admin_st S :=
  if negb (ac_blacklist cfg) then ((StatusNotFound, BodyError "signer blacklist not configured"), st)
  else
    match body with
    | None => ((StatusBadRequest, BodyError "invalid JSON body"), st)
    | Some (signer, reason) =>
        match AddressFromHex signer with
        | None => ((StatusBadRequest, BodyError "signer is not a valid address"), st)
        | Some _ =>
            match SignerStores.Add (ae_db env) (ae_now env) signer reason (ad_db st) with
            | (Some _, db) => ((StatusInternalServerError, BodyError "add failed"), with_db db st)
            | (None, db) =>
                ((StatusOK, BodyEmpty),
                 recordAdminAudit cfg env ctx AdminActionBlacklistAdd signer ("reason=" +:+ reason) "ok" (with_db db st))
            end
        end
    end.

Definition handleDeleteBlacklist (env : admin_env E) (ctx : option string) (signer : string)
    (st : admin_st S) : admin_response unit * admin_st S :=
  if negb (ac_blacklist cfg) then ((StatusNotFound, BodyError "signer blacklist not configured"), st)
  else if signer =s "" then ((StatusBadRequest, BodyError "signer is required in path"), st)
  else
    match Remove (ae_db env) signer (ad_db st) with
    | (Some _, db) => ((StatusInternalServerError, BodyError "remove failed"), with_db db st)
    | (None, db) =>
        ((StatusOK, BodyEmpty),
         recordAdminAudit cfg env ctx AdminActionBlacklistRemove signer "" "ok" (with_db db st))
    end.

Definition parseTimeParam (name v : string) : result (Z * string) (option Z) :=
  if v =s "" then Ok None
  else match ParseTime v with
       | None => Err (StatusBadRequest, "invalid '" +:+ name +:+ "' (want RFC3339)")
       | Some t => Ok (Some t)
       end.

(** GET /admin/write-audit?signer=&from=&to=&limit= *)
Definition handleWriteAudit (env : admin_env E) (signer from to limit : string) (st : admin_st S)
    : admin_response (list WriteAuditEntry) * admin_st S :=
  if negb (ac_writeAudit cfg) then ((StatusNotFound, BodyError "write audit not configured"), st)
  else
    match parseTimeParam "from" from with
    | Err (s, msg) => ((s, BodyError msg), st)
    | Ok f =>
        match parseTimeParam "to" to with
        | Err (s, msg) => ((s, BodyError msg), st)
        | Ok t =>
            let lim := if limit =s "" then Some 0
                       else match Atoi limit with
                            | Ok n => if n <? 0 then None else Some n
                            | Err _ => None
                            end in
            match lim with
            | None => ((StatusBadRequest, BodyError "invalid 'limit'"), st)
            | Some n =>
                match Query (ae_db env) (mkFilter signer f t n) (ad_db st) with
                | Err _ => ((StatusInternalServerError, BodyError "query failed"), st)
                | Ok entries => ((StatusOK, BodyOf entries), st)
                end
            end
        end
    end.
End Handlers.

(** ** Concurrent reviews *)

Inductive phase :=
| PMint (req : PendingKeyRequest)                                (* checked, about to mint *)
| PDecide (req : PendingKeyRequest) (created : KeyCreateResult). (* minted, about to decide *)

Section Reviews.
Context {S E : Type} `{KeyStoreLaws S E}.
Context (cfg : admin_cfg).

(** The server, the approvals in flight by handler, and the requests whose
    minted key a failed approval could not take back. *)
Record reviews := mkReviews {
  rv_st : admin_st S;
  rv_flight : gmap nat phase;
  rv_orphans : list string
}.

Definition items (v : reviews) : list PendingKeyRequest := ps_items (ad_pending (rv_st v)).
Definition keys (v : reviews) : list KeyEntry := kb_entries (ad_keys (rv_st v)).

(** The minted key's digest is not already stored. *)
Definition mint_fresh (st : admin_st S) (created : KeyCreateResult) : Prop :=
  ∀ y, y ∈ kb_entries (ad_keys st) → ke_KeyHash y ≠ (HashForStore (kb_hasher (ad_keys st)) (cr_Key created)).1.

Definition rollback_failed (env : admin_env E) (created : KeyCreateResult) {A} (resp : admin_response A)
    (st : admin_st S) : bool :=
  negb (resp.1 =? StatusOK) &&
  match (kb_Delete (ae_kb_rollback env) (su_ID (cr_Summary created)) (ad_keys st)).1 with
  | Some _ => true | None => false
  end.

(** One locked action of one handler. *)
Inductive review_step : reviews → reviews → Prop :=
| RSubmit st fl o env now uuid email company use addr r p :
    Add env now uuid email company use addr (ad_pending st) = (r, p) →
    uuid ∉ pr_ID <$> ps_items (ad_pending st) →
    review_step (mkReviews st fl o) (mkReviews (with_pending p st) fl o)
| RCheck st fl o h id req :
    fl !! h = None → approve_check cfg id st = Ok req →
    review_step (mkReviews st fl o) (mkReviews st (<[h := PMint req]> fl) o)
| RMint st fl o h (env : admin_env E) req created st' :
    fl !! h = Some (PMint req) → approve_mint env req st = (Ok created, st') → mint_fresh st created →
    review_step (mkReviews st fl o) (mkReviews st' (<[h := PDecide req created]> fl) o)
| RMintFail st fl o h (env : admin_env E) req resp st' :
    fl !! h = Some (PMint req) → approve_mint env req st = (Err resp, st') →
    review_step (mkReviews st fl o) (mkReviews st' (delete h fl) o)
| RDecide st fl o h (env : admin_env E) ctx req created resp st' :
    fl !! h = Some (PDecide req created) → approve_decide cfg env ctx req created st = (resp, st') →
    review_step (mkReviews st fl o)
      (mkReviews st' (delete h fl) (if rollback_failed env created resp st then pr_ID req :: o else o))
| RReject st fl o (env : admin_env E) ctx id body resp st' :
    handleRejectPending cfg env ctx id body st = (resp, st') →
    review_step (mkReviews st fl o) (mkReviews st' fl o).

Definition approved (rid : string) (l : list PendingKeyRequest) : Prop :=
  ∃ r, r ∈ l ∧ pr_ID r = rid ∧ pr_Status r = PendingStatusApproved.

Definition has_key (rid : string) (l : list KeyEntry) : Prop :=
  ∃ y, y ∈ l ∧ ke_ID y = pending_client rid.

Definition deciding (rid : string) (fl : gmap nat phase) : Prop :=
  ∃ h req created, fl !! h = Some (PDecide req created) ∧ pr_ID req = rid.

Record reviews_inv (v : reviews) : Prop := {
  ri_ok : kb_ok (ad_keys (rv_st v));
  ri_ids : NoDup (pr_ID <$> items v);
  ri_keys rid : has_key rid (keys v) → approved rid (items v) ∨ deciding rid (rv_flight v) ∨ rid ∈ rv_orphans v;
  ri_approved r : r ∈ items v → pr_Status r = PendingStatusApproved →
    pr_KeyID r = pending_client (pr_ID r) ∧ has_key (pr_ID r) (keys v);
  ri_deciding h req created : rv_flight v !! h = Some (PDecide req created) →
    su_ID (cr_Summary created) = pending_client (pr_ID req) ∧ has_key (pr_ID req) (keys v) ∧
    ¬ approved (pr_ID req) (items v);
  ri_unique h1 h2 req1 req2 c1 c2 :
    rv_flight v !! h1 = Some (PDecide req1 c1) → rv_flight v !! h2 = Some (PDecide req2 c2) →
    pr_ID req1 = pr_ID req2 → h1 = h2
}.

Lemma pending_client_inj a b : pending_client a = pending_client b → a = b.
Proof. unfold pending_client. cbn. intros [= Hab]. done. Qed.

Lemma same_request (l : list PendingKeyRequest) x y :
  NoDup (pr_ID <$> l) → x ∈ l → y ∈ l → pr_ID x = pr_ID y → x = y.
Proof.
  intros Hnd (i & Hi)%list_elem_of_lookup (j & Hj)%list_elem_of_lookup Hid.
  assert (i = j) as ->; [|congruence].
  apply (NoDup_lookup _ i j (pr_ID y) Hnd); rewrite list_lookup_fmap; [rewrite Hi|rewrite Hj]; cbn; congruence.
Qed.

(** What Decide does to the queue. *)
Lemma Decide_spec env now id status decider key p r p' :
  Decide env now id status decider key p = (r, p') → NoDup (pr_ID <$> ps_items p) →
  match r with
  | Err _ => ps_items p' = ps_items p
  | Ok d => ∃ prev, prev ∈ ps_items p ∧ pr_ID prev = id ∧ pr_Status prev = PendingStatusPending ∧
      d = decide_request now status decider key prev ∧
      pr_ID <$> ps_items p' = pr_ID <$> ps_items p ∧
      ∀ x, x ∈ ps_items p' ↔ x = d ∨ (x ∈ ps_items p ∧ pr_ID x ≠ id)
  end.
Proof.
  unfold Decide. intros Hd Hnd. destruct (negb _ && negb _); [by simplify_eq|].
  destruct (find_request id (ps_items p)) as [idx|] eqn:Ef; [|by simplify_eq].
  destruct (find_request_spec _ _ _ Ef) as (prev & Hi & Hid). rewrite Hi in Hd.
  destruct (negb (pr_Status prev =s _)) eqn:Ep; [by simplify_eq|]. bool_to_prop.
  destruct (save_file env "pending" _ _ _) as [[e|] w]; simplify_eq/=.
  - by rewrite list_insert_insert_eq, list_insert_id.
  - exists prev. split_and!; [by eapply list_elem_of_lookup_2|done|done|done| |].
    + rewrite list_fmap_insert. apply list_insert_id. by rewrite list_lookup_fmap, Hi.
    + intros x. pose proof (lookup_lt_Some _ _ _ Hi) as Hlt. rewrite list_elem_of_lookup. split.
      * intros (j & Hj). destruct (decide (j = idx)) as [->|Hne].
        { rewrite list_lookup_insert_eq in Hj by done. left. by simplify_eq. }
        rewrite list_lookup_insert_ne in Hj by done. right. split; [by eapply list_elem_of_lookup_2|].
        intros Hx. apply Hne. eapply NoDup_lookup; [exact Hnd| |]; rewrite list_lookup_fmap.
        { rewrite Hj; cbn. by rewrite Hx. }
        by rewrite Hi.
      * intros [->|[Hx Hne]]; [exists idx; by rewrite list_lookup_insert_eq|].
        apply list_elem_of_lookup in Hx as (j & Hj). exists j. rewrite list_lookup_insert_ne; [done|].
        intros <-. congruence.
Qed.

Lemma recordAdminAudit_same env ctx a t d o (st : admin_st S) :
  let st' := recordAdminAudit (E := E) cfg env ctx a t d o st in
  ad_keys st' = ad_keys st ∧ ad_pending st' = ad_pending st.
Proof. unfold recordAdminAudit. by destruct (negb _), (ae_audit_fails env). Qed.

Lemma send_mail_same env to body (st : admin_st S) :
  let st' := (send_mail (E := E) cfg env to body st).2 in
  ad_keys st' = ad_keys st ∧ ad_pending st' = ad_pending st.
Proof. unfold send_mail. by destruct (ac_email cfg), (ae_mail_fails env). Qed.

(** Steps that keep the keys and the approved requests keep the invariant. *)
Lemma reviews_inv_same st fl o st' fl' :
  reviews_inv (mkReviews st fl o) →
  kb_ok (ad_keys st') → kb_entries (ad_keys st') = kb_entries (ad_keys st) →
  NoDup (pr_ID <$> ps_items (ad_pending st')) →
  (∀ r, pr_Status r = PendingStatusApproved →
     r ∈ ps_items (ad_pending st') ↔ r ∈ ps_items (ad_pending st)) →
  (∀ h req created, fl' !! h = Some (PDecide req created) ↔ fl !! h = Some (PDecide req created)) →
  reviews_inv (mkReviews st' fl' o).
Proof using All.
  intros [Hok Hids Hkeys Happ Hdec Huniq] Hok' He Hnd Hap Hfl. unfold items, keys in *; cbn in *.
  assert (∀ rid, approved rid (ps_items (ad_pending st')) ↔ approved rid (ps_items (ad_pending st))) as Hiff.
  { intros rid. unfold approved. split; intros (r & Hr & Hid & Hs); exists r; split_and!; try done; by apply Hap. }
  split; unfold items, keys; cbn; rewrite ?He; try done.
  - intros rid Hk. rewrite Hiff. destruct (Hkeys rid Hk) as [?|[(h & req & c & Hd & Hid)|?]]; [by left| |by right; right].
    right. left. exists h, req, c. by rewrite Hfl.
  - intros r Hr Hs. apply Happ; [by apply Hap|done].
  - intros h req c Hd. rewrite Hfl in Hd. rewrite Hiff. by eapply Hdec.
  - intros h1 h2 req1 req2 c1 c2 H1 H2. rewrite Hfl in H1. rewrite Hfl in H2. by eapply Huniq.
Qed.

Lemma Add_items env now uuid email company use addr p r p' :
  Add env now uuid email company use addr p = (r, p') →
  ps_items p' = ps_items p ∨
  ∃ req, ps_items p' = ps_items p ++ [req] ∧ pr_ID req = uuid ∧ pr_Status req = PendingStatusPending.
Proof.
  unfold Add. destruct (save_file env "pending" _ _ _) as [[e|] w]; intros; simplify_eq/=.
  - left. by rewrite length_app, Nat.add_sub, take_app_length.
  - right. by eexists.
Qed.

Lemma submit_inv st fl o env now uuid email company use addr r p :
  Add env now uuid email company use addr (ad_pending st) = (r, p) →
  uuid ∉ pr_ID <$> ps_items (ad_pending st) →
  reviews_inv (mkReviews st fl o) → reviews_inv (mkReviews (with_pending p st) fl o).
Proof using All.
  intros Ha Hfresh Hi. pose proof Hi as [Hok Hids _ _ _ _]. unfold items in Hids; cbn in Hids.
  apply (reviews_inv_same st fl o (with_pending p st) fl Hi); [done|done| | |done]; cbn.
  - destruct (Add_items _ _ _ _ _ _ _ _ _ _ Ha) as [->|(req & -> & Hid & _)]; [done|].
    rewrite fmap_app. apply NoDup_app. split_and!; [done| |apply NoDup_singleton].
    intros x Hx. cbn. rewrite list_elem_of_singleton, Hid. congruence.
  - intros x Hx. destruct (Add_items _ _ _ _ _ _ _ _ _ _ Ha) as [->|(req & -> & _ & Hs)]; [done|].
    rewrite elem_of_app, list_elem_of_singleton. split; [|by left]. intros [?| ->]; [done|]. by rewrite Hs in Hx.
Qed.

Lemma reject_inv st fl o (env : admin_env E) ctx id body resp st' :
  handleRejectPending cfg env ctx id body st = (resp, st') →
  reviews_inv (mkReviews st fl o) → reviews_inv (mkReviews st' fl o).
Proof using All.
  intros Hr Hi. pose proof Hi as [Hok Hids _ _ _ _]. unfold items in Hids; cbn in Hids.
  unfold handleRejectPending in Hr.
  destruct (negb _); [by simplify_eq|]. destruct (id =s ""); [by simplify_eq|].
  destruct body as [reason|]; [|by simplify_eq].
  destruct (Decide _ _ _ _ _ _ _) as [r p] eqn:Ed. pose proof (Decide_spec _ _ _ _ _ _ _ _ _ Ed Hids) as Hd.
  destruct r as [d|e].
  - destruct (send_mail cfg env _ _ _) as [dl st1] eqn:Em. injection Hr as <- <-.
    pose proof (send_mail_same env (pr_Email d) (rejectionEmailBody reason) (with_pending p st)) as [Hk1 Hp1].
    rewrite Em in Hk1, Hp1. cbn in Hk1, Hp1.
    destruct (recordAdminAudit_same env ctx AdminActionPendingReject id ("reason=" +:+ reason) "ok" st1) as [Hk2 Hp2].
    destruct Hd as (prev & Hprev & Hid & Hs & -> & Hids' & Hin).
    apply (reviews_inv_same st fl o _ fl Hi); [by rewrite Hk2, Hk1|by rewrite Hk2, Hk1| | |done];
      rewrite Hp2, Hp1; [by rewrite Hids'|].
    intros x Hx. rewrite Hin. split; [|].
    + intros [->|[? _]]; [done|done].
    + intros Hxin. right. split; [done|]. intros Hxid.
      assert (x = prev) as ->; [|by rewrite Hs in Hx].
      eapply same_request; [exact Hids|done|done|congruence].
  - injection Hr as <- <-.
    apply (reviews_inv_same st fl o _ fl Hi); cbn; [done|done|by rewrite Hd|by rewrite Hd|done].
Qed.

Lemma mint_inv st fl o h (env : admin_env E) req created st' :
  fl !! h = Some (PMint req) → approve_mint env req st = (Ok created, st') → mint_fresh st created →
  reviews_inv (mkReviews st fl o) → reviews_inv (mkReviews st' (<[h := PDecide req created]> fl) o).
Proof using All.
  intros Hh Hm Hfresh [Hok Hids Hkeys Happ Hdec Huniq]. unfold items, keys in *; cbn in *.
  unfold approve_mint in Hm.
  destruct (kb_Create _ _ _ _ _ _) as [[c|e] k] eqn:Ec; [|done]. injection Hm as -> <-.
  pose proof (kl_create_id _ _ _ _ _ _ _ _ Ec) as Hsu.
  destruct (kl_create _ _ _ _ _ _ _ _ Hok Ec Hfresh) as (Hok' & _ & Hno & e & Hin & Hid & _).
  assert (∀ rid, has_key rid (kb_entries k) ↔ rid = pr_ID req ∨ has_key rid (kb_entries (ad_keys st))) as Hk.
  { intros rid. unfold has_key. split.
    - intros (y & [->|Hy]%Hin & Hyid); [left; apply pending_client_inj; congruence|right; eauto].
    - intros [->|(y & Hy & Hyid)]; [exists e|exists y]; (split; [apply Hin; auto|done]). }
  assert (¬ has_key (pr_ID req) (kb_entries (ad_keys st))) as Hnk by (intros (y & Hy & Hyid); by apply (Hno y)).
  split; unfold items, keys; cbn; try done.
  - intros rid [->|Hrid]%Hk; [right; left; exists h, req, created; by rewrite lookup_insert_eq|].
    destruct (Hkeys rid Hrid) as [?|[(h' & req' & c' & Hd & Hid')|?]]; [by left| |by right; right].
    right. left. exists h', req', c'. rewrite lookup_insert_ne; [done|]. intros <-. congruence.
  - intros r Hr Hs. destruct (Happ r Hr Hs) as [? ?]. split; [done|]. apply Hk. by right.
  - intros h' req' c' Hd. destruct (decide (h' = h)) as [->|Hne].
    + rewrite lookup_insert_eq in Hd. injection Hd as <- <-. split; [done|]. split; [apply Hk; by left|].
      intros (r & Hr & Hrid & Hs). apply Hnk. rewrite <-Hrid. by apply (Happ r).
    + rewrite lookup_insert_ne in Hd by done. destruct (Hdec h' req' c' Hd) as (? & ? & ?).
      split; [done|]. split; [apply Hk; by right|done].
  - intros h1 h2 req1 req2 c1 c2 H1 H2 Heq.
    destruct (decide (h1 = h)) as [->|N1], (decide (h2 = h)) as [->|N2]; [done| | |].
    + rewrite lookup_insert_eq in H1. rewrite lookup_insert_ne in H2 by done. injection H1 as <- <-.
      exfalso. apply Hnk. rewrite Heq. by eapply Hdec.
    + rewrite lookup_insert_eq in H2. rewrite lookup_insert_ne in H1 by done. injection H2 as <- <-.
      exfalso. apply Hnk. rewrite <-Heq. by eapply Hdec.
    + rewrite lookup_insert_ne in H1, H2 by done. by eapply Huniq.
Qed.

Lemma mint_fail_inv st fl o h (env : admin_env E) req resp st' :
  fl !! h = Some (PMint req) → approve_mint env req st = (Err resp, st') →
  reviews_inv (mkReviews st fl o) → reviews_inv (mkReviews st' (delete h fl) o).
Proof using All.
  intros Hh Hm Hi. pose proof Hi as [Hok Hids _ _ _ _]. unfold items in Hids; cbn in Hids, Hok.
  unfold approve_mint in Hm.
  destruct (kb_Create _ _ _ _ _ _) as [[c|e] k] eqn:Ec; [done|]. injection Hm as <- <-.
  destruct (kl_create_err _ _ _ _ _ _ _ _ Hok Ec) as (Hok' & _ & He).
  apply (reviews_inv_same st fl o _ _ Hi); cbn; try done.
  intros h' req' c'. destruct (decide (h' = h)) as [->|Hne].
  - rewrite lookup_delete_eq, Hh. done.
  - by rewrite lookup_delete_ne.
Qed.

(** Removing a deciding handler leaves the others. *)
Lemma delete_deciding (fl : gmap nat phase) h h' req c :
  delete h fl !! h' = Some (PDecide req c) ↔ h' ≠ h ∧ fl !! h' = Some (PDecide req c).
Proof. rewrite lookup_delete_Some. naive_solver. Qed.

Lemma decide_inv st fl o h (env : admin_env E) ctx req created resp st' :
  fl !! h = Some (PDecide req created) → approve_decide cfg env ctx req created st = (resp, st') →
  reviews_inv (mkReviews st fl o) →
  reviews_inv (mkReviews st' (delete h fl) (if rollback_failed env created resp st then pr_ID req :: o else o)).
Proof using All.
  intros Hh Ha [Hok Hids Hkeys Happ Hdec Huniq]. unfold items, keys in *; cbn in *.
  destruct (Hdec h req created Hh) as (Hsu & Hkey & Hna).
  assert (∀ h' req' c', delete h fl !! h' = Some (PDecide req' c') → pr_ID req' ≠ pr_ID req) as Hother.
  { intros h' req' c' [Hne Hd]%delete_deciding Heq. by apply Hne, (Huniq _ _ _ _ _ _ Hd Hh). }
  assert (∀ h1 h2 req1 req2 c1 c2,
    delete h fl !! h1 = Some (PDecide req1 c1) → delete h fl !! h2 = Some (PDecide req2 c2) →
    pr_ID req1 = pr_ID req2 → h1 = h2) as Huniq'.
  { intros h1 h2 r1 r2 c1 c2 [_ H1]%delete_deciding [_ H2]%delete_deciding. by apply Huniq with c1 c2. }
  assert (∀ rid, deciding rid fl → rid = pr_ID req ∨ deciding rid (delete h fl)) as Hdel.
  { intros rid (h' & req' & c' & Hd & <-). destruct (decide (h' = h)) as [->|Hne].
    - left. congruence.
    - right. exists h', req', c'. by rewrite delete_deciding. }
  unfold approve_decide in Ha.
  destruct (Decide _ _ _ _ _ _ _) as [r p] eqn:Ed. pose proof (Decide_spec _ _ _ _ _ _ _ _ _ Ed Hids) as Hd.
  destruct r as [d|e].
  - destruct (send_mail cfg env _ _ _) as [dl st1] eqn:Em. injection Ha as <- <-.
    pose proof (send_mail_same env (pr_Email req) (approvalEmailBody (cr_Key created)) (with_pending p st)) as [Hk1 Hp1].
    rewrite Em in Hk1, Hp1. cbn in Hk1, Hp1. unfold rollback_failed; cbn.
    set (st2 := recordAdminAudit _ _ _ _ _ _ _ _).
    assert (ad_keys st2 = ad_keys st ∧ ad_pending st2 = p) as [Hk2 Hp2].
    { destruct (recordAdminAudit_same env ctx AdminActionPendingApprove (pr_ID req)
        ("client_id=" +:+ su_ID (cr_Summary created) +:+ ",roles=reader") "ok" st1) as [Ea Eb].
      unfold st2. by rewrite Ea, Eb. }
    clearbody st2. destruct Hd as (prev & Hprev & Hid & Hs & -> & Hids' & Hin).
    set (d := decide_request _ _ _ _ _) in *.
    assert (pr_ID d = pr_ID req ∧ pr_Status d = PendingStatusApproved ∧ pr_KeyID d = su_ID (cr_Summary created))
      as (Hdid & Hds & Hdk) by done. clearbody d.
    assert (∀ rid, rid ≠ pr_ID req → approved rid (ps_items p) ↔ approved rid (ps_items (ad_pending st))) as Hap.
    { intros rid Hne. unfold approved. split; intros (x & Hx & Hxid & Hxs); exists x; (split; [|done]).
      - apply Hin in Hx as [->|[Hx _]]; [congruence|done].
      - apply Hin. right. split; [done|congruence]. }
    split; unfold items, keys; cbn; rewrite ?Hk2, ?Hp2; try done.
    + by rewrite Hids'.
    + intros rid Hrid. destruct (decide (rid = pr_ID req)) as [->|Hne].
      { left. exists d. split; [apply Hin; by left|done]. }
      destruct (Hkeys rid Hrid) as [?|[Hx|?]]; [left; by apply Hap| |by right; right].
      destruct (Hdel rid Hx); [done|by right; left].
    + intros x [->|[Hx _]]%Hin Hxs; [by rewrite Hdk, Hdid, Hsu|by apply Happ].
    + intros h' req' c' Hx. pose proof (Hother _ _ _ Hx) as Hne. apply delete_deciding in Hx as [_ Hx].
      destruct (Hdec h' req' c' Hx) as (? & ? & ?). split; [done|]. split; [done|]. by rewrite Hap.
  - cbn in Ha. destruct (kb_Delete (ae_kb_rollback env) (su_ID (cr_Summary created)) (ad_keys st)) as [de k] eqn:Ek.
    injection Ha as <- <-. unfold rollback_failed. rewrite Ek. cbn.
    replace (negb _) with true by (by destruct (_ || _)). cbn. rewrite Hsu in Ek.
    assert (kb_ok k ∧ ∀ rid, (has_key rid (kb_entries k) →
        has_key rid (kb_entries (ad_keys st)) ∧ (de = None → rid ≠ pr_ID req)) ∧
      (rid ≠ pr_ID req → has_key rid (kb_entries (ad_keys st)) → has_key rid (kb_entries k))) as [Hok' Hk].
    { destruct de as [x|].
      - destruct (kl_delete_err _ _ _ _ _ Hok Ek) as (? & _ & ->). split; [done|]. intros rid. done.
      - destruct (kl_delete _ _ _ _ Hok Ek) as (? & _ & Hin). split; [done|]. intros rid. unfold has_key. split.
        + intros (y & [Hy Hne]%Hin & Hyid). split; [eauto|]. intros _ ->. done.
        + intros Hne (y & Hy & Hyid). exists y. split; [|done]. apply Hin. split; [done|].
          intros Hx. apply Hne, pending_client_inj. congruence. }
    split; unfold items, keys; cbn; rewrite ?Hd; try done.
    + intros rid Hrid. destruct (proj1 (Hk rid) Hrid) as [Hold Hne].
      destruct (Hkeys rid Hold) as [?|[Hx|?]]; [by left| |right; right; destruct de; [by right|done]].
      destruct (Hdel rid Hx) as [->|?]; [|by right; left].
      right. right. destruct de; [by left|]. by destruct (Hne eq_refl).
    + intros x Hx Hxs. destruct (Happ x Hx Hxs) as [? Hh']. split; [done|]. apply Hk; [|done].
      intros Heq. apply Hna. by exists x.
    + intros h' req' c' Hx. pose proof (Hother _ _ _ Hx) as Hne. apply delete_deciding in Hx as [_ Hx].
      destruct (Hdec h' req' c' Hx) as (? & ? & ?). split; [done|]. split; [by apply Hk|done].
Qed.

Lemma check_inv st fl o h id req :
  fl !! h = None → approve_check cfg id st = Ok req →
  reviews_inv (mkReviews st fl o) → reviews_inv (mkReviews st (<[h := PMint req]> fl) o).
Proof using All.
  intros Hh _ Hi. pose proof Hi as [Hok Hids _ _ _ _].
  apply (reviews_inv_same st fl o _ _ Hi); try done.
  intros h' req' c'. destruct (decide (h' = h)) as [->|Hne].
  - by rewrite lookup_insert_eq, Hh.
  - by rewrite lookup_insert_ne.
Qed.

Lemma review_step_inv v v' : review_step v v' → reviews_inv v → reviews_inv v'.
Proof using All.
  destruct 1; [by eapply submit_inv|by eapply check_inv|by eapply mint_inv|by eapply mint_fail_inv
              |by eapply decide_inv|by eapply reject_inv].
Qed.

(** No review has started. *)
Definition reviews_fresh (v : reviews) : Prop :=
  kb_ok (ad_keys (rv_st v)) ∧ NoDup (pr_ID <$> items v) ∧ (∀ rid, ¬ has_key rid (keys v)) ∧
  (∀ rid, ¬ approved rid (items v)) ∧ rv_flight v = ∅ ∧ rv_orphans v = [].

Lemma reviews_fresh_inv v : reviews_fresh v → reviews_inv v.
Proof.
  intros (Hok & Hids & Hk & Ha & Hf & Ho). split; try done.
  - intros rid Hrid. by destruct (Hk rid).
  - intros r Hr Hs. destruct (Ha (pr_ID r)). by exists r.
  - intros h req c Hd. by rewrite Hf in Hd.
  - intros h1 h2 req1 req2 c1 c2 Hd. by rewrite Hf in Hd.
Qed.

Lemma reviews_reach v v' : reviews_fresh v → rtc review_step v v' → reviews_inv v'.
Proof using All.
  intros Hf Hr. apply reviews_fresh_inv in Hf. induction Hr; [done|]. by eauto using review_step_inv.
Qed.
End Reviews.

(** ** Theorems *)

(** C12: reviews issue exactly the keys they approve, under every interleaving of
    submissions, approvals and rejections by concurrent admins, on every
    key-store backend. An approved request names its key, which exists; a key
    issued for a request belongs to an approved one, to an approval still in
    flight, or to one whose rollback the store refused; so once no approval is
    in flight and no rollback failed, a request has a live key if and only if it
    is approved. *)
Theorem review_consistency {S E} `{KeyStoreLaws S E} cfg (v v' : reviews (S := S))
    (Hfresh : reviews_fresh v) (Hrun : rtc (review_step cfg) v v') :
  (∀ r, r ∈ items v' → pr_Status r = PendingStatusApproved →
     pr_KeyID r = pending_client (pr_ID r) ∧ has_key (pr_ID r) (keys v')) ∧
  (∀ rid, has_key rid (keys v') → approved rid (items v') ∨ deciding rid (rv_flight v') ∨ rid ∈ rv_orphans v') ∧
  (rv_flight v' = ∅ → rv_orphans v' = [] → ∀ rid, has_key rid (keys v') ↔ approved rid (items v')).
Proof.
  destruct (reviews_reach cfg v v' Hfresh Hrun) as [_ _ Hkeys Happ _ _].
  split; [exact Happ|]. split; [exact Hkeys|]. intros Hf Ho rid. split.
  - intros Hk. destruct (Hkeys rid Hk) as [?|[(h & req & c & Hd & _)|Hx]]; [done| |].
    + by rewrite Hf in Hd.
    + rewrite Ho in Hx. by apply not_elem_of_nil in Hx.
  - intros (r & Hr & <- & Hs). by apply Happ.
Qed.

Definition quiet_env : admin_env os_env :=
  mkAdminEnv 100 demo_call demo_env demo_env disk_ok (mkDbEnv true true true true true true) false false.
Definition demo_admin_cfg : admin_cfg := mkAdminCfg 0 true true false false true.
Definition demo_submitted : admin_st ManagedKeyStore :=
  mkAdmin demo_store (Add disk_ok 10 "u1" "a@b.c" "" "bots" "192.0.2.1" demo_queue).2 (mkDb ∅ ∅ []) [] [] [].
Definition demo_reviews : reviews :=
  mkReviews (mkAdmin demo_store demo_queue (mkDb ∅ ∅ []) [] [] []) ∅ [].
Definition demo_request : PendingKeyRequest :=
  mkPending "u1" "a@b.c" "" "bots" PendingStatusPending 10 None "" "" "192.0.2.1".

(** Two admins approve the same request: one mints, the other is refused. *)
Definition demo_approved : reviews :=
  let minted := (approve_mint quiet_env demo_request demo_submitted).2 in
  let again := (approve_mint quiet_env demo_request minted).2 in
  let created := mkCreate (mkSummary "pending:u1" true 7 ["reader"] "MDEyMzQ1..." 0)
                   "MDEyMzQ1Njc4OWFiY2RlZjAxMjM0NTY3ODlhYmNkZWY" in
  mkReviews (approve_decide demo_admin_cfg quiet_env (Some "alice") demo_request created again).2 ∅ [].

Lemma demo_review_run : rtc (review_step (E := os_env) demo_admin_cfg) demo_reviews demo_approved.
Proof.
  set (created := mkCreate (mkSummary "pending:u1" true 7 ["reader"] "MDEyMzQ1..." 0)
                   "MDEyMzQ1Njc4OWFiY2RlZjAxMjM0NTY3ODlhYmNkZWY").
  set (minted := (approve_mint quiet_env demo_request demo_submitted).2).
  set (again := (approve_mint quiet_env demo_request minted).2).
  eapply rtc_l.
  { apply (RSubmit _ _ _ _ disk_ok 10 "u1" "a@b.c" "" "bots" "192.0.2.1" (Ok demo_request)
             (Add disk_ok 10 "u1" "a@b.c" "" "bots" "192.0.2.1" demo_queue).2).
    - vm_compute. reflexivity.
    - apply not_elem_of_nil. }
  change (with_pending _ _) with demo_submitted.
  eapply rtc_l; [apply (RCheck _ _ _ _ 0%nat "u1" demo_request); [done|vm_compute; reflexivity]|].
  eapply rtc_l; [apply (RCheck _ _ _ _ 1%nat "u1" demo_request); [done|vm_compute; reflexivity]|].
  eapply rtc_l.
  { apply (RMint _ _ _ _ 0%nat quiet_env demo_request created minted).
    - done.
    - vm_compute. reflexivity.
    - intros y Hy. apply list_elem_of_singleton in Hy as ->. apply (bool_decide_unpack _). vm_compute. exact I. }
  eapply rtc_l.
  { apply (RMintFail _ _ _ _ 1%nat quiet_env demo_request
             (StatusInternalServerError, BodyError "key mint failed") again).
    - done.
    - vm_compute. reflexivity. }
  eapply rtc_l.
  { apply (RDecide _ _ _ _ 0%nat quiet_env (Some "alice") demo_request created
             (approve_decide demo_admin_cfg quiet_env (Some "alice") demo_request created again).1
             (approve_decide demo_admin_cfg quiet_env (Some "alice") demo_request created again).2).
    - done.
    - by destruct (approve_decide _ _ _ _ _ _). }
  assert (rollback_failed quiet_env created
    (approve_decide demo_admin_cfg quiet_env (Some "alice") demo_request created again).1 again = false) as ->
    by (vm_compute; reflexivity).
  apply rtc_refl.
Qed.

Lemma demo_reviews_fresh : reviews_fresh (E := os_env) demo_reviews.
Proof.
  split_and!; try done.
  - exact demo_kb_ok.
  - apply NoDup_nil_2.
  - intros rid (y & Hy & Hid). apply list_elem_of_singleton in Hy as ->. by cbn in Hid.
  - intros rid (r & Hr & _). by apply not_elem_of_nil in Hr.
Qed.

Lemma review_consistency_witness :
  has_key "u1" (keys (E := os_env) demo_approved) ∧
  approved "u1" (items demo_approved).
Proof.
  assert (approved "u1" (items demo_approved)) as Ha.
  { exists (decide_request 100 PendingStatusApproved "alice" "pending:u1" demo_request).
    split; [|split; reflexivity]. apply (list_elem_of_lookup_2 _ 0). vm_compute. reflexivity. }
  split; [|exact Ha].
  pose proof (review_consistency (E := os_env) demo_admin_cfg demo_reviews demo_approved
    demo_reviews_fresh demo_review_run) as H.
  exact (proj2 (proj2 (proj2 H) eq_refl eq_refl "u1") Ha).
Defined.

(** Of two admins approving the same request at once, the second cannot mint:
    the key's client id is taken. *)
Lemma second_approval_cannot_mint {S E} `{KeyStoreLaws S E} (env : admin_env E) req (st st' : admin_st S) created :
  kb_ok (ad_keys st) → has_key (pr_ID req) (kb_entries (ad_keys st)) →
  approve_mint env req st = (Ok created, st') → ¬ mint_fresh st created.
Proof.
  intros Hok (y & Hy & Hid) Hm Hf. unfold approve_mint in Hm.
  destruct (kb_Create _ _ _ _ _ _) as [[c|e] k] eqn:Ec; [|done]. injection Hm as -> <-.
  destruct (kl_create _ _ _ _ _ _ _ _ Hok Ec Hf) as (_ & _ & Hno & _). by apply (Hno y).
Qed.

(** *** Admin identities *)

Definition admin_pairs (cfg : admin_key_config) (entries : list adminKeyEntry) : list adminKeyEntry :=
  (if AdminAPIKey cfg =s "" then [] else [mkAdminKey "admin" (AdminAPIKey cfg)])
  ++ (if AdminAPIKeysFile cfg =s "" then [] else entries).

(** The identity map records exactly these pairs, one digest and one id each. *)
Definition records (pairs : list adminKeyEntry) (ids : gset string) (m : gmap string string) : Prop :=
  NoDup (ak_ID <$> pairs) ∧ (∀ id, id ∈ ids ↔ id ∈ ak_ID <$> pairs) ∧ (∀ e, e ∈ pairs → ak_ID e ≠ "") ∧
  (∀ h id, m !! h = Some id ↔ ∃ e, e ∈ pairs ∧ sha256 (ak_Key e) = h ∧ ak_ID e = id).

Lemma add_admin_keys_records file entries pairs ids m m' :
  records pairs ids m → add_admin_keys file entries ids m = Ok m' →
  ∃ ids', records (pairs ++ entries) ids' m'.
Proof.
  revert pairs ids m. induction entries as [|e entries IH]; intros pairs ids m Hr; cbn.
  - intros [= <-]. rewrite app_nil_r. eauto.
  - destruct (ak_ID e =s "") eqn:E1; [done|]. destruct (ak_Key e =s "") eqn:E2; [done|].
    destruct (bool_decide (ak_ID e ∈ ids)) eqn:E3; [done|]. apply bool_decide_eq_false in E3.
    destruct (bool_decide (is_Some (m !! _))) eqn:E4; [done|]. apply bool_decide_eq_false in E4.
    intros Ha. replace (pairs ++ e :: entries) with ((pairs ++ [e]) ++ entries) by (by rewrite <-app_assoc).
    eapply IH; [|exact Ha]. destruct Hr as (Hnd & Hids & Hne & Hm). bool_to_prop.
    assert (m !! sha256 (ak_Key e) = None) as Hnone by (by apply eq_None_not_Some).
    split_and!.
    + rewrite fmap_app. apply NoDup_app. split_and!; [done| |apply NoDup_singleton].
      intros x Hx. cbn. rewrite list_elem_of_singleton. intros ->. by apply E3, Hids.
    + intros id. rewrite elem_of_union, elem_of_singleton, Hids, fmap_app, elem_of_app. cbn.
      rewrite list_elem_of_singleton. tauto.
    + intros x. rewrite elem_of_app, list_elem_of_singleton. intros [?| ->]; [by apply Hne|done].
    + intros h id. destruct (decide (h = sha256 (ak_Key e))) as [->|Hh].
      * rewrite lookup_insert_eq. split.
        { intros [= <-]. exists e. rewrite elem_of_app, list_elem_of_singleton. auto. }
        intros (x & Hx & Hs & Hid). rewrite elem_of_app, list_elem_of_singleton in Hx.
        destruct Hx as [Hx| ->]; [|by rewrite Hid].
        assert (m !! sha256 (ak_Key e) = Some id) as Hc by (apply Hm; eauto). congruence.
      * rewrite lookup_insert_ne, Hm by done. split; intros (x & Hx & Hs & Hid); exists x; (split; [|done]).
        { rewrite elem_of_app. by left. }
        rewrite elem_of_app, list_elem_of_singleton in Hx. destruct Hx as [?| ->]; [done|congruence].
Qed.

(** The comparison loop finds the entry of the digest, wherever it stands. *)
Lemma match_loop got (l : list (string * string)) acc :
  NoDup l.*1 →
  (∀ id, (got, id) ∈ l → foldl (λ acc he, if got =s he.1 then (true, he.2) else acc) acc l = (true, id)) ∧
  (got ∉ l.*1 → foldl (λ acc he, if got =s he.1 then (true, he.2) else acc) acc l = acc).
Proof.
  revert acc. induction l as [|[h i] l IH]; intros acc Hnd; cbn.
  - split; [by intros id H%not_elem_of_nil|done].
  - inversion Hnd as [|? ? Hh Hnd']; subst. cbn in *. split.
    + intros id Hid. apply elem_of_cons in Hid as [[= <- <-]|Hid].
      * rewrite String.eqb_refl. by apply IH.
      * destruct (IH (if got =s h then (true, i) else acc) Hnd') as [H1 _]. by apply H1.
    + rewrite not_elem_of_cons. intros [Hne Hni]. rewrite (proj2 (String.eqb_neq got h) Hne). by apply IH.
Qed.

(** The bearer check: the digest of the token decides, whatever the order of
    iteration. *)
Lemma adminAuth_cases {St} range (m : gmap string string) (next : option string → handler St) r st :
  range m ≡ₚ map_to_list m →
  (∃ tok id, header r "Authorization" = "Bearer " +:+ tok ∧ m !! sha256 tok = Some id ∧
     adminAuth range m next r st = next (Some id) r st) ∨
  ((∀ tok, header r "Authorization" = "Bearer " +:+ tok → m !! sha256 tok = None) ∧
   rs_status (adminAuth range m next r st).1 = StatusUnauthorized ∧ (adminAuth range m next r st).2 = st).
Proof.
  intros Hrange. unfold adminAuth. destruct (header r "Authorization" =s "") eqn:E1.
  { right. bool_to_prop. rewrite E1. by split_and!. }
  destruct (negb (has_prefix "Bearer " (header r "Authorization"))) eqn:E2.
  { right. split_and!; [|done|done]. intros tok Heq. bool_to_prop. by rewrite Heq, has_prefix_app in E2. }
  bool_to_prop. apply has_prefix_spec in E2 as [tok Htok]. rewrite Htok, trim_prefix_app.
  assert (NoDup (range m).*1) as Hndr by (rewrite Hrange; apply NoDup_fst_map_to_list).
  destruct (match_loop (sha256 tok) (range m) (false, "") Hndr) as [Hhit Hmiss].
  destruct (m !! sha256 tok) as [id|] eqn:El.
  - left. exists tok, id. split_and!; [done..|]. rewrite (Hhit id); [done|]. rewrite Hrange. by apply elem_of_map_to_list.
  - right. rewrite Hmiss.
    + split_and!; [|done|done]. intros tok' Heq. apply (f_equal (trim_prefix "Bearer ")) in Heq.
      rewrite !trim_prefix_app in Heq. by subst.
    + intros ([h i] & Hh & Hin)%list_elem_of_fmap. cbn in Hh. subst h. rewrite Hrange in Hin.
      apply elem_of_map_to_list in Hin. congruence.
Qed.

(** the admin identity map and its check. When the configuration loads, a
    request reaches the admin handlers exactly when it presents a bearer token
    whose digest is that of a configured key, whatever the map's iteration order,
    and it is attributed to that key's own id, which no other key shares;
    otherwise it is refused with 401 and nothing changes. *)
Theorem admin_identity {St} range cfg file m (next : option string → handler St)
    (Hload : loadAdminKeys cfg file = Ok m) (Hrange : range m ≡ₚ map_to_list m) :
  let pairs := admin_pairs cfg (match file with Ok es => es | Err _ => [] end) in
  NoDup (ak_ID <$> pairs) ∧
  ∀ r st,
    (∃ e tok, e ∈ pairs ∧ header r "Authorization" = "Bearer " +:+ tok ∧ sha256 tok = sha256 (ak_Key e) ∧
       adminAuth range m next r st = next (Some (ak_ID e)) r st ∧
       adminActorFromContext (Some (ak_ID e)) = ak_ID e) ∨
    ((∀ e tok, e ∈ pairs → header r "Authorization" = "Bearer " +:+ tok → sha256 tok ≠ sha256 (ak_Key e)) ∧
     rs_status (adminAuth range m next r st).1 = StatusUnauthorized ∧ (adminAuth range m next r st).2 = st).
Proof.
  cbv zeta. set (pairs := admin_pairs _ _).
  assert (∃ ids, records pairs ids m) as (ids & Hnd & _ & Hne & Hm).
  { unfold loadAdminKeys in Hload.
    destruct (if AdminAPIKey cfg =s "" then _ else _) as [ids0 m0] eqn:E0.
    assert (records (if AdminAPIKey cfg =s "" then [] else [mkAdminKey "admin" (AdminAPIKey cfg)]) ids0 m0) as H0.
    { unfold records. destruct (AdminAPIKey cfg =s ""); injection E0 as <- <-; cbn.
      - split; [constructor|]. split; [set_solver|]. split; [by intros e He%not_elem_of_nil|].
        intros h id. rewrite lookup_empty. split; [done|]. by intros (e & He%not_elem_of_nil & _).
      - split; [apply NoDup_singleton|]. split; [set_solver|].
        split; [by intros e ->%list_elem_of_singleton|].
        intros h id. rewrite lookup_singleton_Some. split.
        + intros [<- <-]. eexists. by rewrite list_elem_of_singleton.
        + by intros (e & ->%list_elem_of_singleton & <- & <-). }
    unfold pairs, admin_pairs. destruct (AdminAPIKeysFile cfg =s "").
    - cbn in Hload. rewrite app_nil_r. destruct (bool_decide (m0 = ∅)); [done|]. injection Hload as <-. eauto.
    - destruct file as [entries|]; cbn in Hload; [|done].
      destruct (add_admin_keys _ entries ids0 m0) as [m1|] eqn:Ea; cbn in Hload; [|done].
      destruct (bool_decide (m1 = ∅)); [done|]. injection Hload as <-. by eapply add_admin_keys_records. }
  split; [done|]. intros r st.
  destruct (adminAuth_cases range m next r st Hrange) as [(tok & id & Htok & Hid & Heq)|(Hno & H1 & H2)].
  - left. apply Hm in Hid as (e & He & Hs & <-). exists e, tok. split_and!; try done.
    unfold adminActorFromContext. by rewrite (proj2 (String.eqb_neq _ _) (Hne e He)).
  - right. split_and!; [|done|done]. intros e tok He Htok Hs.
    assert (m !! sha256 tok = Some (ak_ID e)) by (apply Hm; eauto). rewrite Hno in *; done.
Qed.

Definition demo_admin_request (tok : string) : request :=
  mkRequest "GET" "/admin/keys" "192.0.2.9:1" {["Authorization" := "Bearer " +:+ tok]} "" false None 0.

Lemma admin_identity_witness :
  let m : gmap string string := <[sha256 "k-alice" := "alice"]> {[sha256 "root" := "admin"]} in
  let next : option string → handler nat := λ ctx r n, (http_error StatusOK (adminActorFromContext ctx), S n) in
  loadAdminKeys (mkAdminKeyConfig "root" "f.json") (Ok [mkAdminKey "alice" "k-alice"]) = Ok m ∧
  (adminAuth map_to_list m next (demo_admin_request "k-alice") 0%nat).1 = http_error StatusOK "alice" ∧
  NoDup (ak_ID <$> [mkAdminKey "admin" "root"; mkAdminKey "alice" "k-alice"]).
Proof.
  intros m next.
  assert (loadAdminKeys (mkAdminKeyConfig "root" "f.json") (Ok [mkAdminKey "alice" "k-alice"]) = Ok m) as Hl
    by (vm_compute; reflexivity).
  split; [exact Hl|]. split; [vm_compute; reflexivity|].
  exact (proj1 (admin_identity map_to_list _ _ m next Hl (reflexivity _))).
Defined.

(** *** The ban list *)

Lemma AddressFromHex_bare a : String.length a = 20%nat → AddressFromHex (hex_encode a) = Some a.
Proof.
  intros Hl. unfold AddressFromHex, HexToBytes. pose proof (length_hex_encode a) as Hle. rewrite Hl in Hle.
  assert (slen (hex_encode a) = 40) as H40 by (unfold slen; rewrite Hle; done).
  rewrite Has0xPrefix_hex_encode. cbv zeta. rewrite H40. cbn [Z.eqb Z.even negb].
  destruct (hex_encode a =s "0") eqn:E0; [bool_to_prop; by rewrite E0 in Hle|].
  rewrite hex_decode_encode. unfold slen. cbv beta iota. by rewrite Hl.
Qed.

(** A signer typed without its 0x prefix is a valid address to the endpoint,
    which answers 200 and records the ban; the stored row is then not the one
    the relay looks up, so the signer is not banned. *)
Theorem bare_hex_ban_is_ineffective {S E} cfg (env : admin_env E) ctx (a : address) reason (st : admin_st S) :
  String.length a = 20%nat → ac_blacklist cfg = true → up_ban (ae_db env) = true →
  signer_blacklist (ad_db st) !! to_lower (address_String a) = None →
  let '(resp, st') := handleAddBlacklist cfg env ctx (Some (hex_encode a, reason)) st in
  resp.1 = StatusOK ∧
  ∀ env', up_is_banned env' = true → IsBlacklisted env' (address_String a) (ad_db st') = Ok false.
Proof.
  intros Hlen Hb Hup Hno. unfold handleAddBlacklist. rewrite Hb. cbn.
  rewrite AddressFromHex_bare by done.
  unfold SignerStores.Add. rewrite Hup. cbn [negb]. split; [done|].
  intros env' Hup'. unfold IsBlacklisted. rewrite Hup'. cbn [negb]. f_equal. apply bool_decide_eq_false.
  assert (∀ db, ad_db (recordAdminAudit cfg env ctx AdminActionBlacklistAdd (hex_encode a)
    ("reason=" +:+ reason) "ok" (with_db db st)) = db) as ->
    by (intros db; unfold recordAdminAudit; by destruct (negb _), (ae_audit_fails env)).
  cbn [signer_blacklist]. rewrite lookup_insert_ne; [by rewrite Hno|].
  intros Heq. apply (f_equal String.length) in Heq. revert Heq.
  assert (∀ s, String.length (to_lower s) = String.length s) as Hl
    by (induction s as [|c s IH]; [done|]; cbn; by rewrite <-IH).
  rewrite !Hl. unfold address_String, BytesToHex. rewrite string_app_length. cbn. lia.
Qed.
