(* ===== verification/AdminServer.v ===== *)
(** The admin server (NewAdminServer, internal/mcp/admin.go): the bearer check
    around the body cap around the mux around the handlers of Admin.v.

    The JSON decoders and the encoder, and the layouts of time.Parse and Format,
    are parameters. The mux is that of net/http
    for paths that are clean already; percent escapes are not modelled. *)

From S2P Require Import Prelude Http Hex GoErrors Fs Evm SignerStores Auth KeyStore ManagedKeys PgKeyStore PendingKeys Admin.

Definition StatusMethodNotAllowed : Z := 405.
Definition adminMaxRequestBody : Z := 1 * 1024 * 1024.

(** ** The mux *)

(** The segments of a path, between its slashes. *)
Fixpoint split_slashes (s : string) : list string :=
  match s with
  | EmptyString => [""]
  | String c s =>
      if Ascii.eqb c "/" then "" :: split_slashes s
      else match split_slashes s with p :: ps => String c p :: ps | [] => [String c ""] end
  end.
Definition path_segments (path : string) : option (list string) :=
  match split_slashes path with "" :: segs => Some segs | _ => None end.

Inductive admin_route :=
| RouteList | RouteCreate | RouteUpdate (id : string) | RouteDelete (id : string)
| RouteListPending | RouteApprove (id : string) | RouteReject (id : string)
| RouteWriteAudit | RouteListBlacklist | RouteAddBlacklist | RouteDeleteBlacklist (signer : string)
| RouteMethodNotAllowed | RouteNotFound.

(** A GET pattern also serves HEAD; a literal segment takes precedence over a
    wildcard, which matches one segment that is not empty. *)
Definition mux (method path : string) : admin_route :=
  let get r other := if (method =s "GET") || (method =s "HEAD") then r else other in
  let on m r other := if method =s m then r else other in
  let item id := on "PATCH" (RouteUpdate id) (on "DELETE" (RouteDelete id) RouteMethodNotAllowed) in
  match path_segments path with
  | Some ["admin"; "keys"] => get RouteList (on "POST" RouteCreate RouteMethodNotAllowed)
  | Some ["admin"; "keys"; "pending"] => get RouteListPending (item "pending")
  | Some ["admin"; "keys"; id] => if id =s "" then RouteNotFound else item id
  | Some ["admin"; "keys"; "pending"; id; "approve"] =>
      if id =s "" then RouteNotFound else on "POST" (RouteApprove id) RouteMethodNotAllowed
  | Some ["admin"; "keys"; "pending"; id; "reject"] =>
      if id =s "" then RouteNotFound else on "POST" (RouteReject id) RouteMethodNotAllowed
  | Some ["admin"; "write-audit"] => get RouteWriteAudit RouteMethodNotAllowed
  | Some ["admin"; "signer-blacklist"] => get RouteListBlacklist (on "POST" RouteAddBlacklist RouteMethodNotAllowed)
  | Some ["admin"; "signer-blacklist"; signer] =>
      if signer =s "" then RouteNotFound else on "DELETE" (RouteDeleteBlacklist signer) RouteMethodNotAllowed
  | _ => RouteNotFound
  end.

(** ** The server *)

(** encoding/json on the request bodies; the empty body of a rejection is the
    empty reason. *)
Record decoders := mkDecoders {
  dc_create : string → option createRequest;
  dc_update : string → option updateRequest;
  dc_reject : string → option string;
  dc_ban : string → option (string * string)
}.

Section Server.
Context {S E : Type} `{KeyStoreBackend S E}.
Context (ParseTime : string → option Z) (FormatTime : Z → string).
Context (cfg : admin_cfg) (dec : decoders) (query : request → string → string)
        (json : ∀ A : Type, A → string) (mux_redirect : request → option response).
Context (range : gmap string string → list (string * string)) (keys : gmap string string).

(** json.NewEncoder(w).Encode after the status. *)
Definition respond {A} (x : admin_response A * admin_st S) : response * admin_st S :=
  let '((status, body), st) := x in
  (match body with
   | BodyEmpty => mkResponse status [] ""
   | BodyError msg => mkResponse status [("Content-Type", "application/json")] (json _ [("error", msg)])
   | BodyOf a => mkResponse status [("Content-Type", "application/json")] (json _ a)
   end, st).

Definition dispatch (env : admin_env E) (ctx : option string) : handler (admin_st S) := λ r st,
  match mux (rq_method r) (rq_path r) with
  | RouteList => respond (handleList env st)
  | RouteCreate => respond (handleCreate cfg env ctx (dc_create dec (rq_body r)) st)
  | RouteUpdate id => respond (handleUpdate cfg env ctx id (dc_update dec (rq_body r)) st)
  | RouteDelete id => respond (handleDelete cfg env ctx id st)
  | RouteListPending => respond (handleListPending cfg FormatTime st)
  | RouteApprove id => respond (handleApprovePending cfg env ctx id st)
  | RouteReject id => respond (handleRejectPending cfg env ctx id (dc_reject dec (rq_body r)) st)
  | RouteWriteAudit =>
      respond (handleWriteAudit ParseTime cfg env (query r "signer") (query r "from") (query r "to") (query r "limit") st)
  | RouteListBlacklist => respond (handleListBlacklist cfg env st)
  | RouteAddBlacklist => respond (handleAddBlacklist cfg env ctx (dc_ban dec (rq_body r)) st)
  | RouteDeleteBlacklist signer => respond (handleDeleteBlacklist cfg env ctx signer st)
  | RouteMethodNotAllowed => (http_error StatusMethodNotAllowed "Method Not Allowed", st)
  | RouteNotFound => (http_error StatusNotFound "404 page not found", st)
  end.

(** mux.ServeHTTP: an unclean path is redirected. *)
Definition serve_mux (env : admin_env E) (ctx : option string) : handler (admin_st S) := λ r st,
  match mux_redirect r with Some redirect => (redirect, st) | None => dispatch env ctx r st end.

(** http.MaxBytesReader: reading past the cap fails. The decoders return when the
    value they read ends, so they see of the failure that a longer one is cut. *)
Definition cap_body (r : request) : request := max_bytes adminMaxRequestBody r.

Definition limitAdminRequestBody (next : handler (admin_st S)) : handler (admin_st S) := λ r st, next (cap_body r) st.

(** The handler of NewAdminServer. *)
Definition NewAdminServer (env : admin_env E) : handler (admin_st S) :=
  adminAuth range keys (λ ctx, limitAdminRequestBody (serve_mux env ctx)).
End Server.

(** ** Accountability *)

(** The mutation a request asks for, and what it is about. *)
Definition mutation_of (dec : decoders) (r : request) : option (AdminAction * string) :=
  match mux (rq_method r) (rq_path r) with
  | RouteCreate => Some (AdminActionKeyCreate, match dc_create dec (rq_body r) with Some q => cq_ClientID q | None => "" end)
  | RouteUpdate id => Some (AdminActionKeyUpdate, id)
  | RouteDelete id => Some (AdminActionKeyDelete, id)
  | RouteApprove id => Some (AdminActionPendingApprove, id)
  | RouteReject id => Some (AdminActionPendingReject, id)
  | RouteAddBlacklist => Some (AdminActionBlacklistAdd, match dc_ban dec (rq_body r) with Some (s, _) => s | None => "" end)
  | RouteDeleteBlacklist signer => Some (AdminActionBlacklistRemove, signer)
  | _ => None
  end.

Definition succeeded (status : Z) : bool := (200 <=? status) && (status <? 300).

(** Where the mutations are recorded, and the rows a record leaves there. *)
Definition trail {S} (cfg : admin_cfg) (st : admin_st S) : list AdminAuditEntry :=
  if ac_adminAudit cfg then ad_audit st else ad_audit_log st.
Definition audit_rows {E} (cfg : admin_cfg) (env : admin_env E) (e : AdminAuditEntry) : list AdminAuditEntry :=
  if ac_adminAudit cfg && ae_audit_fails env then [] else [e].

Lemma recordAdminAudit_trail {S E} cfg (env : admin_env E) ctx a t d o (st : admin_st S) :
  trail cfg (recordAdminAudit cfg env ctx a t d o st) =
    trail cfg st ++ audit_rows cfg env (mkAdminAudit (adminActorFromContext ctx) a t d o).
Proof.
  unfold trail, recordAdminAudit, audit_rows. destruct (ac_adminAudit cfg) eqn:Ea; cbn [negb andb]; [|done].
  destruct (ae_audit_fails env); cbn; [by rewrite app_nil_r|done].
Qed.

Section Accountable.
Context {S E : Type} `{KeyStoreLaws S E}.
Context (ParseTime : string → option Z) (FormatTime : Z → string).
Context (cfg : admin_cfg) (dec : decoders) (query : request → string → string)
        (json : ∀ A : Type, A → string) (mux_redirect : request → option response).

(** The same keys, the same requests, the same tables. *)
Definition same_data (st st' : admin_st S) : Prop :=
  (∀ y, y ∈ kb_entries (ad_keys st) ↔ y ∈ kb_entries (ad_keys st')) ∧
  ps_items (ad_pending st) = ps_items (ad_pending st') ∧ ad_db st = ad_db st'.

(** A minted key is new to the store, and a rollback reaches it. *)
Definition mints_fresh (env : admin_env E) (st : admin_st S) : Prop :=
  ∀ id roles exp c k, kb_Create (ae_kb env) (ae_call env) id roles exp (ad_keys st) = (Ok c, k) → mint_fresh st c.
Definition rollback_works (env : admin_env E) : Prop :=
  ∀ id k, kb_ok k → (∃ e, e ∈ kb_entries k ∧ ke_ID e = id) → (kb_Delete (ae_kb_rollback env) id k).1 = None.

(** A handler that answered [status] leaves a record of an accepted mutation; a
    refused one sends no mail and changes no data, if the rollback of a minted key
    undoes the minting. *)
Definition accounted (env : admin_env E) (ctx : option string) (a : AdminAction) (t : string)
    (status : Z) (st st' : admin_st S) : Prop :=
  let row d o := mkAdminAudit (adminActorFromContext ctx) a t d o in
  if succeeded status
  then ∃ d, trail cfg st' = trail cfg st ++ audit_rows cfg env (row d "ok")
  else (status ≠ StatusInternalServerError → mints_fresh env st → rollback_works env → same_data st st') ∧ ad_mail st' = ad_mail st ∧
       (trail cfg st' = trail cfg st ∨
        status = StatusInternalServerError ∧ trail cfg st' = trail cfg st ++ audit_rows cfg env (row "" "error")).

Lemma accounted_refused env ctx a t status (st : admin_st S) : succeeded status = false → accounted env ctx a t status st st.
Proof using Type. intros Hs. unfold accounted. rewrite Hs. split; [by intros _|]. split; [done|by left]. Qed.

Lemma accounted_keys env ctx a t status (st : admin_st S) k : succeeded status = false →
  (status = StatusInternalServerError ∨ kb_entries k = kb_entries (ad_keys st)) → accounted env ctx a t status st (with_keys k st).
Proof using Type.
  intros Hs Hk. unfold accounted. rewrite Hs. split_and!; [|done|by left].
  intros Hne _ _. destruct Hk as [?|Hk]; [done|]. split; [intros y; cbn; by rewrite Hk|done].
Qed.

Lemma accounted_ok env ctx a t d status (st st1 : admin_st S) : succeeded status = true → trail cfg st1 = trail cfg st →
  accounted env ctx a t status st (recordAdminAudit cfg env ctx a t d "ok" st1).
Proof using Type. intros Hs Ht. unfold accounted. rewrite Hs. exists d. by rewrite recordAdminAudit_trail, Ht. Qed.

Lemma create_accounted env ctx body (st : admin_st S) : kb_ok (ad_keys st) →
  let '((status, _), st') := handleCreate cfg env ctx body st in
  accounted env ctx AdminActionKeyCreate (match body with Some q => cq_ClientID q | None => "" end) status st st'.
Proof using Type.
  intros Hok. unfold handleCreate. destruct body as [req|]; [|by apply accounted_refused].
  destruct (cq_ClientID req =s ""); [by apply accounted_refused|].
  destruct (bool_decide _); [by apply accounted_refused|]. destruct (negb _); [by apply accounted_refused|].
  destruct (resolveExpiry _ _ _) as [exp|]; [|by apply accounted_refused].
  destruct (kb_Create _ _ _ _ _ _) as [[c|e] k] eqn:Ec.
  - by apply accounted_ok.
  - destruct (kl_create_err _ _ _ _ _ _ _ _ Hok Ec) as (_ & _ & Hk). destruct (errors_Is e ErrClientExists).
    + apply accounted_keys; [done|by right].
    + unfold accounted. cbn [succeeded]. split_and!; [done| |].
      * unfold recordAdminAudit. by destruct (negb _), (ae_audit_fails env).
      * right. split; [done|]. by rewrite recordAdminAudit_trail.
Qed.

Lemma update_accounted env ctx id body (st : admin_st S) :
  let '((status, _), st') := handleUpdate cfg env ctx id body st in
  accounted env ctx AdminActionKeyUpdate id status st st'.
Proof using Type.
  unfold handleUpdate. destruct (id =s ""); [by apply accounted_refused|]. destruct body as [req|]; [|by apply accounted_refused].
  destruct (match uq_Enabled req with None => _ | Some _ => _ end); [by apply accounted_refused|]. cbv zeta.
  assert (∀ upd, let '((status, _), st') :=
    match kb_Update (ae_kb env) id upd (ad_keys st) with
    | (Err e, k) =>
        if errors_Is e ErrClientMissing then ((StatusNotFound, BodyError (error_text e)), with_keys k st)
        else ((StatusInternalServerError, BodyError "internal error"), with_keys k st)
    | (Ok summary, k) => ((StatusOK, BodyOf summary),
         recordAdminAudit cfg env ctx AdminActionKeyUpdate id (updateAuditDetail req) "ok" (with_keys k st))
    end in accounted env ctx AdminActionKeyUpdate id status st st') as Happly.
  { intros upd. destruct (kb_Update _ _ _ _) as [[s|e] k] eqn:Eu; [by apply accounted_ok|].
    destruct (errors_Is e ErrClientMissing) eqn:Ee; apply accounted_keys; try done; [|by left].
    right. by eapply kl_update_missing. }
  destruct (uq_Roles req) as [roles|];
    [destruct (bool_decide _); [by apply accounted_refused|]; destruct (negb _); [by apply accounted_refused|]|];
    (destruct (uq_TTL req) as [t|]; [destruct (resolveExpiry _ _ _) as [exp|]; [|by apply accounted_refused]|]; apply Happly).
Qed.

Lemma delete_accounted env ctx id (st : admin_st S) : kb_ok (ad_keys st) →
  let '((status, _), st') := handleDelete cfg env ctx id st in
  accounted env ctx AdminActionKeyDelete id status st st'.
Proof using Type.
  intros Hok. unfold handleDelete. destruct (id =s ""); [by apply accounted_refused|].
  destruct (kb_Delete _ _ _) as [[e|] k] eqn:Ed; [|by apply accounted_ok].
  destruct (kl_delete_err _ _ _ _ _ Hok Ed) as (_ & _ & Hk).
  destruct (errors_Is e ErrClientMissing); apply accounted_keys; auto.
Qed.

Lemma send_mail_trail (env : admin_env E) to body (st : admin_st S) :
  trail cfg (send_mail cfg env to body st).2 = trail cfg st.
Proof using Type. unfold send_mail. by destruct (ac_email cfg), (ae_mail_fails env). Qed.

Lemma Decide_err env now id status decider key p e p' :
  Decide env now id status decider key p = (Err e, p') → ps_items p' = ps_items p.
Proof using Type.
  unfold Decide. intros Hd. destruct (negb _ && negb _); [by simplify_eq|].
  destruct (find_request id (ps_items p)) as [idx|] eqn:Ef; [|by simplify_eq].
  destruct (find_request_spec _ _ _ Ef) as (prev & Hi & Hid). rewrite Hi in Hd.
  destruct (negb (pr_Status prev =s _)); [by simplify_eq|].
  destruct (save_file env "pending" _ _ _) as [[e0|] w]; simplify_eq/=. by rewrite list_insert_insert_eq, list_insert_id.
Qed.

Lemma reject_accounted env ctx id body (st : admin_st S) :
  let '((status, _), st') := handleRejectPending cfg env ctx id body st in
  accounted env ctx AdminActionPendingReject id status st st'.
Proof using Type.
  unfold handleRejectPending. destruct (negb _); [by apply accounted_refused|].
  destruct (id =s ""); [by apply accounted_refused|]. destruct body as [reason|]; [|by apply accounted_refused].
  destruct (Decide _ _ _ _ _ _ _) as [[d|e] p] eqn:Ed.
  - rewrite (surjective_pairing (send_mail _ _ _ _ _)). apply accounted_ok; [done|]. by rewrite send_mail_trail.
  - apply Decide_err in Ed. cbv zeta. unfold accounted.
    assert (succeeded (if errors_Is e ErrPendingNotFound then StatusNotFound
      else if errors_Is e ErrPendingNotPending then StatusConflict else StatusInternalServerError) = false) as ->
      by (by destruct (errors_Is e ErrPendingNotFound), (errors_Is e ErrPendingNotPending)).
    split_and!; [|done|by left]. intros _ _ _. split_and!; [done|by cbn; rewrite Ed|done].
Qed.

Lemma ban_accounted env ctx body (st : admin_st S) :
  let '((status, _), st') := handleAddBlacklist cfg env ctx body st in
  accounted env ctx AdminActionBlacklistAdd (match body with Some (s, _) => s | None => "" end) status st st'.
Proof using Type.
  unfold handleAddBlacklist. destruct (negb _); [by apply accounted_refused|].
  destruct body as [[signer reason]|]; [|by apply accounted_refused].
  destruct (AddressFromHex signer); [|by apply accounted_refused].
  destruct (SignerStores.Add _ _ _ _ _) as [[e|] db]; [|by apply accounted_ok].
  unfold accounted. cbn [succeeded]. split_and!; [done|done|by left].
Qed.

Lemma unban_accounted env ctx signer (st : admin_st S) :
  let '((status, _), st') := handleDeleteBlacklist cfg env ctx signer st in
  accounted env ctx AdminActionBlacklistRemove signer status st st'.
Proof using Type.
  unfold handleDeleteBlacklist. destruct (negb _); [by apply accounted_refused|].
  destruct (signer =s ""); [by apply accounted_refused|].
  destruct (Remove _ _ _) as [[e|] db]; [|by apply accounted_ok].
  unfold accounted. cbn [succeeded]. split_and!; [done|done|by left].
Qed.

(** Minting a key and taking it back leaves the keys as they were. *)
Lemma mint_rollback env id roles exp c k (st : admin_st S) :
  kb_ok (ad_keys st) → mints_fresh env st → rollback_works env →
  kb_Create (ae_kb env) (ae_call env) id roles exp (ad_keys st) = (Ok c, k) →
  ∀ y, y ∈ kb_entries (ad_keys st) ↔ y ∈ kb_entries (kb_Delete (ae_kb_rollback env) (su_ID (cr_Summary c)) k).2.
Proof using Type.
  intros Hok Hfresh Hroll Hc y. rewrite (kl_create_id _ _ _ _ _ _ _ _ Hc).
  destruct (kl_create _ _ _ _ _ _ _ _ Hok Hc (Hfresh _ _ _ _ _ Hc)) as (Hok' & _ & Hno & e & Hin & Hid & _).
  pose proof (Hroll id k Hok') as Hd. destruct (kb_Delete (ae_kb_rollback env) id k) as [[e0|] k'] eqn:Ed.
  { discriminate Hd. exists e. split; [apply Hin; by left|done]. }
  destruct (kl_delete _ _ _ _ Hok' Ed) as (_ & _ & Hin'). rewrite Hin', Hin. split.
  - intros Hy. split; [by right|by apply Hno].
  - intros [[->|Hy] Hne]; [done|done].
Qed.

Lemma Get_id id p r : Get id p = Some r → pr_ID r = id.
Proof using Type.
  unfold Get. intros Hg. apply find_some in Hg as [_ Hid]. by apply String.eqb_eq.
Qed.

Lemma approve_accounted env ctx id (st : admin_st S) : kb_ok (ad_keys st) →
  let '((status, _), st') := handleApprovePending cfg env ctx id st in
  accounted env ctx AdminActionPendingApprove id status st st'.
Proof using Type.
  intros Hok. unfold handleApprovePending, approve_check.
  destruct (negb _); [by apply accounted_refused|]. destruct (id =s ""); [by apply accounted_refused|].
  destruct (Get id (ad_pending st)) as [req|] eqn:Eg; [|by apply accounted_refused].
  apply Get_id in Eg. destruct (negb _); [by apply accounted_refused|].
  unfold approve_mint. destruct (kb_Create _ _ _ _ _ _) as [[c|e] k] eqn:Ec; [|by apply accounted_keys; [done|left]].
  unfold approve_decide. cbv zeta. destruct (Decide _ _ _ _ _ _ _) as [[d|e] p] eqn:Ed.
  - rewrite (surjective_pairing (send_mail _ _ _ _ _)), Eg. apply accounted_ok; [done|]. by rewrite send_mail_trail.
  - apply Decide_err in Ed. unfold accounted.
    assert (succeeded (if errors_Is e ErrPendingNotPending || errors_Is e ErrPendingNotFound
      then StatusConflict else StatusInternalServerError) = false) as -> by (by destruct (_ || _)).
    split_and!; [|done|by left]. intros _ Hfresh Hroll. split_and!; [|by cbn; rewrite Ed|done].
    by apply (mint_rollback _ _ _ _ _ _ _ Hok Hfresh Hroll Ec).
Qed.

Lemma respond_status {A} (x : admin_response A * admin_st S) :
  rs_status (respond json x).1 = x.1.1 ∧ (respond json x).2 = x.2.
Proof using Type. destruct x as [[status []] st]; done. Qed.

Lemma dispatch_accounted env ctx r (st : admin_st S) :
  kb_ok (ad_keys st) →
  let '(resp, st') := dispatch ParseTime FormatTime cfg dec query json env ctx r st in
  match mutation_of dec r with
  | None => st' = st
  | Some (a, t) => accounted env ctx a t (rs_status resp) st st'
  end.
Proof using Type.
  intros Hok. rewrite (surjective_pairing (dispatch _ _ _ _ _ _ _ _ _ _)). unfold dispatch, mutation_of.
  destruct (mux (rq_method r) (rq_path r)) as [ | |id|id| |id|id| | | |signer| | ];
    try done; rewrite ?(proj1 (respond_status _)), ?(proj2 (respond_status _)); try done.
  - pose proof (create_accounted env ctx (dc_create dec (rq_body r)) st Hok) as H1.
    by destruct (handleCreate _ _ _ _ _) as [[]].
  - pose proof (update_accounted env ctx id (dc_update dec (rq_body r)) st) as H1. by destruct (handleUpdate _ _ _ _ _ _) as [[]].
  - pose proof (delete_accounted env ctx id st Hok) as H1. by destruct (handleDelete _ _ _ _ _) as [[]].
  - unfold handleListPending. by destruct (negb _).
  - pose proof (approve_accounted env ctx id st Hok) as H1. by destruct (handleApprovePending _ _ _ _ _) as [[]].
  - pose proof (reject_accounted env ctx id (dc_reject dec (rq_body r)) st) as H1. by destruct (handleRejectPending _ _ _ _ _ _) as [[]].
  - unfold handleWriteAudit. repeat case_match; done.
  - unfold handleListBlacklist. repeat case_match; done.
  - pose proof (ban_accounted env ctx (dc_ban dec (rq_body r)) st) as H1. by destruct (handleAddBlacklist _ _ _ _ _) as [[]].
  - pose proof (unban_accounted env ctx signer st) as H1. by destruct (handleDeleteBlacklist _ _ _ _ _) as [[]].
Qed.
End Accountable.

(** C13: Changes made through the admin server are accounted for. A request without
    the bearer token of a configured admin key is answered 401 and changes nothing.
    Of the others, a read, an unknown path and a wrong method change nothing; an
    accepted mutation leaves exactly one audit row, with the identity of the key
    presented, the kind of the change and its target, or none if the audit table
    fails (auditing is best effort); a mutation that is not accepted sends no mail,
    and one refused otherwise than with a 500 leaves the keys, the requests and the
    tables as they were. The last needs that minted keys are new and that the
    rollback of a lost approval succeeds. A 500 promises nothing about the data:
    [unaudited_update] below. *)
Theorem admin_accountable {S E} `{KeyStoreLaws S E} ParseTime FormatTime cfg dec query json mux_redirect
    range keys (env : admin_env E) r (st : admin_st S)
    (Hrange : range keys ≡ₚ map_to_list keys) (Hok : kb_ok (ad_keys st)) :
  let '(resp, st') := NewAdminServer ParseTime FormatTime cfg dec query json mux_redirect range keys env r st in
  ((∀ tok, header r "Authorization" = "Bearer " +:+ tok → keys !! sha256 tok = None) ∧
   rs_status resp = StatusUnauthorized ∧ st' = st) ∨
  ∃ tok id, header r "Authorization" = "Bearer " +:+ tok ∧ keys !! sha256 tok = Some id ∧
    match mux_redirect (cap_body r), mutation_of dec (cap_body r) with
    | Some redirect, _ => resp = redirect ∧ st' = st
    | None, None => st' = st
    | None, Some (a, t) => accounted cfg env (Some id) a t (rs_status resp) st st'
    end.
Proof.
  rewrite (surjective_pairing (NewAdminServer _ _ _ _ _ _ _ _ _ _ _ _)). unfold NewAdminServer.
  set (next := λ ctx, _).
  destruct (adminAuth_cases range keys next r st Hrange) as [(tok & id & Htok & Hid & ->)|(Hno & H1 & H2)]; [right|by left].
  exists tok, id. split; [done|]. split; [done|]. unfold next, limitAdminRequestBody, serve_mux.
  destruct (mux_redirect (cap_body r)) as [redirect|]; [done|].
  pose proof (dispatch_accounted ParseTime FormatTime cfg dec query json env (Some id) (cap_body r) st Hok) as Hd.
  by destruct (dispatch _ _ _ _ _ _ _ _ _ _).
Qed.

(** The exception the theorem leaves open, an answer of 500, is real: on Postgres
    an update that was carried out, but whose result could not be read back, is
    answered 500 and leaves no audit row. *)
Lemma unaudited_update :
  let p := mkPg [demo_row] None in
  let env := mkAdminEnv 100 demo_call (mkPgEnv false true) (mkPgEnv false true) demo_env
               (mkDbEnv true true true true true true) false false in
  let st := mkAdmin p demo_queue (mkDb ∅ ∅ []) [] [] [] in
  let '((status, _), st') := handleUpdate demo_admin_cfg env (Some "mallory") "alice"
                               (Some (mkUpdateReq None (Some ["admin"]) None)) st in
  status = 500 ∧ r_roles <$> pg_rows (ad_keys st') = [["admin"]] ∧ trail demo_admin_cfg st' = [].
Proof. by vm_compute. Qed.

(** The approval of a request by an admin, over the file backend. *)
Lemma demo_save (what path : string) (es : list KeyEntry) w : (save_file demo_env what path es w).1 = None.
Proof. unfold save_file, withExclusiveLock. by destruct (w_files w !! path). Qed.

Lemma demo_mints_fresh : mints_fresh (E := os_env) quiet_env demo_submitted.
Proof.
  intros id roles exp c k Hc. apply Create_ok in Hc as (_ & raw & w & Hr & _ & -> & _).
  intros y Hy. apply list_elem_of_singleton in Hy as ->. cbn [cr_Key]. vm_compute in Hr. injection Hr as <-.
  apply (bool_decide_unpack _). vm_compute. exact I.
Qed.

Lemma demo_rollback : rollback_works (S := ManagedKeyStore) quiet_env.
Proof.
  intros id k _ (e & He & Hid). cbn [kb_Delete Managed_Backend ae_kb_rollback quiet_env]. unfold Delete.
  destruct (find_idx id (mk_entries k)) as [i|] eqn:Ei.
  - unfold SaveKeysFile. pose proof (demo_save "keys" (mk_path k) (take i (mk_entries k) ++ drop (S i) (mk_entries k)) (mk_disk k)) as Hs.
    destruct (save_file _ _ _ _ _) as [[]]; done.
  - exfalso. by apply (proj1 (find_idx_None id (mk_entries k)) Ei e He).
Qed.

Definition no_bodies : decoders := mkDecoders (λ _, None) (λ _, None) (λ _, Some "") (λ _, None).
Definition demo_approve (id : string) : request :=
  mkRequest "POST" ("/admin/keys/pending/" +:+ id +:+ "/approve") "192.0.2.9:1" {["Authorization" := "Bearer k-alice"]} "" false None 0.
Definition demo_approval : request := demo_approve "u1".
Definition demo_admin_server : handler (admin_st ManagedKeyStore) :=
  NewAdminServer (λ _, None) (λ _, "") demo_admin_cfg no_bodies (λ _ _, "")
    (λ _ _, "") (λ _, None) map_to_list {[sha256 "k-alice" := "alice"]} quiet_env.

(** The admin whose key is presented, in any response of the two below. *)
Lemma demo_bearer r tok id : header r "Authorization" = "Bearer k-alice" →
  header r "Authorization" = "Bearer " +:+ tok → ({[sha256 "k-alice" := "alice"]} : gmap string string) !! sha256 tok = Some id →
  id = "alice".
Proof.
  intros Hr Ht Hid. rewrite Hr in Ht. apply (f_equal (trim_prefix "Bearer ")) in Ht. rewrite trim_prefix_app in Ht.
  change (trim_prefix "Bearer " "Bearer k-alice") with "k-alice" in Ht. subst tok. rewrite lookup_singleton_eq in Hid.
  by injection Hid.
Qed.

Lemma admin_accountable_witness :
  let good := demo_admin_server demo_approval demo_submitted in
  let bad := demo_admin_server (demo_approve "u9") demo_submitted in
  (rs_status good.1 = 200 ∧ ∃ d, trail demo_admin_cfg good.2 = [mkAdminAudit "alice" AdminActionPendingApprove "u1" d "ok"]) ∧
  (rs_status bad.1 = 404 ∧ trail demo_admin_cfg bad.2 = [] ∧ same_data demo_submitted bad.2).
Proof.
  intros good bad. split.
  - assert (rs_status good.1 = 200) as Hs by (vm_compute; reflexivity). split; [exact Hs|].
    pose proof (admin_accountable (λ _, None) (λ _, "") demo_admin_cfg no_bodies
      (λ _ _, "") (λ _ _, "") (λ _, None) map_to_list {[sha256 "k-alice" := "alice"]} quiet_env demo_approval demo_submitted
      (reflexivity _) demo_kb_ok) as H.
    fold demo_admin_server in H. rewrite (surjective_pairing (demo_admin_server _ _)) in H. fold good in H.
    destruct H as [(_ & Hu & _)|(tok & id & Ht & Hid & Ha)]; [rewrite Hs in Hu; discriminate Hu|].
    rewrite (demo_bearer demo_approval _ _ eq_refl Ht Hid) in Ha. unfold accounted in Ha.
    change (mutation_of no_bodies (cap_body demo_approval)) with (Some (AdminActionPendingApprove, "u1")) in Ha.
    cbv beta iota in Ha. rewrite Hs in Ha. exact Ha.
  - assert (rs_status bad.1 = 404) as Hs by (vm_compute; reflexivity). split; [exact Hs|].
    pose proof (admin_accountable (λ _, None) (λ _, "") demo_admin_cfg no_bodies
      (λ _ _, "") (λ _ _, "") (λ _, None) map_to_list {[sha256 "k-alice" := "alice"]} quiet_env (demo_approve "u9") demo_submitted
      (reflexivity _) demo_kb_ok) as H.
    fold demo_admin_server in H. rewrite (surjective_pairing (demo_admin_server _ _)) in H. fold bad in H.
    destruct H as [(_ & Hu & _)|(tok & id & Ht & Hid & Ha)]; [rewrite Hs in Hu; discriminate Hu|].
    unfold accounted in Ha.
    change (mutation_of no_bodies (cap_body (demo_approve "u9"))) with (Some (AdminActionPendingApprove, "u9")) in Ha.
    cbv beta iota in Ha. rewrite Hs in Ha. destruct Ha as (Hd & _ & [Htr|[Hne _]]); [|discriminate Hne].
    split; [rewrite Htr; reflexivity|]. apply Hd; [discriminate|exact demo_mints_fresh|exact demo_rollback].
Defined.
