(* ===== verification/KeyMgmt.v ===== *)
(** The key-management command (cmd/key-mgmt/main.go): create, renew, enable,
    disable, set-roles and list over the keys file, and what its edits mean for
    the server that reads the same file.

    A run sees its arguments, its environment, two readings of the clock (for
    the expiry and for the creation time), the random source and the file
    system. What it prints is a [report]; the layout of the text is not
    modelled. *)

From S2P Require Import Prelude GoErrors Fs Hex GoParse Ingress Http Admin Auth KeyStore ManagedKeys Config.

(** ** Environment, errors, output *)

Record cli_env := mkCli {
  cl_os : os_env;
  cl_environ : environ;
  cl_now : Z;                              (* time.Now of the expiry *)
  cl_created : Z;                          (* time.Now of NewKeyEntryWithHasher *)
  cl_random : option string
}.

Inductive cli_error :=
  | errUsage
  | errClientExists (clientID : string) | errClientMissing (clientID : string)
  | errInvalidRole (role : string)
  | errNoRoles
  | errRenewTTLRequired
  | errTTLMustBePositive (ttl : string)
  | errDefaultTTL (value : string) (cause : parse_error)      (* invalid KEY_DEFAULT_TTL *)
  | errTTL (ttl : string) (cause : parse_error)               (* invalid --ttl *)
  | errPepper                                                 (* config.ErrPepperPreviousWithoutActive *)
  | CliError (e : error).                                     (* of the keys file *)

(** A row of list. *)
Record key_row := mkRow {
  row_ID : string; row_Status : string; row_Roles : string; row_Created : Z; row_Prefix : string
}.

Inductive report :=
  | Created (clientID key : string) (roles : list string) (expiresAt : Z) (path : string)
  | Renewed (clientID : string) (expiresAt : Z)
  | EnabledSet (clientID : string) (enabled : bool)
  | RolesSet (clientID : string) (roles : list string)
  | NoKeys (path : string)
  | Listing (rows : list key_row).

Definition defaultKeysFile : string := ".mcp-keys.json".

(** ** Arguments *)

Fixpoint parseFlag (args : list string) (flag : string) : string :=
  match args with
  | a :: rest =>
      match rest with
      | v :: _ => if a =s flag then v else parseFlag rest flag
      | [] => ""
      end
  | [] => ""
  end.

(** The loop of parseRoles over the comma-separated parts. *)
Fixpoint parse_role_parts (parts : list string) : result cli_error (list string) :=
  match parts with
  | [] => Ok []
  | r :: parts =>
      let r := trim_space r in
      if r =s "" then parse_role_parts parts
      else if negb (IsValidRole r) then Err (errInvalidRole r)
      else let? roles := parse_role_parts parts in Ok (r :: roles)
  end.

Definition parseRoles (rolesStr : string) : result cli_error (list string) :=
  if rolesStr =s "" then Ok [] else parse_role_parts (split_commas rolesStr).

Definition defaultKeyTTL (env : environ) : result cli_error Z :=
  let s := envOrDefault env "KEY_DEFAULT_TTL" "8760h" in rmap_err (errDefaultTTL s) (ParseDuration s).

Definition resolveCLIExpiry (ttlStr : string) (defaultTTL now : Z) : result cli_error Z :=
  if ttlStr =s "" then
    if defaultTTL =? 0 then Ok 0 else Ok (now + defaultTTL)
  else if existsb (String.eqb ttlStr) ["0"; "none"; "never"] then Ok 0
  else
    let? d := rmap_err (errTTL ttlStr) (ParseDuration ttlStr) in
    if d <=? 0 then Err (errTTLMustBePositive ttlStr) else Ok (now + d).

(** ** The keys file *)

Section Commands.
Context (env : cli_env).

Definition loadOrInit (path : string) (w : keys_world) : result cli_error (list KeyEntry) :=
  match LoadKeysFile (cl_os env) path w with
  | Ok entries => Ok entries
  | Err e => if errors_Is e FsErrNotExist then Ok [] else Err (CliError e)
  end.

Definition save (path : string) (entries : list KeyEntry) (r : report) (w : keys_world)
    : result cli_error report * keys_world :=
  match SaveKeysFile (cl_os env) path entries w with
  | (Some e, w) => (Err (CliError e), w)
  | (None, w) => (Ok r, w)
  end.

(** The loop that changes the first entry with the id; [None] if there is none. *)
Fixpoint edit_first (clientID : string) (f : KeyEntry → KeyEntry) (entries : list KeyEntry) : option (list KeyEntry) :=
  match entries with
  | [] => None
  | e :: rest => if ke_ID e =s clientID then Some (f e :: rest) else cons e <$> edit_first clientID f rest
  end.

Definition edit (path clientID : string) (f : KeyEntry → KeyEntry) (r : report) (w : keys_world)
    : result cli_error report * keys_world :=
  match loadOrInit path w with
  | Err e => (Err e, w)
  | Ok entries =>
      match edit_first clientID f entries with
      | None => (Err (errClientMissing clientID), w)
      | Some entries => save path entries r w
      end
  end.

Definition createKey (path clientID : string) (roles : list string) (expiresAt : Z) (w : keys_world)
    : result cli_error report * keys_world :=
  match loadOrInit path w with
  | Err e => (Err e, w)
  | Ok entries =>
      if existsb (λ e, ke_ID e =s clientID) entries then (Err (errClientExists clientID), w)
      else
        let active := Getenv (cl_environ env) "KEY_HMAC_PEPPER" in
        let prev := Getenv (cl_environ env) "KEY_HMAC_PEPPER_PREVIOUS" in
        if negb (prev =s "") && (active =s "") then (Err errPepper, w)
        else
          match GenerateKey (cl_random env) with
          | Err e => (Err (CliError e), w)
          | Ok key =>
              let hasher := Some (NewKeyHasher active prev) in
              let e := set_expires expiresAt (NewKeyEntryWithHasher (cl_created env) clientID key roles hasher) in
              save path (entries ++ [e]) (Created clientID key roles expiresAt path) w
          end
  end.

Definition setRoles (path clientID : string) (roles : list string) : keys_world → result cli_error report * keys_world :=
  edit path clientID (set_roles roles) (RolesSet clientID roles).

Definition setEnabled (path clientID : string) (enabled : bool) : keys_world → result cli_error report * keys_world :=
  edit path clientID (set_enabled enabled) (EnabledSet clientID enabled).

Definition list_row (e : KeyEntry) : key_row :=
  let status := if negb (ke_Enabled e) then "disabled" else "enabled" in
  let prefix :=
    if (ke_KeyPrefix e =s "") && negb (ke_Key e =s "") then
      if 8 <? slen (ke_Key e) then str_take 8 (ke_Key e) +:+ "..." else ke_Key e
    else ke_KeyPrefix e in
  let roles := join "," (ke_Roles e) in
  mkRow (ke_ID e) status (if roles =s "" then "(none)" else roles) (ke_CreatedAt e) prefix.

Definition listKeys (path : string) (w : keys_world) : result cli_error report * keys_world :=
  (let? entries := loadOrInit path w in
   Ok (match entries with [] => NoKeys path | _ => Listing (list_row <$> entries) end), w).

(** ** Commands *)

Definition runCreate (keysFile : string) (args : list string) (w : keys_world) : result cli_error report * keys_world :=
  match args with
  | [] => (Err errUsage, w)
  | clientID :: rest =>
      let prepared :=
        let? roles := parseRoles (parseFlag rest "--roles") in
        if bool_decide (roles = []) then Err errNoRoles
        else
          let? defaultTTL := defaultKeyTTL (cl_environ env) in
          let? expiresAt := resolveCLIExpiry (parseFlag rest "--ttl") defaultTTL (cl_now env) in
          Ok (roles, expiresAt) in
      match prepared with
      | Err e => (Err e, w)
      | Ok (roles, expiresAt) => createKey keysFile clientID roles expiresAt w
      end
  end.

Definition runRenew (keysFile : string) (args : list string) (w : keys_world) : result cli_error report * keys_world :=
  match args with
  | [] => (Err errUsage, w)
  | clientID :: rest =>
      let ttlStr := parseFlag rest "--ttl" in
      if ttlStr =s "" then (Err errRenewTTLRequired, w)
      else
        match resolveCLIExpiry ttlStr 0 (cl_now env) with
        | Err e => (Err e, w)
        | Ok expiresAt => edit keysFile clientID (set_expires expiresAt) (Renewed clientID expiresAt) w
        end
  end.

Definition runSetEnabled (keysFile : string) (args : list string) (enabled : bool) (w : keys_world)
    : result cli_error report * keys_world :=
  match args with
  | [] => (Err errUsage, w)
  | clientID :: _ => setEnabled keysFile clientID enabled w
  end.

Definition runSetRoles (keysFile : string) (args : list string) (w : keys_world) : result cli_error report * keys_world :=
  match args with
  | clientID :: rolesStr :: _ =>
      match parseRoles rolesStr with
      | Err e => (Err e, w)
      | Ok roles => setRoles keysFile clientID roles w
      end
  | _ => (Err errUsage, w)
  end.

Definition keys_file : string := envOrDefault (cl_environ env) "MCP_API_KEYS_FILE" defaultKeysFile.

Definition run (args : list string) (w : keys_world) : result cli_error report * keys_world :=
  match args with
  | [] => (Err errUsage, w)
  | cmd :: args =>
      if cmd =s "create" then runCreate keys_file args w
      else if cmd =s "renew" then runRenew keys_file args w
      else if cmd =s "disable" then runSetEnabled keys_file args false w
      else if cmd =s "enable" then runSetEnabled keys_file args true w
      else if cmd =s "set-roles" then runSetRoles keys_file args w
      else if cmd =s "list" then listKeys keys_file w
      else (Err errUsage, w)
  end.
End Commands.

(** ** Lifetimes *)

(** The command and the admin API read lifetimes alike: the same texts are
    accepted, for the same expiry. A text that is accepted is 0, none, never or a
    positive duration. *)
Lemma expiry_agrees ttl defaultTTL now : ttl ≠ "" →
  match resolveCLIExpiry ttl defaultTTL now, Admin.resolveExpiry (Some ttl) defaultTTL now with
  | Ok a, Ok b => a = b ∧ (a = 0 ∧ ttl ∈ ["0"; "none"; "never"] ∨ now < a ∧ ParseDuration ttl = Ok (a - now))
  | Err _, Err _ => True
  | _, _ => False
  end.
Proof.
  intros Hne. unfold resolveCLIExpiry, Admin.resolveExpiry, Admin.parse_duration. rewrite (proj2 (String.eqb_neq _ _) Hne).
  destruct (existsb (String.eqb ttl) ["0"; "none"; "never"]) eqn:E.
  - split; [done|]. left. split; [done|]. by apply existsb_eqb_true.
  - destruct (ParseDuration ttl) as [d|e]; [|done]. cbn [rmap_err rbind]. destruct (d <=? 0) eqn:Ed; [done|]. bool_to_prop.
    split; [done|]. right. split; [lia|]. f_equal. lia.
Qed.

Lemma default_expiry_agrees defaultTTL now :
  resolveCLIExpiry "" defaultTTL now = match Admin.resolveExpiry None defaultTTL now with Ok t => Ok t | Err _ => Ok 0 end.
Proof. unfold resolveCLIExpiry, Admin.resolveExpiry. by destruct (defaultTTL =? 0). Qed.

(** The usage text offers 90d; days are not a unit. *)
Lemma ninety_days_rejected defaultTTL now : resolveCLIExpiry "90d" defaultTTL now = Err (errTTL "90d" ErrDuration).
Proof. reflexivity. Qed.

(** A negative default lifetime is not refused: the new key has expired already. *)
Lemma negative_default_expires_at_once :
  ∃ ttl exp, defaultKeyTTL {["KEY_DEFAULT_TTL" := "-1h"]} = Ok ttl ∧ (∀ now, resolveCLIExpiry "" ttl now = Ok (now + exp)) ∧ exp < 0.
Proof. exists (-3600000000000), (-3600000000000). split_and!; [by vm_compute|done|lia]. Qed.

(** list shows at most eight characters of a legacy key, as the migration does. *)
Lemma list_prefix e : ke_KeyPrefix e = "" → ke_Key e ≠ "" → row_Prefix (list_row e) = keyPrefixOf (ke_Key e).
Proof.
  intros Hp Hk. unfold list_row, keyPrefixOf. cbn [row_Prefix]. rewrite Hp, (proj2 (String.eqb_neq _ _) Hk).
  cbn [String.eqb negb andb]. change (Z.of_nat keyPrefixLen) with 8.
  destruct (8 <? slen (ke_Key e)) eqn:E, (slen (ke_Key e) <=? 8) eqn:E'; bool_to_prop; try lia; done.
Qed.

(** ** What an edit does to the entries *)

(** [es'] is [es] with [f] applied to the first entry of the client. *)
Definition changed (clientID : string) (f : KeyEntry → KeyEntry) (es es' : list KeyEntry) : Prop :=
  ∃ pre e post, es = pre ++ e :: post ∧ ke_ID e = clientID ∧ (∀ y, y ∈ pre → ke_ID y ≠ clientID) ∧
    es' = pre ++ f e :: post.

Lemma edit_first_changed id f es es' : edit_first id f es = Some es' → changed id f es es'.
Proof.
  revert es'. induction es as [|e es IH]; intros es'; [done|]. cbn [edit_first].
  destruct (ke_ID e =s id) eqn:E; bool_to_prop.
  - intros [= <-]. exists [], e, es. split_and!; try done. intros y Hy. by apply not_elem_of_nil in Hy.
  - destruct (edit_first id f es) as [l|]; [|done]. intros [= <-].
    destruct (IH l eq_refl) as (pre & x & post & -> & Hx & Hpre & ->).
    exists (e :: pre), x, post. split_and!; try done. intros y [->|Hy]%elem_of_cons; [done|by apply Hpre].
Qed.

Lemma edit_first_alter id f es : edit_first id f es = (λ i, alter f i es) <$> find_idx id es.
Proof.
  induction es as [|e es IH]; [done|]. cbn [edit_first find_idx]. destruct (ke_ID e =s id); [done|].
  rewrite IH. by destruct (find_idx id es).
Qed.

(** The entry a creation appends. *)
Definition issued (env : cli_env) (id key : string) (roles : list string) (exp : Z) : KeyEntry :=
  set_expires exp (NewKeyEntryWithHasher (cl_created env) id key roles
    (Some (NewKeyHasher (Getenv (cl_environ env) "KEY_HMAC_PEPPER")
       (Getenv (cl_environ env) "KEY_HMAC_PEPPER_PREVIOUS")))).

(** What a report says was done, from the entries before to those after. *)
Definition applied (env : cli_env) (rep : report) (es es' : list KeyEntry) : Prop :=
  match rep with
  | Created id key roles exp path =>
      (∀ y, y ∈ es → ke_ID y ≠ id) ∧ es' = es ++ [issued env id key roles exp] ∧
      GenerateKey (cl_random env) = Ok key ∧ path = keys_file env
  | Renewed id exp => changed id (set_expires exp) es es'
  | EnabledSet id b => changed id (set_enabled b) es es'
  | RolesSet id roles => changed id (set_roles roles) es es'
  | NoKeys path => es = [] ∧ es' = es ∧ path = keys_file env
  | Listing rows => es ≠ [] ∧ rows = list_row <$> es ∧ es' = es
  end.

(** The command line a report answers. *)
Definition asked (env : cli_env) (args : list string) (rep : report) : Prop :=
  match rep with
  | Created id _ roles exp _ => ∃ rest, args = "create" :: id :: rest ∧
      parseRoles (parseFlag rest "--roles") = Ok roles ∧ roles ≠ [] ∧
      ∃ ttl, defaultKeyTTL (cl_environ env) = Ok ttl ∧
        resolveCLIExpiry (parseFlag rest "--ttl") ttl (cl_now env) = Ok exp
  | Renewed id exp => ∃ rest, args = "renew" :: id :: rest ∧ parseFlag rest "--ttl" ≠ "" ∧
      resolveCLIExpiry (parseFlag rest "--ttl") 0 (cl_now env) = Ok exp
  | EnabledSet id b => ∃ rest, args = (if b then "enable" else "disable") :: id :: rest
  | RolesSet id roles => ∃ s rest, args = "set-roles" :: id :: s :: rest ∧ parseRoles s = Ok roles
  | NoKeys _ | Listing _ => ∃ rest, args = "list" :: rest
  end.

Definition writes (rep : report) : bool :=
  match rep with NoKeys _ | Listing _ => false | _ => true end.

(** The contract of one run, for a given keys file. *)
Definition run_spec (env : cli_env) (path : string) (w : keys_world) (r : result cli_error report) (w' : keys_world)
    : Prop :=
  (∀ q, q ≠ path → q ≠ tmp_name (cl_os env) path → w_files w' !! q = w_files w !! q) ∧
  match r with
  | Ok rep => ∃ es es', loadOrInit env path w = Ok es ∧ applied env rep es es' ∧
      (if writes rep then w_files w' !! path = Some (Parsed es') else w' = w) ∧
      history_in path [w_files w !! path; Some (Parsed es')] w w'
  | Err _ => w_files w' !! path = w_files w !! path ∧ history_in path [w_files w !! path] w w'
  end.

Lemma stopped env w path e : run_spec env path w (Err e) w.
Proof. split; [done|]. split; [done|]. by exists []. Qed.

(** A run that ends before it writes. *)
Ltac stop := intros [= <- <-]; split; [apply stopped|done].

Section Contract.
Context (env : cli_env) (w : keys_world).

Lemma save_spec path es es' rep r w' : loadOrInit env path w = Ok es → applied env rep es es' → writes rep = true →
  save env path es' rep w = (r, w') →
  run_spec env path w r w' ∧ ∀ rep', r = Ok rep' → rep' = rep.
Proof.
  intros Hl Ha Hw. unfold save, SaveKeysFile. destruct (save_file (cl_os env) "keys" path es' w) as [[e|] w1] eqn:E;
    pose proof (save_file_spec _ _ _ _ _ _ _ E) as [Hq Hp]; pose proof (save_file_history _ _ _ _ _ _ _ E) as Hh;
    intros [= <- <-].
  - split; [|done]. split; [exact Hq|]. by split.
  - split; [|by intros rep' [= <-]]. split; [exact Hq|]. exists es, es'. by rewrite Hw.
Qed.

Lemma edit_spec path id f rep r w' :
  (∀ es es', changed id f es es' → applied env rep es es') → writes rep = true →
  edit env path id f rep w = (r, w') → run_spec env path w r w' ∧ ∀ rep', r = Ok rep' → rep' = rep.
Proof.
  intros Ha Hw. unfold edit. destruct (loadOrInit env path w) as [es|e] eqn:El; [|stop].
  destruct (edit_first id f es) as [es'|] eqn:Ee; [|stop].
  apply (save_spec path es es'); [done| |done]. by apply Ha, edit_first_changed.
Qed.

Lemma create_spec id roles exp r w' : createKey env (keys_file env) id roles exp w = (r, w') →
  run_spec env (keys_file env) w r w' ∧
  ∀ rep, r = Ok rep → ∃ key, rep = Created id key roles exp (keys_file env).
Proof.
  unfold createKey. set (path := keys_file env).
  destruct (loadOrInit env path w) as [es|e] eqn:El; [|stop].
  destruct (existsb _ es) eqn:Ex; [stop|]. cbv zeta.
  destruct (negb _ && _); [stop|].
  destruct (GenerateKey (cl_random env)) as [key|e] eqn:Eg; [|stop].
  intros Hs. eapply (save_spec path es) in Hs as [Hr Hrep]; [|done| |done].
  - split; [done|]. intros rep ->. exists key. by apply Hrep.
  - rewrite existsb_id_false in Ex. by split_and!.
Qed.
End Contract.

Lemma run_meets env args w r w' : run env args w = (r, w') →
  run_spec env (keys_file env) w r w' ∧ (∀ rep, r = Ok rep → asked env args rep).
Proof.
  unfold run. destruct args as [|cmd args]; [stop|].
  destruct (cmd =s "create") eqn:E1; bool_to_prop; [subst cmd|].
  { unfold runCreate. destruct args as [|id rest]; [stop|]. cbv zeta.
    destruct (parseRoles _) as [roles|e] eqn:Ep; [|stop]. cbn [rbind].
    case_bool_decide as Hr; [stop|].
    destruct (defaultKeyTTL _) as [ttl|e] eqn:Ed; [|stop]. cbn [rbind].
    destruct (resolveCLIExpiry _ _ _) as [exp|e] eqn:Ee; [|stop]. cbn [rbind].
    intros [Hs Hrep]%create_spec. split; [done|]. intros rep (key & ->)%Hrep. exists rest. split_and!; try done. by exists ttl. }
  destruct (cmd =s "renew") eqn:E2; bool_to_prop; [subst cmd|].
  { unfold runRenew. destruct args as [|id rest]; [stop|]. cbv zeta.
    destruct (parseFlag rest "--ttl" =s "") eqn:Et; [stop|]. bool_to_prop.
    destruct (resolveCLIExpiry _ _ _) as [exp|e] eqn:Ee; [|stop].
    intros [Hs Hrep]%edit_spec; [|done..]. split; [done|]. intros rep ->%Hrep. by exists rest. }
  destruct (cmd =s "disable") eqn:E3; bool_to_prop; [subst cmd|].
  { unfold runSetEnabled. destruct args as [|id rest]; [stop|].
    intros [Hs Hrep]%edit_spec; [|done..]. split; [done|]. intros rep ->%Hrep. by exists rest. }
  destruct (cmd =s "enable") eqn:E4; bool_to_prop; [subst cmd|].
  { unfold runSetEnabled. destruct args as [|id rest]; [stop|].
    intros [Hs Hrep]%edit_spec; [|done..]. split; [done|]. intros rep ->%Hrep. by exists rest. }
  destruct (cmd =s "set-roles") eqn:E5; bool_to_prop; [subst cmd|].
  { unfold runSetRoles. destruct args as [|id [|s rest]]; [stop..|].
    destruct (parseRoles s) as [roles|e] eqn:Ep; [|stop].
    intros [Hs Hrep]%edit_spec; [|done..]. split; [done|]. intros rep ->%Hrep. by exists s, rest. }
  destruct (cmd =s "list") eqn:E6; bool_to_prop; [subst cmd|stop].
  unfold listKeys. destruct (loadOrInit _ _ _) as [es|e] eqn:El; [|stop].
  intros [= <- <-]. split; [|intros rep [= <-]; destruct es; by exists args]. split; [done|].
  exists es, es. split; [done|]. destruct es; (split; [done|]; split; [done|by exists []]).
Qed.

(** C37: The key command. A run changes the keys file in one step or not at all,
    and touches nothing else but its temporary file. If it reports success, the
    report is the one its command line asked for, and the entries of the file
    after it are those before it with exactly the reported change: one appended
    entry under an unused client id with valid roles, or one field of the first
    entry of the client. A run that fails, or lists, leaves the file as it was;
    so does a crash before the last step. *)
Theorem cli_run_effect env args w r w'
    (Hrun : run env args w = (r, w')) :
  let path := keys_file env in
  (∀ q, q ≠ path → q ≠ tmp_name (cl_os env) path → w_files w' !! q = w_files w !! q) ∧
  match r with
  | Ok rep => asked env args rep ∧
      ∃ es es', loadOrInit env path w = Ok es ∧ applied env rep es es' ∧
        (if writes rep then w_files w' !! path = Some (Parsed es') else w' = w) ∧
        history_in path [w_files w !! path; Some (Parsed es')] w w'
  | Err _ => w_files w' !! path = w_files w !! path ∧ history_in path [w_files w !! path] w w'
  end.
Proof.
  destruct (run_meets env args w r w' Hrun) as [[Hq Hr] Ha]. split; [exact Hq|].
  destruct r as [rep|e]; [|exact Hr]. split; [by apply Ha|exact Hr].
Qed.

(** ** The server that reads the file *)

(** The hasher a server builds from the same variables. *)
Definition server_hasher (env : environ) : KeyHasher :=
  NewKeyHasher (Getenv env "KEY_HMAC_PEPPER") (Getenv env "KEY_HMAC_PEPPER_PREVIOUS").

Lemma loaded_store env path h w es :
  w_files w !! path = Some (Parsed es) → os_fails env OpRead path = false →
  entries_ok es → Forall no_approval es →
  NewManagedKeyStoreWithHasher env path h w = Ok (NewManagedKeyStoreFromEntriesWithHasher path es h w).
Proof.
  intros Hf Hr (Hn & _) Hwa. unfold NewManagedKeyStoreWithHasher. rewrite (loadKeysFromPath_ok _ _ _ es) by done.
  cbn [rbind]. rewrite (migrate_normal es Hn). unfold NewManagedKeyStoreFromEntriesWithHasher.
  by destruct (NewKeyStoreWithHasher es h).
Qed.

Lemma store_entries path es h w : entries_ok es →
  let m := NewManagedKeyStoreFromEntriesWithHasher path es h w in
  mk_entries m = es ∧ mk_hasher m = h ∧ kb_ok (S:=ManagedKeyStore) (E:=os_env) m.
Proof.
  intros Hes m. split_and!; [| |by apply FromEntries_ok]; unfold m, NewManagedKeyStoreFromEntriesWithHasher;
    pose proof (NewKeyStoreWithHasher_normal es h (proj1 Hes)); destruct (NewKeyStoreWithHasher es h); simpl in *; congruence.
Qed.

Lemma parse_role_parts_valid parts roles : parse_role_parts parts = Ok roles → Forall (λ r, IsValidRole r = true) roles.
Proof.
  revert roles. induction parts as [|p parts IH]; intros roles; cbn [parse_role_parts]; [by intros [= <-]|]. cbv zeta.
  destruct (trim_space p =s ""); [apply IH|]. destruct (IsValidRole (trim_space p)) eqn:E; [|done]. cbn [negb].
  destruct (parse_role_parts parts) as [rs|e]; [|done]. intros [= <-]. constructor; [done|by apply IH].
Qed.

Lemma parseRoles_valid s roles : parseRoles s = Ok roles → Forall (λ r, IsValidRole r = true) roles.
Proof. unfold parseRoles. destruct (s =s ""); [by intros [= <-]|]. apply parse_role_parts_valid. Qed.

(** An edit of one field is an update of the admin API. *)
Lemma edit_ok upd id es es' : entries_ok es → Forall no_approval es →
  edit_first id (apply_update upd) es = Some es' → entries_ok es' ∧ Forall no_approval es'.
Proof.
  intros Hes Hwa. rewrite edit_first_alter. destruct (find_idx id es) as [i|]; [|done]. intros [= <-].
  split; [by apply alter_entries_ok|]. apply Forall_alter; [done|]. intros x _. apply no_approval_update.
Qed.

Lemma issued_fields env id key roles exp : let e := issued env id key roles exp in
  ke_ID e = id ∧ ke_Enabled e = true ∧ ke_Roles e = roles ∧ ke_ExpiresAt e = exp ∧
  ke_KeyHash e = (HashForStore (Some (server_hasher (cl_environ env))) key).1 ∧ ke_Key e = "" ∧ no_approval e.
Proof. unfold issued, no_approval, NewKeyEntryWithHasher, server_hasher. destruct (HashForStore _ key). by split_and!. Qed.

Lemma loadOrInit_file env path w es :
  w_files w !! path = Some (Parsed es) → os_fails (cl_os env) OpRead path = false → Forall no_approval es →
  loadOrInit env path w = Ok es.
Proof. intros. unfold loadOrInit. by rewrite (loadKeysFromPath_ok _ _ _ es). Qed.

Lemma last_owner h key es e :
  (∀ y, y ∈ es → ke_KeyHash y ∉ hc_Hash <$> Candidates h key) → ke_KeyHash e ∈ hc_Hash <$> Candidates h key →
  ∀ y, lookup_in h key (es ++ [e]) y ↔ y = e.
Proof.
  intros Hfresh He y. unfold lookup_in. rewrite elem_of_app, list_elem_of_singleton. split.
  - intros [[Hy|Hy] Hc]; [by destruct (Hfresh y Hy)|done].
  - intros ->. split; [by right|done].
Qed.

Lemma edit_first_of_changed id f es es' : changed id f es es' → edit_first id f es = Some es'.
Proof.
  intros (pre & e & post & -> & He & Hpre & ->). induction pre as [|x pre IH]; cbn [app edit_first].
  - by rewrite He, String.eqb_refl.
  - rewrite (proj2 (String.eqb_neq _ _)) by (apply Hpre; by left). rewrite IH; [done|].
    intros y Hy. apply Hpre. by right.
Qed.

(** The file after a creation, and who owns the new key in it. *)
Lemma created_owner env path w w' es id key roles exp :
  entries_ok es → Forall no_approval es →
  (∀ y, y ∈ es → ke_KeyHash y ∉ hc_Hash <$> Candidates (Some (server_hasher (cl_environ env))) key) →
  run_spec env path w (Ok (Created id key roles exp path)) w' → loadOrInit env path w = Ok es →
  let e := issued env id key roles exp in let es' := es ++ [e] in
  w_files w' !! path = Some (Parsed es') ∧ entries_ok es' ∧ Forall no_approval es' ∧
  (∀ y, lookup_in (Some (server_hasher (cl_environ env))) key es' y ↔ y = e).
Proof.
  intros Hes Hwa Hfresh (_ & es0 & es1 & Hl & (Hid & -> & _) & Hf & _) Hl'. rewrite Hl in Hl'. simplify_eq. cbn [writes] in Hf.
  destruct (issued_fields env id key roles exp) as (E1 & E2 & E3 & E4 & E5 & E6 & E7). set (e := issued _ _ _ _ _) in *.
  cbv zeta. split_and!; [done| | |].
  - apply append_entries_ok; [done|by right| |].
    + intros y Hy Heq. apply (Hfresh y Hy). rewrite Heq, E5. apply HashForStore_candidate.
    + intros y Hy. rewrite E1. by apply Hid.
  - apply Forall_app. split; [done|]. by apply Forall_singleton.
  - apply last_owner; [done|]. rewrite E5. apply HashForStore_candidate.
Qed.

(** From the command line to the door. The key a creation prints
    authenticates, at any server that starts on the resulting file with the same
    peppers, as exactly the client and the valid, non-empty roles of the command
    line, until the printed expiry and as expired from then on; after a disable
    of that client, a server that starts afterwards rejects it as revoked. The
    file held well-formed entries, none of which the new key collides with. *)
Theorem cli_key_works env env' args w w' es id key roles exp path
    (Hrun : run env args w = (Ok (Created id key roles exp path), w'))
    (Hload : loadOrInit env (keys_file env) w = Ok es) (Hes : entries_ok es) (Hwa : Forall no_approval es)
    (Hfresh : ∀ y, y ∈ es → ke_KeyHash y ∉ hc_Hash <$> Candidates (Some (server_hasher (cl_environ env))) key)
    (Hread : os_fails env' OpRead path = false) :
  let hasher := Some (server_hasher (cl_environ env)) in
  let served w now := match NewManagedKeyStoreWithHasher env' path hasher w with
                      | Ok m => Some (validate_key hasher env' now key m).1
                      | Err _ => None
                      end in
  roles ≠ [] ∧ Forall (λ r, IsValidRole r = true) roles ∧
  (∀ now, served w' now = Some (if IsZero exp || (now <? exp) then Ok (mkClaims id roles) else Err (Sentinel ErrKeyExpired))) ∧
  (∀ env2 w2 now, cl_environ env2 = cl_environ env → os_fails (cl_os env2) OpRead path = false →
     run env2 ["disable"; id] w' = (Ok (EnabledSet id false), w2) → served w2 now = Some (Err (Sentinel ErrKeyRevoked))).
Proof.
  destruct (run_meets env args w _ w' Hrun) as [Hs Ha]. destruct (Ha _ eq_refl) as (rest & -> & Hp & Hne & _). cbv zeta.
  assert (path = keys_file env) as -> by (destruct Hs as (_ & ? & ? & _ & (_ & _ & _ & ?) & _); done).
  destruct (created_owner env _ w w' es id key roles exp Hes Hwa Hfresh Hs Hload) as (Hf & Hes' & Hwa' & Hown).
  destruct (issued_fields env id key roles exp) as (E1 & E2 & E3 & E4 & E5 & _).
  set (e := issued env id key roles exp) in *. set (h := Some (server_hasher (cl_environ env))) in *.
  assert (∀ w es now x, w_files w !! keys_file env = Some (Parsed es) → entries_ok es → Forall no_approval es →
    (∀ y, lookup_in h key es y ↔ y = x) →
    match NewManagedKeyStoreWithHasher env' (keys_file env) h w with
    | Ok m => Some (validate_key h env' now key m).1 | Err _ => None end = Some (verdict x now)) as Hserve.
  { clear - Hread. intros w es now x Hf Hes Hwa Hown. rewrite (loaded_store _ _ h w es) by done.
    destruct (store_entries (keys_file env) es h w Hes) as (Ee & Eh & Hok). f_equal.
    pose proof (validate_key_owner (S:=ManagedKeyStore) (E:=os_env) env' now key _ x Hok I) as Hv.
    cbn [kb_hasher kb_entries Managed_Laws] in Hv. rewrite Ee, Eh in Hv. exact (Hv Hown). }
  split_and!; [done|by eapply parseRoles_valid| |].
  - intros now. rewrite (Hserve w' _ now e) by done. by rewrite (verdict_live e now E2), E4, E1, E3.
  - intros env2 w2 now Henv Hr Hd. destruct (run_meets _ _ _ _ _ Hd) as [(_ & es2 & es3 & Hl & Hch & Hf2 & _) _].
    assert (keys_file env2 = keys_file env) as Hk by (unfold keys_file; by rewrite Henv). rewrite Hk in *.
    rewrite (loadOrInit_file env2 _ _ _ Hf) in Hl by done. injection Hl as <-. cbn [writes applied] in *.
    assert (changed id (set_enabled false) (es ++ [e]) (es ++ [set_enabled false e])) as Hch'.
    { exists es, e, []. split_and!; try done. destruct Hs as (_ & es0 & ? & Hl' & (Hid & _) & _).
      rewrite Hload in Hl'. by injection Hl' as <-. }
    apply edit_first_of_changed in Hch, Hch'. rewrite Hch' in Hch. injection Hch as <-.
    destruct (edit_ok (mkUpdate (Some false) None None) id _ _ Hes' Hwa' Hch') as [Hes2 Hwa2].
    rewrite (Hserve w2 (es ++ [set_enabled false e]) now (set_enabled false e)); [done|done..|].
    apply last_owner; [done|]. change (ke_KeyHash (set_enabled false e)) with (ke_KeyHash e). rewrite E5.
    apply HashForStore_candidate.
Qed.

(** ** A running server *)

(** The entries after a successful mutation of a running store, from those before. *)
Definition entries_after (op : mutation) (h : option KeyHasher) (es : list KeyEntry) : list KeyEntry :=
  match op with
  | MCreate c id roles exp =>
      match GenerateKey (ce_random c) with
      | Ok rawKey => es ++ [set_expires exp (NewKeyEntryWithHasher (ce_now c) id rawKey roles h)]
      | Err _ => es
      end
  | MUpdate id upd => match find_idx id es with Some i => alter (apply_update upd) i es | None => es end
  | MDelete id => match find_idx id es with Some i => take i es ++ drop (S i) es | None => es end
  end.

Definition subject (op : mutation) : string :=
  match op with MCreate _ id _ _ => id | MUpdate id _ => id | MDelete id => id end.

Lemma saved_file env m es w : Forall normal es →
  SaveKeysFile env (mk_path m) es (mk_disk m) = (None, w) → file_of (commit es w m) = Some (Parsed es).
Proof. intros Hn Hs. rewrite commit_spec by done. by apply save_file_spec in Hs as [_ Hs]. Qed.

Lemma mutate_entries env op m m' : managed_ok m → mutate env op m = (None, m') →
  file_of m' = Some (Parsed (entries_after op (mk_hasher m) (mk_entries m))).
Proof.
  intros [Hes _]. destruct op as [c id roles exp|id upd|id]; cbn [mutate entries_after].
  - destruct (Create env c id roles exp m) as [[r|e] m1] eqn:E; [|done]. intros [= <-].
    apply Create_ok in E as (_ & key & w & -> & Hs & _ & ->). apply (saved_file env); [|done].
    apply Forall_app. split; [apply Hes|]. apply Forall_singleton. right.
    by destruct (new_entry_fields (ce_now c) id key roles (mk_hasher m) exp) as (_&_&_&_&_&?).
  - unfold Update. destruct (find_idx id (mk_entries m)) as [i|] eqn:Ei; [|done].
    pose proof (alter_entries_ok upd i _ Hes) as Hes'.
    destruct (SaveKeysFile env (mk_path m) _ (mk_disk m)) as [[e|] w] eqn:Es; [done|].
    destruct (mk_entries (commit _ w m) !! i); [|done]. intros [= <-]. apply (saved_file env); [apply Hes'|done].
  - unfold Delete. destruct (find_idx id (mk_entries m)) as [i|] eqn:Ei; [|done].
    pose proof (remove_entries_ok i _ Hes) as Hes'.
    destruct (SaveKeysFile env (mk_path m) _ (mk_disk m)) as [[e|] w] eqn:Es; [done|].
    intros [= <-]. apply (saved_file env); [apply Hes'|done].
Qed.

Lemma entries_after_other op h es y : entries_ok es → ke_ID y ≠ subject op →
  y ∈ entries_after op h es ↔ y ∈ es.
Proof.
  intros (_ & _ & Hnd) Hy. destruct op as [c id roles exp|id upd|id]; cbn [entries_after subject] in *.
  - destruct (GenerateKey (ce_random c)) as [key|]; [|done]. rewrite elem_of_app, list_elem_of_singleton.
    split; [|by left]. intros [?| ->]; [done|].
    by destruct (new_entry_fields (ce_now c) id key roles h exp) as (? & _).
  - destruct (find_idx id es) as [i|] eqn:Ei; [|done]. apply find_idx_Some in Ei as (e & He & Hid).
    rewrite (alter_elem upd i es e) by done. split; [|intros ?; left; split; congruence].
    intros [[? _]| ->]; [done|]. by rewrite (proj1 (elem_update_id upd e)) in Hy.
  - destruct (find_idx id es) as [i|] eqn:Ei; [|done]. apply find_idx_Some in Ei as (e & He & Hid).
    rewrite (remove_elem i es e) by done. split; [by intros [? _]|intros ?; split; congruence].
Qed.

(** C38: A revocation the server undoes. When the key command disables a client in
    the file a server is running on, the file says so; but the server answers
    every token as before, and its next successful change of any other client
    writes that client's entry back as the server holds it, so the file, and any
    server that starts on it later, has the key enabled again. *)
Theorem cli_revocation_undone env m id w'
    (Hok : managed_ok m) (Hwa : Forall no_approval (mk_entries m)) (Hpath : mk_path m = keys_file env)
    (Hfile : file_of m = Some (Parsed (mk_entries m))) (Hread : os_fails (cl_os env) OpRead (mk_path m) = false)
    (Hrun : run env ["disable"; id] (mk_disk m) = (Ok (EnabledSet id false), w')) :
  (∃ es, w_files w' !! mk_path m = Some (Parsed es) ∧ changed id (set_enabled false) (mk_entries m) es) ∧
  (∀ env' now tok,
     (validate_key (mk_hasher m) env' now tok (with_disk w' m)).1 = (validate_key (mk_hasher m) env' now tok m).1) ∧
  (∀ env' op m2, mutate env' op (with_disk w' m) = (None, m2) → subject op ≠ id →
     ∃ es2, file_of m2 = Some (Parsed es2) ∧ ∀ e, ke_ID e = id → e ∈ es2 ↔ e ∈ mk_entries m).
Proof.
  split_and!.
  - destruct (run_meets _ _ _ _ _ Hrun) as [(_ & es & es' & Hl & Hch & Hf & _) _]. cbn [writes applied] in *.
    unfold file_of in Hfile. rewrite Hpath in *. rewrite (loadOrInit_file env _ _ _ Hfile) in Hl by done.
    injection Hl as <-. by exists es'.
  - intros env' now tok. unfold validate_key, Adapter_Lookup. cbn [kb_Lookup Managed_Backend]. unfold Managed_Lookup.
    cbn [mk_store with_disk]. set (e := KeyStore_Lookup (mk_store m) tok).
    by destruct (classifyEntry e now), e.
  - intros env' op m2 Hm Hsub. eexists. split; [by apply (mutate_entries env' op (with_disk w' m))|].
    intros e He. apply entries_after_other; [apply Hok|]. congruence.
Qed.

(** ** A concrete file *)

Definition demo_cli : cli_env :=
  mkCli demo_env {["MCP_API_KEYS_FILE" := "/keys.json"]} 1000 1001 (Some "fedcba9876543210fedcba9876543210").

Lemma cli_run_effect_witness :
  ∃ r w', run demo_cli ["disable"; "alice"] (mk_disk demo_store) = (r, w') ∧
    w_files w' !! "/keys.json" = Some (Parsed [set_enabled false demo_key]).
Proof.
  destruct (run demo_cli ["disable"; "alice"] (mk_disk demo_store)) as [r w'] eqn:E. exists r, w'. split; [done|].
  destruct (cli_run_effect demo_cli ["disable"; "alice"] (mk_disk demo_store) r w' E) as [_ H].
  destruct r as [rep|e]; [|vm_compute in E; discriminate]. destruct H as (Ha & es & es' & Hl & Happ & Hw & _).
  assert (rep = EnabledSet "alice" false) as -> by (vm_compute in E; congruence).
  assert (es = [demo_key]) as -> by (vm_compute in Hl; vm_compute; congruence).
  apply edit_first_of_changed in Happ. cbn [writes] in Hw. vm_compute in Happ. injection Happ as <-. exact Hw.
Defined.

Lemma cli_key_works_witness :
  ∃ key w', run demo_cli ["create"; "bob"; "--roles"; "reader,writer"; "--ttl"; "1h"] (mk_disk demo_store) =
      (Ok (Created "bob" key ["reader"; "writer"] (1000 + 3600000000000) "/keys.json"), w') ∧
    ∃ m, NewManagedKeyStoreWithHasher demo_env "/keys.json" (Some (server_hasher (cl_environ demo_cli))) w' = Ok m ∧
      (validate_key (Some (server_hasher (cl_environ demo_cli))) demo_env 1000 key m).1
        = Ok (mkClaims "bob" ["reader"; "writer"]).
Proof.
  set (args := ["create"; "bob"; "--roles"; "reader,writer"; "--ttl"; "1h"]).
  assert (∃ w', run demo_cli args (mk_disk demo_store) =
    (Ok (Created "bob" (b64_encode "fedcba9876543210fedcba9876543210") ["reader"; "writer"] (1000 + 3600000000000)
           "/keys.json"), w')) as [w' E] by (eexists; vm_compute; reflexivity).
  eexists _, w'. split; [exact E|].
  destruct (cli_key_works demo_cli demo_env args (mk_disk demo_store) w' [demo_key] "bob" _ _ _ _ E)
    as (_ & _ & H & _).
  - vm_compute. reflexivity.
  - apply entries_ok_singleton. reflexivity.
  - repeat constructor.
  - intros y ->%list_elem_of_singleton. apply (bool_decide_unpack _). vm_compute. exact I.
  - reflexivity.
  - specialize (H 1000). cbv zeta in H.
    destruct (NewManagedKeyStoreWithHasher demo_env "/keys.json" _ w') as [m|e]; [|discriminate].
    exists m. split; [reflexivity|]. injection H as H. exact H.
Defined.

Lemma cli_revocation_undone_witness :
  ∃ w', run demo_cli ["disable"; "alice"] (mk_disk demo_store) = (Ok (EnabledSet "alice" false), w') ∧
    ∃ m2 es2, mutate demo_env (MCreate demo_call "bob" ["reader"] 0) (with_disk w' demo_store) = (None, m2) ∧
      file_of m2 = Some (Parsed es2) ∧ demo_key ∈ es2 ∧ ke_Enabled demo_key = true.
Proof.
  destruct (run demo_cli ["disable"; "alice"] (mk_disk demo_store)) as [r w'] eqn:E.
  assert (r = Ok (EnabledSet "alice" false)) as -> by (vm_compute in E; congruence).
  exists w'. split; [done|].
  destruct (cli_revocation_undone demo_cli demo_store "alice" w' demo_store_ok) as (_ & _ & H);
    [repeat constructor|reflexivity|reflexivity|reflexivity|exact E|].
  destruct (mutate demo_env (MCreate demo_call "bob" ["reader"] 0) (with_disk w' demo_store)) as [err m2] eqn:Em.
  assert (err = None) as -> by (vm_compute in E; injection E as <-; vm_compute in Em; congruence).
  destruct (H demo_env _ m2 Em) as (es2 & Hf & Hin); [discriminate|].
  exists m2, es2. split_and!; [done|done|apply Hin; [reflexivity|left]|reflexivity].
Defined.
