(* ===== verification/Purge.v ===== *)
(** The retention purge (internal/mcp/purge.go): the Purger, its batched deletes
    and one sweep over the four keyless-bundle tables.

    A sweep issues a sequence of DELETE statements; the environment says of the
    k-th one whether it reached the database, in which order the database
    scanned the rows (LIMIT takes the first ones), and whether the context was
    cancelled after it. The goroutine is a fold over its rounds: what each sweep
    met, and whether its select saw the context done or a tick. *)

From stdpp Require Import fin_maps.
From S2P Require Import Prelude GoErrors Hex GoParse Config SignerStores Admin.

Definition purgeBatchSize : nat := 5000.
Definition purgeMaxBatchesPerTable : nat := 200.

(** admin_audit with its created_at column. *)
Record purge_db := mkPurgeDb { pd_keyless : keyless_db; pd_admin_audit : list (AdminAuditEntry * Z) }.

Record Purger := mkPurger { pu_cfg : RetentionConfig; pu_grantRoleSelector : string }.

Record PurgeResult := mkPurgeResult {
  rs_WriteAudit : Z; rs_WriteAuditGrantRole : Z; rs_SignerQuota : Z; rs_SignerBlacklist : Z; rs_AdminAudit : Z
}.
Definition Total (r : PurgeResult) : Z :=
  rs_WriteAudit r + rs_WriteAuditGrantRole r + rs_SignerQuota r + rs_SignerBlacklist r + rs_AdminAudit r.

(** NewPurger, given a pool or none. *)
Definition NewPurger (pool : bool) (cfg : RetentionConfig) (grantRoleSelector : string) : result error Purger :=
  if negb pool then Err (Sentinel ErrPurgeNoPool)
  else if (0 <? WriteAuditGrantRole cfg) && (grantRoleSelector =s "")
  then Err (Wrap ("MCP_WRITE_AUDIT_GRANT_ROLE_RETENTION is set but the grantRole ABI " +:+
                  "selector is unknown (no ABI loaded), so grantRole rows cannot be " +:+
                  "distinguished from ordinary writes: ") ErrPurgeNoPool "")
  else Ok (mkPurger cfg grantRoleSelector).

(** ** Batched deletes *)

Record purge_env := mkPurgeEnv {
  pe_exec : nat → bool;
  pe_scan : ∀ A : Type, nat → list A → list A;
  pe_cancelled : nat → bool
}.

(** The rows left by a DELETE of the first [n] rows satisfying [P], and how
    many it deleted. *)
Fixpoint delete_upto {R} (n : nat) (P : R → bool) (l : list R) : list R * nat :=
  match l with
  | [] => ([], O)
  | r :: l =>
      if P r then
        match n with
        | O => (r :: l, O)
        | S n => let '(rest, d) := delete_upto n P l in (rest, S d)
        end
      else let '(rest, d) := delete_upto n P l in (r :: rest, d)
  end.

(** What deleteBatched leaves behind: the rows, the count it returns, its error,
    and the number of statements issued so far. *)
Record deletion (R : Type) := mkDeletion { dl_rows : list R; dl_total : Z; dl_err : option error; dl_next : nat }.
Arguments mkDeletion {R}.
Arguments dl_rows {R}.
Arguments dl_total {R}.
Arguments dl_err {R}.
Arguments dl_next {R}.

Definition ctx_error : error := Opaque "context canceled".

Fixpoint delete_batches {R} (env : purge_env) (batches : nat) (P : R → bool) (k : nat) (rows : list R) (total : Z)
    : deletion R :=
  match batches with
  | O => mkDeletion rows total None k
  | S batches =>
      if negb (pe_exec env k) then mkDeletion rows total (Some db_error) (S k)
      else
        let '(rest, n) := delete_upto purgeBatchSize P (pe_scan env R k rows) in
        let total := total + Z.of_nat n in
        if (n <? purgeBatchSize)%nat then mkDeletion rest total None (S k)
        else if pe_cancelled env k then mkDeletion rest total (Some ctx_error) (S k)
        else delete_batches env batches P (S k) rest total
  end.

Definition deleteBatched {R} (env : purge_env) (P : R → bool) (k : nat) (rows : list R) : deletion R :=
  delete_batches env purgeMaxBatchesPerTable P k rows 0.

(** ** A sweep *)

Definition before (cutoff : Z) (created : Z) : bool := created <? cutoff.

Definition with_audit (rows : list WriteAuditEntry) (db : purge_db) : purge_db :=
  mkPurgeDb (mkDb (signer_quota (pd_keyless db)) (signer_blacklist (pd_keyless db)) rows) (pd_admin_audit db).
Definition with_quota (rows : list (string * Z * Z)) (db : purge_db) : purge_db :=
  mkPurgeDb (mkDb (list_to_map rows) (signer_blacklist (pd_keyless db)) (write_audit (pd_keyless db)))
    (pd_admin_audit db).
Definition with_bans (rows : list (string * BlacklistEntry)) (db : purge_db) : purge_db :=
  mkPurgeDb (mkDb (signer_quota (pd_keyless db)) (list_to_map rows) (write_audit (pd_keyless db)))
    (pd_admin_audit db).
Definition with_admin_audit (rows : list (AdminAuditEntry * Z)) (db : purge_db) : purge_db :=
  mkPurgeDb (pd_keyless db) rows.

Definition carveOut (p : Purger) : bool :=
  (0 <? WriteAuditGrantRole (pu_cfg p)) && negb (pu_grantRoleSelector p =s "").

(** The WHERE clauses of the two deletes on write_audit. *)
Definition grant_role_expired (p : Purger) (now : Z) (r : WriteAuditEntry) : bool :=
  before (now - WriteAuditGrantRole (pu_cfg p)) (wa_CreatedAt r) && (wa_MethodSelector r =s pu_grantRoleSelector p).
Definition ordinary_expired (p : Purger) (now : Z) (r : WriteAuditEntry) : bool :=
  before (now - WriteAudit (pu_cfg p)) (wa_CreatedAt r) &&
  (if carveOut p then negb (wa_MethodSelector r =s pu_grantRoleSelector p) else true).
Definition quota_expired (p : Purger) (now : Z) (r : string * Z * Z) : bool :=
  before (now - SignerQuota (pu_cfg p)) r.1.2.
Definition ban_expired (p : Purger) (now : Z) (r : string * BlacklistEntry) : bool :=
  before (now - SignerBlacklist (pu_cfg p)) (bl_CreatedAt r.2).
Definition admin_expired (p : Purger) (now : Z) (r : AdminAuditEntry * Z) : bool :=
  before (now - AdminAudit (pu_cfg p)) r.2.

(** purgeWriteAudit: the grantRole rows first, then the ordinary ones. *)
Definition purgeWriteAudit (env : purge_env) (p : Purger) (now : Z) (k : nat) (rows : list WriteAuditEntry)
    : Z * deletion WriteAuditEntry :=
  let g := if carveOut p then deleteBatched env (grant_role_expired p now) k rows else mkDeletion rows 0 None k in
  match dl_err g with
  | Some e => (0, mkDeletion (dl_rows g) 0 (Some (Wrap "purge write_audit (grantRole): " e "")) (dl_next g))
  | None =>
      if WriteAudit (pu_cfg p) =? 0 then (dl_total g, mkDeletion (dl_rows g) 0 None (dl_next g))
      else
        let d := deleteBatched env (ordinary_expired p now) (dl_next g) (dl_rows g) in
        match dl_err d with
        | Some e => (dl_total g, mkDeletion (dl_rows d) 0 (Some (Wrap "purge write_audit: " e "")) (dl_next d))
        | None => (dl_total g, d)
        end
  end.

(** The delete of one of the other tables: skipped when its window is zero. *)
Definition purge_table {R} (env : purge_env) (name : string) (window : Z) (P : R → bool) (k : nat) (rows : list R)
    : deletion R :=
  if 0 <? window then
    let d := deleteBatched env P k rows in
    match dl_err d with
    | Some e => mkDeletion (dl_rows d) 0 (Some (Wrap ("purge " +:+ name +:+ ": ") e "")) (dl_next d)
    | None => d
    end
  else mkDeletion rows 0 None k.

Definition no_result : PurgeResult := mkPurgeResult 0 0 0 0 0.

Definition PurgeOnce (env : purge_env) (p : Purger) (now : Z) (k : nat) (db : purge_db)
    : PurgeResult * option error * purge_db * nat :=
  let '(grant, wa) := purgeWriteAudit env p now k (write_audit (pd_keyless db)) in
  let db := with_audit (dl_rows wa) db in
  match dl_err wa with
  | Some e => (no_result, Some e, db, dl_next wa)
  | None =>
      let q := purge_table env "signer_quota" (SignerQuota (pu_cfg p)) (quota_expired p now) (dl_next wa)
                 (map_to_list (signer_quota (pd_keyless db))) in
      let db := with_quota (dl_rows q) db in
      match dl_err q with
      | Some e => (mkPurgeResult (dl_total wa) grant 0 0 0, Some e, db, dl_next q)
      | None =>
          let b := purge_table env "signer_blacklist" (SignerBlacklist (pu_cfg p)) (ban_expired p now) (dl_next q)
                     (map_to_list (signer_blacklist (pd_keyless db))) in
          let db := with_bans (dl_rows b) db in
          match dl_err b with
          | Some e => (mkPurgeResult (dl_total wa) grant (dl_total q) 0 0, Some e, db, dl_next b)
          | None =>
              let a := purge_table env "admin_audit" (AdminAudit (pu_cfg p)) (admin_expired p now) (dl_next b)
                         (pd_admin_audit db) in
              (mkPurgeResult (dl_total wa) grant (dl_total q) (dl_total b)
                 match dl_err a with None => dl_total a | Some _ => 0 end,
               dl_err a, with_admin_audit (dl_rows a) db, dl_next a)
          end
      end
  end.

(** ** The goroutine *)

(** One round of the loop: the database and the clock of its sweep, whether the
    context was cancelled when a failed sweep looked, and whether the select saw
    it done (when both are ready, Go picks either). *)
Record round := mkRound { rn_env : purge_env; rn_now : Z; rn_cancelled : bool; rn_done : bool }.

(** The log lines, with the fields a test can rely on. *)
Inductive purge_line :=
  | PurgeStarted (cfg : RetentionConfig)
  | PurgeFailed (e : error)
  | PurgeCompleted (r : PurgeResult)
  | PurgeStopped.

Definition sweepAndLog (p : Purger) (r : round) (db : purge_db) : purge_db * list purge_line :=
  let '(res, err, db, _) := PurgeOnce (rn_env r) p (rn_now r) 0 db in
  (db, match err with
       | Some e => if rn_cancelled r then [] else [PurgeFailed e]
       | None => if Total res =? 0 then [] else [PurgeCompleted res]
       end).

Fixpoint run_rounds (p : Purger) (rounds : list round) (db : purge_db) : purge_db * list purge_line :=
  match rounds with
  | [] => (db, [])
  | r :: rounds =>
      let '(db, l) := sweepAndLog p r db in
      if rn_done r then (db, l ++ [PurgeStopped])
      else let '(db, l') := run_rounds p rounds db in (db, l ++ l')
  end.

(** Run, as far as [rounds] goes. *)
Definition Run (p : Purger) (rounds : list round) (db : purge_db) : purge_db * list purge_line :=
  let '(db, l) := run_rounds p rounds db in (db, PurgeStarted (pu_cfg p) :: l).

(** ** What a batch, a table's purge and a sweep remove *)

(** The rows of a table before and after: what went was expired, and a success
    either leaves nothing expired or has used its capacity of a million rows. *)
Definition sweep_capacity : nat := purgeMaxBatchesPerTable * purgeBatchSize.
#[global] Arguments sweep_capacity : simpl never.

Definition swept {R} (P : R → bool) (old new : list R) (err : option error) : Prop :=
  ∃ v, old ≡ₚ v ++ new ∧ Forall (λ r, P r = true) v ∧
    (err = None → Forall (λ r, P r = false) new ∨ (sweep_capacity ≤ length v)%nat).

Lemma delete_upto_spec {R} n (P : R → bool) l rest d :
  delete_upto n P l = (rest, d) →
  ∃ v, l ≡ₚ v ++ rest ∧ Forall (λ r, P r = true) v ∧ length v = d ∧
    ((d < n)%nat → Forall (λ r, P r = false) rest).
Proof.
  revert n rest d. induction l as [|r l IH]; intros n rest d; cbn [delete_upto].
  { intros [= <- <-]. by exists []. }
  destruct (P r) eqn:E.
  - destruct n as [|n]; [intros [= <- <-]; exists []; split_and!; [done..|lia]|].
    destruct (delete_upto n P l) as [rest' d'] eqn:Ed. intros [= <- <-].
    destruct (IH _ _ _ Ed) as (v & Hp & Hv & Hl & Hr). exists (r :: v).
    split_and!; [by rewrite Hp|by constructor|cbn; by rewrite Hl|intros; apply Hr; lia].
  - destruct (delete_upto n P l) as [rest' d'] eqn:Ed. intros [= <- <-].
    destruct (IH _ _ _ Ed) as (v & Hp & Hv & Hl & Hr). exists v.
    split_and!; [rewrite Hp; apply Permutation_middle|done|done|intros; constructor; auto].
Qed.

Section Sweep.
Context (env : purge_env) (Hscan : ∀ A k (l : list A), pe_scan env A k l ≡ₚ l).

Lemma delete_batches_spec {R} batches (P : R → bool) k rows total :
  let d := delete_batches env batches P k rows total in
  ∃ v, rows ≡ₚ v ++ dl_rows d ∧ Forall (λ r, P r = true) v ∧ dl_total d = total + Z.of_nat (length v) ∧
    (dl_err d = None → Forall (λ r, P r = false) (dl_rows d) ∨ (batches * purgeBatchSize ≤ length v)%nat).
Proof using All.
  revert k rows total. induction batches as [|b IH]; intros k rows total; cbn [delete_batches].
  { exists []. cbn [dl_rows dl_total dl_err length app]. split_and!; [done|done|lia|intros _; right; lia]. }
  destruct (pe_exec env k); cbn [negb]; [|exists []; cbn [dl_rows dl_total dl_err length app]; split_and!; [done|done|lia|done]].
  destruct (delete_upto _ _ _) as [rest n] eqn:Ed. apply delete_upto_spec in Ed as (v & Hp & Hv & Hl & Hr).
  rewrite Hscan in Hp. cbv zeta. destruct (n <? purgeBatchSize)%nat eqn:En.
  { apply Nat.ltb_lt in En. exists v. cbn [dl_rows dl_total dl_err]. split_and!; [done|done|lia|intros _; left; auto]. }
  apply Nat.ltb_ge in En. destruct (pe_cancelled env k); [exists v; cbn [dl_rows dl_total dl_err]; split_and!; [done|done|lia|done]|].
  destruct (IH (S k) rest (total + Z.of_nat n)) as (v' & Hp' & Hv' & Ht' & He').
  exists (v ++ v'). rewrite length_app. split_and!.
  - by rewrite Hp, Hp' at 1; rewrite <- (assoc_L (++)).
  - by apply Forall_app.
  - rewrite Ht'. lia.
  - intros He. destruct (He' He) as [Hc|Hc]; [by left|right; lia].
Qed.

Lemma deleteBatched_swept {R} (P : R → bool) k rows :
  let d := deleteBatched env P k rows in swept P rows (dl_rows d) (dl_err d).
Proof using All.
  destruct (delete_batches_spec purgeMaxBatchesPerTable P k rows 0) as (v & ? & ? & _ & ?). by exists v.
Qed.

Lemma swept_nothing {R} (P : R → bool) rows e : (e = None → ∀ r, P r = false) → swept P rows rows e.
Proof. intros H. exists []. split_and!; [done|done|]. intros He. left. apply Forall_true. auto. Qed.

Lemma swept_weaken {R} (P Q : R → bool) old new e e' :
  swept P old new e → (∀ r, P r = Q r) → (e = None → e' = None) → (e' = None → e = None) → swept Q old new e'.
Proof.
  intros (v & Hp & Hv & Hc) HPQ H1 H2. exists v. split_and!; [done|by setoid_rewrite <- HPQ|].
  intros He. destruct (Hc (H2 He)); [left|by right]. by setoid_rewrite <- HPQ.
Qed.

Lemma purge_table_swept {R} name w (P : R → bool) k rows :
  let d := purge_table env name w P k rows in swept (λ r, (0 <? w) && P r) rows (dl_rows d) (dl_err d).
Proof using All.
  unfold purge_table. destruct (0 <? w); cbn [andb]; [|by apply swept_nothing].
  pose proof (deleteBatched_swept P k rows) as H. cbv zeta in *.
  destruct (dl_err (deleteBatched env P k rows)) eqn:E; cbn [dl_rows dl_err]; [|by rewrite E].
  by apply (swept_weaken _ _ _ _ _ _ H).
Qed.

(** The retention rule of a write_audit row. *)
Definition write_expired (p : Purger) (now : Z) (r : WriteAuditEntry) : bool :=
  if carveOut p && (wa_MethodSelector r =s pu_grantRoleSelector p)
  then before (now - WriteAuditGrantRole (pu_cfg p)) (wa_CreatedAt r)
  else negb (WriteAudit (pu_cfg p) =? 0) && before (now - WriteAudit (pu_cfg p)) (wa_CreatedAt r).

Lemma write_expired_split p now r :
  write_expired p now r =
    (carveOut p && grant_role_expired p now r) ||
    (negb (WriteAudit (pu_cfg p) =? 0) && ordinary_expired p now r).
Proof.
  unfold write_expired, grant_role_expired, ordinary_expired.
  destruct (carveOut p), (_ =s _), (WriteAudit (pu_cfg p) =? 0), (before _ _), (before _ _); done.
Qed.

Lemma swept_then {R} (P Q : R → bool) l1 l2 l3 e :
  swept P l1 l2 None → swept Q l2 l3 e → swept (λ r, P r || Q r) l1 l3 e.
Proof.
  intros (v & Hp & Hv & Hc) (w & Hq & Hw & Hd). exists (v ++ w). split_and!.
  - rewrite Hp, Hq. by rewrite <- (assoc_L (++)).
  - apply Forall_app. split; [eapply Forall_impl; [exact Hv|]|eapply Forall_impl; [exact Hw|]]; cbn;
      intros r Hr; rewrite Hr; [done|apply orb_true_r].
  - intros He. rewrite length_app. destruct (Hc eq_refl) as [Hc'|Hc']; [|right; lia].
    destruct (Hd He) as [Hd'|Hd']; [left|right; lia].
    rewrite Hq in Hc'. apply Forall_app in Hc' as [_ Hc']. rewrite Forall_forall in *. intros r Hr.
    by rewrite (Hc' r Hr), (Hd' r Hr).
Qed.

Lemma purgeWriteAudit_swept p now k rows :
  let d := (purgeWriteAudit env p now k rows).2 in swept (write_expired p now) rows (dl_rows d) (dl_err d).
Proof using All.
  unfold purgeWriteAudit. set (g := if carveOut p then _ else _).
  assert (swept (λ r, carveOut p && grant_role_expired p now r) rows (dl_rows g) (dl_err g)) as Hg.
  { unfold g. destruct (carveOut p); cbn [andb]; [apply deleteBatched_swept|by apply swept_nothing]. }
  clearbody g. pose proof (write_expired_split p now) as Hs.
  destruct (dl_err g) as [e|]; cbn [fst snd dl_rows dl_err].
  { destruct Hg as (v & Hp & Hv & _). exists v. split_and!; [done| |done].
    eapply Forall_impl; [exact Hv|]. cbn. intros r Hr. by rewrite Hs, Hr. }
  destruct (WriteAudit (pu_cfg p) =? 0) eqn:E0; cbn [fst snd dl_rows dl_err negb andb] in *.
  { eapply swept_weaken; [exact Hg| |done..]. intros r. by rewrite Hs, orb_false_r. }
  pose proof (deleteBatched_swept (ordinary_expired p now) (dl_next g) (dl_rows g)) as Ho. cbv zeta in Ho.
  pose proof (swept_then _ _ _ _ _ _ Hg Ho) as H.
  destruct (dl_err (deleteBatched _ _ _ _)) eqn:Ee; cbn [snd dl_rows dl_err]; [|rewrite Ee];
    by apply (swept_weaken _ _ _ _ _ _ H).
Qed.
End Sweep.

(** ** Tables kept as maps *)

Lemma swept_NoDup_keys {K A} `{Countable K} (P : K * A → bool) (m : gmap K A) new e :
  swept P (map_to_list m) new e → NoDup new.*1.
Proof.
  intros (v & Hp & _). pose proof (NoDup_fst_map_to_list m) as Hn. rewrite Hp, fmap_app in Hn.
  by apply NoDup_app in Hn as (_ & _ & Hn).
Qed.

Lemma swept_map {K A} `{Countable K} (P : K * A → bool) (m : gmap K A) new e :
  swept P (map_to_list m) new e → swept P (map_to_list m) (map_to_list (list_to_map new : gmap K A)) e.
Proof.
  intros Hs. pose proof (swept_NoDup_keys _ _ _ _ Hs) as Hn. destruct Hs as (v & Hp & Hv & Hc).
  exists v. by rewrite (map_to_list_to_map new) by done.
Qed.

(** ** A sweep *)

(** The four tables as lists of rows. *)
Definition quota_rows (db : purge_db) := map_to_list (signer_quota (pd_keyless db)).
Definition ban_rows (db : purge_db) := map_to_list (signer_blacklist (pd_keyless db)).
Definition audit_rows (db : purge_db) := write_audit (pd_keyless db).

Definition quota_gone (p : Purger) (now : Z) r := (0 <? SignerQuota (pu_cfg p)) && quota_expired p now r.
Definition ban_gone (p : Purger) (now : Z) r := (0 <? SignerBlacklist (pu_cfg p)) && ban_expired p now r.
Definition admin_gone (p : Purger) (now : Z) r := (0 <? AdminAudit (pu_cfg p)) && admin_expired p now r.

(** What one sweep does to every table, whatever its outcome. *)
Definition swept_db (p : Purger) (now : Z) (db db' : purge_db) (e : option error) : Prop :=
  swept (write_expired p now) (audit_rows db) (audit_rows db') e ∧
  swept (quota_gone p now) (quota_rows db) (quota_rows db') e ∧
  swept (ban_gone p now) (ban_rows db) (ban_rows db') e ∧
  swept (admin_gone p now) (pd_admin_audit db) (pd_admin_audit db') e.

Lemma swept_err {R} (P : R → bool) old new e e' : swept P old new e → swept P old new (Some e').
Proof. intros (v & ? & ? & _). by exists v. Qed.

Lemma PurgeOnce_swept env p now k db : (∀ A k (l : list A), pe_scan env A k l ≡ₚ l) →
  let '(_, e, db', _) := PurgeOnce env p now k db in swept_db p now db db' e.
Proof.
  intros Hscan. unfold PurgeOnce.
  pose proof (purgeWriteAudit_swept env Hscan p now k (audit_rows db)) as Hw. cbv zeta in Hw.
  change (audit_rows db) with (write_audit (pd_keyless db)) in Hw.
  destruct (purgeWriteAudit _ _ _ _ _) as [grant wa]. cbn [snd] in Hw.
  assert (∀ T (P : T → bool) l e, swept P l l (Some e)) as Hn by (intros; by apply swept_nothing).
  destruct (dl_err wa) as [e|]; [split_and!; [exact Hw|apply Hn..]|].
  cbv zeta. match goal with |- context [dl_err (purge_table ?v ?n ?w ?P ?j ?l)] =>
    pose proof (purge_table_swept v Hscan n w P j l) as Hq; set (q := purge_table v n w P j l) in * end.
  cbv zeta in Hq. apply swept_map in Hq. cbn [with_audit pd_keyless signer_quota] in Hq.
  destruct (dl_err q) as [e|]; [split_and!; [by eapply swept_err|exact Hq|apply Hn..]|].
  match goal with |- context [dl_err (purge_table ?v ?n ?w ?P ?j ?l)] =>
    pose proof (purge_table_swept v Hscan n w P j l) as Hb; set (b := purge_table v n w P j l) in * end.
  cbv zeta in Hb. apply swept_map in Hb. cbn [with_quota with_audit pd_keyless signer_blacklist] in Hb.
  destruct (dl_err b) as [e|]; [split_and!; [by eapply swept_err|by eapply swept_err|exact Hb|apply Hn]|].
  match goal with |- context [dl_err (purge_table ?v ?n ?w ?P ?j ?l)] =>
    pose proof (purge_table_swept v Hscan n w P j l) as Ha; set (a := purge_table v n w P j l) in * end.
  cbv zeta in Ha. destruct (dl_err a) as [e|]; [split_and!; [by eapply swept_err..|exact Ha]|].
  split_and!; [exact Hw|exact Hq|exact Hb|exact Ha].
Qed.

Lemma swept_lookup {K A} `{Countable K} (P : K * A → bool) (m m' : gmap K A) e k x :
  swept P (map_to_list m) (map_to_list m') e → m !! k = Some x → m' !! k = Some x ∨ P (k, x) = true.
Proof.
  intros (v & Hp & Hv & _) Hk. apply elem_of_map_to_list in Hk. rewrite Hp in Hk.
  apply elem_of_app in Hk as [Hk|Hk]; [right|left; by apply elem_of_map_to_list].
  rewrite Forall_forall in Hv. by apply Hv.
Qed.

Lemma swept_subset {K A} `{Countable K} (P : K * A → bool) (m m' : gmap K A) e :
  swept P (map_to_list m) (map_to_list m') e → m' ⊆ m.
Proof.
  intros (v & Hp & _). apply map_subseteq_spec. intros k x Hk%elem_of_map_to_list.
  apply elem_of_map_to_list. rewrite Hp. apply elem_of_app. by right.
Qed.

Lemma carveOut_configured pool cfg sel p : NewPurger pool cfg sel = Ok p →
  p = mkPurger cfg sel ∧ carveOut p = (0 <? WriteAuditGrantRole cfg).
Proof.
  unfold NewPurger. destruct (negb pool); [done|]. destruct (_ && _) eqn:E; [done|]. intros [= <-].
  split; [done|]. unfold carveOut. cbn [pu_cfg pu_grantRoleSelector].
  destruct (0 <? WriteAuditGrantRole cfg); [|done]. cbn in *. by rewrite E.
Qed.

Lemma WindowStart_recent now w : 0 < w → now - w < WindowStart now w.
Proof.
  intros Hw. unfold WindowStart. destruct (w <=? 0) eqn:E; bool_to_prop; [lia|].
  pose proof (Z.mod_pos_bound now w). lia.
Qed.

(** C28: What the purge may remove. Whatever the database does during a sweep
    (statements that fail, a cancelled context, any scan order), the purger of a
    loaded configuration removes only rows its windows expired: never an audit
    row younger than the ordinary window, nor a grantRole row younger than its
    own longer window; a ban only if bans expire and this one has; a quota
    counter only if counters expire and its window started before the cutoff; an
    admin row only past its window. A table whose retention is zero loses nothing.
    Nothing is added or changed, and the counters of the current quota window survive
    if counters are retained at least that long. *)
Theorem purge_removes_only_expired environment c sel p env now k db res e db' k'
    (Hload : Load environment = Ok c)
    (Hnew : NewPurger true (Retention (keyless c)) sel = Ok p)
    (Hscan : ∀ A k (l : list A), pe_scan env A k l ≡ₚ l)
    (Hrun : PurgeOnce env p now k db = (res, e, db', k')) :
  let cfg := Retention (keyless c) in let w := SignerWriteWindow (keyless c) in
  (∃ removed, audit_rows db ≡ₚ removed ++ audit_rows db' ∧
     ∀ r, r ∈ removed → 0 < WriteAudit cfg ∧ wa_CreatedAt r < now - WriteAudit cfg ∧
       (0 < WriteAuditGrantRole cfg → wa_MethodSelector r = sel → wa_CreatedAt r < now - WriteAuditGrantRole cfg)) ∧
  (signer_blacklist (pd_keyless db') ⊆ signer_blacklist (pd_keyless db) ∧
   ∀ signer b, signer_blacklist (pd_keyless db) !! signer = Some b →
     signer_blacklist (pd_keyless db') !! signer = Some b ∨
     0 < SignerBlacklist cfg ∧ bl_CreatedAt b < now - SignerBlacklist cfg) ∧
  (signer_quota (pd_keyless db') ⊆ signer_quota (pd_keyless db) ∧
   ∀ signer ws n, signer_quota (pd_keyless db) !! (signer, ws) = Some n →
     signer_quota (pd_keyless db') !! (signer, ws) = Some n ∨
     0 < SignerQuota cfg ∧ ws < now - SignerQuota cfg) ∧
  (0 < w → SignerQuota cfg = 0 ∨ w ≤ SignerQuota cfg → ∀ signer,
     signer_quota (pd_keyless db') !! (signer, WindowStart now w) =
     signer_quota (pd_keyless db) !! (signer, WindowStart now w)) ∧
  (∃ removed, pd_admin_audit db ≡ₚ removed ++ pd_admin_audit db' ∧
     ∀ r, r ∈ removed → 0 < AdminAudit cfg ∧ r.2 < now - AdminAudit cfg).
Proof.
  intros cfg w. pose proof (Load_retention _ _ Hload) as (Hpos & _ & Hgr). fold cfg in Hpos, Hgr, Hnew.
  rewrite !Forall_cons in Hpos. destruct Hpos as (Hwa & _).
  apply carveOut_configured in Hnew as [-> Hcarve]. 
  pose proof (PurgeOnce_swept env (mkPurger cfg sel) now k db Hscan) as H. rewrite Hrun in H.
  destruct H as (Haudit & Hquota & Hban & Hadmin). split_and!.
  - destruct Haudit as (v & Hp & Hv & _). exists v. split; [done|]. intros r Hr.
    rewrite Forall_forall in Hv. specialize (Hv r Hr). unfold write_expired in Hv. rewrite Hcarve in Hv.
    cbn [pu_cfg pu_grantRoleSelector] in Hv. unfold before in Hv.
    destruct (0 <? WriteAuditGrantRole cfg) eqn:Eg, (wa_MethodSelector r =s sel) eqn:Es; cbn [andb] in Hv;
      bool_to_prop; split_and!; try lia; intros ? ?; try lia; by destruct Es.
  - by eapply swept_subset.
  - intros signer b Hb. destruct (swept_lookup _ _ _ _ _ _ Hban Hb) as [|Hg]; [by left|right].
    unfold ban_gone, ban_expired, before in Hg. cbn in Hg. by bool_to_prop.
  - by eapply swept_subset.
  - intros signer ws n Hn. destruct (swept_lookup _ _ _ _ _ _ Hquota Hn) as [|Hg]; [by left|right].
    unfold quota_gone, quota_expired, before in Hg. cbn in Hg. by bool_to_prop.
  - intros Hw Hq signer. pose proof (WindowStart_recent now w Hw).
    destruct (signer_quota (pd_keyless db) !! _) as [n|] eqn:E.
    + destruct (swept_lookup _ _ _ _ _ _ Hquota E) as [|Hg]; [done|].
      unfold quota_gone, quota_expired, before in Hg. cbn in Hg. bool_to_prop. lia.
    + apply swept_subset in Hquota. by eapply lookup_weaken_None.
  - destruct Hadmin as (v & Hp & Hv & _). exists v. split; [done|]. intros r Hr.
    rewrite Forall_forall in Hv. specialize (Hv r Hr). unfold admin_gone, admin_expired, before in Hv.
    cbn in Hv. by bool_to_prop.
Qed.

(** ** The run *)

(** The sweeps of a run that succeeded, and those whose failure is one. *)
Fixpoint successes (p : Purger) (rounds : list round) (db : purge_db) : nat :=
  match rounds with
  | [] => O
  | r :: rounds =>
      let '(_, err, db, _) := PurgeOnce (rn_env r) p (rn_now r) 0 db in
      let rest := if rn_done r then O else successes p rounds db in
      match err with None => S rest | Some _ => rest end
  end.

Lemma swept_mono {R} (P : R → bool) old new e : swept P old new e → (length new ≤ length old)%nat ∧
  ∀ Q : R → bool, Forall (λ r, Q r = false) old → Forall (λ r, Q r = false) new.
Proof.
  intros (v & Hp & _). split; [rewrite Hp, length_app; lia|]. intros Q HQ. rewrite Hp in HQ.
  by apply Forall_app in HQ as [_ HQ].
Qed.

(** One table over a run: cleared of what was expired at [T], or the capacity
    of every sweep so far has been used. *)
Definition drained {R} (n : nat) (P : R → bool) (start now : list R) : Prop :=
  Forall (λ r, P r = false) now ∨ (length now + n * sweep_capacity ≤ length start)%nat.

Lemma drained_step {R} n (P Q : R → bool) start old new e :
  (∀ r, P r = true → Q r = true) →
  drained n P start old → swept Q old new e → drained (match e with None => S n | Some _ => n end) P start new.
Proof.
  intros HPQ Hd Hs. destruct (swept_mono _ _ _ _ Hs) as [Hl Hm].
  destruct Hd as [Hd|Hd]; [left; by apply Hm|]. destruct Hs as (v & Hp & _ & Hc).
  destruct e as [e|]; [right; lia|].
  destruct (Hc eq_refl) as [Hf|Hcap]; [left|right].
  - eapply Forall_impl; [exact Hf|]. cbn. intros r Hr. destruct (P r) eqn:E; [|done]. by rewrite (HPQ r E) in Hr.
  - rewrite Hp, length_app in Hd. lia.
Qed.

Lemma drained_end {R} n (P : R → bool) start now :
  drained n P start now → (length start ≤ n * sweep_capacity)%nat → Forall (λ r, P r = false) now.
Proof. intros [|Hd] Hl; [done|]. destruct now; [constructor|]. cbn [length] in Hd. lia. Qed.

Lemma before_mono T now w t : T ≤ now → before (T - w) t = true → before (now - w) t = true.
Proof. unfold before. intros. bool_to_prop. apply Z.ltb_lt. lia. Qed.

Lemma write_expired_mono p T now r : T ≤ now → write_expired p T r = true → write_expired p now r = true.
Proof.
  intros HT. unfold write_expired. destruct (_ && _); [by apply before_mono|].
  destruct (negb _); [by apply before_mono|done].
Qed.

(** What a run has done to every table after [n] successful sweeps. *)
Definition all_drained (p : Purger) (T : Z) (n : nat) (start now : purge_db) : Prop :=
  drained n (write_expired p T) (audit_rows start) (audit_rows now) ∧
  drained n (quota_gone p T) (quota_rows start) (quota_rows now) ∧
  drained n (ban_gone p T) (ban_rows start) (ban_rows now) ∧
  drained n (admin_gone p T) (pd_admin_audit start) (pd_admin_audit now).

Definition fair_round (T : Z) (r : round) : Prop :=
  (∀ A k (l : list A), pe_scan (rn_env r) A k l ≡ₚ l) ∧ T ≤ rn_now r.

Lemma round_drained p T r n start db : fair_round T r → all_drained p T n start db →
  let '(_, e, db', _) := PurgeOnce (rn_env r) p (rn_now r) 0 db in
  all_drained p T (match e with None => S n | Some _ => n end) start db'.
Proof.
  intros [Hscan HT] (H1 & H2 & H3 & H4). pose proof (PurgeOnce_swept (rn_env r) p (rn_now r) 0 db Hscan) as H.
  destruct (PurgeOnce _ _ _ _ _) as [[[res e] db'] k]. destruct H as (S1 & S2 & S3 & S4).
  split_and!; (eapply drained_step; [|eassumption|eassumption]); intros x.
  - by apply write_expired_mono.
  - unfold quota_gone, quota_expired. destruct (0 <? _); [by apply before_mono|done].
  - unfold ban_gone, ban_expired. destruct (0 <? _); [by apply before_mono|done].
  - unfold admin_gone, admin_expired. destruct (0 <? _); [by apply before_mono|done].
Qed.

Lemma run_drained p T rounds n start db : Forall (fair_round T) rounds → all_drained p T n start db →
  all_drained p T (n + successes p rounds db) start (run_rounds p rounds db).1.
Proof.
  intros Hf. revert n db. induction Hf as [|r rounds Hr Hf IH]; intros n db H; cbn [run_rounds successes].
  { rewrite Nat.add_0_r. exact H. }
  unfold sweepAndLog. pose proof (round_drained p T r n start db Hr H) as Hs.
  destruct (PurgeOnce _ _ _ _ _) as [[[res e] db'] k]. destruct (rn_done r).
  - destruct e; cbn [fst]; [rewrite Nat.add_0_r|rewrite Nat.add_1_r]; exact Hs.
  - specialize (IH _ _ Hs). destruct (run_rounds p rounds db') as [db2 l2]. cbn [fst] in *.
    destruct e; [exact IH|]. rewrite <-Nat.add_succ_comm. exact IH.
Qed.


(** The log of a run: the configuration first, a line for every sweep that
    failed while the server was up, and the end exactly if the context was seen
    done. *)
Lemma Run_log p rounds db : ∃ l, (Run p rounds db).2 = PurgeStarted (pu_cfg p) :: l ∧
  (PurgeStopped ∈ l ↔ Exists (λ r, rn_done r = true) rounds) ∧
  (∀ cfg, PurgeStarted cfg ∉ l).
Proof.
  unfold Run. assert (∀ db, let l := (run_rounds p rounds db).2 in
    (PurgeStopped ∈ l ↔ Exists (λ r, rn_done r = true) rounds) ∧ ∀ cfg, PurgeStarted cfg ∉ l) as H.
  { induction rounds as [|r rounds IH]; intros d; cbn [run_rounds].
    { split; [|by intros cfg ?%elem_of_nil]. rewrite elem_of_nil, Exists_nil. done. }
    unfold sweepAndLog. destruct (PurgeOnce _ _ _ _ _) as [[[res e] d'] k]. specialize (IH d').
    destruct (run_rounds p rounds d') as [d2 l2]. cbn [snd] in *. destruct IH as [IH1 IH2].
    rewrite Exists_cons, <-IH1.
    destruct (rn_done r), e as [e|]; [destruct (rn_cancelled r)|destruct (_ =? _)|destruct (rn_cancelled r)|destruct (_ =? _)];
      cbn [snd app]; (split; [|intros cfg; specialize (IH2 cfg)]); rewrite ?elem_of_cons, ?elem_of_nil; naive_solver. }
  specialize (H db). destruct (run_rounds p rounds db) as [db' l]. exists l. by destruct H.
Qed.

(** ** Concrete tables *)

Definition demo_purge_env : purge_env := mkPurgeEnv (λ _, true) (λ _ _ l, l) (λ _, false).
Definition demo_row (selector : string) (created : Z) : WriteAuditEntry :=
  mkAudit "0xaa" "" "0" 4 selector "" "success" "" created.
Definition demo_purge_db : purge_db :=
  mkPurgeDb (mkDb {[("0xaa", 0) := 7]} {["0xbb" := mkBan "0xbb" "" 5]}
               [demo_row "0x11111111" 10; demo_row "0x22222222" 20; demo_row "0x22222222" 7200000000000]) [].

Definition demo_retention_environ : environ :=
  <["MCP_WRITE_AUDIT_RETENTION" := "1h"]> (<["MCP_WRITE_AUDIT_GRANT_ROLE_RETENTION" := "4h"]> demo_environ).

Lemma purge_removes_only_expired_witness :
  ∃ db', (PurgeOnce demo_purge_env (mkPurger (mkRetention 3600000000000 14400000000000 0 0 0 3600000000000) "0x11111111")
            7300000000000 0 demo_purge_db).1.2 = db' ∧
    audit_rows db' = [demo_row "0x11111111" 10; demo_row "0x22222222" 7200000000000] ∧
    signer_blacklist (pd_keyless db') !! "0xbb" = Some (mkBan "0xbb" "" 5) ∧
    signer_quota (pd_keyless db') !! ("0xaa", 0) = Some 7.
Proof.
  destruct (Load demo_retention_environ) as [c|] eqn:E; [|vm_compute in E; discriminate].
  assert (Retention (keyless c) = mkRetention 3600000000000 14400000000000 0 0 0 3600000000000) as Hr
    by (vm_compute in E; injection E as <-; reflexivity).
  destruct (PurgeOnce _ _ _ _ _) as [[[res e] db'] k'] eqn:Er. cbn [fst snd].
  destruct (purge_removes_only_expired demo_retention_environ c "0x11111111"
    (mkPurger (mkRetention 3600000000000 14400000000000 0 0 0 3600000000000) "0x11111111") demo_purge_env 7300000000000 0
    demo_purge_db res e db' k' E) as (_ & (_ & Hban) & (_ & Hquota) & _); [by rewrite Hr|done|exact Er|].
  exists db'. split_and!; [done|by vm_compute in Er; injection Er as <- <- <- <-| |].
  - destruct (Hban "0xbb" (mkBan "0xbb" "" 5)) as [|[Hx _]]; [done|done|]. rewrite Hr in Hx. cbn in Hx. lia.
  - destruct (Hquota "0xaa" 0 7) as [|[Hx _]]; [done|done|]. rewrite Hr in Hx. cbn in Hx. lia.
Defined.


(** The counters age on the start of their window. Nothing requires the retention
    to be at least the window, and with a shorter one a sweep deletes counters
    that are still in force: the signer's quota starts again. *)
Lemma short_retention_resets_quota :
  let cfg := mkRetention 0 0 3600000000000 0 0 3600000000000 in
  let window := 86400000000000 in let now := 7300000000000 in
  ∃ c, Load (<["MCP_SIGNER_QUOTA_RETENTION" := "1h"]> demo_environ) = Ok c ∧
    Retention (keyless c) = cfg ∧ SignerWriteWindow (keyless c) = window ∧
    signer_quota (pd_keyless demo_purge_db) !! ("0xaa", WindowStart now window) = Some 7 ∧
    signer_quota (pd_keyless (PurgeOnce demo_purge_env (mkPurger cfg "") now 0 demo_purge_db).1.2)
      !! ("0xaa", WindowStart now window) = None.
Proof. cbv zeta. eexists. split; [vm_compute; reflexivity|]. vm_compute. done. Qed.
