(* ===== verification/Server.v ===== *)
(** The HTTP server (internal/mcp/server.go): the chain of guards RunHTTP and
    wrapSecurityChain put in front of the MCP handler, the response metrics
    (response_metrics.go, internal/telemetry/http_responses.go), and the path
    from an HTTP request to the broadcast relay.

    The MCP SDK's handler is a parameter of the chain. ServeMux's redirect of
    unclean paths, JSON decoding and address syntax are parameters too; the
    listener, its timeouts and the shutdown are not modelled. *)

From S2P Require Import Prelude Http Ingress RateLimit GoErrors Fs Hex Auth KeyStore ManagedKeys PendingKeys Evm SignerStores Relay.

(** ** Response metrics *)

Definition ClassifyStatus (status : Z) : string :=
  if (500 <=? status) && (status <? 600) then "server_fault"
  else if (status =? 429) || (status =? 408) then "customer_impact"
  else if (400 <=? status) && (status <? 500) then "client_error"
  else if (100 <=? status) && (status <? 400) then "success"
  else "server_fault".

(** ** The server's state and configuration *)

Record srv_st (B K App : Type) := mkSrv {
  sv_fail : IPFailRateLimiter B;
  sv_anon : AnonReadRateLimiter B;
  sv_client : ClientRateLimiter B;
  sv_keys : K;
  sv_requests : kr_state (B := B);             (* the key-request endpoint's *)
  sv_responses : list (string * string);       (* mcp_http_responses_total: class, method *)
  sv_app : App                                  (* behind the MCP handler *)
}.
Arguments mkSrv {B K App} _ _ _ _ _ _ _.
Arguments sv_fail {B K App} _. Arguments sv_anon {B K App} _. Arguments sv_client {B K App} _.
Arguments sv_keys {B K App} _. Arguments sv_requests {B K App} _. Arguments sv_responses {B K App} _.
Arguments sv_app {B K App} _.

(** Which optional parts RunHTTP was given. *)
Record server_cfg := mkServerCfg {
  sc_validator : bool;
  sc_limiter : bool; sc_anonLimiter : bool; sc_failLimiter : bool;
  sc_allowedOrigins : option OriginAllowlist;
  sc_metrics : bool;
  sc_keyRequest : option KeyRequestHandlerConfig;
  sc_keylessReads : bool;
  sc_renewalURL : string;
  sc_trustProxyHeaders : bool
}.

Definition MaxRequestBodyBytes : Z := 10 * 1024 * 1024.

Section Chain.
Context {B K App : Type} `{TokenBucket B}.
Context (range : gmap string (clientBucket B) → list (string * clientBucket B)).
Context (validate : request → string → K → result error Claims * K).
Context (mail_ok : string → bool) (decode_body : Z → string → option KeyRequestInput).
Context (mux_redirect : request → option response) (os : os_env) (uuid : string).
Context (cfg : server_cfg).

Abbreviation St := (srv_st B K App).

Definition put_fail (l : IPFailRateLimiter B) (st : St) : St :=
  mkSrv l (sv_anon st) (sv_client st) (sv_keys st) (sv_requests st) (sv_responses st) (sv_app st).
Definition put_anon (k : keyedRateLimiter B) (st : St) : St :=
  mkSrv (sv_fail st) (mkAnon k (ar_trustProxy (sv_anon st)) (ar_hops (sv_anon st))) (sv_client st)
    (sv_keys st) (sv_requests st) (sv_responses st) (sv_app st).
Definition put_client (k : keyedRateLimiter B) (st : St) : St :=
  mkSrv (sv_fail st) (sv_anon st) k (sv_keys st) (sv_requests st) (sv_responses st) (sv_app st).
Definition put_keys (k : K) (st : St) : St :=
  mkSrv (sv_fail st) (sv_anon st) (sv_client st) k (sv_requests st) (sv_responses st) (sv_app st).
Definition put_requests (q : kr_state) (st : St) : St :=
  mkSrv (sv_fail st) (sv_anon st) (sv_client st) (sv_keys st) q (sv_responses st) (sv_app st).
Definition put_responses (l : list (string * string)) (st : St) : St :=
  mkSrv (sv_fail st) (sv_anon st) (sv_client st) (sv_keys st) (sv_requests st) l (sv_app st).

Definition run_validator (r : request) (token : string) (st : St) : result error Claims * St :=
  let '(res, k) := validate r token (sv_keys st) in (res, put_keys k st).

Definition penalize (r : request) (st : St) : St :=
  if sc_failLimiter cfg then penalize_request range sv_fail put_fail r st else st.

Definition responseMetricsMiddleware (next : handler St) : handler St := λ r st,
  let '(resp, st) := next r st in
  if sc_metrics cfg
  then (resp, put_responses (sv_responses st ++ [(ClassifyStatus (rs_status resp), rq_method r)]) st)
  else (resp, st).

Definition limitRequestBody (next : handler St) : handler St := λ r st, next (max_bytes MaxRequestBodyBytes r) st.

(** The public endpoint on its part of the state. *)
Definition key_request (kcfg : KeyRequestHandlerConfig) : handler St := λ r st,
  let '(resp, q) := KeyRequestHandler mail_ok decode_body range kcfg os uuid r (sv_requests st) in
  (resp, put_requests q st).

(** The mux of RunHTTP. *)
Definition route (mcpChain : handler St) : handler St :=
  match sc_keyRequest cfg with
  | None => mcpChain
  | Some kcfg => λ r st,
      match mux_redirect r with
      | Some redirect => (redirect, st)
      | None => if rq_path r =s KeyRequestPath then key_request kcfg r st else mcpChain r st
      end
  end.

(** RunHTTP's chain around the MCP handler, up to the path mux. *)
Definition mcp_chain (mcpHandler : handler St) : handler St :=
  let mcpChain := if sc_limiter cfg then ClientMiddleware range sv_client put_client mcpHandler else mcpHandler in
  let mcpChain := if sc_anonLimiter cfg then AnonMiddleware range sv_anon put_anon mcpChain else mcpChain in
  AuthMiddleware (if sc_validator cfg then Some run_validator else None) penalize mcpChain
    (sc_keylessReads cfg) (sc_renewalURL cfg).

Definition allowed_origins : OriginAllowlist := default DefaultOriginAllowlist (sc_allowedOrigins cfg).

Definition wrapSecurityChain (routed : handler St) : handler St :=
  let bodyLimited := limitRequestBody routed in
  let failGuarded := if sc_failLimiter cfg then RateLimit.Wrap range sv_fail put_fail bodyLimited else bodyLimited in
  let guarded := originGuard (requireForwardedHTTPS failGuarded (sc_trustProxyHeaders cfg)) allowed_origins in
  CORSMiddleware (responseMetricsMiddleware guarded) allowed_origins.

(** The handler RunHTTP serves. *)
Definition RunHTTP (mcpHandler : handler St) : handler St :=
  wrapSecurityChain (wellKnownGuard (route (mcp_chain mcpHandler))).
End Chain.

(** ** The write tool behind the SDK *)

Section Tools.
Context `{EthLib}.

(** A tools/call of evm_send_raw_transaction as the receiving middleware and
    the registered handler treat it; the client gets the sanitised error. *)
Definition call_send (keylessReads : bool) (rcfg : relay_cfg) (env : relay_env) (c : option Claims)
    (signedTxHex : string) (st : relay_st) : result error string * relay_st :=
  match NewAuthEnforcementMiddleware keylessReads (rc_keylessWrites rcfg) (λ _ _ _, Ok tt) c "tools/call"
          (HasName writeToolName) with
  | Err e => (Err e, st)
  | Ok _ => let '(r, st) := sendRawTxHandler rcfg env c signedTxHex st in (sanitizeToolErr r, st)
  end.

(** What a request with these claims can make the SDK do to the relay. *)
Definition relay_call (keylessReads : bool) (rcfg : relay_cfg) (c : option Claims) (a a' : relay_st) : Prop :=
  ∃ env signedTxHex, a' = (call_send keylessReads rcfg env c signedTxHex a).2.
End Tools.

(** ** Lemmas: mediation *)

Section Mediation.
Context {B K App : Type}.
Abbreviation St := (srv_st B K App).

(** A wrapper either answers on its own, leaving the application state alone, or
    runs the inner handler exactly once, on a request and a state it relates to
    its own by [P], and only dresses up the outcome. *)
Definition mediates (F : handler St → handler St) (P : request → St → request → St → Prop) : Prop :=
  ∀ r st,
    (∃ out, (∀ nx, F nx r st = out) ∧ sv_app out.2 = sv_app st) ∨
    (∃ r' st' post, (∀ nx, F nx r st = post (nx r' st')) ∧ (∀ p, sv_app (post p).2 = sv_app p.2) ∧
       sv_app st' = sv_app st ∧ P r st r' st').

Lemma mediates_impl F (P Q : request → St → request → St → Prop) :
  mediates F P → (∀ r st r' st', P r st r' st' → Q r st r' st') → mediates F Q.
Proof.
  intros HF HPQ r st. destruct (HF r st) as [H|(r' & st' & post & H & Hp & Ha & HP)]; [by left|].
  right. exists r', st', post. auto.
Qed.

Lemma mediates_compose F G (P Q : request → St → request → St → Prop) :
  mediates F P → mediates G Q →
  mediates (λ nx, F (G nx)) (λ r st r2 st2, ∃ r1 st1, P r st r1 st1 ∧ Q r1 st1 r2 st2).
Proof.
  intros HF HG r st. destruct (HF r st) as [(out & H & Ha)|(r1 & st1 & post & H & Hp & Ha & HP)].
  { left. exists out. split; [|done]. intros nx. apply H. }
  destruct (HG r1 st1) as [(out & H' & Ha')|(r2 & st2 & post' & H' & Hp' & Ha' & HQ)].
  - left. exists (post out). split; [intros nx; by rewrite H, H'|]. by rewrite Hp, Ha'.
  - right. exists r2, st2, (λ p, post (post' p)). split_and!.
    + intros nx. by rewrite H, H'.
    + intros p. by rewrite Hp, Hp'.
    + congruence.
    + eauto.
Qed.

Lemma mediates_id : mediates (λ nx, nx) (λ r st r' st', r' = r ∧ st' = st).
Proof. intros r st. right. by exists r, st, id. Qed.

Lemma mediates_if (b : bool) F (P : request → St → request → St → Prop) :
  (b = true → mediates F P) →
  mediates (λ nx, if b then F nx else nx)
    (λ r st r' st', if b then P r st r' st' else r' = r ∧ st' = st).
Proof. destruct b; intros H; [by apply H|apply mediates_id]. Qed.

(** Wrappers that pass the request and the state on unchanged. *)
Definition guards (C : request → Prop) (r : request) (st : St) (r' : request) (st' : St) : Prop :=
  r' = r ∧ st' = st ∧ C r.

Lemma originGuard_mediates allow :
  mediates (λ nx, originGuard nx allow) (guards (λ r, Allowed allow (header r "Origin") = true)).
Proof.
  intros r st. unfold originGuard, guards. destruct (Allowed allow (header r "Origin")); cbn.
  - right. by exists r, st, id.
  - left. eexists. split; [reflexivity|done].
Qed.

Lemma CORS_mediates allow : mediates (λ nx, CORSMiddleware nx allow) (guards (λ _, True)).
Proof.
  intros r st. unfold CORSMiddleware, guards.
  destruct (_ && _); [left; destruct (_ || _); (eexists; split; [reflexivity|done])|].
  right. destruct (_ && _); [|by exists r, st, id].
  eexists r, st, (with_headers _). split; [reflexivity|]. split; [by intros []|done].
Qed.

Definition forwarded_ok (trust : bool) (r : request) : Prop :=
  trust = true → forwardedProtoScheme (header r "X-Forwarded-Proto") = "" ∨
    equal_fold (forwardedProtoScheme (header r "X-Forwarded-Proto")) "https" = true.

Lemma forwarded_mediates trust : mediates (λ nx, requireForwardedHTTPS nx trust) (guards (forwarded_ok trust)).
Proof.
  intros r st. unfold requireForwardedHTTPS, guards, forwarded_ok. destruct trust; cbn.
  2: { right. exists r, st, id. split_and!; done. }
  destruct (negb _ && negb _) eqn:E; [left; eexists; split; [reflexivity|done]|].
  right. exists r, st, id. split_and!; try done. intros _.
  apply andb_false_iff in E as [E|E]; bool_to_prop; auto.
Qed.

Definition not_discovery (r : request) : Prop :=
  rq_path r ≠ wellKnownProtectedResource ∧ rq_path r ≠ wellKnownAuthServer.

Lemma wellKnown_mediates : mediates wellKnownGuard (guards not_discovery).
Proof.
  intros r st. unfold wellKnownGuard, guards, not_discovery.
  destruct (_ || _) eqn:E; [left; eexists; split; [reflexivity|done]|].
  right. bool_to_prop. exists r, st, id. split_and!; done.
Qed.

Lemma metrics_mediates cfg : mediates (responseMetricsMiddleware cfg) (guards (λ _, True)).
Proof.
  intros r st. right.
  exists r, st, (λ p, if sc_metrics cfg
    then (p.1, put_responses (sv_responses p.2 ++ [(ClassifyStatus (rs_status p.1), rq_method r)]) p.2) else p).
  split_and!; [|by intros []; destruct (sc_metrics cfg)|done|done].
  intros nx. unfold responseMetricsMiddleware. destruct (nx r st) as [resp st1]. by destruct (sc_metrics cfg).
Qed.

Definition capped (r : request) : request := max_bytes MaxRequestBodyBytes r.

Lemma limit_mediates : mediates (@limitRequestBody B K App) (λ r st r' st', r' = capped r ∧ st' = st).
Proof. intros r st. right. by exists (capped r), st, id. Qed.

Context `{TokenBucket B}.
Context (range : gmap string (clientBucket B) → list (string * clientBucket B)).
Context (validate : request → string → K → result error Claims * K).
Context (mail_ok : string → bool) (decode_body : Z → string → option KeyRequestInput).
Context (mux_redirect : request → option response) (os : os_env) (uuid : string).
Context (cfg : server_cfg).

(** The source has tokens left for failed attempts. *)
Definition source_ok (r : request) (st : St) : Prop :=
  (peek range (IPFromRequest (sv_fail st) r) (rq_now r) (if_ips (sv_fail st))).1 = true.

Lemma fail_mediates :
  mediates (RateLimit.Wrap range sv_fail put_fail)
    (λ r st r' st', r' = r ∧ source_ok r st ∧ ∃ l, st' = put_fail l st).
Proof.
  intros r st. unfold RateLimit.Wrap, source_ok.
  destruct (peek range _ _ _) as [[] k] eqn:E; cbn.
  - right. eexists r, _, id. split_and!; [reflexivity|done|done|done|done|eauto].
  - left. eexists. split; [reflexivity|done].
Qed.

Lemma anon_mediates :
  mediates (AnonMiddleware range sv_anon put_anon)
    (λ r st r' st', r' = r ∧ (st' = st ∨ ∃ k, st' = put_anon k st) ∧
       (rq_claims r = None →
        (allow range (clientIP r (ar_trustProxy (sv_anon st)) (ar_hops (sv_anon st))) (rq_now r)
           (ar_inner (sv_anon st))).1 = true)).
Proof.
  intros r st. unfold AnonMiddleware, ClaimsFromContext. destruct (rq_claims r) as [c|] eqn:Ec.
  { right. exists r, st, id. split_and!; auto. done. }
  destruct (allow range _ _ _) as [[] k] eqn:E; cbn.
  - right. eexists r, _, id. split_and!; [reflexivity|done|done|done|right; eauto|done].
  - left. eexists. split; [reflexivity|done].
Qed.

Lemma client_mediates :
  mediates (ClientMiddleware range sv_client put_client)
    (λ r st r' st', r' = r ∧
       (∀ c, rq_claims r = Some c → ClientID c ≠ "" →
        (allow range (ClientID c) (rq_now r) (sv_client st)).1 = true)).
Proof.
  intros r st. unfold ClientMiddleware, ClaimsFromContext, ClientIDFromContext.
  destruct (rq_claims r) as [c|] eqn:Ec; cbn.
  2: { right. exists r, st, id. split_and!; auto. done. }
  destruct (ClientID c =s "") eqn:Eid.
  { bool_to_prop. right. exists r, st, id. split_and!; auto. intros c' [= <-]. done. }
  destruct (allow range (ClientID c) _ _) as [[] k] eqn:E; cbn.
  - right. eexists r, _, id. split_and!; [reflexivity|done|done|done|]. intros c' [= <-] _. by rewrite E.
  - left. eexists. split; [reflexivity|done].
Qed.

Definition authenticated (r : request) (st : St) (r' : request) (st' : St) : Prop :=
  (sc_validator cfg = false ∧ r' = r ∧ st' = st) ∨
  (sc_validator cfg = true ∧ sc_keylessReads cfg = true ∧ header r "Authorization" = "" ∧ r' = r ∧ st' = st) ∨
  (sc_validator cfg = true ∧ ∃ token c k, header r "Authorization" = "Bearer " +:+ token ∧
     validate r token (sv_keys st) = (Ok c, k) ∧ r' = with_claims c r ∧ st' = put_keys k st).

Lemma penalize_app r (st : St) : sv_app (penalize range cfg r st) = sv_app st.
Proof. unfold penalize, penalize_request. by destruct (sc_failLimiter cfg). Qed.

Lemma auth_mediates :
  mediates (λ nx, AuthMiddleware (if sc_validator cfg then Some (run_validator validate) else None)
                    (penalize range cfg) nx (sc_keylessReads cfg) (sc_renewalURL cfg)) authenticated.
Proof.
  intros r st. unfold AuthMiddleware, authenticated. destruct (sc_validator cfg).
  2: { right. exists r, st, id. split_and!; auto. }
  destruct (header r "Authorization" =s "") eqn:E0.
  { bool_to_prop. destruct (sc_keylessReads cfg).
    - right. exists r, st, id. split_and!; try done. right. left. auto.
    - left. eexists. split; [reflexivity|]. apply penalize_app. }
  destruct (negb (has_prefix bearer_prefix _)) eqn:E1.
  { left. eexists. split; [reflexivity|]. apply penalize_app. }
  bool_to_prop. apply trim_prefix_spec in E1. unfold run_validator.
  destruct (validate r _ (sv_keys st)) as [[c|e] k] eqn:Ev.
  - right. eexists (with_claims c r), _, id. split_and!; [reflexivity|done|done|]. right. right. split; [done|].
    by eexists _, c, k.
  - left. eexists. split; [reflexivity|]. etrans; [apply penalize_app|done].
Qed.

Definition not_endpoint (r : request) : Prop :=
  is_Some (sc_keyRequest cfg) → rq_path r ≠ KeyRequestPath.

Lemma route_mediates :
  mediates (route range mail_ok decode_body mux_redirect os uuid cfg) (guards not_endpoint).
Proof.
  intros r st. unfold route, guards, not_endpoint. destruct (sc_keyRequest cfg) as [kcfg|].
  2: { right. exists r, st, id. split_and!; done. }
  destruct (mux_redirect r); [left; eexists; split; [reflexivity|done]|].
  destruct (rq_path r =s KeyRequestPath) eqn:E; bool_to_prop.
  - left. eexists. split; [reflexivity|]. unfold key_request.
    by destruct (KeyRequestHandler _ _ _ _ _ _ _ _).
  - right. exists r, st, id. split_and!; done.
Qed.

(** What holds when the MCP handler runs, on [r'] and [st'], for the request
    [r] that arrived in [st]. *)
Record mediated (r : request) (st : St) (r' : request) (st' : St) : Prop := {
  md_origin : Allowed (allowed_origins cfg) (header r "Origin") = true;
  md_https : forwarded_ok (sc_trustProxyHeaders cfg) r;
  md_source : sc_failLimiter cfg = true → source_ok r st;
  md_path : not_discovery r ∧ not_endpoint r;
  md_request : rq_headers r' = rq_headers r ∧ rq_path r' = rq_path r ∧ rq_body r' = rq_body (capped r) ∧ rq_now r' = rq_now r;
  md_body : rq_body_err r' = rq_body_err (capped r);
  md_identity :
    (sc_validator cfg = false ∧ rq_claims r' = rq_claims r) ∨
    (sc_validator cfg = true ∧ sc_keylessReads cfg = true ∧ header r "Authorization" = "" ∧
       rq_claims r' = rq_claims r) ∨
    (sc_validator cfg = true ∧ ∃ token c k, header r "Authorization" = "Bearer " +:+ token ∧
       validate (capped r) token (sv_keys st) = (Ok c, k) ∧ rq_claims r' = Some c);
  md_anon : sc_anonLimiter cfg = true → rq_claims r' = None →
    (allow range (clientIP r (ar_trustProxy (sv_anon st)) (ar_hops (sv_anon st))) (rq_now r)
       (ar_inner (sv_anon st))).1 = true;
  md_client c : sc_limiter cfg = true → rq_claims r' = Some c → ClientID c ≠ "" →
    (allow range (ClientID c) (rq_now r) (sv_client st)).1 = true
}.

Lemma clientIP_capped r trust hops : clientIP (capped r) trust hops = clientIP r trust hops.
Proof. reflexivity. Qed.

Lemma RunHTTP_mediates :
  mediates (RunHTTP range validate mail_ok decode_body mux_redirect os uuid cfg) mediated.
Proof.
  unfold RunHTTP, wrapSecurityChain, mcp_chain.
  eapply mediates_impl.
  { eapply (mediates_compose (λ nx, CORSMiddleware nx _)); [apply CORS_mediates|].
    eapply (mediates_compose (responseMetricsMiddleware cfg)); [apply metrics_mediates|].
    eapply (mediates_compose (λ nx, originGuard nx _)); [apply originGuard_mediates|].
    eapply (mediates_compose (λ nx, requireForwardedHTTPS nx _)); [apply forwarded_mediates|].
    eapply (mediates_compose (λ nx, if sc_failLimiter cfg then RateLimit.Wrap range sv_fail put_fail nx else nx));
      [apply mediates_if; intros _; apply fail_mediates|].
    eapply (mediates_compose (@limitRequestBody B K App)); [apply limit_mediates|].
    eapply (mediates_compose wellKnownGuard); [apply wellKnown_mediates|].
    eapply (mediates_compose (route range mail_ok decode_body mux_redirect os uuid cfg)); [apply route_mediates|].
    eapply (mediates_compose (λ nx, AuthMiddleware _ _ nx _ _)); [apply auth_mediates|].
    eapply (mediates_compose (λ nx, if sc_anonLimiter cfg then AnonMiddleware range sv_anon put_anon nx else nx));
      [apply mediates_if; intros _; apply anon_mediates|].
    apply mediates_if; intros _; apply client_mediates. }
  intros r st r' st'.
  intros (? & ? & (-> & -> & _) & ? & ? & (-> & -> & _) & ? & ? & (-> & -> & Horigin) & ? & ? & (-> & -> & Hhttps)
    & r1 & st1 & Hfail & ? & ? & [-> ->] & ? & ? & (-> & -> & Hdisc) & ? & ? & (-> & -> & Hend)
    & r3 & st3 & Hauth & r4 & st4 & Hanon & Hclient).
  assert (r1 = r ∧ (sc_failLimiter cfg = true → source_ok r st) ∧ sv_keys st1 = sv_keys st ∧
    sv_anon st1 = sv_anon st ∧ sv_client st1 = sv_client st) as (-> & Hsrc & Hk & Ha & Hc).
  { destruct (sc_failLimiter cfg); [destruct Hfail as (-> & ? & l & ->)|destruct Hfail as [-> ->]]; done. }
  assert (rq_headers r3 = rq_headers r ∧ rq_path r3 = rq_path r ∧ rq_body r3 = rq_body (capped r) ∧
    rq_remote r3 = rq_remote r ∧ rq_now r3 = rq_now r ∧ sv_anon st3 = sv_anon st ∧ sv_client st3 = sv_client st ∧
    rq_body_err r3 = rq_body_err (capped r)) as (Hh & Hp & Hb & Hrem & Hnow & Ha3 & Hc3 & Herr).
  { destruct Hauth as [(_ & -> & ->)|[(_ & _ & _ & -> & ->)|(_ & tok & c & k & _ & _ & -> & ->)]]; done. }
  assert (r4 = r3 ∧ sv_client st4 = sv_client st ∧ (sc_anonLimiter cfg = true → rq_claims r3 = None →
    (allow range (clientIP r3 (ar_trustProxy (sv_anon st)) (ar_hops (sv_anon st))) (rq_now r3)
       (ar_inner (sv_anon st))).1 = true)) as (-> & Hc4 & Hanon').
  { destruct (sc_anonLimiter cfg); [|by destruct Hanon as [-> ->]].
    destruct Hanon as (-> & Hst & Hal). rewrite <-Ha3. split_and!; [done| |done].
    by destruct Hst as [->|[k ->]]. }
  assert (r' = r3 ∧ (sc_limiter cfg = true → ∀ c, rq_claims r3 = Some c → ClientID c ≠ "" →
    (allow range (ClientID c) (rq_now r3) (sv_client st)).1 = true)) as [-> Hclient'].
  { destruct (sc_limiter cfg); [|by destruct Hclient as [-> ->]].
    destruct Hclient as (-> & Hal). rewrite <-Hc4. done. }
  assert (∀ t h, clientIP r3 t h = clientIP r t h) as Hip.
  { intros t h. unfold clientIP, header. by rewrite Hh, Hrem. }
  split; try done.
  - unfold authenticated in Hauth. rewrite Hk in Hauth.
    destruct Hauth as [(? & -> & _)|[(? & ? & ? & -> & _)|(? & tok & c & k & ? & ? & -> & _)]];
      [by left|by right; left|right; right; split; [done|]; by exists tok, c, k].
  - intros Hl Hn. specialize (Hanon' Hl Hn). by rewrite Hip, Hnow in Hanon'.
  - intros c Hl Hcl Hid. specialize (Hclient' Hl c Hcl Hid). by rewrite Hnow in Hclient'.
Qed.
End Mediation.

(** Without the right identity the write tool does nothing to the node. *)
Lemma relay_call_sent `{EthLib} kr rcfg c a a' :
  rc_keylessWrites rcfg = false → relay_call kr rcfg c a a' →
  rl_sent a' ≠ rl_sent a →
  match c with
  | None => kr = false
  | Some c => HasAnyRole c writer_roles = true
  end.
Proof.
  intros Hkw (env & tx & ->). unfold call_send, NewAuthEnforcementMiddleware. rewrite Hkw.
  destruct c as [c|].
  - intros Hne. destruct (HasAnyRole c writer_roles) eqn:Er; [done|]. exfalso. apply Hne.
    unfold sendRawTxHandler, requireRole. rewrite Er.
    repeat case_match; by simplify_eq/=.
  - destruct kr; [|done]. cbn. by intros [].
Qed.

Lemma relay_calls_sent `{EthLib} kr rcfg c a a' :
  rc_keylessWrites rcfg = false → rtc (relay_call kr rcfg c) a a' →
  rl_sent a' ≠ rl_sent a →
  match c with
  | None => kr = false
  | Some c => HasAnyRole c writer_roles = true
  end.
Proof.
  intros Hkw Hr. induction Hr as [|a a1 a2 H1 Hr IH]; intros Hne; [done|].
  destruct (decide (rl_sent a1 = rl_sent a)) as [Heq|Heq].
  - apply IH. congruence.
  - by eapply relay_call_sent.
Qed.

(** A broadcast identifies its sender: the validator accepted the request's token
    for a client with a writing role. The relay is a part of the application. *)
Lemma broadcast_identity {B K App} `{TokenBucket B} `{EthLib} (relay : App → relay_st) range
    (validate : request → string → K → result error Claims * K)
    mail_ok decode_body mux_redirect os uuid cfg rcfg mcp r (st : srv_st B K App) :
  sc_validator cfg = true → rc_keylessWrites rcfg = false → rq_claims r = None →
  (∀ r st, rtc (relay_call (sc_keylessReads cfg) rcfg (rq_claims r)) (relay (sv_app st)) (relay (sv_app (mcp r st).2))) →
  rl_sent (relay (sv_app (RunHTTP range validate mail_ok decode_body mux_redirect os uuid cfg mcp r st).2))
    ≠ rl_sent (relay (sv_app st)) →
  ∃ token c, header r "Authorization" = "Bearer " +:+ token ∧
    (validate (capped r) token (sv_keys st)).1 = Ok c ∧ HasAnyRole c writer_roles = true.
Proof.
  intros Hval Hkw Hanon Hsdk.
  destruct (RunHTTP_mediates range validate mail_ok decode_body mux_redirect os uuid cfg r st)
    as [(out & Hout & Happ)|(r' & st1 & post & Hrun & Hpost & Happ & Hmed)].
  { rewrite Hout. congruence. }
  rewrite Hrun, Hpost, <-Happ. intros Hne.
  pose proof (relay_calls_sent _ _ _ _ _ Hkw (Hsdk r' st1) Hne) as Hid.
  destruct (md_identity _ _ _ _ _ _ _ Hmed) as [[Hv _]|[(_ & Hk & _ & Hc)|(_ & token & c & k & Hh & Hv & Hc)]].
  - congruence.
  - rewrite Hc, Hanon, Hk in Hid. done.
  - rewrite Hc in Hid. exists token, c. by rewrite Hv.
Qed.

(** ** Theorems *)

(** C5: the security chain mediates every request. Whatever the optional parts,
    a request is either answered before the MCP handler, leaving the
    application untouched, or handed to it exactly once; and then its Origin was
    allowed, no trusted proxy marked it as plaintext, its source has
    failed-attempt budget left, its path is neither a discovery document nor the
    key-request endpoint, it carries exactly the claims the validator returned
    for its bearer token (or none, when keyless reads admit a request without
    an Authorization header), and the budget of its address or client admitted
    it. *)
Theorem server_mediation {B K App} `{TokenBucket B} range
    (validate : request → string → K → result error Claims * K)
    mail_ok decode_body mux_redirect os uuid cfg r (st : srv_st B K App) :
  let serve mcp := RunHTTP range validate mail_ok decode_body mux_redirect os uuid cfg mcp r st in
  (∃ out, (∀ mcp, serve mcp = out) ∧ sv_app out.2 = sv_app st) ∨
  (∃ r' st' post, (∀ mcp, serve mcp = post (mcp r' st')) ∧
     (∀ p, sv_app (post p).2 = sv_app p.2) ∧ sv_app st' = sv_app st ∧
     mediated range validate cfg r st r' st').
Proof. exact (RunHTTP_mediates range validate mail_ok decode_body mux_redirect os uuid cfg r st). Qed.

(** end to end, no broadcast without a live writer key. On a deployment with
    API-key validation and without keyless writes, over any key-store backend,
    if serving one HTTP request makes any transaction reach the node, then the
    request carried a bearer token whose digest is stored, at that moment, in an
    enabled and unexpired entry that holds a writer, admin or automation role.
    The MCP SDK may call the write tool any number of times with the identity of
    the request's context. *)
Theorem broadcast_needs_live_key {B S E} `{TokenBucket B} `{KeyStoreLaws S E} `{EthLib} range env
    mail_ok decode_body mux_redirect os uuid cfg rcfg mcp r (st : srv_st B S relay_st)
    (Hval : sc_validator cfg = true) (Hkw : rc_keylessWrites rcfg = false) (Hanon : rq_claims r = None)
    (Hok : kb_ok (sv_keys st))
    (Hsdk : ∀ r st, rtc (relay_call (sc_keylessReads cfg) rcfg (rq_claims r)) (sv_app st) (sv_app (mcp r st).2)) :
  let validate r token k := validate_key (kb_hasher k) env (rq_now r) token k in
  let st' := (RunHTTP range validate mail_ok decode_body mux_redirect os uuid cfg mcp r st).2 in
  rl_sent (sv_app st') ≠ rl_sent (sv_app st) →
  ∃ token e, header r "Authorization" = "Bearer " +:+ token ∧
    lookup_in (kb_hasher (sv_keys st)) token (kb_entries (sv_keys st)) e ∧ ke_Enabled e = true ∧
    (ke_ExpiresAt e = 0 ∨ rq_now r < ke_ExpiresAt e) ∧
    ∃ role, role ∈ writer_roles ∧ role ∈ ke_Roles e.
Proof.
  intros validate st' Hne.
  destruct (broadcast_identity id _ _ _ _ _ _ _ _ _ _ _ _ Hval Hkw Hanon Hsdk Hne) as (token & c & Hh & Hv & Hid).
  apply HasAnyRole_spec in Hid as (role & Hw & Hr). unfold validate in Hv.
  destruct (validate_key_sound env (rq_now (capped r)) token (sv_keys st) c Hok Hv) as (e & Hl & Hen & Hx & ->).
  exists token, e. split_and!; eauto.
Qed.

(** A deployment with every guard on, whose SDK decodes a request body as one
    call of the write tool. *)
Definition demo_server_cfg : server_cfg :=
  mkServerCfg true true true true None true None true "" true.
Definition demo_relay_cfg : relay_cfg := mkRelayCfg demo_anchor false false true true demo_gates.
Definition demo_sdk : handler (srv_st ExactBucket ManagedKeyStore relay_st) := λ r st,
  let '(res, a) := call_send true demo_relay_cfg demo_relay_env (rq_claims r) (rq_body r) (sv_app st) in
  (http_error StatusOK (match res with Ok h => h | Err e => error_text e end),
   mkSrv (sv_fail st) (sv_anon st) (sv_client st) (sv_keys st) (sv_requests st) (sv_responses st) a).
Definition demo_server : srv_st ExactBucket ManagedKeyStore relay_st :=
  mkSrv (NewIPFailRateLimiter 1000000000 5 false 0) (NewAnonReadRateLimiter 1000000000 5 false 0)
    (NewClientRateLimiter 1000000000 5) demo_store
    (mkKRState (newKeyedRateLimiter 1000000000 5) demo_queue) [] demo_relay_st.
Definition demo_http (headers : gmap string string) : request :=
  mkRequest "POST" "/" "203.0.113.7:9000" headers (demo_signed 0) false None 50.

Lemma broadcast_needs_live_key_witness :
  let validate := λ (r : request) (token : string) (k : ManagedKeyStore),
    validate_key (kb_hasher (E := os_env) k) demo_env (rq_now r) token k in
  let serve := λ h, (RunHTTP map_to_list validate (λ _, true) (λ _ _, None) (λ _, None) disk_ok "u"
                       demo_server_cfg demo_sdk (demo_http h) demo_server).2 in
  rl_sent (sv_app (serve ∅)) = [] ∧
  let signed_in := {["Authorization" := "Bearer alice-secret-key"]} in
  rl_sent (sv_app (serve signed_in)) ≠ [] ∧
  ∃ token e, header (demo_http signed_in) "Authorization" = "Bearer " +:+ token ∧ ke_Enabled e = true ∧
    ∃ role, role ∈ writer_roles ∧ role ∈ ke_Roles e.
Proof.
  intros validate serve. split; [vm_compute; reflexivity|]. intros signed_in.
  assert (rl_sent (sv_app (serve signed_in)) ≠ []) as Hne by (vm_compute; discriminate).
  split; [exact Hne|].
  assert (∀ r st, rtc (relay_call true demo_relay_cfg (rq_claims r)) (sv_app st) (sv_app (demo_sdk r st).2)) as Hsdk.
  { intros r st. apply rtc_once. exists demo_relay_env, (rq_body r). unfold demo_sdk.
    by destruct (call_send _ _ _ _ _ _). }
  destruct (broadcast_needs_live_key (S := ManagedKeyStore) (E := os_env) map_to_list demo_env (λ _, true) (λ _ _, None)
    (λ _, None) disk_ok "u" demo_server_cfg demo_relay_cfg demo_sdk (demo_http signed_in) demo_server
    eq_refl eq_refl eq_refl demo_kb_ok Hsdk Hne) as (token & e & Hh & _ & Hen & _ & Hrole).
  exists token, e. split; [exact Hh|]. split; [exact Hen|exact Hrole].
Defined.
