(* ===== verification/Boot.v ===== *)
(** The startup wiring (cmd/nvnm-mcp-server/main.go): from the environment, the
    files and the databases to the parts of the running server.

    [boot_env] holds the outcome of every interaction with the outside world;
    [run] is run's sequence of constructions up to the call of the transport, a
    [deployment] the parts it has put together. What run opens, starts, defers and
    closes on the way is in Process; log lines are not modelled. *)

From S2P Require Import Prelude Fs Http Ingress RateLimit GoErrors Auth KeyStore ManagedKeys PgKeyStore Evm.
From S2P Require Import SignerStores Relay PendingKeys Admin Config Purge Server.
Import CfgErrors.

(** ** The outside world *)

(** Parsing a DSN, then connecting, pinging and migrating, with the error of the
    step that failed (see Process). *)
Variant pool_outcome := PoolBadDSN | PoolFails (e : error) | PoolReady.

Record boot_env := mkBootEnv {
  be_environ : environ;
  be_transport_flag : string;              (* -transport *)
  be_now : Z;
  be_os : os_env;
  be_keys_disk : keys_world;
  be_pending_disk : pending_world;
  be_telemetry : option error;             (* telemetry.New, see Process *)
  be_jwks : option error;                  (* keyfunc.NewDefaultCtx *)
  be_key_pool : pool_outcome;
  be_pg : pg_env; be_key_rows : list api_row;
  be_evm : option error;                   (* evm.NewClient *)
  be_bind : option error;                  (* healthSrv.Listen *)
  be_keyless_pool : pool_outcome;
  be_selector : string;                    (* anchorClient.MethodSelector of grantRole *)
  be_admin_file : result error (list adminKeyEntry)
}.

Inductive boot_error :=
  | BootConfig (e : config_error)           (* configuration error: ... *)
  | BootOverride (e : config_error)         (* configuration error after flag override: ... *)
  | BootSentinel (s : sentinel)             (* an error of the config package *)
  | BootKeylessDSN | BootKeyStoreDSN        (* errKeylessDSNInvalid, errKeyStoreDSNInvalid *)
  | BootError (e : error).

Definition try (e : option error) : result boot_error unit :=
  match e with Some e => Err (BootError e) | None => Ok tt end.

(** ** Authentication *)

(** The key store behind the API-key validator. *)
Inductive key_backend := FileKeys (m : ManagedKeyStore) | PostgresKeys (p : PostgresKeyStore).

(** auth.TokenValidator *)
Inductive validator := APIKeyValidator (keys : key_backend) | FusionAuthValidator (cfg : FusionAuthConfig).

Definition backend_Empty (env : boot_env) (b : key_backend) : bool :=
  match b with FileKeys m => Managed_Empty m | PostgresKeys p => Pg_Empty (be_pg env) p end.

(** nil when the store has no enabled keys. *)
Definition NewAPIKeyValidatorWithHasher (env : boot_env) (b : key_backend) : option validator :=
  if backend_Empty env b then None else Some (APIKeyValidator b).

Definition NewFusionAuthValidator (jwks : option error) (cfg : FusionAuthConfig) : result error validator :=
  if fa_BaseURL cfg =s "" then Err (Opaque "fusionauth base URL is required")
  else if fa_ApplicationID cfg =s "" then Err (Opaque "fusionauth application ID is required")
  else if fa_ClientIDHMACKey cfg =s "" then Err (Opaque "client ID HMAC key is required")
  else match jwks with
       | Some e => Err (Wrap "failed to fetch JWKS: " e "")
       | None => Ok (FusionAuthValidator
           (mkFusionAuthConfig (fa_BaseURL cfg) (fa_ApplicationID cfg) (fa_Issuer cfg)
              (if fa_RolesClaim cfg =s "" then "roles" else fa_RolesClaim cfg) (fa_ClientIDHMACKey cfg)))
       end.

Definition loadFusionAuth (env : boot_env) (c : Config) : result boot_error (option validator * option key_backend) :=
  let a := authConf c in
  let cfg := mkFusionAuthConfig (FusionAuthURL a) (FusionAuthAppID a) (GetFusionAuthIssuer c) (JWTRolesClaim a)
               (FusionAuthClientIDHMACKey a) in
  let? v := rmap_err (λ e, BootError (Wrap "FusionAuth init: " e "")) (NewFusionAuthValidator (be_jwks env) cfg) in
  Ok (Some v, None).

Definition http (c : Config) : bool := Transport (core c) =s "http".

Definition loadPostgresKeyStore (env : boot_env) (c : Config) (hasher : KeyHasher)
    : result boot_error (option validator * option key_backend) :=
  match be_key_pool env with
  | PoolBadDSN => Err BootKeyStoreDSN
  | PoolFails e => Err (BootError e)
  | PoolReady =>
      if KeyHMACPepper (keys c) =s "" then Err (BootSentinel ErrPepperRequired)
      else
        let pgStore := mkPg (be_key_rows env) (Some hasher) in
        if Pg_Empty (be_pg env) pgStore && http c then Err (BootSentinel ErrHTTPAuthRequired)
        else Ok (NewAPIKeyValidatorWithHasher env (PostgresKeys pgStore), Some (PostgresKeys pgStore))
  end.

Definition loadAPIKeys (env : boot_env) (c : Config) : result boot_error (option validator * option key_backend) :=
  let k := keys c in
  let hasher := NewKeyHasher (KeyHMACPepper k) (KeyHMACPepperPrevious k) in
  let with_store m := Ok (NewAPIKeyValidatorWithHasher env (FileKeys m), Some (FileKeys m)) in
  if KeyStoreBackendName k =s "postgres" then loadPostgresKeyStore env c hasher
  else if negb (APIKeysFile k =s "") then
    let? mks := rmap_err (λ e, BootError (Wrap "load API keys file: " e ""))
      (NewManagedKeyStoreWithHasher (be_os env) (APIKeysFile k) (Some hasher) (be_keys_disk env)) in
    if http c && (UsableCount (be_now env) mks =? 0) then Err (BootSentinel ErrHTTPAuthRequired)
    else with_store mks
  else if negb (APIKey k =s "") then
    let entry := NewKeyEntryWithHasher (be_now env) "static-key" (APIKey k) (APIKeyRoles k) (Some hasher) in
    with_store (NewManagedKeyStoreFromEntriesWithHasher "" [entry] (Some hasher) (be_keys_disk env))
  else if http c then Err (BootSentinel ErrHTTPAuthRequired)
  else Ok (None, None).

Definition loadAuth (env : boot_env) (c : Config) : result boot_error (option validator * option key_backend) :=
  if AuthProvider (authConf c) =s "fusionauth" then loadFusionAuth env c else loadAPIKeys env c.

(** ** Pending requests and mail *)

Variant EmailSender := SMTPEmailSender | LogOnlyEmailSender.

(** NewSMTPEmailSender: the fields it requires. *)
Definition NewSMTPEmailSender (c : SMTPConfig) : result error EmailSender :=
  if (SMTPHost c =s "") || (SMTPPort c =? 0) || (SMTPFrom c =s "") then Err (Opaque "email is not configured")
  else Ok SMTPEmailSender.

Definition buildEmailSender (c : Config) : result boot_error EmailSender :=
  if SMTPHost (smtp c) =s "" then Ok LogOnlyEmailSender
  else match NewSMTPEmailSender (smtp c) with
       | Err e =>
           if negb (AllowKeyInLogs (keyRequest c)) then
             Err (BootError (Wrap "SMTP sender construction failed and NVNM_ALLOW_KEY_IN_LOGS is not set: " e ""))
           else Ok LogOnlyEmailSender
       | Ok sender => Ok sender
       end.

Definition open_pending (env : boot_env) (c : Config) : result boot_error PendingKeyStore :=
  rmap_err (λ e, BootError (Wrap "init pending key store: " e ""))
    (NewPendingKeyStore (be_os env) (KeyPendingFile (keyRequest c)) (be_pending_disk env)).

Definition newPendingAndEmail (env : boot_env) (c : Config)
    : result boot_error (option PendingKeyStore * EmailSender) :=
  let? store := (if KeyRequestEnabled (keyRequest c) then let? s := open_pending env c in Ok (Some s) else Ok None) in
  let? sender := buildEmailSender c in
  Ok (store, sender).

(** ** Audit stores, purge, admin API *)

(** Which stores are not nil. *)
Record keyless_stores := mkStores { st_audit : bool; st_quota : bool; st_blacklist : bool; st_adminAudit : bool }.
Definition no_stores : keyless_stores := mkStores false false false false.

(** The stores, and whether there is a pool. *)
Definition loadWriteAudit (env : boot_env) (c : Config) : result boot_error (keyless_stores * bool) :=
  if KeylessPGDSN (keyless c) =s "" then Ok (no_stores, false)
  else match be_keyless_pool env with
       | PoolBadDSN => Err BootKeylessDSN
       | PoolFails e => Err (BootError e)
       | PoolReady => Ok (mkStores true (KeylessWrites (keyless c)) (KeylessWrites (keyless c)) true, true)
       end.

Definition startRetentionPurge (env : boot_env) (c : Config) (pool : bool) : result boot_error (option Purger) :=
  let r := Retention (keyless c) in
  if negb (Enabled r) then Ok None
  else if negb pool then Ok None
  else let? p := rmap_err (λ e, BootError (Wrap "retention purge: " e "")) (NewPurger pool r (be_selector env)) in
       Ok (Some p).

(** The admin server's keys, when it is started. *)
Definition startAdminServer (env : boot_env) (c : Config) (backend : option key_backend)
    : result boot_error (option (gmap string string)) :=
  let k := keys c in
  if (Config.AdminAPIKey k =s "") && (Config.AdminAPIKeysFile k =s "") then Ok None
  else if negb (http c) then Ok None
  else if negb (AuthProvider (authConf c) =s "apikey") then Ok None
  else match backend with
       | None => Err (BootSentinel ErrAdminKeyWithoutFile)
       | Some _ =>
           let? m := rmap_err BootError
             (loadAdminKeys (mkAdminKeyConfig (Config.AdminAPIKey k) (Config.AdminAPIKeysFile k)) (be_admin_file env)) in
           Ok (Some m)
       end.

(** ** The server *)

Definition buildOriginAllowlist (c : Config) : option OriginAllowlist :=
  match AllowedOrigins c with [] => None | os => Some (NewOriginAllowlist os) end.

Definition newKeyRequestHandler (env : boot_env) (c : Config)
    : result boot_error (option (PendingKeyStore * KeyRequestHandlerConfig)) :=
  if negb (KeyRequestEnabled (keyRequest c)) || negb (http c) then Ok None
  else let? store := open_pending env c in
       Ok (Some (store, mkKRConfig true (KeyRequestMaxBodyBytes (keyRequest c)) (TrustProxyHeaders (flags c))
                          (TrustedProxyHops c))).

(** NewServer's gates and the write tool's configuration; [None] when write tools
    are not registered. *)
Definition relay_config (c : Config) (s : keyless_stores) : option relay_cfg :=
  if EnableWriteTools (flags c) then
    let k := keyless c in
    Some (mkRelayCfg (AnchorAddress (core c)) (KeylessWrites k) (RelayAllowAny k) (st_audit s) true
            (mkGates (st_blacklist s) (st_quota s) (SignerWriteRate k) (SignerWriteWindow k)
               (SignerQuotaFailOpen k) (SignerBlacklistFailOpen k)))
  else None.

(** What RunHTTP is called with; keyless reads are HTTP-only. *)
Definition http_config (c : Config) (v : option validator) (kr : option KeyRequestHandlerConfig) : server_cfg :=
  mkServerCfg (match v with Some _ => true | None => false end) (http c) (http c) (http c)
    (buildOriginAllowlist c) true kr (KeylessReads (keyless c) && http c) (KeyRenewalURL (keys c))
    (TrustProxyHeaders (flags c)).

Record deployment := mkDeployment {
  dp_cfg : Config;
  dp_validator : option validator; dp_keys : option key_backend;
  dp_admin : option (gmap string string); dp_admin_pending : option PendingKeyStore; dp_email : EmailSender;
  dp_stores : keyless_stores; dp_purger : option Purger;
  dp_relay : option relay_cfg;
  dp_public_pending : option PendingKeyStore;
  dp_http : server_cfg
}.

(** cfg.Transport = *transport *)
Definition set_transport (t : string) (c : Config) : Config :=
  let k := core c in
  mkConfig (mkCore (EVMRPCURL k) (EVMArchiveRPCURL k) (AnchorAddress k) (AnchorABIPath k) (LogLevel k) t (HTTPAddr k)
              (ChainID k) (RequestTimeout k))
    (flags c) (TrustedProxyHops c) (keys c) (telemetry c) (resilience c) (mcpRate c) (keyless c) (authConf c) (site c)
    (keyRequest c) (smtp c) (AllowedOrigins c).

Definition load_config (env : boot_env) : result boot_error Config :=
  let? c := rmap_err BootConfig (Load (be_environ env)) in
  if be_transport_flag env =s "" then Ok c
  else let c := set_transport (be_transport_flag env) c in
       match Validate c with Some e => Err (BootOverride e) | None => Ok c end.

(** run, up to runTransport. *)
Definition run (env : boot_env) : result boot_error deployment :=
  let? c := load_config env in
  let? _ := try (be_telemetry env) in
  let? auth := loadAuth env c in
  let? _ := try (be_evm env) in
  let? _ := try (be_bind env) in
  let? pending := newPendingAndEmail env c in
  let? audit := loadWriteAudit env c in
  let? purger := startRetentionPurge env c audit.2 in
  let? admin := startAdminServer env c auth.2 in
  let? kr := newKeyRequestHandler env c in
  Ok (mkDeployment c auth.1 auth.2 admin pending.1 pending.2 audit.1 purger (relay_config c audit.1)
        (fst <$> kr) (http_config c auth.1 (snd <$> kr))).

(** ** The configuration a deployment runs with *)

Lemma load_config_ok env c : load_config env = Ok c →
  ∃ c0, Load (be_environ env) = Ok c0 ∧ well_formed c ∧
    keyless c = keyless c0 ∧ keyRequest c = keyRequest c0 ∧ smtp c = smtp c0.
Proof.
  unfold load_config. intros (c0 & H & Hc)%rbind_ok. destruct (Load (be_environ env)) as [c1|] eqn:E; [|done].
  injection H as ->. exists c0. split; [done|]. pose proof (Load_reads _ _ E) as [Hr Hw].
  destruct (_ =s ""); [by injection Hc as <-|]. cbv zeta in Hc. destruct (Validate _) eqn:Ev; [done|].
  injection Hc as <-. split; [|done]. apply Validate_well_formed; [|done]. by apply read_environment_ranges in Hr.
Qed.

(** The constructions of a boot that succeeded. *)
Record boots (env : boot_env) (d : deployment) : Prop := {
  bs_config : load_config env = Ok (dp_cfg d);
  bs_auth : loadAuth env (dp_cfg d) = Ok (dp_validator d, dp_keys d);
  bs_mail : newPendingAndEmail env (dp_cfg d) = Ok (dp_admin_pending d, dp_email d);
  bs_audit : ∃ pool, loadWriteAudit env (dp_cfg d) = Ok (dp_stores d, pool) ∧
    startRetentionPurge env (dp_cfg d) pool = Ok (dp_purger d);
  bs_admin : startAdminServer env (dp_cfg d) (dp_keys d) = Ok (dp_admin d);
  bs_requests : ∃ kr, newKeyRequestHandler env (dp_cfg d) = Ok kr ∧ dp_public_pending d = fst <$> kr ∧
    dp_http d = http_config (dp_cfg d) (dp_validator d) (snd <$> kr);
  bs_relay : dp_relay d = relay_config (dp_cfg d) (dp_stores d)
}.

Lemma run_boots env d : run env = Ok d → boots env d.
Proof.
  unfold run. intros H. open_load H. injection H as <-.
  repeat match goal with p : _ * _ |- _ => destruct p end.
  split; cbn; eauto.
Qed.

(** ** Authentication at boot *)

Lemma index_count es m n : n ≤ (foldl index_entry (m, n) es).2 ∧
  ((∃ e, e ∈ es ∧ ke_Enabled e = true ∧ ke_KeyHash e ≠ "") → n < (foldl index_entry (m, n) es).2).
Proof.
  revert m n. induction es as [|x es IH]; intros m n; cbn [foldl].
  { split; [done|]. intros (e & He & _). by apply elem_of_nil in He. }
  unfold index_entry at 2 4. cbn [fst snd].
  destruct (ke_KeyHash x =s "") eqn:Eh; cbn [negb]; bool_to_prop.
  - destruct (IH m n) as [H1 H2]. split; [done|]. intros (e & [->|He]%elem_of_cons & Hen & Hh); [done|].
    apply H2. eauto.
  - destruct (ke_Enabled x) eqn:Ee.
    + destruct (IH (<[ke_KeyHash x:=x]> m) (n + 1)) as [H1 _]. split; [lia|]. intros _. lia.
    + destruct (IH (<[ke_KeyHash x:=x]> m) n) as [H1 H2]. split; [done|].
      intros (e & [->|He]%elem_of_cons & Hen & Hh); [congruence|]. apply H2. eauto.
Qed.

Lemma NewKeyStore_not_empty es h :
  let '(store, es') := NewKeyStoreWithHasher es h in
  (∃ e, e ∈ es' ∧ ke_Enabled e = true ∧ ke_KeyHash e ≠ "") → KeyStore_Empty store = false.
Proof.
  unfold NewKeyStoreWithHasher. destruct (migrateLegacyEntries es) as [[es' ch] n].
  pose proof (index_count es' ∅ 0) as [_ H]. destruct (foldl index_entry (∅, 0) es') as [m k].
  intros He%H. unfold KeyStore_Empty. cbn in *. apply Z.eqb_neq. lia.
Qed.

Lemma count_if_zero {A} (f : A → bool) l : count_if f l ≠ 0 → ∃ x, x ∈ l ∧ f x = true.
Proof.
  unfold count_if. intros H. destruct (existsb f l) eqn:E.
  - apply existsb_exists in E as (x & Hx & Hf). exists x. by rewrite list_elem_of_In.
  - exfalso. apply H. clear H. generalize 0. induction l as [|x l IH]; intros n; cbn in *; [done|].
    apply orb_false_iff in E as [Ex E]. rewrite Ex. by apply IH.
Qed.

(** A key that would be accepted now. *)
Definition usable (now : Z) (e : KeyEntry) : Prop := classifyEntry (Some e) now = RejectNone.

Lemma usable_enabled now e : usable now e → ke_Enabled e = true.
Proof. unfold usable. cbn. by destruct (ke_Enabled e). Qed.

Lemma managed_loaded os path h w m : NewManagedKeyStoreWithHasher os path h w = Ok m →
  (∃ e, e ∈ mk_entries m ∧ ke_Enabled e = true ∧ ke_KeyHash e ≠ "") → Managed_Empty m = false.
Proof.
  unfold NewManagedKeyStoreWithHasher. intros (es & _ & H)%rbind_ok.
  destruct (migrateLegacyEntries es) as [[es1 ch] n].
  pose proof (NewKeyStore_not_empty es1 h) as Hn. destruct (NewKeyStoreWithHasher es1 h) as [store es2].
  injection H as <-. exact Hn.
Qed.

Lemma UsableCount_pos now m : UsableCount now m ≠ 0 → ∃ e, e ∈ mk_entries m ∧ usable now e.
Proof.
  intros (e & He & H)%count_if_zero. exists e. split; [done|]. unfold usable. by destruct (classifyEntry _ _).
Qed.

(** What the presence of a validator rests on, backend by backend. *)
Definition can_authenticate (env : boot_env) (c : Config) (v : option validator) : Prop :=
  match v with
  | Some (FusionAuthValidator _) => AuthProvider (authConf c) = "fusionauth"
  | Some (APIKeyValidator (FileKeys m)) => ∃ e, e ∈ mk_entries m ∧ usable (be_now env) e ∧ ke_KeyHash e ≠ ""
  | Some (APIKeyValidator (PostgresKeys p)) => ∃ r, r ∈ pg_rows p ∧ r_enabled r = true
  | None => False
  end.

(** No enabled entry without a digest. *)
Definition digests_present (b : option key_backend) : Prop :=
  match b with
  | Some (FileKeys m) => Forall (λ e, ke_Enabled e = true → ke_KeyHash e ≠ "") (mk_entries m)
  | _ => True
  end.

Lemma pg_not_empty env p : Pg_Empty env p = false → ∃ r, r ∈ pg_rows p ∧ r_enabled r = true.
Proof.
  unfold Pg_Empty, countEnabled. intros H. bool_to_prop. destruct (negb (pg_query env)); [done|].
  destruct (List.filter r_enabled (pg_rows p)) as [|r l] eqn:E; [done|]. exists r.
  rewrite list_elem_of_In. apply filter_In. rewrite E. by left.
Qed.

Lemma static_key_store now k roles h w :
  let m := NewManagedKeyStoreFromEntriesWithHasher "" [NewKeyEntryWithHasher now "static-key" k roles h] h w in
  Managed_Empty m = false ∧ ∃ e, e ∈ mk_entries m ∧ usable now e ∧ ke_KeyHash e ≠ "".
Proof.
  intros m. assert (ke_KeyHash (NewKeyEntryWithHasher now "static-key" k roles h) ≠ "" ∧
    usable now (NewKeyEntryWithHasher now "static-key" k roles h)) as [Hh Hu].
  { unfold NewKeyEntryWithHasher. pose proof (HashForStore_nonempty h k) as Hn.
    by destruct (HashForStore h k). }
  set (e := NewKeyEntryWithHasher _ _ _ _ _) in *. unfold m, NewManagedKeyStoreFromEntriesWithHasher.
  assert (NewKeyStoreWithHasher [e] h = (mkKeyStore {[ke_KeyHash e := e]} h 1, [e])) as ->.
  { unfold NewKeyStoreWithHasher. cbn [migrateLegacyEntries]. unfold migrate_entry.
    destruct (ke_KeyHash e =s "") eqn:E; [by bool_to_prop|]. cbn [negb foldl].
    unfold index_entry. rewrite E. cbn. by rewrite (usable_enabled _ _ Hu). }
  split; [done|]. exists e. cbn. by rewrite list_elem_of_singleton.
Qed.

Lemma loadAPIKeys_http env c v b : loadAPIKeys env c = Ok (v, b) → http c = true → digests_present b →
  can_authenticate env c v.
Proof.
  unfold loadAPIKeys. intros H Hh Hd. rewrite Hh in H. cbv zeta in H.
  destruct (KeyStoreBackendName (keys c) =s "postgres").
  - unfold loadPostgresKeyStore in H. rewrite Hh in H. destruct (be_key_pool env); [done..|].
    destruct (KeyHMACPepper (keys c) =s ""); [done|]. cbv zeta in H.
    set (p := mkPg _ _) in *. destruct (Pg_Empty (be_pg env) p) eqn:Ee; [done|]. cbn [andb] in H. injection H as <- <-.
    unfold NewAPIKeyValidatorWithHasher. cbn [backend_Empty]. rewrite Ee. exact (pg_not_empty (be_pg env) p Ee).
  - destruct (negb (APIKeysFile (keys c) =s "")).
    + apply rbind_ok in H as (m & Hm & H).
      destruct (NewManagedKeyStoreWithHasher _ _ _ _) as [m'|] eqn:Em; [|done]. injection Hm as ->.
      cbn [andb] in H. destruct (UsableCount (be_now env) m =? 0) eqn:Eu; [done|]. injection H as <- <-.
      bool_to_prop. apply UsableCount_pos in Eu as (e & He & Hu). cbn in Hd. rewrite Forall_forall in Hd.
      pose proof (Hd e He (usable_enabled _ _ Hu)) as Hh'. unfold NewAPIKeyValidatorWithHasher. cbn [backend_Empty].
      rewrite (managed_loaded _ _ _ _ _ Em) by eauto using usable_enabled. cbn. eauto.
    + destruct (negb (APIKey (keys c) =s "")); [|done]. injection H as <- <-.
      destruct (static_key_store (be_now env) (APIKey (keys c)) (APIKeyRoles (keys c))
        (Some (NewKeyHasher (KeyHMACPepper (keys c)) (KeyHMACPepperPrevious (keys c)))) (be_keys_disk env)) as [He Hu].
      unfold NewAPIKeyValidatorWithHasher. cbn [backend_Empty]. by rewrite He.
Qed.

(** The hasher of a backend. *)
Definition backend_hasher (b : key_backend) : option KeyHasher :=
  match b with FileKeys m => mk_hasher m | PostgresKeys p => pg_hasher p end.

Lemma boots_hasher env d b : boots env d → dp_keys d = Some b →
  backend_hasher b = Some (NewKeyHasher (KeyHMACPepper (keys (dp_cfg d))) (KeyHMACPepperPrevious (keys (dp_cfg d)))).
Proof.
  intros Hb Hd. pose proof (bs_auth _ _ Hb) as Ha. rewrite Hd in Ha. unfold loadAuth, loadFusionAuth, loadAPIKeys in Ha.
  destruct (AuthProvider _ =s _); [by apply rbind_ok in Ha as (v & _ & Ha)|]. cbv zeta in Ha.
  destruct (KeyStoreBackendName _ =s _).
  { unfold loadPostgresKeyStore in Ha. destruct (be_key_pool env); [done..|]. destruct (_ =s ""); [done|]. cbv zeta in Ha.
    destruct (_ && _); [done|]. by injection Ha as _ <-. }
  destruct (negb (APIKeysFile _ =s "")).
  { apply rbind_ok in Ha as (m & Hm & Ha). destruct (NewManagedKeyStoreWithHasher _ _ _ _) as [m'|] eqn:Em; [|done].
    injection Hm as ->. destruct (_ && _); [done|]. injection Ha as _ <-.
    unfold NewManagedKeyStoreWithHasher in Em. apply rbind_ok in Em as (es & _ & Em).
    destruct (migrateLegacyEntries es) as [[es1 ch] n]. cbv zeta in Em.
    destruct (NewKeyStoreWithHasher es1 _) as [ks es2]. by injection Em as <-. }
  destruct (negb (APIKey _ =s "")); [|by destruct (http _)]. injection Ha as _ <-.
  unfold NewManagedKeyStoreFromEntriesWithHasher. by destruct (NewKeyStoreWithHasher _ _).
Qed.

Lemma boots_file_store env d m : boots env d → dp_keys d = Some (FileKeys m) →
  NoDup (ke_ID <$> mk_entries m) → NoDup (ke_KeyHash <$> mk_entries m) → managed_ok m.
Proof.
  intros Hb Hd Hid Hhash. pose proof (bs_auth _ _ Hb) as Ha. rewrite Hd in Ha. unfold loadAuth, loadFusionAuth, loadAPIKeys in Ha.
  destruct (AuthProvider _ =s _); [by apply rbind_ok in Ha as (v & _ & Ha)|]. cbv zeta in Ha.
  destruct (KeyStoreBackendName _ =s _).
  { unfold loadPostgresKeyStore in Ha. destruct (be_key_pool env); [done..|]. destruct (_ =s ""); [done|]. cbv zeta in Ha.
    by destruct (_ && _). }
  destruct (negb (APIKeysFile _ =s "")).
  { apply rbind_ok in Ha as (m' & Hm & Ha). destruct (NewManagedKeyStoreWithHasher _ _ _ _) as [m0|] eqn:Em; [|done].
    injection Hm as ->. destruct (_ && _); [done|]. injection Ha as _ ->. by eapply loaded_ok. }
  destruct (negb (APIKey _ =s "")); [|by destruct (http _)]. injection Ha as _ <-.
  apply FromEntries_ok, entries_ok_singleton. unfold NewKeyEntryWithHasher. by destruct (HashForStore _ _).
Qed.

(** A server that starts on HTTP can authenticate. *)
Lemma http_authenticates env d : boots env d → Transport (core (dp_cfg d)) = "http" → digests_present (dp_keys d) →
  can_authenticate env (dp_cfg d) (dp_validator d).
Proof.
  intros Hb Hh Hdig. pose proof (bs_auth _ _ Hb) as Ha. unfold loadAuth in Ha.
  destruct (AuthProvider (authConf (dp_cfg d)) =s "fusionauth") eqn:Ef.
  - unfold loadFusionAuth in Ha. apply rbind_ok in Ha as (v & Hv & Ha). injection Ha as Ha _; rewrite <- Ha.
    destruct (NewFusionAuthValidator _ _) as [v'|] eqn:Ev; [|done]. injection Hv as ->.
    unfold NewFusionAuthValidator in Ev. repeat (destruct (_ =s "") in Ev; [done|]).
    destruct (be_jwks env); [done|]. injection Ev as <-. cbn. by bool_to_prop.
  - apply (loadAPIKeys_http env (dp_cfg d) (dp_validator d) (dp_keys d)); [done| |done].
    unfold http. by apply String.eqb_eq.
Qed.


(** The relay of a keyless deployment. *)
Lemma keyless_relay env d rc : boots env d → dp_relay d = Some rc → KeylessWrites (keyless (dp_cfg d)) = true →
  let k := keyless (dp_cfg d) in
  rc_keylessWrites rc = true ∧ rc_audit rc = true ∧ rc_relayAllowAny rc = false ∧
  rc_gates rc = mkGates true true (SignerWriteRate k) (SignerWriteWindow k) (SignerQuotaFailOpen k) (SignerBlacklistFailOpen k) ∧
  1 ≤ SignerWriteRate k ∧ 0 < SignerWriteWindow k ∧ is_Some (AddressFromHex (rc_anchorAddr rc)).
Proof.
  intros Hb Hrelay Ew k. pose proof (bs_relay _ _ Hb) as Hr. rewrite Hrelay in Hr.
  unfold relay_config in Hr. destruct (EnableWriteTools _); [|done]. injection Hr as ->. fold k.
  destruct (load_config_ok _ _ (bs_config _ _ Hb)) as (_ & _ & Hwf & _).
  destruct (bs_audit _ _ Hb) as (pool & Ha & _). unfold loadWriteAudit in Ha. fold k in Ha, Ew. rewrite Ew in Ha.
  destruct (wf_keyless _ Hwf Ew) as (_ & Hany & Hdsn & Haddr & Hrate & Hwin). fold k in Hany, Hdsn, Hrate, Hwin.
  destruct (KeylessPGDSN k =s "") eqn:Ed; [by bool_to_prop|]. destruct (be_keyless_pool env); [done..|].
  injection Ha as <- _. by split_and!.
Qed.

(** The purge of a deployment works with its retention windows. *)
Lemma deployed_purger env d p : boots env d → dp_purger d = Some p → pu_cfg p = Retention (keyless (dp_cfg d)).
Proof.
  intros Hb Hp. destruct (bs_audit _ _ Hb) as (pool & _ & H). rewrite Hp in H. unfold startRetentionPurge in H.
  destruct (negb _); [done|]. destruct (negb pool); [done|]. apply rbind_ok in H as (p' & Hn & H). injection H as ->.
  destruct (NewPurger _ _ _) as [p''|] eqn:En; [|done]. injection Hn as ->. unfold NewPurger in En.
  destruct (negb pool); [done|]. destruct (_ && _); [done|]. by injection En as <-.
Qed.

(** C7: A keyless deployment is a gated one. If the server starts with keyless
    writes, then its relay audits, checks the ban list and the quota (of at least
    one broadcast per window), and never relays anything but calls of the anchor
    address: the address parses, so that the relay's misconfiguration branch is
    unreachable for every transaction, whatever the state. Without keyless writes
    the two gates are off. *)
Theorem keyless_deployment_is_gated `{EthLib} env d rc
    (Hrun : run env = Ok d) (Hrelay : dp_relay d = Some rc) :
  let k := keyless (dp_cfg d) in
  EnableWriteTools (flags (dp_cfg d)) = true ∧
  rc_keylessWrites rc = KeylessWrites k ∧ rc_relayAllowAny rc = RelayAllowAny k ∧
  if KeylessWrites k then
    rc_audit rc = true ∧ rc_relayAllowAny rc = false ∧
    rc_gates rc = mkGates true true (SignerWriteRate k) (SignerWriteWindow k) (SignerQuotaFailOpen k)
                    (SignerBlacklistFailOpen k) ∧
    1 ≤ g_rate (rc_gates rc) ∧ 0 < g_window (rc_gates rc) ∧
    (∀ hex st, ∃ causes, rl_rejects (decodeAndScope rc hex st).2 = rl_rejects st ++ causes ∧
       CauseAnchorMisconfig ∉ causes)
  else g_blacklist (rc_gates rc) = false ∧ g_quota (rc_gates rc) = false.
Proof.
  intros k. apply run_boots in Hrun. pose proof (bs_relay _ _ Hrun) as Hr. rewrite Hrelay in Hr.
  unfold relay_config in Hr. destruct (EnableWriteTools _) eqn:Ewt; [|done]. injection Hr as Hr. fold k in Hr.
  split; [done|]. split; [by rewrite Hr|]. split; [by rewrite Hr|].
  destruct (KeylessWrites k) eqn:Ew.
  - destruct (keyless_relay env d rc Hrun Hrelay Ew) as (_ & Haud & Hany & Hg & Hrate & Hwin & [a Haddr]). fold k in Hg, Hrate, Hwin.
    split_and!; [done|done|done|by rewrite Hg|by rewrite Hg|]. intros hex st. unfold decodeAndScope. rewrite Haddr.
    assert (∀ cause, cause ≠ CauseAnchorMisconfig → ∃ causes,
      rl_rejects (recordReject rc cause st) = rl_rejects st ++ causes ∧ CauseAnchorMisconfig ∉ causes) as Hc.
    { intros cause Hne. exists [cause]. split; [by rewrite Hr|]. rewrite list_elem_of_singleton. congruence. }
    destruct (DecodeSignedTx hex) as [dtx|]; [destruct (checkRelayScope _ _ _)|]; cbn; try by apply Hc.
    exists []. rewrite app_nil_r. split; [done|]. apply not_elem_of_nil.
  - destruct (bs_audit _ _ Hrun) as (pool & Ha & _). unfold loadWriteAudit in Ha. fold k in Ha. rewrite Ew in Ha. rewrite Hr.
    destruct (KeylessPGDSN k =s ""); [by injection Ha as <- _|]. destruct (be_keyless_pool env); [done..|].
    by injection Ha as <- _.
Qed.

(** Minted keys stay out of the logs. With self-serve key requests on, the
    server starts with the log-only mail sender only if the operator accepted it
    explicitly; with a mail relay configured it always uses the relay (the
    fallback after a failed construction is unreachable). *)
Theorem minted_keys_stay_out_of_logs env d (Hrun : run env = Ok d) :
  let c := dp_cfg d in
  (SMTPHost (smtp c) ≠ "" → dp_email d = SMTPEmailSender) ∧
  (KeyRequestEnabled (keyRequest c) = true → dp_email d = LogOnlyEmailSender →
     AllowKeyInLogs (keyRequest c) = true) ∧
  (is_Some (dp_admin_pending d) ↔ KeyRequestEnabled (keyRequest c) = true).
Proof.
  intros c. apply run_boots in Hrun.
  destruct (load_config_ok _ _ (bs_config _ _ Hrun)) as (c0 & Hl & Hwf & _ & _ & Hsmtp).
  pose proof (Load_smtp _ _ Hl) as Hs. rewrite <- Hsmtp in Hs. fold c in Hs, Hwf.
  pose proof (bs_mail _ _ Hrun) as Hm. fold c in Hm. unfold newPendingAndEmail in Hm.
  apply rbind_ok in Hm as (store & Hst & Hm). apply rbind_ok in Hm as (sender & Hse & Hm). injection Hm as Hd1 Hd2.
  rewrite <- Hd1, <- Hd2. unfold buildEmailSender, NewSMTPEmailSender in Hse.
  assert (SMTPHost (smtp c) ≠ "" → sender = SMTPEmailSender) as Hsm.
  { intros Hne. destruct (Hs Hne) as [Hp Hf]. rewrite (proj2 (String.eqb_neq _ _) Hne) in Hse. cbn in Hse.
    rewrite (proj2 (Z.eqb_neq _ _) Hp), (proj2 (String.eqb_neq _ _) Hf) in Hse. by injection Hse as <-. }
  split_and!; [done| |].
  - intros He Hlog. destruct (wf_key_logs _ Hwf He) as [Hne|]; [|done]. by rewrite (Hsm Hne) in Hlog.
  - destruct (KeyRequestEnabled (keyRequest c)).
    + apply rbind_ok in Hst as (s & _ & Hst). injection Hst as <-. split; [done|eauto].
    + injection Hst as <-. split; [by intros []|done].
Qed.

(** Who can reach the admin API of a deployment. *)
Lemma admin_server_requires env d keys : run env = Ok d → dp_admin d = Some keys →
  Transport (core (dp_cfg d)) = "http" ∧ AuthProvider (authConf (dp_cfg d)) = "apikey" ∧
  is_Some (dp_keys d) ∧ keys ≠ ∅.
Proof.
  intros Hrun Ha. apply run_boots in Hrun. pose proof (bs_admin _ _ Hrun) as H. rewrite Ha in H.
  unfold startAdminServer in H. destruct (_ && _); [done|]. unfold http in H.
  destruct (Transport (core (dp_cfg d)) =s "http") eqn:Et; [|done]. destruct (AuthProvider _ =s "apikey") eqn:Ep; [|done].
  cbn [negb] in H. bool_to_prop. destruct (dp_keys d) as [b|]; [|done]. apply rbind_ok in H as (m & Hm & H).
  injection H as ->. destruct (loadAdminKeys _ _) as [m'|] eqn:El; [|done]. injection Hm as ->.
  split_and!; [done..|eauto|]. unfold loadAdminKeys in El. destruct (if _ =s "" then _ else _) as [ids ks].
  apply rbind_ok in El as (k' & _ & El). destruct (bool_decide (k' = ∅)) eqn:E; [done|]. injection El as ->.
  by apply bool_decide_eq_false in E.
Qed.

(** ** Two queues over one file *)

(** A queue whose disk was written by somebody else. *)
Definition on_world (w : pending_world) (s : PendingKeyStore) : PendingKeyStore := with_items (ps_items s) w s.

(** C39: Accepted requests the reviewers never see. run opens the pending-keys file
    twice, once for the public endpoint and once for the admin API, and neither
    queue reads the file again. So a request the endpoint accepts (and saves) is
    unknown to the admin API, which answers that it does not exist; and the next
    decision an admin makes about any other request rewrites the file without it. *)
Theorem accepted_requests_are_lost env d sa sp os now uuid email company use addr req sp'
    (Hrun : run env = Ok d)
    (Hadmin : dp_admin_pending d = Some sa) (Hpublic : dp_public_pending d = Some sp)
    (Hnew : ¬ uuid ∈ pr_ID <$> ps_items sa)
    (Hadd : Add os now uuid email company use addr sp = (Ok req, sp')) :
  (∃ items, w_files (ps_disk sp') !! ps_path sp = Some (Parsed items) ∧ req ∈ items) ∧
  Get uuid sa = None ∧
  (∀ os' now' status who key,
     (Decide os' now' uuid status who key (on_world (ps_disk sp') sa)).2 = on_world (ps_disk sp') sa) ∧
  (∀ os' now' id status who key r sa',
     Decide os' now' id status who key (on_world (ps_disk sp') sa) = (Ok r, sa') →
     ∃ items, w_files (ps_disk sa') !! ps_path sp = Some (Parsed items) ∧ ¬ uuid ∈ pr_ID <$> items).
Proof.
  apply run_boots in Hrun.
  assert (open_pending env (dp_cfg d) = Ok sa) as Hsa.
  { pose proof (bs_mail _ _ Hrun) as H. unfold newPendingAndEmail in H. apply rbind_ok in H as (x & Hx & H).
    apply rbind_ok in H as (e & _ & H). injection H as H _. rewrite Hadmin in H. subst x.
    destruct (KeyRequestEnabled _); [|done]. apply rbind_ok in Hx as (s & Hs & Hx). by injection Hx as ->. }
  assert (open_pending env (dp_cfg d) = Ok sp) as Hsp.
  { destruct (bs_requests _ _ Hrun) as (kr & H & Hk & _). rewrite Hpublic in Hk. destruct kr as [[s cfg]|]; [|done].
    injection Hk as ->. unfold newKeyRequestHandler in H. destruct (_ || _); [done|].
    apply rbind_ok in H as (x & Hx & H). by injection H as -> _. }
  rewrite Hsa in Hsp. injection Hsp as <-.
  assert (find_request uuid (ps_items sa) = None) as Hfind.
  { destruct (find_request uuid (ps_items sa)) as [i|] eqn:E; [|done]. apply find_request_spec in E as (r & Hr & <-).
    exfalso. apply Hnew, list_elem_of_fmap. exists r. split; [done|]. by eapply list_elem_of_lookup_2. }
  unfold Add in Hadd. destruct (save_file os "pending" (ps_path sa) _ (ps_disk sa)) as [[e|] w] eqn:Es; [done|].
  injection Hadd as <- <-. apply save_file_spec in Es as [_ Hfile]. cbn [ps_disk with_items]. split_and!.
  - eexists. split; [exact Hfile|]. apply elem_of_app. right. by apply list_elem_of_singleton.
  - unfold Get. destruct (List.find _ _) as [r|] eqn:E; [|done]. apply find_some in E as [Hin Hid].
    bool_to_prop. exfalso. apply Hnew, list_elem_of_fmap. exists r. split; [done|]. by apply list_elem_of_In.
  - intros. unfold Decide. cbn [ps_items on_world with_items]. rewrite Hfind. by destruct (_ && _).
  - intros os' now' id status who key r sa' Hd. unfold Decide in Hd. cbn [ps_items ps_path ps_disk on_world with_items] in Hd.
    destruct (_ && _); [done|]. destruct (find_request id _) as [i|] eqn:Ei; [|done].
    destruct (ps_items sa !! i) as [prev|] eqn:Ep; [|done]. destruct (negb _); [done|].
    destruct (save_file os' _ _ _ _) as [[e|] w'] eqn:Es'; [done|]. injection Hd as <- <-.
    apply save_file_spec in Es' as [_ Hfile']. cbn [ps_disk with_items]. eexists. split; [exact Hfile'|].
    rewrite list_fmap_insert. rewrite list_insert_id; [done|]. rewrite list_lookup_fmap, Ep. done.
Qed.

(** ** Concrete deployments *)

Definition boot_of (e : environ) (disk : keys_world) : boot_env :=
  mkBootEnv e "" 100 demo_env disk (mkWorld ∅ []) None None PoolReady (mkPgEnv true true) [] None None PoolReady
    "0x11111111" (Ok []).

Definition demo_http_environ : environ :=
  <["MCP_TRANSPORT" := "http"]> (<["ANCHOR_ADDRESS" := demo_anchor]> demo_environ).
Definition demo_static_environ : environ :=
  <["MCP_API_KEY" := "secret"]> (<["MCP_API_KEY_ROLES" := "writer, reader"]> demo_http_environ).
Definition demo_keyless_environ : environ :=
  <["MCP_KEYLESS_WRITES" := "1"]> (<["MCP_KEYLESS_READS" := "1"]>
    (<["MCP_KEYLESS_PG_DSN" := "postgres://db"]> demo_static_environ)).
Definition demo_request_environ : environ :=
  <["NVNM_KEY_REQUEST_ENABLED" := "true"]> (<["NVNM_KEY_PENDING_FILE" := "/pending.json"]>
    (<["NVNM_ALLOW_KEY_IN_LOGS" := "true"]> demo_static_environ)).
Definition no_disk : keys_world := mkWorld ∅ [].

(** Evaluate a boot and a test of its result. *)
Definition boots_with (env : boot_env) (test : deployment → bool) : bool :=
  match run env with Ok d => test d | Err _ => false end.

Lemma boots_with_spec env test : boots_with env test = true → ∃ d, run env = Ok d ∧ test d = true.
Proof. unfold boots_with. destruct (run env) as [d|]; [eauto|done]. Qed.

Definition digests_check (b : option key_backend) : bool :=
  match b with
  | Some (FileKeys m) => forallb (λ e, negb (ke_Enabled e) || negb (ke_KeyHash e =s "")) (mk_entries m)
  | _ => true
  end.

Lemma digests_check_spec b : digests_check b = true → digests_present b.
Proof.
  destruct b as [[m|p]|]; cbn; [|done..]. rewrite forallb_forall, Forall_forall. intros H e He Hen Hk.
  apply list_elem_of_In, H in He. by rewrite Hen, Hk in He.
Qed.

Definition is_http (d : deployment) : bool := Transport (core (dp_cfg d)) =s "http".


Lemma keyless_deployment_is_gated_witness :
  ∃ d rc, run (boot_of demo_keyless_environ no_disk) = Ok d ∧ dp_relay d = Some rc ∧ g_quota (rc_gates rc) = true.
Proof.
  destruct (boots_with_spec (boot_of demo_keyless_environ no_disk)
    (λ d, KeylessWrites (keyless (dp_cfg d)) && match dp_relay d with Some _ => true | None => false end))
    as (d & E & [Hk Hr]%andb_true_iff); [vm_compute; reflexivity|].
  destruct (dp_relay d) as [rc|] eqn:Er; [|done]. exists d, rc. split; [done|]. split; [done|].
  destruct (keyless_deployment_is_gated (boot_of demo_keyless_environ no_disk) d rc E Er) as (_ & _ & _ & H).
  rewrite Hk in H. destruct H as (_ & _ & -> & _). reflexivity.
Defined.

Lemma minted_keys_stay_out_of_logs_witness :
  ∃ d, run (boot_of demo_request_environ no_disk) = Ok d ∧ dp_email d = LogOnlyEmailSender ∧
    AllowKeyInLogs (keyRequest (dp_cfg d)) = true.
Proof.
  destruct (boots_with_spec (boot_of demo_request_environ no_disk)
    (λ d, KeyRequestEnabled (keyRequest (dp_cfg d)) && match dp_email d with LogOnlyEmailSender => true | _ => false end))
    as (d & E & [Hk Hm]%andb_true_iff); [vm_compute; reflexivity|].
  destruct (dp_email d) eqn:Em; [done|]. exists d. split_and!; [done|done|].
  by apply (minted_keys_stay_out_of_logs (boot_of demo_request_environ no_disk) d E).
Defined.

Lemma accepted_requests_are_lost_witness :
  ∃ d sa sp req sp', run (boot_of demo_request_environ no_disk) = Ok d ∧
    dp_admin_pending d = Some sa ∧ dp_public_pending d = Some sp ∧
    Add demo_env 5 "id-1" "a@b.c" "" "demo" "1.2.3.4" sp = (Ok req, sp') ∧ Get "id-1" sa = None.
Proof.
  destruct (boots_with_spec (boot_of demo_request_environ no_disk)
    (λ d, match dp_admin_pending d, dp_public_pending d with
          | Some sa, Some sp => (Z.of_nat (length (ps_items sa)) =? 0) &&
              is_ok (Add demo_env 5 "id-1" "a@b.c" "" "demo" "1.2.3.4" sp).1
          | _, _ => false
          end)) as (d & E & H); [vm_compute; reflexivity|].
  destruct (dp_admin_pending d) as [sa|] eqn:Ea; [|done]. destruct (dp_public_pending d) as [sp|] eqn:Ep; [|done].
  destruct (Add demo_env 5 "id-1" "a@b.c" "" "demo" "1.2.3.4" sp) as [[req|e] sp'] eqn:Eadd;
    [|by rewrite andb_false_r in H].
  exists d, sa, sp, req, sp'. split_and!; [done..|].
  apply (accepted_requests_are_lost (boot_of demo_request_environ no_disk) d sa sp demo_env 5 "id-1" "a@b.c" "" "demo"
    "1.2.3.4" req sp' E Ea Ep); [|exact Eadd].
  apply andb_true_iff in H as [Hl%Z.eqb_eq _]. destruct (ps_items sa); [by intros H%elem_of_nil|done].
Defined.

(** The hypothesis on digests is needed. [UsableCount] counts an enabled entry that
    has neither a key nor a digest; the index does not, so the store is empty,
    the validator is nil, and a nil validator means that AuthMiddleware lets
    everything through: the server starts on HTTP with the write tool open to
    requests without credentials. *)
Definition blank_entry : KeyEntry := mkEntry "alice" "" "" "" true 0 0 "" ["reader"] 0.
Definition blank_disk : keys_world := mkWorld {["/keys.json" := Parsed [blank_entry]]} [].

Lemma blank_entry_disables_authentication :
  ∃ d rc, run (boot_of (<["MCP_API_KEYS_FILE" := "/keys.json"]> demo_http_environ) blank_disk) = Ok d ∧
    Transport (core (dp_cfg d)) = "http" ∧ sc_validator (dp_http d) = false ∧ dp_relay d = Some rc ∧
    length (rl_sent (call_send (sc_keylessReads (dp_http d)) rc demo_relay_env None (demo_signed 0) demo_relay_st).2)
      = 1%nat.
Proof.
  destruct (boots_with_spec (boot_of (<["MCP_API_KEYS_FILE" := "/keys.json"]> demo_http_environ) blank_disk)
    (λ d, is_http d && negb (sc_validator (dp_http d)) &&
      match dp_relay d with
      | Some rc => (length (rl_sent (call_send (sc_keylessReads (dp_http d)) rc demo_relay_env None (demo_signed 0)
                                       demo_relay_st).2) =? 1)%nat
      | None => false
      end)) as (d & E & H); [vm_compute; reflexivity|].
  apply andb_true_iff in H as [[Hh Hv]%andb_true_iff H]. destruct (dp_relay d) as [rc|] eqn:Er; [|done].
  exists d, rc. split_and!; [done|by apply String.eqb_eq|by apply negb_true_iff|done|by apply Nat.eqb_eq].
Qed.
