(* ===== verification/Observe.v ===== *)
(** What the server observes about itself and what it lets through while doing
    so: the receiving middleware that counts and sanitises every MCP call
    (internal/telemetry/middleware.go), the redaction of logged values
    (internal/logging/redact.go), the log fan-out (fanout.go, logger.go), the
    cap on node responses (internal/evm/transport.go) and the status recorder of
    the response counter (internal/mcp/response_metrics.go).

    Spans, request ids and log lines are not modelled; the metrics are the
    samples recorded on the instruments of internal/telemetry/metrics.go. *)

From S2P Require Import Prelude GoErrors Hex Http Auth.

(** ** The MCP middleware *)

Record call_sample := mkCall { cs_Method : string; cs_Tool : string; cs_Status : string }.

Record mcp_metrics := mkMcpMetrics {
  mm_active : Z;                                       (* mcp.server.active_requests *)
  mm_durations : list (string * string * Z);           (* mcp.server.tool.duration: method, tool *)
  mm_calls : list call_sample;                         (* mcp.server.tool.calls *)
  mm_errors : list (string * string)                   (* mcp.server.tool.errors *)
}.

Definition extractToolName (method : string) (req : mcp_params) : string :=
  if negb (method =s "tools/call") then method else ToolNameFromRequest req.

Section Middleware.
Context {A St : Type}.

(** An MCP method handler over the rest of the server's state; it may observe
    the metrics while it runs. *)
Definition method_handler : Type :=
  option Claims → string → mcp_params → mcp_metrics * St → result error A * (mcp_metrics * St).

Definition add_active (n : Z) (m : mcp_metrics) : mcp_metrics :=
  mkMcpMetrics (mm_active m + n) (mm_durations m) (mm_calls m) (mm_errors m).

(** [elapsed] is the measured duration. *)
Definition NewMCPMiddleware (elapsed : Z) (next : method_handler) : method_handler := λ c method req '(m, st),
  let toolName := extractToolName method req in
  let m := add_active 1 m in
  let '(result, (m, st)) := next c method req (m, st) in
  let m := add_active (-1) m in
  let m := mkMcpMetrics (mm_active m) (mm_durations m ++ [(method, toolName, elapsed)]) (mm_calls m) (mm_errors m) in
  let '(status, m) :=
    match result with
    | Err _ => ("error", mkMcpMetrics (mm_active m) (mm_durations m) (mm_calls m) (mm_errors m ++ [(method, toolName)]))
    | Ok _ => ("ok", m)
    end in
  let m := mkMcpMetrics (mm_active m) (mm_durations m) (mm_calls m ++ [mkCall method toolName status]) (mm_errors m) in
  (match result with
   | Err e => match SafeForClient (Some e) with Some e => Err e | None => Err e end
   | Ok a => Ok a
   end, (m, st)).
End Middleware.

(** ** Redaction *)

Definition SafeAddr (addr : string) : string :=
  if slen addr <=? 10 then addr
  else str_take 6 addr +:+ "..." +:+ str_drop (Z.to_nat (slen addr - 4)) addr.

(** strings.LastIndex of a character, from position [i]; -1 when absent. *)
Fixpoint last_index_from (c : ascii) (i : Z) (s : string) : Z :=
  match s with
  | EmptyString => -1
  | String d s =>
      let rest := last_index_from c (i + 1) s in
      if rest =? -1 then if Ascii.eqb d c then i else -1 else rest
  end.

Definition SafeEmail (email : string) : string :=
  let at_ := last_index_from "@" 0 email in
  if (at_ <=? 0) || (at_ =? slen email - 1) then "[redacted_email]"
  else str_take 1 email +:+ "***" +:+ str_drop (Z.to_nat at_) email.

Definition SafeTxData (data : string) : Z := slen (trim_prefix "0x" data) / 2.

(** ** Logging *)

Definition LevelDebug : Z := -4.
Definition LevelInfo : Z := 0.
Definition LevelWarn : Z := 4.
Definition LevelError : Z := 8.

Definition parseLevel (s : string) : Z :=
  let s := to_lower s in
  if s =s "debug" then LevelDebug
  else if (s =s "warn") || (s =s "warning") then LevelWarn
  else if s =s "error" then LevelError
  else LevelInfo.

(** A slog.Handler over the state of its sink. *)
Record slog_handler (St R : Type) := mkSlog {
  sh_Enabled : Z → bool;
  sh_Handle : Z → R → St → option error * St
}.
Arguments mkSlog {St R} _ _. Arguments sh_Enabled {St R} _ _. Arguments sh_Handle {St R} _ _ _ _.

Definition fanout_Enabled {S1 S2 R} (primary : slog_handler S1 R) (secondary : slog_handler S2 R) (level : Z) : bool :=
  sh_Enabled primary level || sh_Enabled secondary level.

Definition fanout_Handle {S1 S2 R} (primary : slog_handler S1 R) (secondary : slog_handler S2 R) (level : Z) (r : R)
    (st : S1 * S2) : option error * (S1 * S2) :=
  let '(s1, s2) := st in
  let '(err, s1) := if sh_Enabled primary level then sh_Handle primary level r s1 else (None, s1) in
  match err with
  | Some e => (Some e, (s1, s2))
  | None => (None, (s1, if sh_Enabled secondary level then (sh_Handle secondary level r s2).2 else s2))
  end.

(** ** The cap on node responses *)

Definition maxNodeResponseBytes : Z := 33554432.                   (* 32 << 20 *)

(** limitedReadCloser: the bytes counted so far. *)
Record limitedReadCloser := mkLimited { lr_n : Z; lr_limit : Z }.

(** One Read, given what the inner reader returned: the bytes it put into the
    buffer and its error. *)
Definition Read (inner : string * option error) (l : limitedReadCloser) : string * option error * limitedReadCloser :=
  let '(chunk, err) := inner in
  let l := mkLimited (lr_n l + slen chunk) (lr_limit l) in
  if lr_limit l <? lr_n l
  then (chunk, Some (Wrap ("node response exceeded " +:+ stdpp.pretty.pretty (lr_limit l) +:+ " bytes: ") ErrNodeResponseTooLarge ""), l)
  else (chunk, err, l).

(** A consumer that reads until an error: what it collected, and the error. *)
Fixpoint read_all (chunks : list (string * option error)) (l : limitedReadCloser) : string * option error :=
  match chunks with
  | [] => ("", None)
  | inner :: chunks =>
      let '(chunk, err, l) := Read inner l in
      match err with
      | Some e => (chunk, Some e)
      | None => let '(rest, e) := read_all chunks l in (chunk +:+ rest, e)
      end
  end.

(** limitedTransport.RoundTrip: the base's answer with its body capped. *)
Definition RoundTrip {B} (limit : Z) (base : result error B) : result error (B * limitedReadCloser) :=
  let? body := base in Ok (body, mkLimited 0 limit).

(** The same consumer on the bare body. *)
Fixpoint read_bare (chunks : list (string * option error)) : string * option error :=
  match chunks with
  | [] => ("", None)
  | (chunk, Some e) :: _ => (chunk, Some e)
  | (chunk, None) :: chunks => let '(rest, e) := read_bare chunks in (chunk +:+ rest, e)
  end.

(** ** The middleware *)

(** Sanitising twice is not sanitising once: the texts for an open circuit and
    an exhausted rate are not themselves disclosed. *)
Lemma SafeForClient_twice e e' : SafeForClient (Some e) = Some e' →
  SafeForClient (Some e') = Some (if disclosed e then e' else Sentinel ErrSafeUpstreamFail).
Proof.
  destruct (disclosed e) eqn:Hd; [rewrite SafeForClient_disclosed by done; intros [= <-]; by apply SafeForClient_disclosed|].
  rewrite SafeForClient_hidden by done. intros [= <-].
  destruct (errors_Is e ErrCircuitOpen); [reflexivity|]. by destruct (errors_Is e ErrRateLimited).
Qed.

(** The middleware runs the next handler once, with this call counted as active;
    it counts one finished call under its method, tool and outcome, and hands on
    the result, an error in the form a client may see. *)
Lemma NewMCPMiddleware_spec {A St} elapsed (next : @method_handler A St) c method req m st r m1 st1 :
  next c method req (add_active 1 m, st) = (r, (m1, st1)) →
  let tool := extractToolName method req in
  let status := match r with Ok _ => "ok" | Err _ => "error" end in
  ∃ r' m', NewMCPMiddleware elapsed next c method req (m, st) = (r', (m', st1)) ∧
    mm_active m' = mm_active m1 - 1 ∧ mm_calls m' = mm_calls m1 ++ [mkCall method tool status] ∧
    mm_durations m' = mm_durations m1 ++ [(method, tool, elapsed)] ∧
    mm_errors m' = mm_errors m1 ++ (if is_ok r then [] else [(method, tool)]) ∧
    match r with
    | Ok a => r' = Ok a
    | Err e => ∃ e', r' = Err e' ∧ SafeForClient (Some e) = Some e'
    end.
Proof.
  intros Hn. cbv zeta. unfold NewMCPMiddleware. rewrite Hn. destruct r as [a|e].
  - eexists _, _. split; [done|]. cbn. split_and!; first [done|lia|by rewrite app_nil_r].
  - assert (∃ e', SafeForClient (Some e) = Some e') as [e' He'] by (by eexists). rewrite He'.
    eexists _, _. split; [done|]. cbn. split_and!; try first [done|lia]. by exists e'.
Qed.

(** ** Redaction *)

(** A redacted address depends on its first six and last four characters alone. *)
Lemma SafeAddr_hides p s mid mid' : slen p = 6 → slen s = 4 → mid ≠ "" → mid' ≠ "" →
  SafeAddr (p +:+ mid +:+ s) = SafeAddr (p +:+ mid' +:+ s) ∧ SafeAddr (p +:+ mid +:+ s) = p +:+ "..." +:+ s.
Proof.
  assert (∀ mid, slen p = 6 → slen s = 4 → mid ≠ "" → SafeAddr (p +:+ mid +:+ s) = p +:+ "..." +:+ s) as H.
  { intros m Hp Hs Hm. unfold SafeAddr. unfold slen in *. rewrite !string_app_length.
    assert (0 < String.length m)%nat by (destruct m; [done|cbn; lia]).
    rewrite (proj2 (Z.leb_gt _ _)) by lia.
    assert (String.length p = 6%nat) as Hp' by lia. rewrite <- Hp' at 1. rewrite str_take_app.
    replace (Z.to_nat _) with (String.length (p +:+ m)) by (rewrite string_app_length; lia).
    by rewrite <- (string_app_assoc p m s), str_drop_app. }
  intros. split; [by rewrite !H|by apply H].
Qed.

Lemma last_index_from_absent c i s : (∀ d, In d (String.list_ascii_of_string s) → d ≠ c) → last_index_from c i s = -1.
Proof.
  revert i. induction s as [|d s IH]; intros i H; [done|]. cbn [last_index_from]. cbv zeta.
  rewrite IH by (intros x Hx; apply H; by right). rewrite Z.eqb_refl.
  rewrite (proj2 (Ascii.eqb_neq _ _)) by (apply H; by left). done.
Qed.

Lemma last_index_from_app c i p s : 0 ≤ i → (∀ d, In d (String.list_ascii_of_string s) → d ≠ c) →
  last_index_from c i (p +:+ String c s) = i + slen p.
Proof.
  unfold slen. revert i. induction p as [|d p IH]; intros i Hi H.
  - change ("" +:+ String c s) with (String c s). cbn [last_index_from String.length]. cbv zeta. rewrite last_index_from_absent by done.
    rewrite Z.eqb_refl, Ascii.eqb_refl. lia.
  - change (String d p +:+ String c s) with (String d (p +:+ String c s)). cbn [last_index_from String.length]. cbv zeta.
    rewrite IH by (done || lia). rewrite (proj2 (Z.eqb_neq _ _)) by lia. lia.
Qed.

(** A redacted mail address shows the first character of the local part and the
    domain; a text of any other shape shows nothing. *)
Lemma SafeEmail_hides x local domain : domain ≠ "" → (∀ d, In d (String.list_ascii_of_string domain) → d ≠ "@"%char) →
  SafeEmail (String x local +:+ "@" +:+ domain) = String x ("***@" +:+ domain).
Proof.
  intros Hd Hno. unfold SafeEmail. change ("@" +:+ domain) with (String "@" domain).
  rewrite last_index_from_app by done. cbv zeta. unfold slen. rewrite string_app_length.
  assert (0 < String.length domain)%nat by (destruct domain; [done|cbn; lia]).
  assert (String.length (String "@" domain) = S (String.length domain)) as -> by done.
  change (String.length (String x local)) with (S (String.length local)).
  rewrite (proj2 (Z.leb_gt _ _)), (proj2 (Z.eqb_neq _ _)) by lia. cbn [orb].
  replace (Z.to_nat _) with (String.length (String x local)) by (cbn [String.length]; lia).
  rewrite str_drop_app. by destruct local.
Qed.

Lemma SafeEmail_malformed email : last_index_from "@" 0 email ≤ 0 → SafeEmail email = "[redacted_email]".
Proof. intros H. unfold SafeEmail. by rewrite (proj2 (Z.leb_le _ _) H). Qed.

(** ** The fan-out: the secondary sink never makes a record fail *)

Lemma fanout_secondary_harmless {S1 S2 R} (p : slog_handler S1 R) (q q' : slog_handler S2 R) level r s1 s2 s2' :
  (fanout_Handle p q level r (s1, s2)).1 = (fanout_Handle p q' level r (s1, s2')).1 ∧
  (fanout_Handle p q level r (s1, s2)).2.1 = (fanout_Handle p q' level r (s1, s2')).2.1.
Proof.
  unfold fanout_Handle. destruct (sh_Enabled p level); [|done]. by destruct (sh_Handle p level r s1) as [[]].
Qed.

(** ** The cap *)

Definition too_large (limit : Z) : error :=
  Wrap ("node response exceeded " +:+ stdpp.pretty.pretty limit +:+ " bytes: ") ErrNodeResponseTooLarge "".

Lemma read_all_spec buf limit chunks n : (∀ inner, inner ∈ chunks → slen inner.1 ≤ buf) → 0 ≤ n ≤ limit →
  let '(got, err) := read_all chunks (mkLimited n limit) in
  let '(bare, err') := read_bare chunks in
  (n + slen bare ≤ limit ∧ got = bare ∧ err = err') ∨
  (limit < n + slen got ≤ limit + buf ∧ ∃ rest, bare = got +:+ rest ∧ err = Some (too_large limit)).
Proof.
  revert n. induction chunks as [|[chunk err] chunks IH]; intros n Hbuf Hn; cbn [read_all read_bare].
  { left. change (slen "") with 0. split_and!; [lia|done..]. }
  assert (slen chunk ≤ buf) as Hc by (apply (Hbuf (chunk, err)); by left).
  assert (0 ≤ slen chunk) as Hc0 by (unfold slen; lia).
  unfold Read. cbn [lr_n lr_limit]. destruct (limit <? n + slen chunk) eqn:E; bool_to_prop.
  - destruct err as [e|]; [|destruct (read_bare chunks) as [rest e]]; right; (split; [lia|]).
    + exists "". by rewrite string_app_nil_r.
    + by exists rest.
  - destruct err as [e|]; [left; split_and!; [lia|done..]|].
    specialize (IH (n + slen chunk)). destruct (read_all chunks _) as [got e], (read_bare chunks) as [bare e'].
    assert (∀ s, slen (chunk +:+ s) = slen chunk + slen s) as Hs by (intros s; unfold slen; rewrite string_app_length; lia).
    rewrite !Hs. destruct IH as [(H1 & -> & ->)|(H1 & rest & -> & ->)]; [intros i Hi; apply Hbuf; by right|lia|left|right].
    + split_and!; [lia|done..].
    + split; [lia|]. exists rest. by rewrite string_app_assoc.
Qed.

(** Node responses are bounded. However a node streams its answer, in chunks
    of at most the reader's buffer, a consumer that stops at the first error
    collects at most the limit and one buffer. An answer within the limit is read
    exactly as without the cap; of a longer one the consumer sees a prefix and
    the error that says so, whose text no client is shown. *)
Theorem node_response_bounded buf limit chunks
    (Hbuf : ∀ inner, inner ∈ chunks → slen inner.1 ≤ buf) (Hlim : 0 ≤ limit) (Hpos : 0 ≤ buf) :
  let '(got, err) := read_all chunks (mkLimited 0 limit) in
  let '(bare, err') := read_bare chunks in
  slen got ≤ limit + buf ∧
  if slen bare <=? limit then got = bare ∧ err = err'
  else has_prefix got bare = true ∧ limit < slen got ∧
    ∃ e, err = Some e ∧ errors_Is e ErrNodeResponseTooLarge = true ∧
      SafeForClient err = Some (Sentinel ErrSafeUpstreamFail).
Proof.
  pose proof (read_all_spec buf limit chunks 0 Hbuf) as H. destruct (read_all chunks _) as [got err], (read_bare chunks) as [bare err'].
  destruct H as [(H1 & -> & ->)|(H1 & rest & -> & ->)]; [lia| |].
  - split; [lia|]. by rewrite (proj2 (Z.leb_le _ _)) by lia.
  - split; [lia|]. assert (slen (got +:+ rest) = slen got + slen rest) as Hs by (unfold slen; rewrite string_app_length; lia).
    rewrite (proj2 (Z.leb_gt _ _)) by (rewrite Hs; unfold slen in *; lia).
    split_and!; [apply has_prefix_app|lia|]. exists (too_large limit). split_and!; [done|by vm_compute|].
    rewrite SafeForClient_hidden; [done|]. reflexivity.
Qed.

Lemma node_response_bounded_witness :
  let chunks := [("abcd", None); ("efgh", None); ("ij", Some (Opaque "EOF"))] in
  (∀ inner, inner ∈ chunks → slen inner.1 ≤ 4) ∧ (read_all chunks (mkLimited 0 6)).1 = "abcdefgh" ∧
  slen (read_all chunks (mkLimited 0 6)).1 ≤ 6 + 4.
Proof.
  intros chunks. assert (∀ inner, inner ∈ chunks → slen inner.1 ≤ 4) as Hb.
  { intros inner. unfold chunks. rewrite !elem_of_cons, elem_of_nil. intros [->|[->|[->|[]]]]; vm_compute; discriminate. }
  split; [exact Hb|]. split; [vm_compute; reflexivity|].
  pose proof (node_response_bounded 4 6 chunks Hb ltac:(lia) ltac:(lia)) as H.
  destruct (read_all chunks (mkLimited 0 6)) as [got err], (read_bare chunks) as [bare err']. exact (proj1 H).
Defined.

(** ** The status recorder *)

(** What a handler does to its response writer. *)
Inductive writer_op := OpWriteHeader (code : Z) | OpWrite (b : string) | OpFlush.

Definition informational (code : Z) : bool := (100 <=? code) && (code <=? 199) && negb (code =? 101).

(** net/http's own writer: the status line it has sent. An informational status is
    sent beside it; a write, a flush and the end of the handler send 200. *)
Definition http_step (sent : option Z) (op : writer_op) : option Z :=
  match sent, op with
  | Some _, _ => sent
  | None, OpWriteHeader code => if informational code then None else Some code
  | None, _ => Some 200
  end.
Definition http_status (ops : list writer_op) : Z := default 200 (foldl http_step None ops).

Record statusRecorder := mkRecorder { sr_status : Z; sr_wroteHeader : bool }.

Definition sr_WriteHeader (code : Z) (sr : statusRecorder) : statusRecorder :=
  if sr_wroteHeader sr then sr else mkRecorder code true.
Definition sr_Write (sr : statusRecorder) : statusRecorder :=
  if sr_wroteHeader sr then sr else mkRecorder 200 true.
Definition sr_Flush (sr : statusRecorder) : statusRecorder := sr.

Definition sr_step (sr : statusRecorder) (op : writer_op) : statusRecorder :=
  match op with
  | OpWriteHeader code => sr_WriteHeader code sr
  | OpWrite _ => sr_Write sr
  | OpFlush => sr_Flush sr
  end.
Definition recorded_status (ops : list writer_op) : Z := sr_status (foldl sr_step (mkRecorder 200 false) ops).

(** The recorder sees the status through a handler that neither flushes before it
    has written nor sends an informational status first. *)
Definition disciplined (ops : list writer_op) : Prop :=
  match ops with
  | OpFlush :: _ => False
  | OpWriteHeader code :: _ => informational code = false
  | _ => True
  end.

Lemma http_sent code ops : foldl http_step (Some code) ops = Some code.
Proof. induction ops as [|op ops IH]; [done|exact IH]. Qed.
Lemma recorder_wrote code ops : foldl sr_step (mkRecorder code true) ops = mkRecorder code true.
Proof. induction ops as [|[] ops IH]; [done|exact IH..]. Qed.

(** The recorded status is the one the client got, for every disciplined handler. *)
Lemma recorder_exact ops : disciplined ops → recorded_status ops = http_status ops.
Proof.
  unfold recorded_status, http_status. destruct ops as [|[code|b|] ops]; cbn [foldl disciplined]; [done|..|done].
  - intros Hi. unfold http_step at 2, sr_step at 2, sr_WriteHeader. rewrite Hi. cbn [sr_wroteHeader].
    by rewrite http_sent, recorder_wrote.
  - intros _. by rewrite (http_sent 200), (recorder_wrote 200).
Qed.

(** The others are counted in the class of a status the client never saw. *)
Lemma recorder_flush_first code ops :
  recorded_status (OpFlush :: OpWriteHeader code :: ops) = code ∧ http_status (OpFlush :: OpWriteHeader code :: ops) = 200.
Proof.
  unfold recorded_status, http_status. cbn [foldl]. split; [by rewrite (recorder_wrote code)|].
  by rewrite (http_sent 200).
Qed.
Lemma recorder_informational_first early code ops : informational early = true → informational code = false →
  recorded_status (OpWriteHeader early :: OpWriteHeader code :: ops) = early ∧
  http_status (OpWriteHeader early :: OpWriteHeader code :: ops) = code.
Proof.
  intros He Hc. unfold recorded_status, http_status. cbn [foldl]. split; [by rewrite (recorder_wrote early)|].
  unfold http_step at 2 3. rewrite He, Hc. by rewrite http_sent.
Qed.
