(* ===== verification/Mail.v ===== *)
(** Outgoing mail (internal/mcp/smtp.go): what SMTPEmailSender hands to
    net/smtp, and the log-only fallback. The conversation with the mail server
    (smtp.SendMail) is a parameter. *)

From stdpp Require Import pretty.
From S2P Require Import Prelude GoErrors Hex Config.

Definition CR : ascii := byte_of 13.
Definition LF : ascii := byte_of 10.
Definition crlf : string := String CR (String LF "").

(** strings.ContainsAny(s, CR LF) *)
Fixpoint has_line_break (s : string) : bool :=
  match s with
  | EmptyString => false
  | String c s => Ascii.eqb c CR || Ascii.eqb c LF || has_line_break s
  end.

Definition ErrEmailEmptyRecipient : error := Opaque "smtp send: empty recipient".
Definition ErrEmailHeaderInjection : error := Opaque "smtp send: header injection in recipient or subject".

(** The arguments of smtp.SendMail; the credentials are those of smtp.PlainAuth. *)
Record smtp_call := mkSmtpCall {
  sm_addr : string; sm_auth : option (string * string * string); sm_from : string; sm_to : list string; sm_msg : string
}.

Definition fromHeader (cfg : SMTPConfig) : string :=
  if SMTPFromName cfg =s "" then SMTPFrom cfg else SMTPFromName cfg +:+ " <" +:+ SMTPFrom cfg +:+ ">".

Definition message (cfg : SMTPConfig) (to subject body : string) : string :=
  ("From: " +:+ fromHeader cfg +:+ crlf) +:+
  ("To: " +:+ to +:+ crlf) +:+
  ("Subject: " +:+ subject +:+ crlf) +:+
  ("MIME-Version: 1.0" +:+ crlf) +:+
  ("Content-Type: text/plain; charset=UTF-8" +:+ crlf) +:+
  crlf +:+
  body.

(** SMTPEmailSender.Send: its error, and the call of smtp.SendMail if it made one. *)
Definition Send (cfg : SMTPConfig) (SendMail : smtp_call → option error) (to subject body : string)
    : option error * option smtp_call :=
  if to =s "" then (Some ErrEmailEmptyRecipient, None)
  else if has_line_break to || has_line_break subject then (Some ErrEmailHeaderInjection, None)
  else
    let addr := SMTPHost cfg +:+ ":" +:+ pretty (SMTPPort cfg) in
    let auth := if negb (SMTPUsername cfg =s "") && negb (SMTPPassword cfg =s "")
                then Some (SMTPUsername cfg, SMTPPassword cfg, SMTPHost cfg) else None in
    let call := mkSmtpCall addr auth (SMTPFrom cfg) [to] (message cfg to subject body) in
    match SendMail call with
    | Some e => (Some (Wrap "smtp send: " e ""), Some call)
    | None => (None, Some call)
    end.

(** LogOnlyEmailSender.Send: the attributes of the line it logs. *)
Definition LogOnly_Send (to subject body : string) : option error * list (string * string) :=
  (None, [("to", to); ("subject", subject); ("body", body)]).

(** ** Reading a message back *)

(** The text up to the first line end, and what follows it. *)
Fixpoint cut_line (s : string) : option (string * string) :=
  match s with
  | EmptyString => None
  | String c s' =>
      match s' with
      | String d rest =>
          if Ascii.eqb c CR && Ascii.eqb d LF then Some ("", rest)
          else p ← cut_line s'; Some (String c p.1, p.2)
      | EmptyString => None
      end
  end.

(** A header line: the name up to the colon, and the value after a space. *)
Fixpoint cut_colon (s : string) : option (string * string) :=
  match s with
  | EmptyString => None
  | String c s' =>
      if Ascii.eqb c ":" then match s' with String d v => if Ascii.eqb d " " then Some ("", v) else None | _ => None end
      else p ← cut_colon s'; Some (String c p.1, p.2)
  end.

(** The headers in order and the body: what the receiving side sees. *)
Fixpoint parse_message (fuel : nat) (s : string) : option (list (string * string) * string) :=
  match fuel with
  | O => None
  | S fuel =>
      match cut_line s with
      | None => None
      | Some (line, rest) =>
          if line =s "" then Some ([], rest)
          else h ← cut_colon line; p ← parse_message fuel rest; Some (h :: p.1, p.2)
      end
  end.

Lemma cut_line_app l rest : has_line_break l = false → cut_line (l +:+ crlf +:+ rest) = Some (l, rest).
Proof.
  induction l as [|c l IH]; [done|]. cbn [has_line_break]. intros H. apply orb_false_iff in H as [[Hc _]%orb_false_iff Hl].
  assert (∃ d r, l +:+ crlf +:+ rest = String d r) as (d & r & E) by (destruct l; by eexists _, _).
  change (String c l +:+ crlf +:+ rest) with (String c (l +:+ crlf +:+ rest)). cbn [cut_line]. rewrite E in *.
  specialize (IH Hl). rewrite Hc. cbn [andb]. by rewrite IH.
Qed.

Lemma parse_header fuel name value rest hs body :
  has_line_break (name +:+ ": " +:+ value) = false → cut_colon (name +:+ ": " +:+ value) = Some (name, value) →
  parse_message fuel rest = Some (hs, body) →
  parse_message (S fuel) (name +:+ ": " +:+ value +:+ crlf +:+ rest) = Some ((name, value) :: hs, body).
Proof.
  intros Hb Hc Hp. replace (name +:+ ": " +:+ value +:+ crlf +:+ rest) with ((name +:+ ": " +:+ value) +:+ crlf +:+ rest)
    by (by rewrite !string_app_assoc).
  cbn [parse_message]. rewrite cut_line_app by done.
  assert (((name +:+ ": " +:+ value) =s "") = false) as -> by (by destruct name).
  by rewrite Hc, Hp.
Qed.

Lemma no_break_app a b : has_line_break (a +:+ b) = has_line_break a || has_line_break b.
Proof.
  induction a as [|c a IH]; [done|]. change (String c a +:+ b) with (String c (a +:+ b)). cbn [has_line_break].
  by rewrite IH, !orb_assoc.
Qed.

(** C40: Mail cannot be forged through its fields. Send refuses an empty recipient
    and any recipient or subject with a line break, without talking to the mail
    server; anything else it hands over once, for exactly that recipient. If the
    configured sender's own name has no line break, the message reads back as the
    five headers with exactly these values and exactly this body; the excluded case
    is [from_name_injects]. The password is offered only when both credentials are
    set. *)
Theorem mail_reads_back cfg SendMail to subject body :
  match Send cfg SendMail to subject body with
  | (err, Some call) =>
      err = (λ e, Wrap "smtp send: " e "") <$> SendMail call ∧ to ≠ "" ∧
      sm_to call = [to] ∧ sm_from call = SMTPFrom cfg ∧
      (is_Some (sm_auth call) ↔ SMTPUsername cfg ≠ "" ∧ SMTPPassword cfg ≠ "") ∧
      (has_line_break (fromHeader cfg) = false →
       parse_message (String.length (sm_msg call)) (sm_msg call) =
         Some ([("From", fromHeader cfg); ("To", to); ("Subject", subject); ("MIME-Version", "1.0");
                ("Content-Type", "text/plain; charset=UTF-8")], body))
  | (err, None) => is_Some err ∧ (to = "" ∨ has_line_break to = true ∨ has_line_break subject = true)
  end.
Proof.
  unfold Send. destruct (to =s "") eqn:Et; bool_to_prop; [split; [by eexists|by left]|].
  destruct (has_line_break to) eqn:Ebt; cbn [orb]; [split; [by eexists|tauto]|].
  destruct (has_line_break subject) eqn:Ebs; [split; [by eexists|tauto]|]. cbv zeta.
  set (call := mkSmtpCall _ _ _ _ _).
  assert (has_line_break (fromHeader cfg) = false → parse_message (String.length (sm_msg call)) (sm_msg call) =
    Some ([("From", fromHeader cfg); ("To", to); ("Subject", subject); ("MIME-Version", "1.0");
           ("Content-Type", "text/plain; charset=UTF-8")], body)) as Hparse.
  { intros Hfrom. cbn [sm_msg call]. unfold message. rewrite !string_app_assoc.
    assert (∃ k, String.length ("From: " +:+ fromHeader cfg +:+ crlf +:+ "To: " +:+ to +:+ crlf +:+ "Subject: " +:+
      subject +:+ crlf +:+ "MIME-Version: 1.0" +:+ crlf +:+ "Content-Type: text/plain; charset=UTF-8" +:+ crlf +:+
      crlf +:+ body) = S (S (S (S (S (S k)))))) as [k ->].
    { eexists. rewrite string_app_length. cbn [String.length Nat.add]. reflexivity. }
    pose proof (parse_header (S (S (S (S (S k))))) "From" (fromHeader cfg)) as H1.
    pose proof (parse_header (S (S (S (S k)))) "To" to) as H2.
    pose proof (parse_header (S (S (S k))) "Subject" subject) as H3.
    pose proof (parse_header (S (S k)) "MIME-Version" "1.0") as H4.
    pose proof (parse_header (S k) "Content-Type" "text/plain; charset=UTF-8") as H5.
    apply H1; [by rewrite !no_break_app, Hfrom|done|]. apply H2; [by rewrite !no_break_app, Ebt|done|].
    apply H3; [by rewrite !no_break_app, Ebs|done|]. apply (H4 _ _ body); [done|done|]. apply (H5 _ [] body); [done|done|].
    done. }
  destruct (SendMail call) as [e|] eqn:Es; cbn [fst snd]; rewrite Es; (split_and!; [done..| |exact Hparse]);
    cbn [sm_auth call]; destruct (SMTPUsername cfg =s "") eqn:Eu, (SMTPPassword cfg =s "") eqn:Ep; bool_to_prop; cbn [negb andb];
    (split; [intros [x Hx]; by split_and!|intros [? ?]; first [done|by eexists]]).
Qed.

(** A sender name with a line break is not refused, and adds a header. *)
Lemma from_name_injects :
  ∃ cfg hs, parse_message 9 (message cfg "a@b" "hi" "") = Some (hs, "") ∧ ("Bcc", "x@y <s@t>") ∈ hs.
Proof.
  exists (mkSMTP "h" "" "" "s@t" ("NVNM" +:+ crlf +:+ "Bcc: x@y") 25). eexists. split; [vm_compute; reflexivity|].
  apply list_elem_of_In. vm_compute. tauto.
Qed.

Lemma mail_reads_back_witness :
  let cfg := mkSMTP "mail.example" "user" "" "noreply@example.com" "NVNM" 587 in
  has_line_break (fromHeader cfg) = false ∧
  (Send cfg (λ _, None) "alice@example.com" "approved" "key").1 = None ∧
  is_Some (Send cfg (λ _, None) ("a@b" +:+ crlf +:+ "Bcc: x@y") "approved" "key").1.
Proof.
  intros cfg. assert (has_line_break (fromHeader cfg) = false) as Hf by (vm_compute; reflexivity).
  split; [exact Hf|]. split.
  - pose proof (mail_reads_back cfg (λ _, None) "alice@example.com" "approved" "key") as H.
    destruct (Send cfg (λ _, None) "alice@example.com" "approved" "key") as [err [call|]] eqn:E.
    + destruct H as (-> & _). reflexivity.
    + vm_compute in E. discriminate.
  - vm_compute. by eexists.
Defined.
