(* ===== verification/Health.v ===== *)
(** The health server (internal/telemetry/health.go) and the chain-head adapter
    main gives it (cmd/nvnm-mcp-server/main.go): the readiness probe and the
    three endpoints.

    A probe sees the outcome of Ping, of the head lookup, and the clock. Times
    are Unix nanoseconds. The listener and the ticker are not modelled: a run of
    the server is the sequence of its probes. *)

From stdpp Require Import pretty.
From S2P Require Import Prelude GoErrors GoParse Http Auth Evm BlockArg Config EvmTools.

(** ** Durations (time.Duration) *)

Definition ns_per_s : Z := 1000000000.
Definition minDuration : Z := - 2 ^ 63.
Definition maxDuration : Z := 2 ^ 63 - 1.

(** t.Sub(u): exact, or the nearest Duration. *)
Definition time_Sub (t u : Z) : Z := Z.max minDuration (Z.min maxDuration (t - u)).

(** time.Unix(sec, 0): the seconds since year 1 are an int64 that may wrap. *)
Definition unixToInternal : Z := 62135596800.
Definition time_Unix (sec : Z) : Z := (i64 (sec + unixToInternal) - unixToInternal) * ns_per_s.

(** d.Round(m), halves away from zero. *)
Definition Round (d m : Z) : Z :=
  if m <=? 0 then d
  else
    let r := Z.rem d m in
    if d <? 0 then
      let r := - r in
      if u64 (r + r) <? m then d + r
      else let d1 := i64 (d - m + r) in if d1 <? d then d1 else minDuration
    else if u64 (r + r) <? m then d - r
    else let d1 := i64 (d + m - r) in if d <? d1 then d1 else maxDuration.

(** fmtFrac: the last [prec] digits of [v] as a fraction without trailing zeros,
    and the rest of [v]. *)
Fixpoint fmtFrac (prec : nat) (v : Z) (print : bool) (acc : string) : string * Z :=
  match prec with
  | O => (if print then "." +:+ acc else acc, v)
  | S prec =>
      let digit := v mod 10 in
      let print := print || negb (digit =? 0) in
      fmtFrac prec (v / 10) print (if print then pretty digit +:+ acc else acc)
  end.

(** d.String() *)
Definition Duration_String (d : Z) : string :=
  let u := Z.abs d in
  let text :=
    if u <? ns_per_s then
      if u =? 0 then "0s"
      else if u <? 1000 then pretty u +:+ "ns"
      else if u <? 1000000 then let '(f, v) := fmtFrac 3 u false "" in pretty v +:+ f +:+ "µs"
      else let '(f, v) := fmtFrac 6 u false "" in pretty v +:+ f +:+ "ms"
    else
      let '(f, v) := fmtFrac 9 u false "" in
      let secs := pretty (v mod 60) +:+ f +:+ "s" in
      let m := v / 60 in
      if m =? 0 then secs
      else
        let mins := pretty (m mod 60) +:+ "m" in
        let h := m / 60 in
        (if h =? 0 then "" else pretty h +:+ "h") +:+ mins +:+ secs in
  if d <? 0 then "-" +:+ text else text.

(** ** The response writer *)

(** Header changes after WriteHeader have no effect. *)
Record answer_writer := mkWriter { aw_headers : list (string * string); aw_sent : option (Z * list (string * string)) }.
Definition fresh_writer : answer_writer := mkWriter [] None.
Definition Header_Set (k v : string) (w : answer_writer) : answer_writer :=
  mkWriter ((k, v) :: aw_headers w) (aw_sent w).
Definition WriteHeader (status : Z) (w : answer_writer) : answer_writer :=
  match aw_sent w with
  | Some _ => w
  | None => mkWriter (aw_headers w) (Some (status, aw_headers w))
  end.

(** What the client gets: the status, the headers as they were sent, the body. *)
Record answer (A : Type) := mkAnswer { an_Status : Z; an_Headers : list (string * string); an_Body : A }.
Arguments mkAnswer {A} _ _ _.
Arguments an_Status {A} _. Arguments an_Headers {A} _. Arguments an_Body {A} _.

(** writeJSON: the first write sends status 200 unless one was sent. *)
Definition writeJSON {A} (body : A) (w : answer_writer) : answer A :=
  match aw_sent (WriteHeader StatusOK w) with
  | Some (status, headers) => mkAnswer status headers body
  | None => mkAnswer StatusOK [] body
  end.

(** ** The server *)

Record HealthServer := mkHealth {
  hs_checker : bool;                      (* checker != nil *)
  hs_head : bool;                         (* head != nil *)
  hs_maxBlockAge : Z;
  hs_abiLoaded : bool;
  hs_prom : bool;                         (* promHandler != nil *)
  hs_ready : bool;
  hs_status : gmap string string
}.

Definition NewHealthServer (promHandler checker abiLoaded : bool) : HealthServer :=
  mkHealth checker false 0 abiLoaded promHandler true ∅.

Definition WithChainStaleness (head : bool) (maxAge : Z) (h : HealthServer) : HealthServer :=
  mkHealth (hs_checker h) head maxAge (hs_abiLoaded h) (hs_prom h) (hs_ready h) (hs_status h).

(** What a probe observes: Ping, LatestBlockTimestamp, and the clock after it. *)
Record observation := mkObs { ob_ping : option error; ob_head : result error Z; ob_now : Z }.

Definition probeChainHead (maxBlockAge : Z) (o : observation) (checks : gmap string string) : gmap string string * bool :=
  match ob_head o with
  | Err _ => (<["chain_head" := "unavailable"]> checks, false)
  | Ok ts =>
      let age := time_Sub (ob_now o) ts in
      if maxBlockAge <? age then
        (<["chain_head" := "stale (last block " +:+ Duration_String (Round age ns_per_s) +:+ " old, max " +:+
                           Duration_String maxBlockAge +:+ ")"]> checks, false)
      else (<["chain_head" := "ok"]> checks, true)
  end.

Definition runProbe (o : observation) (h : HealthServer) : HealthServer :=
  let checks : gmap string string := ∅ in
  let '(checks, ready) :=
    if hs_checker h then
      match ob_ping o with
      | Some _ => (<["evm_rpc" := "unreachable"]> checks, false)
      | None => (<["evm_rpc" := "ok"]> checks, true)
      end
    else (checks, true) in
  let '(checks, ready) :=
    if hs_head h && (0 <? hs_maxBlockAge h) then
      let '(checks, ok) := probeChainHead (hs_maxBlockAge h) o checks in (checks, if ok then ready else false)
    else (checks, ready) in
  let checks := <["abi" := if hs_abiLoaded h then "loaded" else "not_configured"]> checks in
  mkHealth (hs_checker h) (hs_head h) (hs_maxBlockAge h) (hs_abiLoaded h) (hs_prom h) ready checks.

Record readinessResponse := mkReadiness { rd_Status : string; rd_Checks : gmap string string }.

Definition handleReady (h : HealthServer) : answer readinessResponse :=
  let w := fresh_writer in
  let '(status, w) := if hs_ready h then ("ready", w) else ("not_ready", WriteHeader StatusServiceUnavailable w) in
  let w := Header_Set "Content-Type" "application/json" w in
  writeJSON (mkReadiness status (hs_status h)) w.

(** version.Version, unless set at link time. *)
Definition Version : string := "dev".

Definition handleHealth : answer (gmap string string) :=
  let w := Header_Set "Content-Type" "application/json" fresh_writer in
  writeJSON (<["status" := "ok"]> {["version" := Version]}) w.

(** The mux: its three patterns, for a clean path. *)
Inductive endpoint := Healthz | Readyz | Metrics | MethodNotAllowed | NotFound.
Definition mux (h : HealthServer) (method path : string) : endpoint :=
  let get e := if (method =s "GET") || (method =s "HEAD") then e else MethodNotAllowed in
  if path =s "/healthz" then get Healthz
  else if path =s "/readyz" then get Readyz
  else if hs_prom h && (path =s "/metrics") then get Metrics
  else NotFound.

(** The server after its probes, oldest first. *)
Definition run_probes (h : HealthServer) (obs : list observation) : HealthServer := foldl (λ h o, runProbe o h) h obs.

(** ** The chain head *)

Definition errBlockTimestampOverflow : error := Opaque "block timestamp overflows int64".

(** chainHead.LatestBlockTimestamp *)
Definition LatestBlockTimestamp (c : evm_api) : result error Z :=
  let? block := ea_BlockByNumber c None false in
  if maxDuration <? nb_TimestampUnix block
  then Err (Wrap ("timestamp " +:+ pretty (nb_TimestampUnix block) +:+ ": ") errBlockTimestampOverflow "")
  else Ok (time_Unix (nb_TimestampUnix block)).

(** The server main starts, and what its probes see of a client. *)
Definition main_health (cfg : Config) (promHandler abiLoaded : bool) : HealthServer :=
  WithChainStaleness true (ReadinessMaxBlockAge (telemetry cfg)) (NewHealthServer promHandler true abiLoaded).
Definition observe (c : evm_api) (ping : option error) (now : Z) : observation :=
  mkObs ping (LatestBlockTimestamp c) now.

(** ** What the probe leaves behind *)

Lemma run_probes_config h obs : let h' := run_probes h obs in
  hs_checker h' = hs_checker h ∧ hs_head h' = hs_head h ∧ hs_maxBlockAge h' = hs_maxBlockAge h ∧
  hs_abiLoaded h' = hs_abiLoaded h ∧ hs_prom h' = hs_prom h.
Proof.
  unfold run_probes. revert h. induction obs as [|o obs IH]; intros h; [done|]. cbn [foldl]. cbv zeta.
  destruct (IH (runProbe o h)) as (-> & -> & -> & -> & ->). unfold runProbe, probeChainHead.
  destruct (hs_checker h), (ob_ping o), (hs_head h && (0 <? hs_maxBlockAge h)), (ob_head o); try done;
    by destruct (hs_maxBlockAge h <? time_Sub _ _).
Qed.

Lemma run_probes_snoc h obs o : run_probes h (obs ++ [o]) = runProbe o (run_probes h obs).
Proof. unfold run_probes. by rewrite foldl_app. Qed.

(** The head is recent enough, or nobody asked. *)
Definition head_fresh (h : HealthServer) (o : observation) : bool :=
  negb (hs_head h && (0 <? hs_maxBlockAge h)) ||
  match ob_head o with Ok ts => time_Sub (ob_now o) ts <=? hs_maxBlockAge h | Err _ => false end.
Definition rpc_up (h : HealthServer) (o : observation) : bool :=
  negb (hs_checker h) || match ob_ping o with None => true | Some _ => false end.

Lemma runProbe_ready o h : hs_ready (runProbe o h) = rpc_up h o && head_fresh h o.
Proof.
  unfold runProbe, probeChainHead, rpc_up, head_fresh.
  destruct (hs_checker h), (ob_ping o), (hs_head h && (0 <? hs_maxBlockAge h)), (ob_head o) as [ts|]; cbn; try done;
    destruct (hs_maxBlockAge h <? time_Sub (ob_now o) ts) eqn:E, (time_Sub (ob_now o) ts <=? hs_maxBlockAge h) eqn:E';
    bool_to_prop; try done; lia.
Qed.

Lemma runProbe_checks o h :
  hs_status (runProbe o h) !! "evm_rpc" =
    (if hs_checker h then Some (if ob_ping o then "unreachable" else "ok") else None) ∧
  (hs_status (runProbe o h) !! "chain_head" = Some "ok" ↔
     hs_head h = true ∧ 0 < hs_maxBlockAge h ∧ head_fresh h o = true) ∧
  hs_status (runProbe o h) !! "abi" = Some (if hs_abiLoaded h then "loaded" else "not_configured").
Proof.
  unfold runProbe, probeChainHead, head_fresh.
  destruct (hs_checker h), (ob_ping o), (hs_head h) eqn:Eh, (0 <? hs_maxBlockAge h) eqn:Em, (ob_head o) as [ts|]; cbn [andb negb orb];
    bool_to_prop;
    try (destruct (hs_maxBlockAge h <? time_Sub (ob_now o) ts) eqn:E,
                  (time_Sub (ob_now o) ts <=? hs_maxBlockAge h) eqn:E'; bool_to_prop; try lia);
    cbn [hs_status]; simplify_map_eq; (split_and!; [done| |done]); split; intros H;
    simplify_eq; destruct_and?; try done; try lia; by split_and!.
Qed.

Lemma i64_small x : 0 ≤ x < 2 ^ 63 → i64 x = x.
Proof.
  intros Hx. unfold i64, u64, u64_mod. cbv zeta. rewrite Z.mod_small by lia.
  by rewrite (proj2 (Z.ltb_lt _ _)) by lia.
Qed.

(** The age is compared as if there were no limits to time arithmetic. *)
Lemma recent_enough T now limit : 0 ≤ T → 0 ≤ now < 2 ^ 63 → 0 < limit →
  time_Sub now (time_Unix T) ≤ limit → now - T * ns_per_s ≤ limit.
Proof.
  intros HT Hn Hl. destruct (decide (T + unixToInternal < 2 ^ 63)) as [Hs|Hs].
  - unfold time_Unix. rewrite i64_small by (unfold unixToInternal in *; lia).
    unfold time_Sub, minDuration, maxDuration, ns_per_s. lia.
  - intros _. unfold unixToInternal, ns_per_s in *. lia.
Qed.

(** C36: Readiness. Whatever the probes before, after a probe /readyz answers 200
    exactly when the node answered the ping and, unless the check is switched
    off, reported a latest block no older than the limit; otherwise it answers
    503. It names the state of each check, and the ABI never gates. In
    particular a ready server's node showed a block that is recent by the clock,
    whatever timestamps a node may send. *)
Theorem readiness cfg prom abi obs c ping now :
  let limit := ReadinessMaxBlockAge (telemetry cfg) in
  let a := handleReady (run_probes (main_health cfg prom abi) (obs ++ [observe c ping now])) in
  let recent := ∃ block, ea_BlockByNumber c None false = Ok block ∧ nb_TimestampUnix block ≤ maxDuration ∧
                  time_Sub now (time_Unix (nb_TimestampUnix block)) ≤ limit in
  (an_Status a = 200 ∨ an_Status a = 503) ∧
  (an_Status a = 200 ↔ rd_Status (an_Body a) = "ready") ∧
  (an_Status a = 200 ↔ ping = None ∧ (0 < limit → recent)) ∧
  rd_Checks (an_Body a) !! "evm_rpc" = Some (if ping then "unreachable" else "ok") ∧
  (rd_Checks (an_Body a) !! "chain_head" = Some "ok" ↔ 0 < limit ∧ recent) ∧
  rd_Checks (an_Body a) !! "abi" = Some (if abi then "loaded" else "not_configured") ∧
  (an_Status a = 200 → 0 < limit → 0 ≤ now < 2 ^ 63 →
     ∃ block, ea_BlockByNumber c None false = Ok block ∧
       (0 ≤ nb_TimestampUnix block → now - nb_TimestampUnix block * ns_per_s ≤ limit)).
Proof.
  cbv zeta. rewrite run_probes_snoc. set (h := run_probes (main_health cfg prom abi) obs). set (o := observe c ping now).
  destruct (run_probes_config (main_health cfg prom abi) obs) as (Ec & Eh & Em & Ea & _). fold h in Ec, Eh, Em, Ea.
  cbn [main_health WithChainStaleness NewHealthServer hs_checker hs_head hs_maxBlockAge hs_abiLoaded] in Ec, Eh, Em, Ea.
  set (limit := ReadinessMaxBlockAge (telemetry cfg)) in *.
  set (recent := ∃ block, ea_BlockByNumber c None false = Ok block ∧ nb_TimestampUnix block ≤ maxDuration ∧
                  time_Sub now (time_Unix (nb_TimestampUnix block)) ≤ limit).
  assert (match ob_head o with Ok ts => time_Sub (ob_now o) ts <=? limit | Err _ => false end = true ↔ recent) as Hrec.
  { unfold o, observe, recent, LatestBlockTimestamp. cbn [ob_head ob_now].
    destruct (ea_BlockByNumber c None false) as [block|e]; cbn [rbind].
    2: { split; [done|]. by intros (? & ? & _). }
    destruct (maxDuration <? nb_TimestampUnix block) eqn:E; bool_to_prop.
    - split; [done|]. intros (b & [= <-] & Hb & _). lia.
    - rewrite Z.leb_le. split; [intros H; exists block; by split_and!|by intros (b & [= <-] & _ & H)]. }
  assert (head_fresh h o = true ↔ (0 < limit → recent)) as Hfresh.
  { unfold head_fresh. rewrite Eh, Em, <- Hrec. cbn [andb]. destruct (0 <? limit) eqn:E; bool_to_prop; cbn [negb orb].
    - split; [by intros|]. intros H. apply H. lia.
    - split; [intros _ H; lia|done]. }
  assert (rpc_up h o = true ↔ ping = None) as Hup by (unfold rpc_up; rewrite Ec; by destruct ping).
  pose proof (runProbe_ready o h) as Hready. destruct (runProbe_checks o h) as (Hc1 & Hc2 & Hc3).
  rewrite Ec in Hc1. rewrite Ea in Hc3. rewrite Eh, Em in Hc2.
  assert (an_Status (handleReady (runProbe o h)) = 200 ↔ ping = None ∧ (0 < limit → recent)) as Hst.
  { unfold handleReady. rewrite <- Hup, <- Hfresh, <- andb_true_iff, <- Hready.
    by destruct (hs_ready (runProbe o h)). }
  assert (rd_Checks (an_Body (handleReady (runProbe o h))) = hs_status (runProbe o h)) as ->
    by (unfold handleReady; by destruct (hs_ready (runProbe o h))).
  split_and!; [| |exact Hst|exact Hc1| |exact Hc3|].
  - unfold handleReady. destruct (hs_ready (runProbe o h)); [by left|by right].
  - unfold handleReady. by destruct (hs_ready (runProbe o h)).
  - rewrite Hc2, Hfresh. split; [intros (_ & H1 & H2); auto|intros [H1 H2]; by split_and!].
  - intros [_ H]%Hst Hl Hn. destruct (H Hl) as (block & Hb & _ & Ht). exists block. split; [done|].
    intros HT. by apply recent_enough.
Qed.

(** Before its first probe the server says it is ready, having checked nothing. *)
Lemma ready_before_any_probe cfg prom abi :
  an_Status (handleReady (main_health cfg prom abi)) = 200 ∧
  rd_Checks (an_Body (handleReady (main_health cfg prom abi))) = ∅.
Proof. done. Qed.

(** The 503 answer is sent before its content type is set, and goes out without one. *)
Lemma not_ready_without_content_type h :
  an_Headers (handleReady h) = if hs_ready h then [("Content-Type", "application/json")] else [].
Proof. unfold handleReady. by destruct (hs_ready h). Qed.

Example stale_text : Duration_String (Round 301600000000 ns_per_s) = "5m2s".
Proof. by vm_compute. Qed.
Example fraction_text : Duration_String 1500000 = "1.5ms" ∧ Duration_String (-3723000500000) = "-1h2m3.0005s".
Proof. by vm_compute. Qed.
