(* ===== verification/Stack.v ===== *)
(** The client of the node as main.go builds it (cmd/nvnm-mcp-server/main.go
    lines 123-143): the RPC client (internal/evm/client.go), around it the
    tracing wrapper (internal/evm/tracing.go), around that the resilience
    wrapper (internal/evm/resilient.go).

    A call of the interface evm.Client is a value of [call A], [A] its result.
    A caller sees one call at a time; what concurrent calls do to the breaker
    meanwhile, and what the node answers at each attempt, are observations. *)

From Stdlib Require Import Floats.SpecFloat.
From S2P Require Import Prelude GoErrors Hex Config Anchor Health EvmTools Resilient Evm.

(** ** The interface *)

Inductive call : Type → Type :=
| CallChainID : call Z
| CallLatestBlockNumber : call Z
| CallGetChainInfo : call ChainInfo
| CallBlockByNumber (number : option Z) (fullTx : bool) : call NormalizedBlock
| CallBlockByHash (h : hash) (fullTx : bool) : call NormalizedBlock
| CallTransactionByHash (h : hash) : call NormalizedTransaction
| CallTransactionReceipt (h : hash) : call NormalizedReceipt
| CallBalanceAt (a : address) (block : option Z) : call (option NormalizedBalance)
| CallCodeAt (a : address) (block : option Z) : call CodeResult
| CallCallContract (msg : Call) (block : option Z) : call string
| CallFilterLogs (q : FilterLogsQuery) : call (list NormalizedLog)
| CallPendingNonceAt (a : address) : call Z
| CallSuggestGasPrice : call Z
| CallSuggestGasTipCap : call (option Z)
| CallEstimateGas (msg : Call) : call Z
| CallSendRawTransaction (signedTxHex : string) : call string
| CallPing : call unit.

(** The node: the methods of defiRPCClient. *)
Record rpc_node := mkRpcNode {
  rn_wire : wire;
  rn_GasPrice : result error Z;
  rn_MaxPriorityFeePerGas : result error (option Z);
  rn_EstimateGas : Call → result error Z;
  rn_SendRawTransaction : string → result error (option hash)
}.

Section Stack.
Context `{EthLib}.

Definition SuggestGasPrice (n : rpc_node) : result error Z := rn_GasPrice n.
Definition SuggestGasTipCap (n : rpc_node) : result error (option Z) := rn_MaxPriorityFeePerGas n.
Definition EstimateGas (n : rpc_node) (msg : Call) : result error Z := rn_EstimateGas n msg.

(** The RPC client. *)
Definition client_call (n : rpc_node) {A} (c : call A) : result error A :=
  let api := evm_client (rn_wire n) in
  match c in call A return result error A with
  | CallChainID => Evm.ChainID (wr_ChainID (rn_wire n))
  | CallLatestBlockNumber => LatestBlockNumber_ (wr_BlockNumber (rn_wire n))
  | CallGetChainInfo => ea_GetChainInfo api
  | CallBlockByNumber number full => ea_BlockByNumber api number full
  | CallBlockByHash h full => ea_BlockByHash api h full
  | CallTransactionByHash h => ea_TransactionByHash api h
  | CallTransactionReceipt h => ea_TransactionReceipt api h
  | CallBalanceAt a block => ea_BalanceAt api a block
  | CallCodeAt a block => ea_CodeAt api a block
  | CallCallContract msg block => ea_CallContract api msg block
  | CallFilterLogs q => ea_FilterLogs api q
  | CallPendingNonceAt a => ea_PendingNonceAt api a
  | CallSuggestGasPrice => SuggestGasPrice n
  | CallSuggestGasTipCap => SuggestGasTipCap n
  | CallEstimateGas msg => EstimateGas n msg
  | CallSendRawTransaction s => (SendRawTransaction s (rn_SendRawTransaction n)).2
  | CallPing => match Ping (wr_ChainID (rn_wire n)) with Some e => Err e | None => Ok tt end
  end.

(** ** The tracing wrapper *)

(** The samples recorded, by RPC method: RPCDuration, RPCErrors. *)
Record rpc_metrics := mkRpcMetrics { rm_RPCDuration : list string; rm_RPCErrors : list string }.

Definition rpcCall {A} (method : string) (fn : result error A) (m : rpc_metrics) : result error A * rpc_metrics :=
  let m := mkRpcMetrics (rm_RPCDuration m ++ [method]) (rm_RPCErrors m) in
  match fn with
  | Err e => (Err e, mkRpcMetrics (rm_RPCDuration m) (rm_RPCErrors m ++ [method]))
  | Ok v => (Ok v, m)
  end.

(** The name a method is recorded under. *)
Definition rpc_method {A} (c : call A) : string :=
  match c with
  | CallChainID => "eth_chainId"
  | CallLatestBlockNumber => "eth_blockNumber"
  | CallGetChainInfo => "eth_chainInfo"
  | CallBlockByNumber _ _ => "eth_getBlockByNumber"
  | CallBlockByHash _ _ => "eth_getBlockByHash"
  | CallTransactionByHash _ => "eth_getTransactionByHash"
  | CallTransactionReceipt _ => "eth_getTransactionReceipt"
  | CallBalanceAt _ _ => "eth_getBalance"
  | CallCodeAt _ _ => "eth_getCode"
  | CallCallContract _ _ => "eth_call"
  | CallFilterLogs _ => "eth_getLogs"
  | CallPendingNonceAt _ => "eth_getTransactionCount"
  | CallSuggestGasPrice => "eth_gasPrice"
  | CallSuggestGasTipCap => "eth_maxPriorityFeePerGas"
  | CallEstimateGas _ => "eth_estimateGas"
  | CallSendRawTransaction _ => "eth_sendRawTransaction"
  | CallPing => "ping"
  end.

Definition tracing_call (n : rpc_node) {A} (c : call A) (m : rpc_metrics) : result error A * rpc_metrics :=
  rpcCall (rpc_method c) (client_call n c) m.

(** ** The resilience wrapper *)

(** How resilientClient treats a method: behind limiter, breaker and retries,
    behind limiter and breaker only, or handed straight on. *)
Inductive gate := Retried | Once | Direct.
Definition gate_of {A} (c : call A) : gate :=
  match c with CallPing => Direct | CallSendRawTransaction _ => Once | _ => Retried end.

(** What a call observes: limiter.Wait, the retry loop's world, the clock before
    and after, the other calls' effect on the breaker, and the node at the n-th
    attempt (from 1). *)
Record call_env := mkCallEnv {
  ce_wait : option error;
  ce_retry : retry_env;
  ce_t0 : Z; ce_t1 : Z;
  ce_others : CircuitBreaker → CircuitBreaker;
  ce_node : nat → rpc_node
}.

Record stack := mkStack { sk_breaker : CircuitBreaker; sk_rpc : rpc_metrics; sk_RPCRateLimited : Z }.

(** The attempts [k], ..., [k + n - 1] of a call, as the tracing wrapper records them. *)
Fixpoint trace_attempts (env : call_env) {A} (c : call A) (k n : nat) (m : rpc_metrics) : rpc_metrics :=
  match n with
  | O => m
  | S n => trace_attempts env c (S k) n (tracing_call (ce_node env k) c m).2
  end.

Definition stack_call (cfg : ResilientConfig) (env : call_env) {A} (c : call A) (s : stack) : answer A * stack :=
  let limited := match ce_wait env with Some _ => 1 | None => 0 end in
  match gate_of c with
  | Direct =>
      let '(r, m) := tracing_call (ce_node env 1) c (sk_rpc s) in
      (Some r, mkStack (sk_breaker s) m (sk_RPCRateLimited s))
  | Once =>
      match ce_wait env with
      | Some e => (Some (Err (rate_limited e)), mkStack (sk_breaker s) (sk_rpc s) (sk_RPCRateLimited s + 1))
      | None =>
          let '(r, m) := tracing_call (ce_node env 1) c (sk_rpc s) in
          match Execute (ce_t0 env) (ce_t1 env) (ce_others env) (Some r) (sk_breaker s) with
          | (Err e, cb) => (finish_call (A := A) (Err e), mkStack cb (sk_rpc s) (sk_RPCRateLimited s))
          | (Ok x, cb) => (finish_call (Ok x), mkStack cb m (sk_RPCRateLimited s))
          end
      end
  | Retried =>
      let '(r, n, cb) := resilientCall cfg (ce_others env) (ce_t0 env) (ce_t1 env) (ce_wait env) (ce_retry env)
                           (λ k, Some (tracing_call (ce_node env k) c (sk_rpc s)).1) (sk_breaker s) in
      (r, mkStack cb (trace_attempts env c 1 n (sk_rpc s)) (sk_RPCRateLimited s + limited))
  end.
End Stack.

(** NewResilientClient with the settings of main. *)
Definition main_resilience (cfg : Config) : ResilientConfig :=
  let r := resilience cfg in
  mkResilientConfig (RPCMaxRetries r) (RPCInitialBackoff r) (RPCMaxBackoff r) (RPCRateLimit r) (RPCRateBurst r)
    (CircuitBreakerThreshold r) (CircuitBreakerTimeout r).

Definition main_stack (cfg : Config) (now : Z) : stack :=
  mkStack (NewCircuitBreaker (main_resilience cfg) now) (mkRpcMetrics [] []) 0.

(** ** The retry loop, without assumptions on the errors *)

Definition refused (wait : option error) (e : error) : Prop :=
  match wait with
  | Some w => e = rate_limited w
  | None => ∃ s, (s = BreakerErrOpenState ∨ s = BreakerErrTooManyRequests) ∧ e = map_breaker_error (Sentinel s)
  end.

(** What attempt [n], which failed with [e], is reported as: an error that is
    not transient as itself, up to the retry loop's mark. *)
Definition reported (env : retry_env) (n : nat) (e e' : error) : Prop :=
  if isTransientRPCError e
  then ∃ x, e' = map_breaker_error x ∧ (x = e ∨ as_permanent e = Some x ∨ re_cause env n = Some x ∨ re_wait env n = Some x)
  else e' = map_breaker_error e ∨ e' = map_breaker_error (Permanent e).

Lemma resilientCall_cases {A} cfg others t0 t1 wait env (fn : nat → answer A) cb :
  let '(r, n, cb') := resilientCall cfg others t0 t1 wait env fn cb in
  (n ≤ maxTries cfg)%nat ∧
  (n = 0%nat → ∃ e, r = Some (Err e) ∧ refused wait e) ∧
  (0 < n → wait = None ∧ (∀ i, (0 < i < n)%nat → ∃ e, fn i = Some (Err e) ∧ isTransientRPCError e = true) ∧
     match fn n with
     | None => r = None
     | Some (Ok v) => r = Some (Ok v)
     | Some (Err e) => ∃ e', r = Some (Err e') ∧ reported env n e e'
     end)%nat.
Proof.
  unfold resilientCall. destruct wait as [w|].
  { split; [lia|]. split; [|lia]. intros _. by exists (rate_limited w). }
  unfold Retry. pose proof (Retry_loop_spec env (retry_operation fn) (maxTries cfg - 1) 1) as H.
  destruct (Retry_loop env (retry_operation fn) (maxTries cfg - 1) 1) as [res n].
  destruct H as (Hn & Hi & Hr). assert (1 ≤ maxTries cfg)%nat by (unfold maxTries; lia).
  unfold Execute. destruct (beforeRequest t0 cb) as [[g|s] cb1] eqn:Eb.
  2: { split; [lia|]. split; [|lia]. intros _. eexists. split; [done|]. exists s. split; [by eapply beforeRequest_err|done]. }
  split; [lia|]. split; [lia|]. intros _. split; [done|]. split.
  - intros i Hin. destruct (Hi i ltac:(lia)) as (e & He & Hp). unfold retry_operation in He.
    destruct (fn i) as [[v|e0]|]; simplify_eq. exists e0. split; [done|]. by destruct (isTransientRPCError e0).
  - unfold retry_operation in Hr. destruct (fn n) as [[v|e]|]; [by subst| |by subst].
    destruct Hr as (e' & -> & Hr). cbn. exists (map_breaker_error e'). split; [done|]. unfold reported, retry_end in *.
    destruct (isTransientRPCError e); cbn in Hr; [exists e'|]; naive_solver.
Qed.

(** ** One call *)

Section Calls.
Context `{EthLib}.

(** A failed attempt leaves an error sample. *)
Definition attempt_failed (env : call_env) {A} (c : call A) (i : nat) : bool :=
  negb (is_ok (client_call (ce_node env i) c)).

Lemma trace_attempts_spec env {A} (c : call A) n : ∀ k m,
  trace_attempts env c k n m =
    mkRpcMetrics (rm_RPCDuration m ++ replicate n (rpc_method c))
      (rm_RPCErrors m ++ replicate (length (List.filter (attempt_failed env c) (List.seq k n))) (rpc_method c)).
Proof.
  induction n as [|n IH]; intros k m; [destruct m; cbn; by rewrite !app_nil_r|].
  cbn [trace_attempts List.seq List.filter replicate]. rewrite IH. unfold tracing_call, rpcCall, attempt_failed at 2.
  destruct (client_call (ce_node env k) c); cbn [snd rm_RPCDuration rm_RPCErrors is_ok negb length replicate];
    by rewrite <- !app_assoc.
Qed.

Lemma tracing_call_result n {A} (c : call A) m : (tracing_call n c m).1 = client_call n c.
Proof. unfold tracing_call, rpcCall. by destruct (client_call n c). Qed.

Lemma tracing_call_metrics env {A} (c : call A) m :
  (tracing_call (ce_node env 1) c m).2 = trace_attempts env c 1 1 m.
Proof. done. Qed.

Lemma failed_before env {A} (c : call A) n : (0 < n)%nat →
  (∀ i, (0 < i < n)%nat → attempt_failed env c i = true) →
  length (List.filter (attempt_failed env c) (List.seq 1 n)) = (n - if is_ok (client_call (ce_node env n) c) then 1 else 0)%nat.
Proof.
  destruct n as [|n]; [lia|]. intros _ Hf. rewrite List.seq_S, List.filter_app, length_app.
  assert (List.filter (attempt_failed env c) (List.seq 1 n) = List.seq 1 n) as ->.
  { assert (∀ i, In i (List.seq 1 n) → attempt_failed env c i = true) as Hall by (intros i Hi%List.in_seq; apply Hf; lia).
    induction (List.seq 1 n) as [|i l IH]; [done|]. cbn. rewrite Hall by by left. f_equal. apply IH. intros j Hj. apply Hall. by right. }
  rewrite List.length_seq. cbn [List.filter Nat.add]. unfold attempt_failed.
  destruct (is_ok _); cbn; lia.
Qed.

(** By the way the wrapper treats the method. *)
Lemma stack_call_gates cfg env {A} (c : call A) s :
  let '(r, s') := stack_call cfg env c s in
  ∃ n : nat,
    (n ≤ match gate_of c with Retried => maxTries cfg | Once | Direct => 1 end)%nat ∧
    (gate_of c = Direct → n = 1%nat ∧ sk_breaker s' = sk_breaker s) ∧
    sk_RPCRateLimited s' = sk_RPCRateLimited s + (match gate_of c, ce_wait env with Direct, _ | _, None => 0 | _, Some _ => 1 end) ∧
    rm_RPCDuration (sk_rpc s') = rm_RPCDuration (sk_rpc s) ++ replicate n (rpc_method c) ∧
    rm_RPCErrors (sk_rpc s') = rm_RPCErrors (sk_rpc s) ++
      replicate (n - if is_ok (client_call (ce_node env n) c) then 1 else 0) (rpc_method c) ∧
    (n = 0%nat → ∃ e, r = Some (Err e) ∧ refused (ce_wait env) e) ∧
    (0 < n → (∀ i, (0 < i < n)%nat → ∃ e, client_call (ce_node env i) c = Err e ∧ isTransientRPCError e = true) ∧
       match client_call (ce_node env n) c with
       | Ok v => r = Some (Ok v)
       | Err e => ∃ e', r = Some (Err e') ∧
           match gate_of c with
           | Direct => e' = e
           | Once => e' = map_breaker_error e
           | Retried => reported (ce_retry env) n e e'
           end
       end)%nat.
Proof.
  unfold stack_call. destruct (gate_of c) eqn:Eg.
  - pose proof (resilientCall_cases cfg (ce_others env) (ce_t0 env) (ce_t1 env) (ce_wait env) (ce_retry env)
      (λ k, Some (tracing_call (ce_node env k) c (sk_rpc s)).1) (sk_breaker s)) as H1.
    destruct (resilientCall _ _ _ _ _ _ _ _) as [[r n] cb]. destruct H1 as (Hn & H0 & Hp).
    rewrite trace_attempts_spec. exists n. cbn [sk_breaker sk_rpc sk_RPCRateLimited rm_RPCDuration rm_RPCErrors].
    split; [done|]. split; [done|]. split; [by destruct (ce_wait env)|]. split; [done|].
    assert (0 < n → ∀ i, 0 < i < n → ∃ e, client_call (ce_node env i) c = Err e ∧ isTransientRPCError e = true)%nat as Hi.
    { intros Hn0 i Hi. destruct (proj1 (proj2 (Hp Hn0)) i Hi) as (e & He & Ht). rewrite tracing_call_result in He.
      injection He as He. by exists e. }
    split; [|split; [done|]].
    + f_equal. f_equal. destruct n as [|n]; [done|]. apply failed_before; [lia|]. intros i Hin.
      destruct (Hi ltac:(lia) i Hin) as (e & He & _). unfold attempt_failed. by rewrite He.
    + intros Hn0. split; [by apply Hi|]. destruct (Hp Hn0) as (_ & _ & Hr). rewrite tracing_call_result in Hr. done.
  - destruct (ce_wait env) as [w|].
    { exists 0%nat. cbn [replicate Nat.sub]. rewrite !app_nil_r. split_and!; try done; [lia|by exists (rate_limited w)|lia]. }
    rewrite (surjective_pairing (tracing_call _ _ _)), tracing_call_result, tracing_call_metrics, trace_attempts_spec.
    unfold Execute. destruct (beforeRequest (ce_t0 env) (sk_breaker s)) as [[g|e] cb] eqn:Eb.
    + exists 1%nat. cbn [sk_breaker sk_rpc sk_RPCRateLimited rm_RPCDuration rm_RPCErrors]. rewrite failed_before by lia.
      split_and!; try done; try lia. intros _. split; [lia|]. cbn [finish_call].
      destruct (client_call (ce_node env 1) c) as [v|e]; [done|]. by eexists.
    + exists 0%nat. cbn [replicate Nat.sub sk_rpc sk_RPCRateLimited]. rewrite !app_nil_r. split_and!; try done; try lia. intros _.
      eexists. split; [done|]. exists e. split; [by eapply beforeRequest_err|done].
  - rewrite (surjective_pairing (tracing_call _ _ _)), tracing_call_result, tracing_call_metrics, trace_attempts_spec.
    exists 1%nat. cbn [sk_breaker sk_rpc sk_RPCRateLimited rm_RPCDuration rm_RPCErrors]. rewrite failed_before by lia.
    split_and!; try done; try lia. intros _. split; [lia|]. destruct (client_call (ce_node env 1) c) as [v|e]; [done|]. by eexists.
Qed.

(** C14: A call of the client main builds. It reaches the node at most
    MaxRetries + 1 times, a broadcast at most once, a ping exactly once and past
    the limiter and the breaker. It is repeated only after transient failures;
    the last attempt's value is returned unchanged, its error as itself unless it
    is transient, and a call that never reached the node says which guard refused
    it. The metrics record exactly the attempts made, under the method's name,
    and of these exactly the failed ones as errors. *)
Theorem stack_call_spec cfg env {A} (c : call A) s :
  let '(r, s') := stack_call cfg env c s in
  ∃ n : nat,
    (n ≤ match c with CallPing | CallSendRawTransaction _ => 1 | _ => maxTries cfg end)%nat ∧
    match c with CallPing => n = 1%nat ∧ sk_breaker s' = sk_breaker s | _ => True end ∧
    sk_RPCRateLimited s' = sk_RPCRateLimited s + match c, ce_wait env with CallPing, _ | _, None => 0 | _, Some _ => 1 end ∧
    rm_RPCDuration (sk_rpc s') = rm_RPCDuration (sk_rpc s) ++ replicate n (rpc_method c) ∧
    rm_RPCErrors (sk_rpc s') = rm_RPCErrors (sk_rpc s) ++
      replicate (n - if is_ok (client_call (ce_node env n) c) then 1 else 0) (rpc_method c) ∧
    (n = 0%nat → ∃ e, r = Some (Err e) ∧ refused (ce_wait env) e) ∧
    (0 < n → (∀ i, (0 < i < n)%nat → ∃ e, client_call (ce_node env i) c = Err e ∧ isTransientRPCError e = true) ∧
       match client_call (ce_node env n) c with
       | Ok v => r = Some (Ok v)
       | Err e => ∃ e', r = Some (Err e') ∧
           match c with
           | CallPing => e' = e
           | CallSendRawTransaction _ => e' = map_breaker_error e
           | _ => reported (ce_retry env) n e e'
           end
       end)%nat.
Proof.
  pose proof (stack_call_gates cfg env c s) as H0. destruct (stack_call cfg env c s) as [r s'].
  destruct H0 as (n & Hn & Hd & H1 & H2 & H3 & H4 & H5). exists n.
  destruct c; try (by split_and!). destruct Hd; [done|]. by split_and!.
Qed.
End Calls.

(** ** What the caller may learn from an error *)

Lemma disclosed_wrap2 e1 mid e2 : disclosed (Wrap2 e1 mid e2) = disclosed e1 || disclosed e2.
Proof.
  rewrite !disclosed_any. unfold errors_Is_any. induction disclosed_sentinels as [|t ts IH]; [done|].
  cbn [existsb]. rewrite IH. cbn [errors_Is].
  destruct (errors_Is e1 t), (errors_Is e2 t), (existsb (errors_Is e1) ts), (existsb (errors_Is e2) ts); done.
Qed.

Lemma map_breaker_disclosed e : disclosed (map_breaker_error e) = disclosed e.
Proof. unfold map_breaker_error. destruct (_ || _); [|done]. by rewrite disclosed_wrap2. Qed.

Lemma as_permanent_Is e p t : as_permanent e = Some p → errors_Is p t = true → errors_Is e t = true.
Proof.
  induction e as [s|m|n m|m|pre e IH post|e1 IH1 mid e2 IH2|e IH|safe IH1 raw IH2]; cbn; try done; auto.
  - destruct (as_permanent e1); [intros [= ->] Hp; by rewrite IH1|intros Hp2 Hp; by rewrite IH2, orb_true_r].
  - by intros [= ->].
  - destruct (as_permanent safe); [intros [= ->] Hp; by rewrite IH1|intros Hp2 Hp; by rewrite IH2, orb_true_r].
Qed.

Lemma as_permanent_disclosed e p : as_permanent e = Some p → disclosed e = false → disclosed p = false.
Proof.
  intros Hp He. destruct (disclosed p) eqn:Ed; [|done]. rewrite disclosed_any in *. unfold errors_Is_any in *.
  apply existsb_exists in Ed as (t & Ht & Hi). rewrite <- not_true_iff_false in He. destruct He. apply existsb_exists.
  exists t. split; [done|]. by eapply as_permanent_Is.
Qed.

(** The errors of the context, of limiter.Wait and of the node carry none of the
    server's disclosed sentinels. *)
Record foreign_node `{EthLib} (n : rpc_node) : Prop := {
  fn_wire : foreign_wire (rn_wire n);
  fn_estimate : ∀ msg e, rn_EstimateGas n msg = Err e → disclosed e = false
}.

Record foreign_env `{EthLib} (env : call_env) : Prop := {
  fv_wait : ∀ e, ce_wait env = Some e → disclosed e = false;
  fv_cause : ∀ n e, re_cause (ce_retry env) n = Some e → disclosed e = false;
  fv_delay : ∀ n e, re_wait (ce_retry env) n = Some e → disclosed e = false;
  fv_node : ∀ n, foreign_node (ce_node env n)
}.

Lemma refused_hidden wait e : (∀ w, wait = Some w → disclosed w = false) → refused wait e → disclosed e = false.
Proof.
  unfold refused. destruct wait as [w|]; intros Hw.
  - intros ->. unfold rate_limited. by rewrite disclosed_wrap2, (Hw w eq_refl).
  - by intros (s & [-> | ->] & ->).
Qed.

Lemma reported_hidden `{EthLib} env n e e' : foreign_env env → disclosed e = false →
  reported (ce_retry env) n e e' → disclosed e' = false.
Proof.
  intros Hf He. unfold reported. destruct (isTransientRPCError e).
  - intros (x & -> & Hx). rewrite map_breaker_disclosed. destruct Hx as [->|[Hx|[Hx|Hx]]]; [done|..].
    + by eapply as_permanent_disclosed.
    + by eapply fv_cause.
    + by eapply fv_delay.
  - intros [-> | ->]; by rewrite map_breaker_disclosed.
Qed.

Lemma node_sentinel_no_breaker (s : sentinel) : s ∈ node_sentinels →
  errors_Is s BreakerErrOpenState || errors_Is s BreakerErrTooManyRequests = false.
Proof.
  intros Hs%list_elem_of_In.
  assert (forallb (λ s : sentinel, negb (errors_Is s BreakerErrOpenState || errors_Is s BreakerErrTooManyRequests)) node_sentinels = true)
    as Hall by by vm_compute.
  rewrite forallb_forall in Hall. by apply negb_true_iff, Hall.
Qed.

Lemma reported_client `{EthLib} env n e e' : foreign_env env → base_error e →
  reported (ce_retry env) n e e' → client_error e'.
Proof.
  intros Hf [(s & Hs & ->)|He] Hr; [|right; by eapply reported_hidden].
  unfold reported in Hr. pose proof (node_sentinel_no_breaker s Hs) as Hb.
  assert (map_breaker_error s = s ∧ map_breaker_error (Permanent s) = Permanent s) as [H1 H2]
    by (unfold map_breaker_error; cbn in *; by rewrite Hb).
  destruct (isTransientRPCError s).
  - destruct Hr as (x & -> & [->|[Hx|Hx]]); [rewrite H1; left; by exists s|done|].
    right. rewrite map_breaker_disclosed. destruct Hx as [Hx|Hx]; [by eapply fv_cause|by eapply fv_delay].
  - left. exists s. split; [done|]. destruct Hr as [-> | ->]; [by rewrite H1|by rewrite H2].
Qed.

Lemma stack_call_outcome `{EthLib} cfg env {A} (c : call A) s : (stack_call cfg env c s).1 ≠ None.
Proof.
  unfold stack_call. destruct (gate_of c).
  - pose proof (resilientCall_cases cfg (ce_others env) (ce_t0 env) (ce_t1 env) (ce_wait env) (ce_retry env)
      (λ k, Some (tracing_call (ce_node env k) c (sk_rpc s)).1) (sk_breaker s)) as H1.
    destruct (resilientCall _ _ _ _ _ _ _ _) as [[r n] cb]. destruct H1 as (_ & H0 & Hp). cbn [fst].
    destruct n as [|n]; [by destruct (H0 eq_refl) as (e & -> & _)|]. destruct (Hp ltac:(lia)) as (_ & _ & He).
    destruct (tracing_call _ _ _).1; [by rewrite He|]. by destruct He as (e' & -> & _).
  - destruct (ce_wait env); [done|]. destruct (tracing_call _ _ _) as [r m]. unfold Execute.
    destruct (beforeRequest _ _) as [[g|e] cb]; [|done]. by destruct r.
  - by destruct (tracing_call _ _ _).
Qed.

(** ** The client the tools are given *)

(** A result the client main builds returns for a call, in some state of its
    breaker, for some behaviour of the node and of concurrent calls. *)
Definition answers `{EthLib} (cfg : ResilientConfig) {A} (c : call A) (r : result error A) : Prop :=
  ∃ env s, foreign_env env ∧ (stack_call cfg env c s).1 = Some r.

Record answers_api `{EthLib} (cfg : ResilientConfig) (api : evm_api) : Prop := {
  sa_info : answers cfg CallGetChainInfo (ea_GetChainInfo api);
  sa_by_number : ∀ n full, answers cfg (CallBlockByNumber n full) (ea_BlockByNumber api n full);
  sa_by_hash : ∀ h full, answers cfg (CallBlockByHash h full) (ea_BlockByHash api h full);
  sa_tx : ∀ h, answers cfg (CallTransactionByHash h) (ea_TransactionByHash api h);
  sa_receipt : ∀ h, answers cfg (CallTransactionReceipt h) (ea_TransactionReceipt api h);
  sa_balance : ∀ a n, answers cfg (CallBalanceAt a n) (ea_BalanceAt api a n);
  sa_code : ∀ a n, answers cfg (CallCodeAt a n) (ea_CodeAt api a n);
  sa_call : ∀ msg n, answers cfg (CallCallContract msg n) (ea_CallContract api msg n);
  sa_logs : ∀ q, answers cfg (CallFilterLogs q) (ea_FilterLogs api q)
}.

Section Answers.
Context `{EthLib} (cfg : ResilientConfig).

(** A property of errors that survives the client's wrappers. *)
Lemma answers_error (P Q : error → Prop) {A} (c : call A) r : gate_of c = Retried →
  (∀ n e, foreign_node n → client_call n c = Err e → P e) →
  (∀ env n e e', foreign_env env → P e → reported (ce_retry env) n e e' → Q e') →
  (∀ e, disclosed e = false → Q e) →
  answers cfg c r → ∀ e, r = Err e → Q e.
Proof.
  intros Hg Hnode Hrep Hhid (env & s & Hf & Hr) e ->. unfold stack_call in Hr. rewrite Hg in Hr.
  pose proof (resilientCall_cases cfg (ce_others env) (ce_t0 env) (ce_t1 env) (ce_wait env) (ce_retry env)
    (λ k, Some (tracing_call (ce_node env k) c (sk_rpc s)).1) (sk_breaker s)) as H1.
  destruct (resilientCall _ _ _ _ _ _ _ _) as [[r n] cb]. cbn [fst] in Hr. subst r. destruct H1 as (_ & H0 & Hp).
  destruct n as [|n].
  - destruct (H0 eq_refl) as (e0 & [= <-] & He). apply Hhid. eapply refused_hidden; [|done]. intros w. by apply fv_wait.
  - destruct (Hp ltac:(lia)) as (_ & _ & He). rewrite tracing_call_result in He.
    destruct (client_call (ce_node env (S n)) c) as [v|e0] eqn:Ec; [done|]. destruct He as (e' & [= <-] & He).
    eapply Hrep; [done| |done]. eapply Hnode; [|done]. by apply fv_node.
Qed.

(** A client error stays one, and a hidden error stays hidden. *)
Lemma answers_client {A} (c : call A) r e : gate_of c = Retried →
  (∀ n e, foreign_node n → client_call n c = Err e → base_error e) →
  answers cfg c r → r = Err e → client_error e.
Proof. intros Hg Hn Ha. apply (answers_error base_error client_error c r Hg Hn); [intros; by eapply reported_client|by right|done]. Qed.

Lemma answers_hidden {A} (c : call A) r e : gate_of c = Retried →
  (∀ n e, foreign_node n → client_call n c = Err e → disclosed e = false) →
  answers cfg c r → r = Err e → disclosed e = false.
Proof.
  intros Hg Hn Ha. apply (answers_error (λ e, disclosed e = false) (λ e, disclosed e = false) c r Hg Hn); [|done|done].
  intros. by eapply reported_hidden.
Qed.

Lemma stack_closed api : answers_api cfg api → ClosedErrors api.
Proof.
  intros Ha. split.
  - intros e. apply (answers_hidden CallGetChainInfo); [done| |by apply sa_info]. intros n e0 Hf. apply chain_info_base, Hf.
  - intros n full e. apply (answers_client (CallBlockByNumber n full)); [done| |by apply sa_by_number]. intros nd e0 Hf He.
    eapply block_answer_base; [|exact He]. intros e'. apply (fw_by_number _ (fn_wire _ Hf)).
  - intros h full e. apply (answers_client (CallBlockByHash h full)); [done| |by apply sa_by_hash]. intros nd e0 Hf He.
    eapply block_answer_base; [|exact He]. intros e'. apply (fw_by_hash _ (fn_wire _ Hf)).
  - intros h e. apply (answers_client (CallTransactionByHash h)); [done| |by apply sa_tx]. intros nd e0 Hf. apply tx_base, Hf.
  - intros h e. apply (answers_client (CallTransactionReceipt h)); [done| |by apply sa_receipt]. intros nd e0 Hf. apply receipt_base, Hf.
  - intros a n e. apply (answers_client (CallBalanceAt a n)); [done| |by apply sa_balance]. intros nd e0 Hf. apply balance_base, Hf.
  - intros a n e. apply (answers_client (CallCodeAt a n)); [done| |by apply sa_code]. intros nd e0 Hf. apply code_base, Hf.
  - intros msg n e. apply (answers_hidden (CallCallContract msg n)); [done| |by apply sa_call]. intros nd e0 Hf. apply (fw_call _ (fn_wire _ Hf)).
  - intros q e. apply (answers_client (CallFilterLogs q)); [done| |by apply sa_logs]. intros nd e0 Hf. apply logs_base, Hf.
Qed.
End Answers.

(** ** The composed client *)

Section Api.
Context `{EthLib} (cfg : ResilientConfig) (env : call_env) (s : stack).

(** The answer to a call; none panics (stack_call_total). *)
Definition call_result {A} (c : call A) : result error A :=
  match (stack_call cfg env c s).1 with Some r => r | None => Err (Opaque "panic") end.

(** evmClient of main, as the tools see it from one state. *)
Definition stack_api : evm_api :=
  mkEvmApi (call_result CallGetChainInfo) (λ n full, call_result (CallBlockByNumber n full))
    (λ h full, call_result (CallBlockByHash h full)) (λ h, call_result (CallTransactionByHash h))
    (λ h, call_result (CallTransactionReceipt h)) (λ a n, call_result (CallBalanceAt a n))
    (λ a n, call_result (CallCodeAt a n)) (λ msg n, call_result (CallCallContract msg n))
    (λ q, call_result (CallFilterLogs q)) (λ a, call_result (CallPendingNonceAt a)).

(** The same client as the anchor client uses it. *)
Definition stack_node : evm_node :=
  mkNode (λ a, call_result (CallPendingNonceAt a)) (call_result CallSuggestGasPrice)
    (call_result CallSuggestGasTipCap) (λ msg, call_result (CallEstimateGas msg))
    (λ msg, call_result (CallCallContract msg None)).

Lemma stack_call_total {A} (c : call A) : (stack_call cfg env c s).1 = Some (call_result c).
Proof.
  unfold call_result. pose proof (stack_call_outcome cfg env c s) as Hs. by destruct (stack_call cfg env c s).1.
Qed.

Hypothesis Henv : foreign_env env.

Lemma answers_call {A} (c : call A) : answers cfg c (call_result c).
Proof using Henv. exists env, s. split; [done|]. apply stack_call_total. Qed.

Lemma stack_answers : answers_api cfg stack_api.
Proof using Henv. split; intros; apply answers_call. Qed.
End Api.

Record answers_node `{EthLib} (cfg : ResilientConfig) (nd : evm_node) : Prop := {
  sn_call : ∀ msg, answers cfg (CallCallContract msg None) (nd_CallContract nd msg);
  sn_estimate : ∀ msg, answers cfg (CallEstimateGas msg) (nd_EstimateGas nd msg)
}.

Lemma stack_node_answers `{EthLib} cfg env s : foreign_env env → answers_node cfg (stack_node cfg env s).
Proof. intros Henv. split; intros; by apply answers_call. Qed.

(** The ABI codec's errors carry none of the server's disclosed sentinels. *)
Record foreign_codec `{AnchorLib} : Prop := {
  fc_encode : ∀ m args e, EncodeArgs m args = Err e → disclosed e = false;
  fc_registries : ∀ m out e, DecodeRegistries m out = Some (Err e) → disclosed e = false;
  fc_records : ∀ m out e, DecodeRecords m out = Some (Err e) → disclosed e = false
}.

Lemma stack_foreign `{EthLib} `{AnchorLib} cfg nd : answers_node cfg nd → foreign_codec → foreign_errors nd.
Proof.
  intros Hn [Henc Hreg Hrec]. split; [| |done..].
  - intros msg e. apply (answers_hidden cfg (CallCallContract msg None)); [done| |by apply sn_call].
    intros n e0 Hf. apply (fw_call _ (fn_wire _ Hf)).
  - intros msg e. apply (answers_hidden cfg (CallEstimateGas msg)); [done| |by apply sn_estimate].
    intros n e0 Hf. apply (fn_estimate _ Hf).
Qed.

(** C15: What the deployed server's reads tell a caller. Through tracing, retries,
    the rate limiter and the breaker, in any state and for any texts the node,
    the context and the codec put into their errors: an EVM read tool refuses by
    itself, in the same words for every chain, or shows one text of a fixed list,
    and so does every anchor read. An overloaded or unreachable node is one of
    three constant texts. *)
Theorem stack_errors_closed `{EthLib} `{AnchorLib} cfg api nd
    (Hapi : answers_api cfg api) (Hnd : answers_node cfg nd) (Hcodec : foreign_codec) :
  (∀ conf claims r e, tool_error api conf claims r = Some e →
     (disclosed e = true ∧ ∀ api', tool_error api' conf claims r = Some e) ∨
     ∃ text, visible e = Some text ∧ text ∈ evm_texts) ∧
  (∀ c, requireABI c = None →
     (∀ id e, id ≠ 0 → GetRegistry c nd id = Err e → visible e ∈ Some <$> client_texts) ∧
     (∀ req e, GetRegistries c nd req = Err e → visible e ∈ Some <$> client_texts) ∧
     (∀ req e, GetRecords c nd req = Err e → visible e ∈ Some <$> client_texts)).
Proof.
  split.
  - intros conf claims r e He. pose proof (stack_closed cfg api Hapi). by eapply tool_errors_closed.
  - intros c Hc. apply read_errors_closed; [by eapply stack_foreign|done].
Qed.

(** While the breaker is open the server is not ready, though the ping, which
    passes the breaker by, is answered: the probe's look at the chain head is
    refused. *)
Lemma open_breaker_unready `{EthLib} conf prom abi obs cfg env s u now :
  let limit := ReadinessMaxBlockAge (telemetry conf) in
  let o := observe (stack_api cfg env s) None now in
  cb_state (sk_breaker s) = StateOpen → cb_expiry (sk_breaker s) = Some u → ce_t0 env ≤ u → ce_wait env = None → 0 < limit →
  an_Status (handleReady (run_probes (main_health conf prom abi) (obs ++ [o]))) = 503 ∧
  hs_status (run_probes (main_health conf prom abi) (obs ++ [o])) !! "evm_rpc" = Some "ok".
Proof.
  cbv zeta. intros Hs Hu Ht Hw Hl. rewrite run_probes_snoc. set (h := run_probes _ obs).
  destruct (run_probes_config (main_health conf prom abi) obs) as (Ec & Eh & Em & _). fold h in Ec, Eh, Em.
  cbn [main_health WithChainStaleness NewHealthServer hs_checker hs_head hs_maxBlockAge] in Ec, Eh, Em.
  assert (∃ e, LatestBlockTimestamp (stack_api cfg env s) = Err e) as [e He].
  { unfold LatestBlockTimestamp. cbn [stack_api ea_BlockByNumber]. unfold call_result, stack_call. cbn [gate_of].
    unfold resilientCall. rewrite Hw. destruct (Retry _ _ _) as [res n]. unfold Execute.
    rewrite (open_begin (ce_t0 env) (sk_breaker s) u Hs Hu Ht). by eexists. }
  set (o := observe _ _ _).
  assert (hs_ready (runProbe o h) = false) as Hr.
  { rewrite runProbe_ready. unfold head_fresh. rewrite Eh, Em, (proj2 (Z.ltb_lt _ _) Hl). cbn [andb negb orb].
    unfold o, observe. cbn [ob_head]. by rewrite He, andb_false_r. }
  split; [unfold handleReady; by rewrite Hr|]. destruct (runProbe_checks o h) as (Hc & _). by rewrite Hc, Ec.
Qed.

(** ** A concrete run: the node is unreachable, retries end, the breaker opens *)

Definition demo_rpc : rpc_node :=
  mkRpcNode demo_wire (Ok 100) (Ok None) (λ _, Err (NetError "http://10.0.0.7: refused")) (λ _, Ok None).
Definition demo_env (t : Z) : call_env := mkCallEnv None quiet t t id (λ _, demo_rpc).
Definition demo_resilience : ResilientConfig := mkResilientConfig 2 0 0 (S754_zero false) 0 1 (30 * second).
Definition demo_start : stack := mkStack (NewCircuitBreaker demo_resilience 0) (mkRpcMetrics [] []) 0.
Definition demo_receipt : call NormalizedReceipt := CallTransactionReceipt (zeros 32).
Definition demo_after : stack := (stack_call demo_resilience (demo_env 1) demo_receipt demo_start).2.

Lemma demo_env_foreign t : foreign_env (demo_env t).
Proof. split; cbn; try done. intros _. split; [apply demo_wire_foreign|]. by intros msg e [= <-]. Qed.

Example receipt_tried_three_times :
  rm_RPCErrors (sk_rpc demo_after) = replicate 3 "eth_getTransactionReceipt" ∧
  cb_state (sk_breaker demo_after) = StateOpen.
Proof. by vm_compute. Qed.

Lemma stack_errors_closed_witness :
  ∃ conf e, Load demo_config_env = Ok conf ∧
    tool_error (stack_api demo_resilience (demo_env 2) demo_after) conf None demo_code_request = Some e ∧
    ((disclosed e = true ∧ ∀ api', tool_error api' conf None demo_code_request = Some e) ∨
     ∃ text, visible e = Some text ∧ text ∈ evm_texts).
Proof.
  destruct (Load demo_config_env) as [conf|] eqn:E; [|vm_compute in E; discriminate].
  destruct (tool_error (stack_api demo_resilience (demo_env 2) demo_after) conf None demo_code_request) as [e|] eqn:Ee;
    [|vm_compute in Ee; discriminate].
  exists conf, e. split; [done|]. split; [done|].
  assert foreign_codec as Hc by (split; done).
  exact (proj1 (stack_errors_closed demo_resilience _ _
    (stack_answers _ _ demo_after (demo_env_foreign 2)) (stack_node_answers _ _ demo_after (demo_env_foreign 2)) Hc)
    conf None demo_code_request e Ee).
Defined.
