(* ===== verification/Dispatch.v ===== *)
(** The MCP server (NewServer, internal/mcp/server.go; addtool.go) around its
    tools: the telemetry middleware, the auth enforcement, the SDK's dispatch of
    tools/call by name, and the wrapper every tool is registered with.

    The SDK's part is vendor/github.com/modelcontextprotocol/go-sdk/mcp/server.go
    (callTool and the handler AddTool builds). Schema validation, decoding and
    encoding are parameters. *)

From S2P Require Import Prelude GoErrors Hex Auth Http Config Evm BlockArg Anchor EvmTools Observe.

(** mcp.CallToolResult: the structured output, or the text of an error. *)
Inductive tool_result := Structured (json : string) | IsError (text : string).

(** jsonrpc.Error values of the SDK; they carry no sentinel. *)
Definition unknown_tool (name : string) : error := Opaque ("unknown tool " +:+ dq +:+ name +:+ dq).

Section Server.
Context {St : Type}.

(** A registered tool: claims and raw arguments in. *)
Definition raw_tool : Type := option Claims → string → St → result error tool_result * St.

(** addTool: mcp.AddTool on the handler wrapped by sanitizeToolErr. [decode] is
    the validation and decoding of the arguments, its error the SDK's text;
    [encode] the encoding and validation of the output. *)
Definition addTool {In Out} (decode : string → result string In) (encode : Out → result error string)
    (h : option Claims → In → St → result error Out * St) : raw_tool := λ c args st,
  match decode args with
  | Err text => (Ok (IsError text), st)
  | Ok i =>
      let '(r, st) := h c i st in
      match sanitizeToolErr r with
      | Err e => (Ok (IsError (error_text e)), st)
      | Ok out => (match encode out with Ok json => Ok (Structured json) | Err e => Err e end, st)
      end
  end.

(** The SDK's method handler for a request with these arguments; [other] answers
    the methods that are not tools/call. *)
Definition callTool (tools : gmap string raw_tool) (args : string) : @method_handler tool_result St :=
  λ c method req '(m, st),
    let name := ToolNameFromRequest req in
    match tools !! name with
    | None => (Err (unknown_tool name), (m, st))
    | Some h => let '(r, st) := h c args st in (r, (m, st))
    end.

Definition dispatch_method (tools : gmap string raw_tool) (args : string) (other : @method_handler tool_result St)
    : @method_handler tool_result St := λ c method req s,
  if method =s "tools/call" then callTool tools args c method req s else other c method req s.

(** AddReceivingMiddleware: a middleware added later runs first. *)
Definition auth_enforcement (keylessReads keylessWrites : bool) (next : @method_handler tool_result St)
    : @method_handler tool_result St := λ c method req s,
  match NewAuthEnforcementMiddleware keylessReads keylessWrites (λ _ _ _, Ok tt) c method req with
  | Err e => (Err e, s)
  | Ok _ => next c method req s
  end.

Definition NewServer (cfg : Config) (tools : gmap string raw_tool) (elapsed : Z) (args : string)
    (other : @method_handler tool_result St) : @method_handler tool_result St :=
  let keylessReads := KeylessReads (keyless cfg) && (Transport (core cfg) =s "http") in
  NewMCPMiddleware elapsed
    (auth_enforcement keylessReads (KeylessWrites (keyless cfg)) (dispatch_method tools args other)).
End Server.

(** ** Outcome and accounting of a tool call *)

Lemma auth_enforcement_spec {St} kr kw (next : @method_handler tool_result St) c req s :
  let name := ToolNameFromRequest req in
  auth_enforcement kr kw next c "tools/call" req s =
    if kr && RequiresAuth name kw && match c with None => true | Some _ => false end
    then (Err (Wrap "" ErrAuthRequired (": tool " +:+ dq +:+ name +:+ dq)), s)
    else next c "tools/call" req s.
Proof. unfold auth_enforcement, NewAuthEnforcementMiddleware. destruct kr, c; cbn; try done; by destruct (RequiresAuth _ _). Qed.

(** C17: What a tools/call ends with. It is always counted once, under the tool's
    name, with its duration. An anonymous call of a tool that needs a key is
    refused before any handler runs, and counted as an error. A call of a
    registered tool runs its handler once on the decoded arguments; a failure of
    the handler, or arguments that do not decode, reach the caller as a result
    whose text is all the caller is told, and are counted as a success: only a
    refusal, an unknown tool or an output that cannot be encoded is counted as an
    error. An unknown tool is reported as an upstream failure. *)
Theorem tool_call_outcome {St} cfg (tools : gmap string (@raw_tool St)) elapsed args other c req m (st : St) :
  let name := ToolNameFromRequest req in
  let gated := KeylessReads (keyless cfg) && (Transport (core cfg) =s "http") &&
               RequiresAuth name (KeylessWrites (keyless cfg)) && match c with None => true | Some _ => false end in
  let '(r, (m', st')) := NewServer cfg tools elapsed args other c "tools/call" req (m, st) in
  mm_active m' = mm_active m ∧ mm_durations m' = mm_durations m ++ [("tools/call", name, elapsed)] ∧
  mm_calls m' = mm_calls m ++ [mkCall "tools/call" name (if is_ok r then "ok" else "error")] ∧
  mm_errors m' = mm_errors m ++ (if is_ok r then [] else [("tools/call", name)]) ∧
  (gated = true → st' = st ∧ ∃ e, r = Err e ∧ errors_Is e ErrAuthRequired = true) ∧
  (gated = false → tools !! name = None → st' = st ∧ r = Err (Sentinel ErrSafeUpstreamFail)) ∧
  (gated = false → ∀ In Out decode encode (h : option Claims → In → St → result error Out * St),
     tools !! name = Some (addTool decode encode h) →
     match decode args with
     | Err text => st' = st ∧ r = Ok (IsError text)
     | Ok i => st' = (h c i st).2 ∧
         match (h c i st).1 with
         | Err e => ∃ text, visible e = Some text ∧ r = Ok (IsError text)
         | Ok out => match encode out with
                     | Ok json => r = Ok (Structured json)
                     | Err e => ∃ e', r = Err e' ∧ SafeForClient (Some e) = Some e'
                     end
         end
     end).
Proof.
  intros name gated. set (kr := KeylessReads (keyless cfg) && (Transport (core cfg) =s "http")) in *.
  set (inner := auth_enforcement kr (KeylessWrites (keyless cfg)) (dispatch_method tools args other)).
  assert (∃ r0 st0, inner c "tools/call" req (add_active 1 m, st) = (r0, (add_active 1 m, st0)) ∧
    (if gated then st0 = st ∧ r0 = Err (Wrap "" ErrAuthRequired (": tool " +:+ dq +:+ name +:+ dq))
     else (r0, st0) = match tools !! name with None => (Err (unknown_tool name), st) | Some h => h c args st end))
    as (r0 & st0 & Hin & Hr0).
  { unfold inner. rewrite auth_enforcement_spec. fold name. unfold gated. destruct (kr && _ && _).
    - by eexists _, _.
    - unfold dispatch_method, callTool. cbn [String.eqb Ascii.eqb Bool.eqb]. fold name.
      destruct (tools !! name) as [h|]; [|by eexists _, _]. destruct (h c args st) as [r1 st1]. by eexists _, _. }
  destruct (NewMCPMiddleware_spec elapsed inner c "tools/call" req m st r0 _ st0 Hin) as (r & m' & E & Ha & Hc & Hd & He & Hr).
  unfold NewServer. fold kr inner. rewrite E.
  assert (is_ok r = is_ok r0) as Hok by (destruct r0; [by subst|by destruct Hr as (e' & -> & _)]).
  rewrite Hok. split_and!.
  - rewrite Ha. cbn. lia.
  - by rewrite Hd.
  - rewrite Hc. by destruct r0.
  - by rewrite He.
  - intros Hg. rewrite Hg in Hr0. destruct Hr0 as [-> ->]. split; [done|]. destruct Hr as (e' & -> & Hs).
    exists e'. split; [done|]. rewrite SafeForClient_disclosed in Hs by done. by injection Hs as <-.
  - intros Hg Hn. rewrite Hg in Hr0. unfold raw_tool in Hn, Hr0. rewrite Hn in Hr0. injection Hr0 as -> ->. split; [done|]. destruct Hr as (e' & -> & Hs).
    rewrite SafeForClient_hidden in Hs by done. by injection Hs as <-.
  - intros Hg In Out decode encode h Ht. rewrite Hg in Hr0. unfold raw_tool in Ht, Hr0. rewrite Ht in Hr0. unfold addTool in Hr0.
    destruct (decode args) as [i|text]; [|injection Hr0 as -> ->; by split].
    destruct (h c i st) as [[out|e] st1]; cbn [sanitizeToolErr fst snd] in *.
    + destruct (encode out) as [json|e]; injection Hr0 as -> ->; by split.
    + destruct (SafeForClient (Some e)) as [e'|] eqn:Es; [|by destruct (SafeForClient_no_leak e) as (x & Hx & _); congruence].
      injection Hr0 as -> ->. split; [done|]. exists (error_text e'). unfold visible. by rewrite Es.
Qed.

(** The node fails, the caller is told, and nothing is counted as an error. *)
Definition demo_code_tool (cfg : Config) : @raw_tool nat :=
  addTool (λ args, if args =s "" then Err "missing address" else Ok (mkCodeInput args not_provided))
    (λ _, Ok "{}") (λ c i n, (makeGetCodeHandler (evm_client demo_wire) cfg c i, S n)).

Lemma tool_call_outcome_witness :
  ∃ cfg, Load demo_config_env = Ok cfg ∧
    let '(r, (m, n)) := NewServer cfg {["evm_get_code" := demo_code_tool cfg]} 5 (hex_encode (zeros 20))
                          (λ _ _ _ s, (Err (Opaque "method not found"), s)) None "tools/call" (HasName "evm_get_code")
                          (mkMcpMetrics 0 [] [] [], 0%nat) in
    n = 1%nat ∧ mm_calls m = [mkCall "tools/call" "evm_get_code" "ok"] ∧ mm_errors m = [] ∧ ∃ text, r = Ok (IsError text).
Proof.
  destruct (Load demo_config_env) as [cfg|] eqn:E; [|vm_compute in E; discriminate]. exists cfg. split; [done|].
  pose proof (tool_call_outcome cfg {["evm_get_code" := demo_code_tool cfg]} 5 (hex_encode (zeros 20))
    (λ _ _ _ s, (Err (Opaque "method not found"), s)) None (HasName "evm_get_code") (mkMcpMetrics 0 [] [] []) 0%nat) as H.
  cbv zeta in H. destruct (NewServer _ _ _ _ _ _ _ _ _) as [r [m n]]. destruct H as (_ & _ & Hc & He & _ & _ & H).
  assert (∃ e, makeGetCodeHandler (evm_client demo_wire) cfg None (mkCodeInput (hex_encode (zeros 20)) not_provided) = Err e) as [e Hcode].
  { eexists. vm_compute in E. injection E as <-. vm_compute. reflexivity. }
  assert (KeylessReads (keyless cfg) = false) as Hk by (vm_compute in E; injection E as <-; reflexivity).
  rewrite Hk in H. specialize (H eq_refl _ _ _ _ _ (lookup_singleton_eq _ _)).
  set (h := λ (c : option Claims) (i : getCodeInput) (n : nat), _) in H.
  assert ((h None (mkCodeInput (hex_encode (zeros 20)) not_provided) 0%nat) = (Err e, 1%nat)) as Hh by (unfold h; by rewrite Hcode).
  assert ((if hex_encode (zeros 20) =s "" then Err "missing address" else Ok (mkCodeInput (hex_encode (zeros 20)) not_provided))
    = Ok (mkCodeInput (hex_encode (zeros 20)) not_provided)) as Ha by (vm_compute; reflexivity).
  cbv beta in H. rewrite Ha, Hh in H. destruct H as (-> & text & _ & ->).
  split; [done|]. split; [exact Hc|]. split; [exact He|]. by exists text.
Defined.
