(* ===== verification/System.v ===== *)
(** The running deployment: the parts main starts (cmd/nvnm-mcp-server/main.go),
    over the key store, the tables and the queue they share, as a labelled
    transition system from the state run leaves.

    The MCP endpoint and the admin API serve one request at a time, so a broadcast's
    quota check, send and charge are one transition: what overlapping broadcasts add
    to the quota is not seen here but in Relay's [race_step]. The two later
    phases of an approval are transitions of their own, so that approvals
    interleave. Janitor and purge ticks are transitions too. *)

From S2P Require Import Prelude GoErrors Fs Hex Http Ingress RateLimit Auth KeyStore ManagedKeys PgKeyStore Evm SignerStores.
From S2P Require Import Relay PendingKeys Admin AdminServer Config Purge Server Boot.
Import CfgErrors.

(** ** What main wires *)

Definition DefaultFailRatePerSec : Z := 10 ^ 9.
Definition DefaultFailBurst : Z := 5.

Section Wiring.
Context {B : Type}.

(** A configured rate in the nano-tokens per second of [TokenBucket]. *)
Context (rate : SpecFloat.spec_float → Z).

Definition newHTTPLimiters (c : Config) : ClientRateLimiter B * AnonReadRateLimiter B * IPFailRateLimiter B :=
  let trust := TrustProxyHeaders (flags c) in
  let hops := TrustedProxyHops c in
  (NewClientRateLimiter (rate (MCPRateLimit (mcpRate c))) (MCPRateBurst (mcpRate c)),
   NewAnonReadRateLimiter (rate (AnonRateLimit (keyless c))) (AnonRateBurst (keyless c)) trust hops,
   NewIPFailRateLimiter DefaultFailRatePerSec DefaultFailBurst trust hops).

Definition NewKeyRequestRateLimiter (c : Config) : keyedRateLimiter B :=
  newKeyedRateLimiter (rate (KeyRequestRateLimit (keyRequest c))) (KeyRequestRateBurst (keyRequest c)).
End Wiring.

(** The admin server as startAdminServer builds it. *)
Definition admin_config (d : deployment) : admin_cfg :=
  mkAdminCfg (KeyDefaultTTL (keys (dp_cfg d))) (match dp_admin_pending d with Some _ => true | None => false end) true
    (st_audit (dp_stores d)) (st_blacklist (dp_stores d)) (st_adminAudit (dp_stores d)).

Variant transport_call := RunStdio | ListenHTTP (addr : string) (cfg : server_cfg).

Definition runTransport (d : deployment) : result boot_error transport_call :=
  let t := Transport (core (dp_cfg d)) in
  if t =s "stdio" then Ok RunStdio
  else if t =s "http" then Ok (ListenHTTP (HTTPAddr (core (dp_cfg d))) (dp_http d))
  else Err (BootConfig (CfgErr ErrInvalidTransport)).

(** The last branch is not reached. *)
Lemma runTransport_total env d : run env = Ok d → is_ok (runTransport d) = true.
Proof.
  intros Hrun%run_boots. destruct (load_config_ok _ _ (bs_config _ _ Hrun)) as (_ & _ & Hwf & _).
  unfold runTransport. by destruct (wf_transport _ Hwf) as [-> | ->].
Qed.

(** ** Its state *)

(** A call of the write tool, what it answered and what it sent to the node. The
    calls so far are kept as a ghost beside the relay. *)
Record tool_record := mkToolRecord {
  tr_env : relay_env; tr_claims : option Claims; tr_input : string;
  tr_result : result error string; tr_sent : list string
}.
Definition record_call (env : relay_env) (c : option Claims) (signedTxHex : string) (before : relay_st)
    (x : result error string * relay_st) : tool_record :=
  mkToolRecord env c signedTxHex x.1 (drop (length (rl_sent before)) (rl_sent x.2)).
Definition tools_st : Type := relay_st * list tool_record.

(** The key store and the tables are those in [sy_srv]; of the two queues over
    the pending-keys file, the admin API's is [sy_pending]. *)
Record system (B S : Type) := mkSystem {
  sy_srv : srv_st B S tools_st;
  sy_pending : PendingKeyStore;
  sy_audit : list AdminAuditEntry;
  sy_audit_log : list AdminAuditEntry;
  sy_mail : list (string * string)
}.
Arguments mkSystem {B S} _ _ _ _ _.
Arguments sy_srv {B S} _. Arguments sy_pending {B S} _. Arguments sy_audit {B S} _.
Arguments sy_audit_log {B S} _. Arguments sy_mail {B S} _.

Definition sys_keys {B S} (y : system B S) : S := sv_keys (sy_srv y).
Definition sys_db {B S} (y : system B S) : keyless_db := rl_db (sv_app (sy_srv y)).1.
Definition sys_sent {B S} (y : system B S) : list string := rl_sent (sv_app (sy_srv y)).1.
Definition sys_log {B S} (y : system B S) : list tool_record := (sv_app (sy_srv y)).2.

(** After the MCP endpoint ran: its queue may have written the shared file. *)
Definition put_db (db : keyless_db) (a : tools_st) : tools_st := (set_db db a.1, a.2).

Definition after_srv {B S} (srv : srv_st B S tools_st) (y : system B S) : system B S :=
  mkSystem srv (on_world (ps_disk (kr_store (sv_requests srv))) (sy_pending y)) (sy_audit y) (sy_audit_log y) (sy_mail y).

Definition with_tables {B S} (db : keyless_db) (audit : list AdminAuditEntry) (y : system B S) : system B S :=
  let s := sy_srv y in
  mkSystem (mkSrv (sv_fail s) (sv_anon s) (sv_client s) (sv_keys s) (sv_requests s) (sv_responses s) (put_db db (sv_app s)))
    (sy_pending y) audit (sy_audit_log y) (sy_mail y).

(** The state as the admin API sees it, and what its handlers leave. *)
Definition admin_view {B S} (y : system B S) : admin_st S :=
  mkAdmin (sys_keys y) (sy_pending y) (sys_db y) (sy_audit y) (sy_audit_log y) (sy_mail y).

Definition after_admin {B S} (a : admin_st S) (y : system B S) : system B S :=
  let s := sy_srv y in
  let q := sv_requests s in
  mkSystem (mkSrv (sv_fail s) (sv_anon s) (sv_client s) (ad_keys a)
              (mkKRState (kr_buckets q) (on_world (ps_disk (ad_pending a)) (kr_store q))) (sv_responses s)
              (put_db (ad_db a) (sv_app s)))
    (ad_pending a) (ad_audit a) (ad_audit_log a) (ad_mail a).

(** The queue of a deployment without one. *)
Definition no_queue : PendingKeyStore := mkPendingStore "" [] (mkWorld ∅ []).

(** The key stores a deployment can have. *)
Class DeployedStore (S E : Type) `{KeyStoreLaws S E} := {
  deployed : S → key_backend;
  deployed_hasher s : backend_hasher (deployed s) = kb_hasher s
}.
#[export] Program Instance Managed_Deployed : DeployedStore ManagedKeyStore os_env := { deployed := FileKeys }.
Next Obligation. done. Qed.
#[export] Program Instance Pg_Deployed : DeployedStore PostgresKeyStore pg_env := { deployed := PostgresKeys }.
Next Obligation. done. Qed.

(** ** Its transitions *)

(** The admin requests that may bring a client's key back, and those that take it
    away when they are answered with this status. *)
Definition admin_restores (dec : decoders) (r : request) (id : string) : Prop :=
  match mux (rq_method r) (rq_path r) with
  | RouteCreate => ∃ q, dc_create dec (rq_body r) = Some q ∧ cq_ClientID q = id
  | RouteUpdate i => i = id ∧ ∃ q, dc_update dec (rq_body r) = Some q ∧ uq_Enabled q = Some true
  | RouteApprove i => pending_client i = id
  | _ => False
  end.

Definition admin_revokes (dec : decoders) (r : request) (status : Z) (id : string) : Prop :=
  match mux (rq_method r) (rq_path r) with
  | RouteDelete i => i = id ∧ status = StatusNoContent
  | RouteUpdate i => i = id ∧ status = StatusOK ∧ ∃ q, dc_update dec (rq_body r) = Some q ∧ uq_Enabled q = Some false
  | _ => False
  end.

Inductive event :=
| Served (r : request) (resp : response)           (* by the MCP endpoint *)
| Administered (r : request) (resp : response)     (* by the admin API *)
| Minted (id : string)                             (* an approval's second phase *)
| Purged (now : Z)                                 (* a sweep of the retention purge *)
| Background.

Section System.
Context {B S E : Type} `{TokenBucket B} `{DeployedStore S E} `{EthLib}.
Context (rate : SpecFloat.spec_float → Z).
Context (range : gmap string (clientBucket B) → list (string * clientBucket B)).
Context (mail_ok : string → bool) (decode_body : Z → string → option KeyRequestInput).
Context (mux_redirect : request → option response).
Context (ParseTime : string → option Z) (FormatTime : Z → string) (dec : decoders) (query : request → string → string).
Context (json : ∀ A : Type, A → string) (admin_redirect : request → option response).
Context (admin_range : gmap string string → list (string * string)).
Context (d : deployment).

Abbreviation System := (system B S).

Definition start (s : S) (db : keyless_db) : System :=
  let '(client, anon, fail) := newHTTPLimiters rate (dp_cfg d) in
  mkSystem
    (mkSrv fail anon client s
       (mkKRState (NewKeyRequestRateLimiter rate (dp_cfg d)) (default no_queue (dp_public_pending d))) []
       (mkRelay db [] [] [], []))
    (default no_queue (dp_admin_pending d)) [] [] [].

(** The validator of loadAPIKeys. *)
Definition api_hasher : option KeyHasher :=
  Some (NewKeyHasher (KeyHMACPepper (keys (dp_cfg d))) (KeyHMACPepperPrevious (keys (dp_cfg d)))).
Definition api_validate (env : E) (r : request) (token : string) (s : S) : result error Claims * S :=
  validate_key api_hasher env (rq_now r) token s.

(** A call of the write tool while a request is served; the instant is the
    request's. *)
Definition tool_call (rc : relay_cfg) (now : Z) (c : option Claims) (a a' : tools_st) : Prop :=
  ∃ env signedTxHex, re_now env = now ∧
    let x := call_send (sc_keylessReads (dp_http d)) rc env c signedTxHex a.1 in
    a' = (x.2, a.2 ++ [record_call env c signedTxHex a.1 x]).

(** What is assumed of the MCP handler: it acts through tool calls, with the
    claims of its request. *)
Definition calls_tools (mcp : handler (srv_st B S tools_st)) : Prop :=
  ∀ r st, sv_keys (mcp r st).2 = sv_keys st ∧
    match dp_relay d with
    | Some rc => rtc (tool_call rc (rq_now r) (rq_claims r)) (sv_app st) (sv_app (mcp r st).2)
    | None => sv_app (mcp r st).2 = sv_app st
    end.

Definition serve (env : E) (os : os_env) (uuid : string) (mcp : handler (srv_st B S tools_st)) (r : request) (y : System)
    : response * System :=
  let '(resp, srv) := RunHTTP range (api_validate env) mail_ok decode_body mux_redirect os uuid (dp_http d) mcp r (sy_srv y) in
  (resp, after_srv srv y).

Definition administer (admins : gmap string string) (env : admin_env E) (r : request) (y : System) : response * System :=
  let '(resp, a) := NewAdminServer ParseTime FormatTime (admin_config d) dec query json admin_redirect admin_range admins
                      env r (admin_view y) in
  (resp, after_admin a y).

(** The janitors of the four limiters. *)
Definition janitor (now : Z) (y : System) : System :=
  let s := sy_srv y in
  let q := sv_requests s in
  mkSystem
    (mkSrv (set_ips (sweep range now (if_ips (sv_fail s))) (sv_fail s))
       (mkAnon (sweep range now (ar_inner (sv_anon s))) (ar_trustProxy (sv_anon s)) (ar_hops (sv_anon s)))
       (sweep range now (sv_client s)) (sv_keys s) (mkKRState (sweep range now (kr_buckets q)) (kr_store q))
       (sv_responses s) (sv_app s))
    (sy_pending y) (sy_audit y) (sy_audit_log y) (sy_mail y).

(** A later phase of an approval may occur at any time with any request, which
    includes every way approvals can interleave. *)
Inductive step : event → System → System → Prop :=
| step_serve env os uuid mcp r y :
    rq_claims r = None → calls_tools mcp →
    step (Served r (serve env os uuid mcp r y).1) y (serve env os uuid mcp r y).2
| step_admin admins env r y :
    dp_admin d = Some admins → mints_fresh env (admin_view y) →
    step (Administered r (administer admins env r y).1) y (administer admins env r y).2
| step_mint env req y :
    is_Some (dp_admin d) → mints_fresh env (admin_view y) →
    step (Minted (pending_client (pr_ID req))) y (after_admin (approve_mint env req (admin_view y)).2 y)
| step_decide env ctx req created y :
    is_Some (dp_admin d) →
    step Background y (after_admin (approve_decide (admin_config d) env ctx req created (admin_view y)).2 y)
| step_janitor now y : step Background y (janitor now y)
| step_purge env p now k rows res err db' k' y :
    dp_purger d = Some p → rows.*1 = sy_audit y → (∀ A i (l : list A), pe_scan env A i l ≡ₚ l) →
    PurgeOnce env p now k (mkPurgeDb (sys_db y) rows) = (res, err, db', k') →
    step (Purged now) y (with_tables (pd_keyless db') (pd_admin_audit db').*1 y).

Inductive steps : list event → System → System → Prop :=
| steps_nil y : steps [] y y
| steps_cons e es y1 y2 y3 : step e y1 y2 → steps es y2 y3 → steps (e :: es) y1 y3.

Definition restores (e : event) (id : string) : Prop :=
  match e with Administered r _ => admin_restores dec (cap_body r) id | Minted i => i = id | _ => False end.

Definition revokes (e : event) (id : string) : Prop :=
  match e with
  | Administered r resp => admin_redirect (cap_body r) = None ∧ admin_revokes dec (cap_body r) (rs_status resp) id
  | _ => False
  end.
End System.

(** ** Lemmas: the key store *)

Section Keys.
Context {S E : Type} `{KeyStoreLaws S E}.

(** No enabled key of the client. *)
Definition no_live (id : string) (s : S) : Prop := ∀ y, y ∈ kb_entries s → ke_ID y = id → ke_Enabled y = false.

(** A change that keeps the store's invariant and hasher, and brings back at most
    the clients of [P]. *)
Definition keys_step (P : string → Prop) (s s' : S) : Prop :=
  kb_ok s → kb_ok s' ∧ kb_hasher s' = kb_hasher s ∧ ∀ id, ¬ P id → no_live id s → no_live id s'.

Lemma keys_refl P s : keys_step P s s.
Proof using Type. by intros Hok. Qed.

Lemma keys_trans P s1 s2 s3 : keys_step P s1 s2 → keys_step P s2 s3 → keys_step P s1 s3.
Proof using Type.
  intros H12 H23 Hok. destruct (H12 Hok) as (Hok2 & Hh2 & H2). destruct (H23 Hok2) as (Hok3 & Hh3 & H3).
  split_and!; [done|congruence|auto].
Qed.

Lemma keys_impl (P Q : string → Prop) s s' : (∀ id, P id → Q id) → keys_step P s s' → keys_step Q s s'.
Proof using Type. intros HPQ Hs Hok. destruct (Hs Hok) as (? & ? & Hl). split_and!; auto. Qed.

Lemma keys_lookup h env now tok s : keys_step (λ _, False) s (validate_key h env now tok s).2.
Proof using Type.
  intros Hok. pose proof (kl_lookup env now tok s Hok) as Hl. unfold validate_key, Adapter_Lookup.
  destruct (kb_Lookup env now tok s) as [[e reason] s']. destruct Hl as ((Hok' & Hh & Hid) & _ & _).
  assert (∀ id, ¬ False → no_live id s → no_live id s') as Hl.
  { intros id _ Hno y Hy Heq. destruct (Hid y Hy) as (x & Hx & E1 & E2 & _). rewrite E2. apply Hno; congruence. }
  by destruct reason, e.
Qed.

Lemma keys_create env c id roles exp s :
  (∀ r s', kb_Create env c id roles exp s = (Ok r, s') →
     ∀ y, y ∈ kb_entries s → ke_KeyHash y ≠ (HashForStore (kb_hasher s) (cr_Key r)).1) →
  keys_step (λ i, i = id) s (kb_Create env c id roles exp s).2.
Proof using Type.
  intros Hf Hok. destruct (kb_Create env c id roles exp s) as [[r|e] s'] eqn:Ec; cbn [snd].
  - destruct (kl_create _ _ _ _ _ _ _ _ Hok Ec (Hf _ _ eq_refl)) as (Hok' & Hh & _ & e & Hin & Hid & _).
    split_and!; [done..|]. intros i Hne Hno y [->|Hy]%Hin Hy'; [congruence|auto].
  - destruct (kl_create_err _ _ _ _ _ _ _ _ Hok Ec) as (Hok' & Hh & He). split_and!; [done..|].
    intros i _ Hno y. rewrite He. apply Hno.
Qed.

Lemma update_enabled upd e : ke_Enabled (apply_update upd e) = default (ke_Enabled e) (up_Enabled upd).
Proof using Type. by destruct upd as [[] [] []]. Qed.

Lemma keys_update env id upd s :
  keys_step (λ i, i = id ∧ up_Enabled upd = Some true) s (kb_Update env id upd s).2.
Proof using Type.
  intros Hok. set (s' := (kb_Update env id upd s).2).
  assert (kb_ok s' ∧ kb_hasher s' = kb_hasher s ∧ ∀ y, y ∈ kb_entries s' → y ∈ kb_entries s ∨
    ∃ x, x ∈ kb_entries s ∧ ke_ID x = id ∧ y = apply_update (stored_update kb_time upd) x) as (Hok' & Hh & Hin).
  { unfold s'. destruct (kb_Update env id upd s) as [[r|e] s1] eqn:Eu; cbn [snd]; [|by eapply kl_update_err].
    destruct (kl_update _ _ _ _ _ _ Hok Eu) as (? & ? & _ & Hin). split_and!; [done..|]. intros y Hy. apply Hin in Hy.
    destruct Hy as [[? _]|?]; auto. }
  split_and!; [done..|]. intros i Hne Hno y [Hy|(x & Hx & Hid & ->)]%Hin Heq; [auto|].
  rewrite (proj1 (elem_update_id _ x)) in Heq. rewrite update_enabled. cbn [stored_update up_Enabled].
  destruct (up_Enabled upd) as [[]|]; simpl default; [|done|by apply Hno]. destruct Hne. by split; [congruence|].
Qed.

Lemma keys_delete env id s : keys_step (λ _, False) s (kb_Delete env id s).2.
Proof using Type.
  intros Hok. destruct (kb_Delete env id s) as [[e|] s'] eqn:Ed; cbn [snd].
  - destruct (kl_delete_err _ _ _ _ _ Hok Ed) as (? & ? & He). split_and!; [done..|]. intros i _ Hno y. rewrite He. apply Hno.
  - destruct (kl_delete _ _ _ _ Hok Ed) as (? & ? & Hin). split_and!; [done..|]. intros i _ Hno y [Hy _]%Hin. by apply Hno.
Qed.

Lemma delete_no_live env id s s' : kb_ok s → kb_Delete env id s = (None, s') → no_live id s'.
Proof using Type. intros Hok Hd. destruct (kl_delete _ _ _ _ Hok Hd) as (_ & _ & Hin). by intros y [_ Hne]%Hin. Qed.

Lemma update_no_live env id upd s r s' :
  kb_ok s → up_Enabled upd = Some false → kb_Update env id upd s = (Ok r, s') → no_live id s'.
Proof using Type.
  intros Hok Hen Hu. destruct (kl_update _ _ _ _ _ _ Hok Hu) as (_ & _ & _ & Hin).
  intros y [[_ Hne]|(x & _ & _ & ->)]%Hin Hid; [done|]. rewrite update_enabled. cbn [stored_update up_Enabled]. by rewrite Hen.
Qed.
End Keys.

(** ** Lemmas: the admin API *)

Section AdminKeys.
Context {S E : Type} `{KeyStoreLaws S E}.
Context (ParseTime : string → option Z) (FormatTime : Z → string) (cfg : admin_cfg) (dec : decoders)
        (query : request → string → string) (json : ∀ A : Type, A → string).

Abbreviation admin_step P st st' := (keys_step P (ad_keys st) (ad_keys st')).

Lemma record_keys (env : admin_env E) ctx a t det o (st : admin_st S) :
  ad_keys (recordAdminAudit cfg env ctx a t det o st) = ad_keys st.
Proof using Type. unfold recordAdminAudit. by destruct (negb _), (ae_audit_fails env). Qed.

Lemma mail_keys (env : admin_env E) to body (st : admin_st S) : ad_keys (send_mail cfg env to body st).2 = ad_keys st.
Proof using Type. unfold send_mail. by destruct (ac_email cfg), (ae_mail_fails env). Qed.

Lemma create_admin (env : admin_env E) ctx body (st : admin_st S) : mints_fresh env st →
  admin_step (λ i, ∃ q, body = Some q ∧ cq_ClientID q = i) st (handleCreate cfg env ctx body st).2.
Proof using Type.
  intros Hf. unfold handleCreate. destruct body as [req|]; [|apply keys_refl].
  destruct (cq_ClientID req =s ""); [apply keys_refl|]. destruct (bool_decide _); [apply keys_refl|].
  destruct (negb _); [apply keys_refl|]. destruct (resolveExpiry _ _ _) as [exp|]; [|apply keys_refl].
  assert (keys_step (λ i, ∃ q, Some req = Some q ∧ cq_ClientID q = i) (ad_keys st)
    (kb_Create (ae_kb env) (ae_call env) (cq_ClientID req) (cq_Roles req) exp (ad_keys st)).2) as Hk.
  { eapply keys_impl, keys_create; [|intros r s' Hc; exact (Hf _ _ _ _ _ Hc)]. intros i ->. eauto. }
  destruct (kb_Create _ _ _ _ _ _) as [[c|e] k]; [|destruct (errors_Is e ErrClientExists)]; cbn [snd];
    by rewrite ?record_keys.
Qed.

Lemma update_admin (env : admin_env E) ctx id body (st : admin_st S) :
  admin_step (λ i, id = i ∧ ∃ q, body = Some q ∧ uq_Enabled q = Some true) st (handleUpdate cfg env ctx id body st).2.
Proof using Type.
  unfold handleUpdate. destruct (id =s ""); [apply keys_refl|]. destruct body as [req|]; [|apply keys_refl].
  assert (∀ exp, keys_step (λ i, id = i ∧ ∃ q, Some req = Some q ∧ uq_Enabled q = Some true) (ad_keys st)
    (kb_Update (ae_kb env) id (mkUpdate (uq_Enabled req) (uq_Roles req) exp) (ad_keys st)).2) as Hk.
  { intros exp. eapply keys_impl, keys_update. intros i [-> ?]. eauto. }
  destruct (match uq_Enabled req with None => _ | Some _ => _ end); [apply keys_refl|]. cbv zeta.
  repeat case_match; cbn [snd]; rewrite ?record_keys; try apply keys_refl;
    match goal with E : kb_Update _ _ (mkUpdate _ _ ?x) _ = _ |- _ =>
      let Hx := fresh in pose proof (Hk x) as Hx; rewrite E in Hx; exact Hx end.
Qed.

Lemma delete_admin (env : admin_env E) ctx id (st : admin_st S) :
  admin_step (λ _, False) st (handleDelete cfg env ctx id st).2.
Proof using Type.
  unfold handleDelete. destruct (id =s ""); [apply keys_refl|].
  pose proof (keys_delete (ae_kb env) id (ad_keys st)) as Hk. destruct (kb_Delete _ _ _) as [[e|] k]; cbn [snd] in *.
  - by destruct (errors_Is e ErrClientMissing).
  - by rewrite record_keys.
Qed.

Lemma mint_admin (env : admin_env E) req (st : admin_st S) : mints_fresh env st →
  admin_step (λ i, i = pending_client (pr_ID req)) st (approve_mint env req st).2.
Proof using Type.
  intros Hf. unfold approve_mint.
  pose proof (keys_create (ae_kb env) (ae_call env) (pending_client (pr_ID req)) ["reader"] 0 (ad_keys st)
    (λ r s' Hc, Hf _ _ _ _ _ Hc)) as Hk.
  by destruct (kb_Create _ _ _ _ _ _) as [[c|e] k].
Qed.

Lemma decide_admin (env : admin_env E) ctx req created (st : admin_st S) :
  admin_step (λ _, False) st (approve_decide cfg env ctx req created st).2.
Proof using Type.
  unfold approve_decide. cbv zeta. destruct (Decide _ _ _ _ _ _ _) as [[r|e] p]; cbn [snd].
  - rewrite (surjective_pairing (send_mail _ _ _ _ _)). cbn [snd]. rewrite record_keys, mail_keys. apply keys_refl.
  - apply keys_delete.
Qed.

Lemma approve_admin (env : admin_env E) ctx id (st : admin_st S) : mints_fresh env st →
  admin_step (λ i, pending_client id = i) st (handleApprovePending cfg env ctx id st).2.
Proof using Type.
  intros Hf. unfold handleApprovePending, approve_check.
  destruct (negb _); [apply keys_refl|]. destruct (id =s ""); [apply keys_refl|].
  destruct (Get id (ad_pending st)) as [req|] eqn:Eg; [|apply keys_refl]. apply Get_id in Eg as <-.
  destruct (negb _); [apply keys_refl|]. pose proof (mint_admin env req st Hf) as Hm.
  assert (keys_step (λ i, pending_client (pr_ID req) = i) (ad_keys st) (ad_keys (approve_mint env req st).2)) as Hm'
    by (eapply keys_impl; [|exact Hm]; by intros ? ->).
  destruct (approve_mint env req st) as [[c|r] st1]; [|exact Hm'].
  eapply keys_trans; [exact Hm'|]. eapply keys_impl, decide_admin. done.
Qed.

Lemma reject_admin (env : admin_env E) ctx id body (st : admin_st S) :
  ad_keys (handleRejectPending cfg env ctx id body st).2 = ad_keys st.
Proof using Type.
  unfold handleRejectPending. destruct (negb _); [done|]. destruct (id =s ""); [done|]. destruct body as [reason|]; [|done].
  destruct (Decide _ _ _ _ _ _ _) as [[r|e] p]; [|done].
  rewrite (surjective_pairing (send_mail _ _ _ _ _)). cbn [snd]. by rewrite record_keys, mail_keys.
Qed.

Lemma ban_admin (env : admin_env E) ctx body (st : admin_st S) :
  ad_keys (handleAddBlacklist cfg env ctx body st).2 = ad_keys st.
Proof using Type. unfold handleAddBlacklist. repeat case_match; cbn [snd]; by rewrite ?record_keys. Qed.

Lemma unban_admin (env : admin_env E) ctx signer (st : admin_st S) :
  ad_keys (handleDeleteBlacklist cfg env ctx signer st).2 = ad_keys st.
Proof using Type. unfold handleDeleteBlacklist. repeat case_match; cbn [snd]; by rewrite ?record_keys. Qed.

Lemma dispatch_keys (env : admin_env E) ctx r (st : admin_st S) : mints_fresh env st →
  admin_step (admin_restores dec r) st (dispatch ParseTime FormatTime cfg dec query json env ctx r st).2.
Proof using Type.
  intros Hf. unfold dispatch, admin_restores.
  destruct (mux (rq_method r) (rq_path r)) as [ | |id|id| |id|id| | | |signer| | ];
    rewrite ?(proj2 (respond_status _ _)); try apply keys_refl.
  - by apply create_admin.
  - apply update_admin.
  - eapply keys_impl, delete_admin. done.
  - unfold handleListPending. destruct (negb _); apply keys_refl.
  - by apply approve_admin.
  - rewrite reject_admin. apply keys_refl.
  - unfold handleWriteAudit. repeat case_match; apply keys_refl.
  - unfold handleListBlacklist. repeat case_match; apply keys_refl.
  - rewrite ban_admin. apply keys_refl.
  - rewrite unban_admin. apply keys_refl.
Qed.

(** A revocation that was answered has happened. *)
Lemma dispatch_revokes (env : admin_env E) ctx r (st : admin_st S) id : kb_ok (ad_keys st) →
  let x := dispatch ParseTime FormatTime cfg dec query json env ctx r st in
  admin_revokes dec r (rs_status x.1) id → no_live id (ad_keys x.2).
Proof using Type.
  intros Hok x. subst x. unfold dispatch, admin_revokes.
  destruct (mux (rq_method r) (rq_path r)) as [ | |i|i| |i|i| | | |signer| | ]; try done;
    rewrite (proj1 (respond_status _ _)), (proj2 (respond_status _ _)).
  - intros (-> & Hs & q & Hq & Hen). revert Hs. rewrite Hq. unfold handleUpdate. destruct (id =s ""); [done|].
    rewrite Hen. cbv zeta.
    repeat case_match; cbn [fst snd]; try done; intros _; rewrite record_keys;
      match goal with E : kb_Update _ _ _ _ = (Ok _, _) |- _ => by eapply update_no_live in E end.
  - intros [-> Hs]. revert Hs. unfold handleDelete. destruct (id =s ""); [done|].
    destruct (kb_Delete _ _ _) as [[e|] k] eqn:Ed; [by destruct (errors_Is e ErrClientMissing)|].
    intros _. cbn [snd]. rewrite record_keys. by eapply delete_no_live.
Qed.
End AdminKeys.

(** ** Lemmas: the MCP endpoint *)

Section ServeKeys.
Context {B S App : Type} `{TokenBucket B}.
Context (range : gmap string (clientBucket B) → list (string * clientBucket B)).
Context (validate : request → string → S → result error Claims * S).
Context (mail_ok : string → bool) (decode_body : Z → string → option KeyRequestInput).
Context (mux_redirect : request → option response) (os : os_env) (uuid : string) (cfg : server_cfg).

Abbreviation St := (srv_st B S App).

(** What a handler does to the key store. *)
Definition touches (R : S → S → Prop) (h : handler St) : Prop := ∀ r st, R (sv_keys st) (sv_keys (h r st).2).

Definition validated (k k' : S) : Prop := k' = k ∨ ∃ r token, k' = (validate r token k).2.

Lemma validated_refl k : validated k k.
Proof using Type. by left. Qed.

Section Wrappers.
Context (R : S → S → Prop) (HR : ∀ k, R k k).

Lemma client_touches next : touches R next → touches R (ClientMiddleware range sv_client put_client next).
Proof using HR.
  intros Hn r st. unfold ClientMiddleware. destruct (_ =s ""); [apply Hn|].
  destruct (allow _ _ _ _) as [[] k]; [exact (Hn r (put_client k st))|apply HR].
Qed.

Lemma anon_touches next : touches R next → touches R (AnonMiddleware range sv_anon put_anon next).
Proof using HR.
  intros Hn r st. unfold AnonMiddleware. destruct (ClaimsFromContext r); [apply Hn|].
  destruct (allow _ _ _ _) as [[] k]; [exact (Hn r (put_anon k st))|apply HR].
Qed.

Lemma fail_touches next : touches R next → touches R (RateLimit.Wrap range sv_fail put_fail next).
Proof using HR.
  intros Hn r st. unfold RateLimit.Wrap. destruct (peek _ _ _ _) as [[] k]; [exact (Hn r (put_fail _ st))|apply HR].
Qed.

Lemma CORS_touches allow next : touches R next → touches R (CORSMiddleware next allow).
Proof using HR.
  intros Hn r st. unfold CORSMiddleware. pose proof (Hn r st) as Hx.
  repeat case_match; try apply HR; by simplify_eq/=.
Qed.

Lemma origin_touches allow next : touches R next → touches R (originGuard next allow).
Proof using HR. intros Hn r st. unfold originGuard. repeat case_match; [apply HR|apply Hn]. Qed.

Lemma https_touches trust next : touches R next → touches R (requireForwardedHTTPS next trust).
Proof using HR. intros Hn r st. unfold requireForwardedHTTPS. repeat case_match; first [apply Hn|apply HR]. Qed.

Lemma discovery_touches next : touches R next → touches R (wellKnownGuard next).
Proof using HR. intros Hn r st. unfold wellKnownGuard. case_match; [apply HR|apply Hn]. Qed.

Lemma cap_touches next : touches R next → touches R (limitRequestBody next).
Proof using Type. intros Hn r st. exact (Hn (capped r) st). Qed.

Lemma metrics_touches next : touches R next → touches R (responseMetricsMiddleware cfg next).
Proof using Type.
  intros Hn r st. unfold responseMetricsMiddleware. pose proof (Hn r st) as Hx.
  destruct (next r st) as [resp st1]. by destruct (sc_metrics cfg).
Qed.

Lemma route_touches next : touches R next → touches R (route range mail_ok decode_body mux_redirect os uuid cfg next).
Proof using HR.
  intros Hn r st. unfold route. destruct (sc_keyRequest cfg) as [kcfg|]; [|apply Hn].
  destruct (mux_redirect r); [apply HR|]. destruct (_ =s _); [|apply Hn]. unfold key_request.
  destruct (KeyRequestHandler _ _ _ _ _ _ _ _). apply HR.
Qed.
End Wrappers.

Lemma auth_touches next : touches eq next →
  touches validated (AuthMiddleware (if sc_validator cfg then Some (run_validator validate) else None)
                       (penalize range cfg) next (sc_keylessReads cfg) (sc_renewalURL cfg)).
Proof using Type.
  assert (∀ r (st : St), sv_keys (penalize range cfg r st) = sv_keys st) as Hp
    by (intros r st; unfold penalize, penalize_request; by destruct (sc_failLimiter cfg)).
  intros Hn r st. unfold AuthMiddleware. destruct (sc_validator cfg); [|left; symmetry; apply Hn].
  destruct (_ =s ""); [destruct (sc_keylessReads cfg); left; [symmetry; apply Hn|apply Hp]|].
  destruct (negb _); [left; apply Hp|]. unfold run_validator. right.
  exists r, (trim_prefix bearer_prefix (header r "Authorization")).
  destruct (validate r _ (sv_keys st)) as [[c|e] k]; cbn [fst snd].
  - symmetry. exact (Hn (with_claims c r) (put_keys k st)).
  - exact (Hp r (put_keys k st)).
Qed.

Lemma RunHTTP_keys mcp : touches eq mcp →
  touches validated (RunHTTP range validate mail_ok decode_body mux_redirect os uuid cfg mcp).
Proof using Type.
  intros Hm. unfold RunHTTP, wrapSecurityChain, mcp_chain.
  apply CORS_touches, metrics_touches, origin_touches, https_touches; try exact validated_refl.
  assert (touches validated (limitRequestBody (wellKnownGuard (route range mail_ok decode_body mux_redirect os uuid cfg
    (mcp_chain range validate cfg mcp))))) as Hb.
  { apply cap_touches, discovery_touches, route_touches, auth_touches; try exact validated_refl.
    destruct (sc_anonLimiter cfg), (sc_limiter cfg); repeat first [apply anon_touches|apply client_touches|exact Hm]; done. }
  destruct (sc_failLimiter cfg); [apply fail_touches; [exact validated_refl|]|]; exact Hb.
Qed.
End ServeKeys.

(** adminAuth runs the next handler, or refuses and leaves the state alone. *)
Lemma adminAuth_shape {St} range (m : gmap string string) (next : option string → handler St) r st :
  (∃ ctx, adminAuth range m next r st = next ctx r st) ∨
  rs_status (adminAuth range m next r st).1 = StatusUnauthorized ∧ (adminAuth range m next r st).2 = st.
Proof.
  unfold adminAuth. destruct (_ =s ""); [by right|]. destruct (negb _); [by right|].
  destruct (foldl _ _ _) as [[] id]; [left; by eexists|by right].
Qed.

(** ** Theorems *)

Section Runs.
Context {B S E : Type} `{TokenBucket B} `{DeployedStore S E} `{EthLib}.
Context (rate : SpecFloat.spec_float → Z).
Context (range : gmap string (clientBucket B) → list (string * clientBucket B)).
Context (mail_ok : string → bool) (decode_body : Z → string → option KeyRequestInput).
Context (mux_redirect : request → option response).
Context (ParseTime : string → option Z) (FormatTime : Z → string) (dec : decoders) (query : request → string → string).
Context (json : ∀ A : Type, A → string) (admin_redirect : request → option response).
Context (admin_range : gmap string string → list (string * string)).
Context (d : deployment).

Abbreviation System := (system B S).
Abbreviation step := (step range mail_ok decode_body mux_redirect ParseTime FormatTime dec query json admin_redirect
  admin_range d).
Abbreviation steps := (steps range mail_ok decode_body mux_redirect ParseTime FormatTime dec query json admin_redirect
  admin_range d).

(** The key store is in order and is the validator's. *)
Definition sys_ok (y : System) : Prop := kb_ok (sys_keys y) ∧ kb_hasher (sys_keys y) = api_hasher d.

Lemma step_keys e y y' : step e y y' →
  keys_step (restores dec e) (sys_keys y) (sys_keys y').
Proof.
  intros Hs. destruct Hs as [env os uuid mcp r y _ Hm|admins env r y _ Hf|env req y _ Hf|env ctx req created y _|now y
    |env p now k rows res err db' k' y _ _ _ _].
  - unfold serve. pose proof (RunHTTP_keys range (api_validate d env) mail_ok decode_body mux_redirect os uuid (dp_http d) mcp
      (λ r st, eq_sym (proj1 (Hm r st))) r (sy_srv y)) as Hk.
    destruct (RunHTTP _ _ _ _ _ _ _ _ _ _ _) as [resp srv]. cbn [snd] in *.
    destruct Hk as [Hk|(r' & tok & Hk)]; unfold sys_keys at 2; cbn [after_srv sy_srv]; rewrite Hk; [apply keys_refl|].
    eapply keys_impl, keys_lookup. done.
  - unfold administer, NewAdminServer.
    set (next := λ ctx, limitAdminRequestBody _).
    assert (∀ ctx, keys_step (admin_restores dec (cap_body r)) (sys_keys y) (ad_keys (next ctx r (admin_view y)).2)) as Hn.
    { intros ctx. unfold next, limitAdminRequestBody, serve_mux. destruct (admin_redirect _); [apply keys_refl|].
      by apply (dispatch_keys ParseTime FormatTime (admin_config d) dec query json env ctx (cap_body r) (admin_view y)). }
    destruct (adminAuth_shape admin_range admins next r (admin_view y)) as [[ctx Hr]|[_ Hr]];
      destruct (adminAuth admin_range admins next r (admin_view y)) as [resp a]; cbn [snd] in *.
    + specialize (Hn ctx). by rewrite <-Hr in Hn.
    + subst a. apply keys_refl.
  - eapply keys_impl; [|by apply (mint_admin env req (admin_view y))]. by intros i ->.
  - apply (decide_admin (admin_config d) env ctx req created (admin_view y)).
  - apply keys_refl.
  - apply keys_refl.
Qed.

Lemma steps_keys es y y' (P : string → Prop) : steps es y y' → Forall (λ e, ∀ id, restores dec e id → P id) es →
  keys_step P (sys_keys y) (sys_keys y').
Proof.
  induction 1 as [y|e es y1 y2 y3 Hs Hss IH]; intros Hes; [apply keys_refl|].
  apply Forall_cons in Hes as [He Hes]. eapply keys_trans; [|by apply IH].
  eapply keys_impl; [exact He|]. by apply step_keys.
Qed.

Lemma steps_ok es y y' : steps es y y' → sys_ok y → sys_ok y'.
Proof.
  intros Hs [Hok Hh]. assert (keys_step (λ _, True) (sys_keys y) (sys_keys y')) as Hk
    by (apply (steps_keys es); [done|by apply Forall_true]).
  destruct (Hk Hok) as (Hok' & Hh' & _).
  split; [done|congruence].
Qed.

(** An acknowledged revocation has happened. *)
Lemma step_revokes e y y' id : sys_ok y → step e y y' → revokes dec admin_redirect e id → no_live id (sys_keys y').
Proof.
  intros [Hok _] Hs. destruct Hs as [ |admins env r y _ _| | | | ]; try done. cbn [revokes]. intros [Hred Hrev].
  unfold administer, NewAdminServer in *. set (next := λ ctx, limitAdminRequestBody _) in *.
  destruct (adminAuth_shape admin_range admins next r (admin_view y)) as [[ctx Hr]|[Hr _]].
  - destruct (adminAuth admin_range admins next r (admin_view y)) as [resp a]. cbn [fst snd] in *.
    pose proof (dispatch_revokes ParseTime FormatTime (admin_config d) dec query json env ctx (cap_body r) (admin_view y) id
      Hok) as Hd. cbv zeta in Hd.
    unfold next, limitAdminRequestBody, serve_mux in Hr. rewrite Hred in Hr. rewrite <-Hr in Hd. by apply Hd.
  - destruct (adminAuth admin_range admins next r (admin_view y)) as [resp a]. cbn [fst snd] in *. exfalso.
    unfold admin_revokes in Hrev. rewrite Hr in Hrev.
    destruct (mux _ _); try done; [by destruct Hrev as (_ & [=] & _)|by destruct Hrev as (_ & [=])].
Qed.

(** Tool calls are calls of the relay. *)
Lemma tool_calls_relay rc now c a a' : rtc (tool_call d rc now c) a a' →
  rtc (Server.relay_call (sc_keylessReads (dp_http d)) rc c) a.1 a'.1.
Proof.
  apply (rtc_congruence (R := tool_call d rc now c) fst). intros x x' (env & tx & _ & Hx). exists env, tx.
  by rewrite Hx.
Qed.

(** The MCP endpoint of a deployment validates API keys. *)
Definition validates_keys : Prop := sc_validator (dp_http d) = true ∧ KeylessWrites (keyless (dp_cfg d)) = false ∧
  ∀ rc, dp_relay d = Some rc → rc_keylessWrites rc = KeylessWrites (keyless (dp_cfg d)).

Lemma started env s db : run env = Ok d → Transport (core (dp_cfg d)) = "http" → dp_keys d = Some (deployed s) →
  KeylessWrites (keyless (dp_cfg d)) = false → kb_ok s → digests_present (dp_keys d) →
  validates_keys ∧ sys_ok (start (B := B) rate d s db).
Proof.
  intros Hb%run_boots Hhttp Hkeys Hkw Hok Hdig. split.
  - split_and!; [|done|].
    + pose proof (http_authenticates env d Hb Hhttp Hdig) as Hcan.
      destruct (bs_requests _ _ Hb) as (kr & _ & _ & ->). cbn. by destruct (dp_validator d).
    + intros rc Hr. rewrite (bs_relay _ _ Hb) in Hr. unfold relay_config in Hr. destruct (EnableWriteTools _); [|done].
      by injection Hr as <-.
  - split; [done|]. unfold sys_keys, api_hasher. cbn. rewrite <-(deployed_hasher s). by apply (boots_hasher env d).
Qed.

(** What the sender of a broadcast had: a key of an enabled, unexpired entry with a
    writing role. *)
Definition authorised (y : System) (e : event) (k : KeyEntry) : Prop :=
  ∃ r resp token role, e = Served r resp ∧ header r "Authorization" = "Bearer " +:+ token ∧
    lookup_in (api_hasher d) token (kb_entries (sys_keys y)) k ∧ ke_Enabled k = true ∧
    (ke_ExpiresAt k = 0 ∨ rq_now r < ke_ExpiresAt k) ∧ role ∈ writer_roles ∧ role ∈ ke_Roles k.

Lemma step_broadcast e y y' : validates_keys → sys_ok y → step e y y' → sys_sent y' ≠ sys_sent y →
  ∃ k, authorised y e k.
Proof.
  intros (Hval & Hkw & Hrc) [Hok Hh] Hs. destruct Hs as [env os uuid mcp r y Hanon Hm|admins env r y _ _| | | |]; try done.
  - unfold serve.
    destruct (RunHTTP _ _ _ _ _ _ _ _ _ _ _) as [resp srv] eqn:Er. cbn [fst snd].
    apply (f_equal snd) in Er. cbn [snd] in Er. unfold sys_sent. cbn [after_srv sy_srv]. rewrite <-Er. intros Hne.
    set (rc := default (mkRelayCfg "" false false false false (mkGates false false 0 0 false false)) (dp_relay d)).
    destruct (broadcast_identity fst range (api_validate d env) mail_ok decode_body mux_redirect os uuid (dp_http d) rc mcp r
      (sy_srv y) Hval) as (token & c & Htok & Hv & Hid); [|done| |exact Hne|].
    + unfold rc. destruct (dp_relay d) as [rc0|]; [|done]. cbn. by rewrite (Hrc rc0 eq_refl).
    + intros r0 st0. destruct (Hm r0 st0) as [_ Hr0]. unfold rc. destruct (dp_relay d) as [rc0|]; [by eapply tool_calls_relay|].
      exact (eq_ind_r (λ z, rtc _ _ (fst z)) (rtc_refl _ _) Hr0).
    + unfold api_validate in Hv. unfold sys_keys in Hok, Hh. rewrite <-Hh in Hv.
      destruct (validate_key_sound env _ token _ c Hok Hv) as (k & Hl & Hen & Hx & ->).
      apply HasAnyRole_spec in Hid as (role & Hw & Hr). exists k, r, resp, token, role. rewrite <-Hh. split_and!; done.
  - unfold administer. by destruct (NewAdminServer _ _ _ _ _ _ _ _ _ _ _ _).
Qed.

(** C1: Only live keys broadcast, whatever the history. Take a server that starts
    from its environment on HTTP with API keys, in a file or in Postgres, and
    without keyless writes. Run it through any history of MCP requests, admin
    requests, concurrent approvals, janitor ticks and purge sweeps. If one more
    event makes a transaction reach the node, then it is an MCP request with a
    bearer token whose digest is stored, at that point of the history, in an enabled
    and unexpired entry with a writing role. Provided the stored keys are in order
    (distinct ids and digests), no enabled entry lacks its digest, and minted keys
    are new. The case left out is real: a keys file whose only enabled entry has
    neither key nor digest starts a server without authentication
    ([Boot.blank_entry_disables_authentication]). An MCP request is one event here:
    what overlapping requests add concerns the quota of keyless writes only (C26).
    *)
Theorem only_live_keys_broadcast env s db es y e y'
    (Hrun : run env = Ok d) (Hhttp : Transport (core (dp_cfg d)) = "http") (Hkeys : dp_keys d = Some (deployed s))
    (Hkw : KeylessWrites (keyless (dp_cfg d)) = false) (Hok : kb_ok s) (Hdig : digests_present (dp_keys d))
    (Hreach : steps es (start rate d s db) y) (Hstep : step e y y') :
  sys_sent y' ≠ sys_sent y → ∃ k, authorised y e k.
Proof.
  destruct (started env s db Hrun Hhttp Hkeys Hkw Hok Hdig) as [Hv Hs].
  apply step_broadcast; [done|by eapply steps_ok|done].
Qed.

(** C2: Revocation is final. On the same deployments (HTTP, API keys, no keyless
    writes, well-formed stored keys with their digests), once an admin's DELETE of a
    client's key was answered 204, or a PATCH that disables it 200, no later event
    makes a transaction reach the node with a key of that client, until an admin
    request creates, enables or approves a key for it again: the sender always holds
    a live key of another client. *)
Theorem revocation_is_final env s db es1 y1 e1 y2 es2 y3 e y4 id
    (Hrun : run env = Ok d) (Hhttp : Transport (core (dp_cfg d)) = "http") (Hkeys : dp_keys d = Some (deployed s))
    (Hkw : KeylessWrites (keyless (dp_cfg d)) = false) (Hok : kb_ok s) (Hdig : digests_present (dp_keys d))
    (Hreach : steps es1 (start rate d s db) y1) (Hrevoke : step e1 y1 y2) (Hrevokes : revokes dec admin_redirect e1 id)
    (Hafter : steps es2 y2 y3) (Hquiet : Forall (λ e, ¬ restores dec e id) es2) (Hstep : step e y3 y4) :
  sys_sent y4 ≠ sys_sent y3 → ∃ k, authorised y3 e k ∧ ke_ID k ≠ id.
Proof.
  destruct (started env s db Hrun Hhttp Hkeys Hkw Hok Hdig) as [Hv Hs]. intros Hne.
  pose proof (steps_ok _ _ _ Hreach Hs) as Hok1. pose proof (step_revokes _ _ _ _ Hok1 Hrevoke Hrevokes) as Hno2.
  assert (sys_ok y2) as Hok2 by (eapply (steps_ok [e1]); [eapply steps_cons; [exact Hrevoke|apply steps_nil]|done]).
  destruct (step_broadcast e y3 y4 Hv (steps_ok _ _ _ Hafter Hok2) Hstep Hne) as (k & Hk). exists k. split; [done|]. intros Hid.
  assert (keys_step (λ i, i ≠ id) (sys_keys y2) (sys_keys y3)) as Hks.
  { apply (steps_keys es2); [done|]. eapply Forall_impl; [exact Hquiet|]. by intros ev Hnot i Hr ->. }
  destruct (Hks (proj1 Hok2)) as (_ & _ & Hno3).
  destruct Hk as (r & resp & token & role & _ & _ & [Hin _] & Hen & _).
  specialize (Hno3 id (λ H, H eq_refl) Hno2 k Hin Hid). congruence.
Qed.
End Runs.

(** ** A concrete history

    Two writers in a keys file; an administrator deletes one of them. *)

Definition demo_keys_disk : keys_world :=
  mkWorld {["/keys.json" := Parsed [demo_key; NewKeyEntry 5 "bob" "bob-secret-key" ["writer"]]]} [].
Definition demo_system_env : boot_env :=
  boot_of (<["MCP_API_KEYS_FILE" := "/keys.json"]> (<["ADMIN_API_KEY" := "root"]> demo_http_environ)) demo_keys_disk.

(** An SDK that reads a request's body as one call of the write tool. *)
Definition demo_mcp (d : deployment) : handler (srv_st ExactBucket ManagedKeyStore tools_st) := λ r st,
  match dp_relay d with
  | Some rc =>
      let env := mkRelayEnv (rq_now r) (re_db demo_relay_env) (re_send demo_relay_env) in
      let x := call_send (sc_keylessReads (dp_http d)) rc env (rq_claims r) (rq_body r) (sv_app st).1 in
      (http_error StatusOK (match x.1 with Ok h => h | Err e => error_text e end),
       mkSrv (sv_fail st) (sv_anon st) (sv_client st) (sv_keys st) (sv_requests st) (sv_responses st)
         (x.2, (sv_app st).2 ++ [record_call env (rq_claims r) (rq_body r) (sv_app st).1 x]))
  | None => (http_error StatusNotFound "", st)
  end.

Lemma demo_mcp_calls_tools d : calls_tools d (demo_mcp d).
Proof.
  intros r st. unfold demo_mcp. destruct (dp_relay d) as [rc|]; [|done].
  split; [done|]. apply rtc_once.
  exists (mkRelayEnv (rq_now r) (re_db demo_relay_env) (re_send demo_relay_env)), (rq_body r). done.
Qed.

Definition demo_serve (d : deployment) : request → system ExactBucket ManagedKeyStore → _ :=
  serve (E := os_env) map_to_list (λ _, true) (λ _ _, None) (λ _, None) d demo_env demo_env "u" (demo_mcp d).
Definition demo_write (key : string) : request := demo_http {["Authorization" := "Bearer " +:+ key]}.

Definition demo_admin_env : admin_env os_env :=
  mkAdminEnv 100 (mkCall 7 None) demo_env demo_env demo_env all_up false false.
Definition demo_administer (d : deployment) (admins : gmap string string)
    : request → system ExactBucket ManagedKeyStore → _ :=
  administer (λ _, None) (λ _, "") no_bodies (λ _ _, "") (λ _ _, "") (λ _, None) map_to_list d admins demo_admin_env.
Definition demo_delete : request :=
  mkRequest "DELETE" "/admin/keys/alice" "192.0.2.9:1" {["Authorization" := "Bearer root"]} "" false None 0.

(** No key can be minted without randomness. *)
Lemma demo_no_mints (a : admin_st ManagedKeyStore) : mints_fresh demo_admin_env a.
Proof. intros id roles exp c k. cbn. unfold Create. by destruct (existsb _ _). Qed.

Definition demo_start (d : deployment) (m : ManagedKeyStore) : system ExactBucket ManagedKeyStore :=
  start (λ _, 10 ^ 9) d m (mkDb ∅ ∅ []).
Definition demo_sends (d : deployment) (key : string) (y : system ExactBucket ManagedKeyStore) : bool :=
  negb (length (sys_sent (demo_serve d (demo_write key) y).2) =? length (sys_sent y))%nat.

(** The history, as a test of the deployment. *)
Definition demo_history (d : deployment) : bool :=
  match dp_keys d, dp_admin d with
  | Some (FileKeys m), Some admins =>
      let y0 := demo_start d m in
      let '(resp, y1) := demo_administer d admins demo_delete y0 in
      is_http d && negb (KeylessWrites (keyless (dp_cfg d))) && digests_check (dp_keys d) &&
      bool_decide (NoDup (ke_ID <$> mk_entries m)) && bool_decide (NoDup (ke_KeyHash <$> mk_entries m)) &&
      demo_sends d "alice-secret-key" y0 && (rs_status resp =? StatusNoContent) &&
      negb (demo_sends d "alice-secret-key" y1) && demo_sends d "bob-secret-key" y1
  | _, _ => false
  end.

Lemma demo_history_runs : boots_with demo_system_env demo_history = true.
Proof. vm_compute. reflexivity. Qed.

Lemma demo_deployment : ∃ d m admins, run demo_system_env = Ok d ∧ Transport (core (dp_cfg d)) = "http" ∧
  dp_keys d = Some (deployed m) ∧ dp_admin d = Some admins ∧ KeylessWrites (keyless (dp_cfg d)) = false ∧
  kb_ok m ∧ digests_present (dp_keys d) ∧
  let y0 := demo_start d m in
  let x := demo_administer d admins demo_delete y0 in
  demo_sends d "alice-secret-key" y0 = true ∧ rs_status x.1 = StatusNoContent ∧
  demo_sends d "alice-secret-key" x.2 = false ∧ demo_sends d "bob-secret-key" x.2 = true.
Proof.
  destruct (boots_with_spec _ _ demo_history_runs) as (d & Hrun & Ht). unfold demo_history in Ht.
  destruct (dp_keys d) as [[m|]|] eqn:Ek; [|done..]. destruct (dp_admin d) as [admins|] eqn:Ea; [|done].
  cbv zeta in Ht. destruct (demo_administer d admins demo_delete (demo_start d m)) as [resp y1] eqn:Ex.
  apply andb_true_iff in Ht as [Ht Hbob]. apply andb_true_iff in Ht as [Ht Hno%negb_true_iff].
  apply andb_true_iff in Ht as [Ht Hst%Z.eqb_eq]. apply andb_true_iff in Ht as [Ht Halice].
  apply andb_true_iff in Ht as [Ht Hhash%bool_decide_eq_true_1]. apply andb_true_iff in Ht as [Ht Hid%bool_decide_eq_true_1].
  apply andb_true_iff in Ht as [Ht Hdig%digests_check_spec]. apply andb_true_iff in Ht as [Hhttp%String.eqb_eq Hkw%negb_true_iff].
  exists d, m, admins. cbv zeta. rewrite Ek, Ex. cbn [fst snd].
  split; [exact Hrun|]. split; [exact Hhttp|]. split; [reflexivity|]. split; [exact Ea|]. split; [exact Hkw|].
  split; [exact (boots_file_store demo_system_env d m (run_boots _ _ Hrun) Ek Hid Hhash)|].
  split; [exact Hdig|]. split; [exact Halice|]. split; [exact Hst|]. split; [exact Hno|exact Hbob].
Qed.

Lemma demo_sends_spec d key y : demo_sends d key y = true → sys_sent (demo_serve d (demo_write key) y).2 ≠ sys_sent y.
Proof. unfold demo_sends. intros Hs Heq. by rewrite Heq, Nat.eqb_refl in Hs. Qed.

Lemma only_live_keys_broadcast_witness :
  ∃ d m k, run demo_system_env = Ok d ∧ dp_keys d = Some (FileKeys m) ∧
    authorised d (demo_start d m)
      (Served (demo_write "alice-secret-key") (demo_serve d (demo_write "alice-secret-key") (demo_start d m)).1) k.
Proof.
  destruct demo_deployment as (d & m & admins & Hrun & Hhttp & Hkeys & _ & Hkw & Hok & Hdig & Hs & _).
  destruct (only_live_keys_broadcast (E := os_env) (λ _, 10 ^ 9) map_to_list (λ _, true) (λ _ _, None) (λ _, None)
    (λ _, None) (λ _, "") no_bodies (λ _ _, "") (λ _ _, "") (λ _, None) map_to_list d demo_system_env m (mkDb ∅ ∅ []) []
    (demo_start d m) _ _ Hrun Hhttp Hkeys Hkw Hok Hdig (steps_nil _ _ _ _ _ _ _ _ _ _ _ _ _)
    (step_serve _ _ _ _ _ _ _ _ _ _ _ _ demo_env demo_env "u" (demo_mcp d) (demo_write "alice-secret-key") _ eq_refl
       (demo_mcp_calls_tools d)) (demo_sends_spec _ _ _ Hs)) as (k & Hk).
  exists d, m, k. split; [exact Hrun|]. split; [exact Hkeys|exact Hk].
Defined.

Lemma revocation_is_final_witness :
  ∃ d m admins k, run demo_system_env = Ok d ∧ dp_keys d = Some (FileKeys m) ∧
    let y1 := (demo_administer d admins demo_delete (demo_start d m)).2 in
    demo_sends d "alice-secret-key" y1 = false ∧
    authorised d y1 (Served (demo_write "bob-secret-key") (demo_serve d (demo_write "bob-secret-key") y1).1) k ∧
    ke_ID k ≠ "alice".
Proof.
  destruct demo_deployment as (d & m & admins & Hrun & Hhttp & Hkeys & Hadmin & Hkw & Hok & Hdig & _ & Hst & Hno & Hs).
  destruct (revocation_is_final (E := os_env) (λ _, 10 ^ 9) map_to_list (λ _, true) (λ _ _, None) (λ _, None)
    (λ _, None) (λ _, "") no_bodies (λ _ _, "") (λ _ _, "") (λ _, None) map_to_list d demo_system_env m (mkDb ∅ ∅ []) []
    (demo_start d m) _ _ [] _ _ _ "alice" Hrun Hhttp Hkeys Hkw Hok Hdig (steps_nil _ _ _ _ _ _ _ _ _ _ _ _ _)
    (step_admin _ _ _ _ _ _ _ _ _ _ _ _ admins demo_admin_env demo_delete _ Hadmin (demo_no_mints _))
    (conj eq_refl (conj eq_refl Hst)) (steps_nil _ _ _ _ _ _ _ _ _ _ _ _ _) (Forall_nil_2 _)
    (step_serve _ _ _ _ _ _ _ _ _ _ _ _ demo_env demo_env "u" (demo_mcp d) (demo_write "bob-secret-key") _ eq_refl
       (demo_mcp_calls_tools d)) (demo_sends_spec _ _ _ Hs)) as (k & Hk & Hid).
  exists d, m, admins, k. split; [exact Hrun|]. split; [exact Hkeys|]. split; [exact Hno|]. split; [exact Hk|exact Hid].
Defined.
