(* ===== verification/Keyless.v ===== *)
(** The running deployment under keyless writes: what the per-signer gates promise
    over its whole history, whatever the admin API, the purge and the other
    requests do in between. The system and its transitions are System's. *)

From S2P Require Import Prelude GoErrors Fs Hex Http Ingress RateLimit Auth KeyStore ManagedKeys PgKeyStore Evm SignerStores.
From S2P Require Import Relay PendingKeys Admin AdminServer Config Purge Server Boot System.

(** ** The write tool *)

Section Tool.
Context `{EthLib}.
Context (rc : relay_cfg) (Hmode : rc_keylessWrites rc = true).

Lemma sanitize_is_ok {A} (r : result error A) : is_ok (sanitizeToolErr r) = is_ok r.
Proof using Type. destruct r as [a|e]; [done|]. cbn. by destruct (SafeForClient (Some e)). Qed.

(** A call changes nothing but metrics, or passed the gates with its signer and
    charged it if it succeeded. *)
Lemma call_send_keyless kr env c hex a :
  let x := call_send kr rc env c hex a in
  (is_ok x.1 = false ∧ rl_sent x.2 = rl_sent a ∧ rl_db x.2 = rl_db a) ∨
  ∃ dtx, DecodeSignedTx hex = Ok dtx ∧ gates_pass rc env (address_String (dt_Signer dtx)) (rl_db a) ∧
    ∃ r, is_ok x.1 = is_ok r ∧ signer_blacklist (rl_db x.2) = signer_blacklist (rl_db a) ∧
      signer_quota (rl_db x.2) =
        quota_after rc env (Some dtx) (WindowStart (re_now env) (g_window (rc_gates rc))) r (signer_quota (rl_db a)).
Proof using Hmode.
  intros x. subst x. unfold call_send. destruct (NewAuthEnforcementMiddleware _ _ _ _ _ _); [|by left].
  destruct (sendRawTxHandler rc env c hex a) as [r st] eqn:Er. cbn [fst snd]. rewrite sanitize_is_ok.
  destruct (handler_spec _ _ _ _ _ _ _ Er) as [(Hr & Hdb & Hsent & _)|(dec & ws & h & _ & Hplan & _ & _ & ->)]; [by left|].
  right. unfold plan_ok in Hplan. rewrite Hmode in Hplan. destruct Hplan as (dtx & -> & Hd & _ & Hg & -> & _).
  exists dtx. split; [done|]. split; [done|]. by exists r.
Qed.
End Tool.

(** ** The admin API and the tables *)

(** An admin request that takes a signer off the ban list, and one that puts a
    signer on it when it is answered 200. *)
Definition admin_unbans (r : request) (key : string) : Prop :=
  match mux (rq_method r) (rq_path r) with RouteDeleteBlacklist s => to_lower s = key | _ => False end.

Definition admin_bans (dec : decoders) (r : request) (status : Z) (key : string) : Prop :=
  match mux (rq_method r) (rq_path r) with
  | RouteAddBlacklist => status = StatusOK ∧ ∃ s reason, dc_ban dec (rq_body r) = Some (s, reason) ∧ to_lower s = key
  | _ => False
  end.

(** What keeps the quotas, and the bans of all signers but those of [P]. *)
Definition tables_step (P : string → Prop) (db db' : keyless_db) : Prop :=
  signer_quota db' = signer_quota db ∧
  ∀ k, ¬ P k → is_Some (signer_blacklist db !! k) → is_Some (signer_blacklist db' !! k).

Lemma tables_refl P db : tables_step P db db.
Proof. by split. Qed.
#[export] Hint Resolve tables_refl : go.

Section AdminTables.
Context {S E : Type} `{KeyStoreBackend S E}.
Context (ParseTime : string → option Z) (FormatTime : Z → string) (cfg : admin_cfg) (dec : decoders)
        (query : request → string → string) (json : ∀ A : Type, A → string).

Lemma record_db (env : admin_env E) ctx a t det o (st : admin_st S) :
  ad_db (recordAdminAudit cfg env ctx a t det o st) = ad_db st.
Proof using Type. unfold recordAdminAudit. by destruct (negb _), (ae_audit_fails env). Qed.

Lemma mail_db (env : admin_env E) to body (st : admin_st S) : ad_db (send_mail cfg env to body st).2 = ad_db st.
Proof using Type. unfold send_mail. by destruct (ac_email cfg), (ae_mail_fails env). Qed.

Ltac same_db := repeat case_match; simplify_eq/=; rewrite ?record_db; try done.

Lemma mint_db (env : admin_env E) req (st : admin_st S) : ad_db (approve_mint env req st).2 = ad_db st.
Proof using Type. unfold approve_mint. same_db. Qed.

Lemma decide_db (env : admin_env E) ctx req created (st : admin_st S) :
  ad_db (approve_decide cfg env ctx req created st).2 = ad_db st.
Proof using Type.
  unfold approve_decide. cbv zeta. destruct (Decide _ _ _ _ _ _ _) as [[r|e] p]; [|done].
  rewrite (surjective_pairing (send_mail _ _ _ _ _)). cbn [snd]. by rewrite record_db, mail_db.
Qed.

Lemma keys_db (env : admin_env E) ctx id cbody ubody (st : admin_st S) :
  ad_db (handleCreate cfg env ctx cbody st).2 = ad_db st ∧ ad_db (handleUpdate cfg env ctx id ubody st).2 = ad_db st ∧
  ad_db (handleDelete cfg env ctx id st).2 = ad_db st.
Proof using Type. split_and!; [unfold handleCreate|unfold handleUpdate; cbv zeta|unfold handleDelete]; same_db. Qed.

Lemma reviews_db (env : admin_env E) ctx id body (st : admin_st S) :
  ad_db (handleApprovePending cfg env ctx id st).2 = ad_db st ∧ ad_db (handleRejectPending cfg env ctx id body st).2 = ad_db st.
Proof using Type.
  split.
  - unfold handleApprovePending. destruct (approve_check cfg id st) as [req|]; [|done].
    pose proof (mint_db env req st) as Hm. destruct (approve_mint env req st) as [[c|r] st1]; [|done].
    by rewrite decide_db.
  - unfold handleRejectPending. destruct (negb _); [done|]. destruct (id =s ""); [done|]. destruct body; [|done].
    destruct (Decide _ _ _ _ _ _ _) as [[r|e] p]; [|done].
    rewrite (surjective_pairing (send_mail _ _ _ _ _)). cbn [snd]. by rewrite record_db, mail_db.
Qed.

Lemma ban_tables (env : admin_env E) ctx body (st : admin_st S) :
  let x := handleAddBlacklist cfg env ctx body st in
  tables_step (λ _, False) (ad_db st) (ad_db x.2) ∧
  (x.1.1 = StatusOK → ∃ s reason, body = Some (s, reason) ∧ is_Some (signer_blacklist (ad_db x.2) !! to_lower s)).
Proof using Type.
  intros x. subst x. unfold handleAddBlacklist. destruct (negb _); [by split|]. destruct body as [[s reason]|]; [|by split].
  destruct (AddressFromHex s); [|by split]. unfold SignerStores.Add. destruct (negb (up_ban _)); [by split|].
  cbv zeta. cbn [fst snd]. rewrite record_db. cbn [ad_db with_db]. split.
  - split; [done|]. intros k _ Hk. cbn [signer_blacklist].
    destruct (decide (to_lower s = k)) as [->|]; [by rewrite lookup_insert_eq|by rewrite lookup_insert_ne].
  - intros _. exists s, reason. split; [done|]. cbn [signer_blacklist]. by rewrite lookup_insert_eq.
Qed.

Lemma unban_tables (env : admin_env E) ctx s (st : admin_st S) :
  tables_step (λ k, to_lower s = k) (ad_db st) (ad_db (handleDeleteBlacklist cfg env ctx s st).2).
Proof using Type.
  unfold handleDeleteBlacklist. destruct (negb _); [done|]. destruct (s =s ""); [done|].
  unfold Remove. destruct (negb (up_ban _)); [done|]. cbn [snd]. rewrite record_db. cbn [ad_db with_db].
  split; [done|]. intros k Hk Hs. cbn [signer_blacklist]. by rewrite lookup_delete_ne.
Qed.

Lemma dispatch_tables (env : admin_env E) ctx r (st : admin_st S) :
  let x := dispatch ParseTime FormatTime cfg dec query json env ctx r st in
  tables_step (admin_unbans r) (ad_db st) (ad_db x.2) ∧
  (∀ k, admin_bans dec r (rs_status x.1) k → is_Some (signer_blacklist (ad_db x.2) !! k)).
Proof using Type.
  intros x. subst x. unfold dispatch, admin_unbans, admin_bans.
  destruct (keys_db env ctx (match mux (rq_method r) (rq_path r) with RouteUpdate i | RouteDelete i => i | _ => "" end)
    (dc_create dec (rq_body r)) (dc_update dec (rq_body r)) st) as (Hc & Hu & Hd).
  destruct (reviews_db env ctx (match mux (rq_method r) (rq_path r) with RouteApprove i | RouteReject i => i | _ => "" end)
    (dc_reject dec (rq_body r)) st) as (Ha & Hj).
  destruct (mux (rq_method r) (rq_path r)) as [ | |id|id| |id|id| | | |s| | ];
    rewrite ?(proj1 (respond_status _ _)), ?(proj2 (respond_status _ _)); (split; [|try done]);
    rewrite ?Hc, ?Hu, ?Hd, ?Ha, ?Hj; auto with go.
  - unfold handleListPending. by destruct (negb _).
  - unfold handleWriteAudit. same_db.
  - unfold handleListBlacklist. same_db.
  - apply ban_tables.
  - intros k (Hs & s & reason & Hb & <-). destruct (proj2 (ban_tables env ctx (dc_ban dec (rq_body r)) st) Hs)
      as (s' & reason' & Hb' & Hk). by simplify_eq.
  - apply unban_tables.
Qed.
End AdminTables.

(** ** The log of the write tool *)

(** The signer of a call, as the tables spell it. *)
Definition signer_of `{EthLib} (t : tool_record) : option string :=
  match DecodeSignedTx (tr_input t) with
  | Ok dtx => Some (to_lower (address_String (dt_Signer dtx)))
  | Err _ => None
  end.

Definition refused (t : tool_record) : Prop := is_ok (tr_result t) = false ∧ tr_sent t = [].

(** The acknowledged broadcasts of a signer in a window. *)
Definition acked_in `{EthLib} (signer : string) (window ws : Z) (t : tool_record) : bool :=
  match signer_of t with
  | Some s => is_ok (tr_result t) && (s =s signer) && (WindowStart (re_now (tr_env t)) window =? ws)
  | None => false
  end.
Definition acked `{EthLib} (signer : string) (window ws : Z) (log : list tool_record) : Z :=
  count_if (acked_in signer window ws) log.

(** The instants of a history. *)
Definition instant (e : event) : option Z :=
  match e with Served r _ => Some (rq_now r) | Purged now => Some now | _ => None end.
Definition chronological (es : list event) : Prop := StronglySorted Z.le (omap instant es).

(** ** A step, seen from the tables *)

Section Runs.
Context {B S E : Type} `{TokenBucket B} `{DeployedStore S E} `{EthLib}.
Context (rate : SpecFloat.spec_float → Z).
Context (range : gmap string (clientBucket B) → list (string * clientBucket B)).
Context (mail_ok : string → bool) (decode_body : Z → string → option KeyRequestInput).
Context (mux_redirect : request → option response).
Context (ParseTime : string → option Z) (FormatTime : Z → string) (dec : decoders) (query : request → string → string).
Context (json : ∀ A : Type, A → string) (admin_redirect : request → option response).
Context (admin_range : gmap string string → list (string * string)).
Context (d : deployment).

Abbreviation System := (system B S).
Abbreviation step := (step range mail_ok decode_body mux_redirect ParseTime FormatTime dec query json admin_redirect
  admin_range d).
Abbreviation steps := (steps range mail_ok decode_body mux_redirect ParseTime FormatTime dec query json admin_redirect
  admin_range d).

Definition sys_app (y : System) : tools_st := sv_app (sy_srv y).

(** The signers an event may take off the ban list, and those it bans. *)
Definition unbans (e : event) (key : string) : Prop :=
  match e with Administered r _ => admin_unbans (cap_body r) key | _ => False end.
Definition bans (e : event) (key : string) : Prop :=
  match e with
  | Administered r resp => admin_redirect (cap_body r) = None ∧ admin_bans dec (cap_body r) (rs_status resp) key
  | _ => False
  end.

Lemma put_db_id a : put_db (rl_db a.1) a = a.
Proof using Type. by destruct a as [[] ?]. Qed.

(** What the events do to the application: tool calls at the request's instant;
    an admin request's effect on the tables; a sweep; nothing. *)
Definition app_step (e : event) (a a' : tools_st) : Prop :=
  match e with
  | Served r _ => a' = a ∨ ∃ rc c, dp_relay d = Some rc ∧ rtc (tool_call d rc (rq_now r) c) a a'
  | Administered _ _ => ∃ db, a' = put_db db a ∧ tables_step (unbans e) (rl_db a.1) db ∧
      ∀ k, bans e k → is_Some (signer_blacklist db !! k)
  | Purged now => ∃ p rows err db', dp_purger d = Some p ∧
      swept_db p now (mkPurgeDb (rl_db a.1) rows) db' err ∧ a' = put_db (pd_keyless db') a
  | Minted _ | Background => a' = a
  end.

Lemma step_app e y y' : step e y y' → app_step e (sys_app y) (sys_app y').
Proof.
  intros Hs. destruct Hs as [env os uuid mcp r y _ Hm|admins env r y _ _|env req y _ _|env ctx req created y _|now y
    |env p now k rows res err db' k' y Hp _ Hscan Hrun]; cbn [app_step].
  - unfold serve, sys_app. destruct (RunHTTP_mediates range (api_validate d env) mail_ok decode_body mux_redirect os uuid
      (dp_http d) r (sy_srv y)) as [(out & Hout & Happ)|(r' & st1 & post & Hrun & Hpost & Happ & Hmed)].
    + rewrite Hout. destruct out as [resp srv]. cbn [snd after_srv sy_srv] in *. by left.
    + rewrite Hrun. specialize (Hpost (mcp r' st1)). destruct (post (mcp r' st1)) as [resp srv].
      cbn [snd after_srv sy_srv] in *. rewrite Hpost, <-Happ. destruct (Hm r' st1) as [_ Hr].
      destruct (dp_relay d) as [rc|]; [|by left]. right. exists rc, (rq_claims r'). split; [done|].
      destruct (md_request _ _ _ _ _ _ _ Hmed) as (_ & _ & _ & <-). done.
  - unfold administer, NewAdminServer. set (next := λ ctx, limitAdminRequestBody _).
    destruct (adminAuth_shape admin_range admins next r (admin_view y)) as [[ctx Hr]|[Hst Hr]];
      destruct (adminAuth admin_range admins next r (admin_view y)) as [resp a]; cbn [fst snd] in *.
    + exists (ad_db a). split; [done|]. unfold next, limitAdminRequestBody, serve_mux in Hr.
      cbn [bans unbans]. destruct (admin_redirect (cap_body r)) as [redirect|] eqn:Ered.
      { injection Hr as -> ->. split; [apply tables_refl|]. by intros k []. }
      pose proof (dispatch_tables ParseTime FormatTime (admin_config d) dec query json env ctx (cap_body r) (admin_view y)) as Hd.
      cbv zeta in Hd. rewrite <-Hr in Hd. destruct Hd as [Ht Hb]. split; [exact Ht|]. intros k [_ Hk]. by apply Hb.
    + subst a. exists (sys_db y). split; [done|]. split; [apply tables_refl|]. intros k [_ Hk]. exfalso. revert Hk.
      unfold admin_bans. rewrite Hst. by destruct (mux _ _); intros Hk; try done; destruct Hk as [Hk _].
  - unfold sys_app. cbn [after_admin sy_srv sv_app]. rewrite mint_db. apply put_db_id.
  - unfold sys_app. cbn [after_admin sy_srv sv_app]. rewrite decide_db. apply put_db_id.
  - done.
  - exists p, rows, err, db'. split; [done|]. split; [|done].
    pose proof (PurgeOnce_swept env p now k (mkPurgeDb (sys_db y) rows) Hscan) as Hw. by rewrite Hrun in Hw.
Qed.

(** A predicate on the application that the events satisfying [ok] keep. *)
Lemma steps_keep (I : tools_st → Prop) (ok : event → Prop) es y y' :
  (∀ e a a', ok e → app_step e a a' → I a → I a') →
  steps es y y' → Forall ok es → I (sys_app y) → I (sys_app y').
Proof.
  intros Hkeep Hs. induction Hs as [y|e es y1 y2 y3 Hs _ IH]; [done|]. intros [He Hes]%Forall_cons Hy.
  apply IH; [done|]. eapply Hkeep; [exact He|by apply step_app|done].
Qed.

(** The same for a predicate kept by every tool call. *)
Lemma calls_keep (I : tools_st → Prop) rc now c a a' :
  (∀ a1 a2, tool_call d rc now c a1 a2 → I a1 → I a2) → rtc (tool_call d rc now c) a a' → I a → I a'.
Proof using Type. intros Hkeep. induction 1; eauto. Qed.

(** The log only grows. *)
Lemma app_log e a a' : app_step e a a' → a.2 `prefix_of` a'.2.
Proof using Type.
  assert (∀ db, (put_db db a).2 = a.2) as Hput by done.
  destruct e; cbn [app_step]; [intros [->|(rc & c & _ & Hr)]|intros (db & -> & _)|intros ->|
    intros (p & rows & err & db' & _ & _ & ->)|intros ->]; try done.
  refine (calls_keep (λ x, a.2 `prefix_of` x.2) _ _ _ _ _ _ Hr _); [|done].
  intros a1 a2 (env & hex & _ & ->) Hp. cbn [snd]. by apply prefix_app_r.
Qed.

Lemma steps_log es y y' : steps es y y' → sys_log y `prefix_of` sys_log y'.
Proof.
  intros Hs. apply (steps_keep (λ x, sys_log y `prefix_of` x.2) (λ _, True) es y y'); [|done|by apply Forall_true|done].
  intros e a a' _ Ha%app_log Hp. by etrans.
Qed.

(** ** Bans *)

Section Bans.
Context (key : string) (base : list tool_record).

Definition ban_holds (a : tools_st) : Prop :=
  is_Some (signer_blacklist (rl_db a.1) !! key) ∧
  ∃ new, a.2 = base ++ new ∧ Forall (λ t, signer_of t = Some key → refused t) new.

Lemma call_ban rc now c a a' :
  rc_keylessWrites rc = true → g_blacklist (rc_gates rc) = true → g_blacklistFailOpen (rc_gates rc) = false →
  tool_call d rc now c a a' → ban_holds a → ban_holds a'.
Proof using Type.
  intros Hmode Hg Hopen (env & hex & _ & ->) [Hban (new & Hlog & Hnew)]. unfold ban_holds. cbn [fst snd].
  destruct (call_send_keyless rc Hmode (sc_keylessReads (dp_http d)) env c hex a.1)
    as [(Hr & Hsent & Hdb)|(dtx & Hd & [Hpass _] & _ & _ & Hb & _)]; (split; [congruence|]);
    eexists (new ++ [_]); rewrite Hlog, (assoc_L (++)); (split; [reflexivity|]); apply Forall_app; (split; [done|]);
    apply Forall_singleton; unfold signer_of, record_call, refused; cbn [tr_input tr_result tr_sent].
  - intros _. split; [done|]. by rewrite Hsent, drop_all.
  - rewrite Hd. intros [= Hkey]. exfalso. specialize (Hpass Hg). unfold IsBlacklisted in Hpass.
    destruct (up_is_banned (re_db env)); cbn [negb] in Hpass; [|congruence].
    by apply bool_decide_eq_false in Hpass; rewrite Hkey in Hpass.
Qed.

Lemma sweep_ban p now rows db db' err :
  SignerBlacklist (pu_cfg p) = 0 → swept_db p now (mkPurgeDb db rows) db' err →
  is_Some (signer_blacklist db !! key) → is_Some (signer_blacklist (pd_keyless db') !! key).
Proof using Type.
  intros Hz (_ & _ & (v & Hp & Hv & _) & _) [b Hb]. unfold ban_rows in Hp. cbn [pd_keyless] in Hp.
  apply elem_of_map_to_list in Hb. rewrite Hp, elem_of_app in Hb. destruct Hb as [Hb|Hb%elem_of_map_to_list]; [|eauto].
  rewrite Forall_forall in Hv. apply Hv in Hb. unfold ban_gone in Hb. by rewrite Hz in Hb.
Qed.
End Bans.

(** C4: A ban holds. If a server starts with keyless writes, a ban list that fails
    closed and no retention window on it, then once an admin's POST to the ban list
    was answered 200, in any history of MCP requests, admin requests, approvals,
    ticks and sweeps, every later call of the write tool with a transaction whose
    signer is spelled as the entry that was stored is refused and hands nothing to
    the node, until an admin request takes that entry off the list. Signers are
    spelled as 0x and lower-case hex, so the ban must be entered with its 0x: bare
    hex is accepted and matches no signer ([Admin.bare_hex_ban_is_ineffective]). *)
Theorem bans_hold env s db es1 y1 e y2 es2 y3 key
    (Hrun : run env = Ok d) (Hkw : KeylessWrites (keyless (dp_cfg d)) = true)
    (Hclosed : SignerBlacklistFailOpen (keyless (dp_cfg d)) = false)
    (Hkept : SignerBlacklist (Retention (keyless (dp_cfg d))) = 0)
    (Hreach : steps es1 (start rate d s db) y1) (Hban : step e y1 y2) (Hbans : bans e key)
    (Hafter : steps es2 y2 y3) (Hquiet : Forall (λ e, ¬ unbans e key) es2) :
  ∃ later, sys_log y3 = sys_log y2 ++ later ∧ Forall (λ t, signer_of t = Some key → refused t) later.
Proof.
  apply run_boots in Hrun. assert (ban_holds key (sys_log y2) (sys_app y2)) as Hstart.
  { split; [|exists []; by rewrite app_nil_r]. apply step_app in Hban. destruct e; try done.
    destruct Hban as (db' & Heq & _ & Hb). unfold sys_app in *. rewrite Heq. by apply Hb. }
  refine (proj2 (steps_keep (ban_holds key (sys_log y2)) _ es2 y2 y3 _ Hafter Hquiet Hstart)).
  intros [r resp|r resp|id|now|] a a' Hq; cbn [app_step]; [|intros (db' & -> & [_ Ht] & _) [Hb Hlog]|by intros ->| |by intros ->].
  - intros [->|(rc & c & Hrelay & Hr)]; [done|].
    destruct (keyless_relay env d rc Hrun Hrelay Hkw) as (Hmode & _ & _ & Hg & _).
    refine (calls_keep _ _ _ _ _ _ (λ a1 a2, call_ban _ _ _ _ _ _ _ Hmode _ _) Hr); by rewrite Hg.
  - split; [by apply Ht|done].
  - intros (p & rows & err & db' & Hp & Hw & ->) [Hb Hlog]. split; [|done].
    apply (sweep_ban key p now rows (rl_db a.1) db' err); [|done..]. by rewrite (deployed_purger _ _ _ Hrun Hp).
Qed.

(** ** Quotas *)

(** The acknowledged broadcasts of a signer in a window that the gate let pass on an
    unreadable counter, and those whose charge did not reach the database. *)
Definition unread (signer : string) (window ws : Z) (log : list tool_record) : Z :=
  count_if (λ t, acked_in signer window ws t && negb (up_count (re_db (tr_env t)))) log.
Definition uncharged (signer : string) (window ws : Z) (log : list tool_record) : Z :=
  count_if (λ t, acked_in signer window ws t && negb (up_increment (re_db (tr_env t)))) log.

Section Quotas.
Context (key : string) (W ws limit : Z) (HW : 0 < W) (failopen : bool).

Definition tally (db : keyless_db) : Z := default 0 (signer_quota db !! (key, ws)).

(** At an instant: the window has passed, or the counter shows every broadcast that
    was charged. *)
Definition quota_holds (now : Z) (a : tools_st) : Prop :=
  acked key W ws a.2 ≤ limit + unread key W ws a.2 + uncharged key W ws a.2 ∧
  (acked key W ws a.2 ≤ tally (rl_db a.1) + uncharged key W ws a.2 ∨ ws + W ≤ now) ∧
  (failopen = false → unread key W ws a.2 = 0).

Lemma quota_later now now' a : now ≤ now' → quota_holds now a → quota_holds now' a.
Proof using Type. intros Hle (? & [?|?] & ?); (split_and!; [done| |done]); [by left|right; lia]. Qed.

Lemma count_if_snoc (f : tool_record → bool) log t : count_if f (log ++ [t]) = count_if f log + (if f t then 1 else 0).
Proof using Type. unfold count_if. rewrite foldl_app. cbn [foldl]. destruct (f t); lia. Qed.

Lemma count_if_nonneg (f : tool_record → bool) log : 0 ≤ count_if f log.
Proof using Type.
  induction log as [|t log IH] using rev_ind; [done|]. rewrite count_if_snoc. destruct (f t); lia.
Qed.

Lemma call_quota rc now c a a' :
  rc_keylessWrites rc = true → g_quota (rc_gates rc) = true → g_quotaFailOpen (rc_gates rc) = failopen →
  g_rate (rc_gates rc) = limit → g_window (rc_gates rc) = W →
  tool_call d rc now c a a' → quota_holds now a → quota_holds now a'.
Proof using HW.
  intros Hmode Hg Hopen Hrate Hwin (env & hex & Hnow & ->) Hq. unfold quota_holds. cbn [fst snd].
  set (x := call_send _ _ _ _ _ _). set (t := record_call _ _ _ _ _).
  unfold acked, unread, uncharged. rewrite !count_if_snoc.
  fold (acked key W ws a.2) (unread key W ws a.2) (uncharged key W ws a.2). unfold acked_in, signer_of.
  cbn [t record_call tr_input tr_result tr_env].
  destruct (call_send_keyless rc Hmode (sc_keylessReads (dp_http d)) env c hex a.1)
    as [(Hr & _ & Hdb)|(dtx & Hd & [_ Hpass] & r & Hr & _ & Htab)]; fold x in Hr.
  { fold x in Hdb. rewrite Hr, Hdb. destruct (DecodeSignedTx hex); cbn [andb]; rewrite !Z.add_0_r; exact Hq. }
  fold x in Htab. rewrite Hd, Hr. unfold tally. rewrite Htab, Hwin. specialize (Hpass Hg). rewrite Hwin, Hnow in *.
  pose proof (WindowStart_bounds now W HW) as [Hw _]. set (s := to_lower _) in *.
  destruct r as [h|e]; cbn [is_ok quota_after andb]; [|rewrite !Z.add_0_r; exact Hq]. rewrite Hg. cbn [andb]. fold s.
  unfold Count in Hpass. fold s in Hpass. destruct Hq as (Hlim & Hcount & Hclosed). unfold tally in Hcount.
  destruct (s =s key) eqn:Es, (WindowStart now W =? ws) eqn:Ew; bool_to_prop; cbn [andb]; rewrite ?Z.add_0_r.
  2-4: destruct (up_increment (re_db env)); rewrite ?lookup_insert_ne by congruence; by split_and!.
  rewrite Es, Ew in *. destruct Hcount as [Hcount|]; [|lia].
  assert (0 ≤ unread key W ws a.2) by apply count_if_nonneg.
  destruct (up_count (re_db env)), (up_increment (re_db env)); cbn [negb andb default id] in *;
    rewrite ?lookup_insert_eq; cbn [default id]; split_and!; try lia.
  all: intros Hf; rewrite ?Z.add_0_r; (by apply Hclosed) || congruence.
Qed.

Lemma sweep_quota p now rows db db' err :
  SignerQuota (pu_cfg p) = 0 ∨ W ≤ SignerQuota (pu_cfg p) → swept_db p now (mkPurgeDb db rows) db' err →
  tally (pd_keyless db') = tally db ∨ ws + W ≤ now.
Proof using HW.
  intros Hz (_ & (v & Hp & Hv & _) & _). unfold quota_rows in Hp. cbn [pd_keyless] in Hp. unfold tally.
  rewrite Forall_forall in Hv. assert (∀ n, ((key, ws), n) ∈ v → ws + W ≤ now) as Hgone.
  { intros n Hn%Hv. unfold quota_gone, quota_expired, before in Hn. cbn [fst snd] in Hn.
    apply andb_true_iff in Hn as [Hpos%Z.ltb_lt Hold%Z.ltb_lt]. lia. }
  destruct (signer_quota db !! (key, ws)) as [n|] eqn:Eq.
  - pose proof Eq as Hin. apply elem_of_map_to_list in Hin. rewrite Hp, elem_of_app in Hin.
    destruct Hin as [Hin|Hin%elem_of_map_to_list]; [right; eauto|left; by rewrite Hin].
  - left. destruct (signer_quota (pd_keyless db') !! (key, ws)) as [n|] eqn:Eq'; [|done].
    exfalso. apply elem_of_map_to_list in Eq'. assert (((key, ws), n) ∈ map_to_list (signer_quota db)) as Hin.
    { rewrite Hp, elem_of_app. by right. }
    apply elem_of_map_to_list in Hin. congruence.
Qed.
End Quotas.

Lemma chronological_cons e es : chronological (e :: es) →
  chronological es ∧ ∀ now, instant e = Some now → Forall (Z.le now) (omap instant es).
Proof using Type.
  unfold chronological. cbn [omap list_omap]. destruct (instant e) as [now|]; [|done].
  intros [Hs Hf]%StronglySorted_inv. split; [done|]. by intros ? [= <-].
Qed.

Lemma steps_quota env key ws W limit es y y' now :
  boots env d → let k := keyless (dp_cfg d) in
  KeylessWrites k = true → SignerWriteWindow k = W → SignerWriteRate k = limit →
  SignerQuota (Retention k) = 0 ∨ W ≤ SignerQuota (Retention k) → 0 < W →
  steps es y y' → chronological es → Forall (Z.le now) (omap instant es) →
  quota_holds key W ws limit (SignerQuotaFailOpen k) now (sys_app y) →
  ∃ now', quota_holds key W ws limit (SignerQuotaFailOpen k) now' (sys_app y').
Proof.
  intros Hrun k Hkw HWk Hlim Hkept HW Hs. revert now.
  induction Hs as [y|e es y1 y2 y3 He _ IH]; intros now Hchr Hnow Hq; [eauto|].
  destruct (chronological_cons e es Hchr) as [Hchr' Hle]. apply step_app in He.
  assert (∃ now', (now' = now ∨ instant e = Some now') ∧ quota_holds key W ws limit (SignerQuotaFailOpen k) now' (sys_app y2)) as (now' & Hin & Hq').
  2: { apply (IH now'); [done| |done]. destruct Hin as [->|Hin]; [|by apply Hle]. cbn [omap list_omap] in Hnow.
    destruct (instant e); [by apply Forall_cons in Hnow as [_ ?]|done]. }
  assert (∀ t, instant e = Some t → now ≤ t) as Hstart.
  { intros t Ht. cbn [omap list_omap] in Hnow. rewrite Ht in Hnow. by apply Forall_cons in Hnow as [? _]. }
  destruct e as [r resp|r resp|id|t|]; cbn [app_step] in He.
  - exists (rq_now r). split; [by right|]. apply (quota_later _ _ _ _ _ _ (rq_now r)) in Hq; [|by apply Hstart].
    destruct He as [->|(rc & c & Hrelay & Hr)]; [done|].
    destruct (keyless_relay env d rc Hrun Hrelay Hkw) as (Hmode & _ & _ & Hg & _). fold k in Hg.
    refine (calls_keep _ _ _ _ _ _ (λ a1 a2, call_quota key W ws limit HW _ _ _ _ _ _ Hmode _ _ _ _) Hr Hq); by rewrite Hg.
  - exists now. split; [by left|]. destruct He as (db & -> & [Hdb _] & _). unfold quota_holds, tally in *. cbn [fst snd put_db set_db rl_db]. by rewrite Hdb.
  - exists now. rewrite He. auto.
  - exists t. split; [by right|]. apply (quota_later _ _ _ _ _ _ t) in Hq; [|by apply Hstart].
    destruct He as (p & rows & err & db' & Hp & Hw & ->). pose proof (deployed_purger _ _ _ Hrun Hp) as Hpc. fold k in Hpc.
    rewrite <-Hpc in Hkept. pose proof (sweep_quota key W ws HW _ _ _ _ _ _ Hkept Hw) as Ht.
    unfold quota_holds in *. cbn [fst snd put_db set_db rl_db]. destruct Hq as (Hlim' & Hcount & Hunread).
    split_and!; [done| |done]. destruct Ht as [->|Ht]; [done|by right].
  - exists now. rewrite He. auto.
Qed.

(** C3: The quota holds over the whole run. If a server starts with keyless writes
    and a retention of the counters that is unlimited or not shorter than the window,
    then in any chronological history of MCP requests, admin requests, approvals,
    ticks and purge sweeps, its requests served one at a time, the acknowledged
    broadcasts of a signer in a window are at most the configured rate, plus those let
    pass on an unreadable counter (none when the quota fails closed) and those whose
    charge did not reach the database. What requests that overlap add to it is C26. *)
Theorem quota_holds_over_runs env s db es y key ws
    (Hrun : run env = Ok d) (Hkw : KeylessWrites (keyless (dp_cfg d)) = true)
    (Hkept : SignerQuota (Retention (keyless (dp_cfg d))) = 0 ∨
       SignerWriteWindow (keyless (dp_cfg d)) ≤ SignerQuota (Retention (keyless (dp_cfg d))))
    (Hstart : 0 ≤ default 0 (signer_quota db !! (key, ws)))
    (Hreach : steps es (start rate d s db) y) (Horder : chronological es) :
  let W := SignerWriteWindow (keyless (dp_cfg d)) in
  acked key W ws (sys_log y) ≤
    SignerWriteRate (keyless (dp_cfg d)) + unread key W ws (sys_log y) + uncharged key W ws (sys_log y) ∧
  (SignerQuotaFailOpen (keyless (dp_cfg d)) = false → unread key W ws (sys_log y) = 0).
Proof.
  apply run_boots in Hrun. destruct (load_config_ok _ _ (bs_config _ _ Hrun)) as (_ & _ & Hwf & _).
  destruct (wf_keyless _ Hwf Hkw) as (_ & _ & _ & _ & Hrate & Hwin).
  assert (∃ now, Forall (Z.le now) (omap instant es)) as [now Hnow].
  { unfold chronological in Horder. destruct (omap instant es) as [|t l]; [by exists 0|]. exists t.
    apply StronglySorted_inv in Horder as [_ Hf]. by constructor. }
  destruct (steps_quota env key ws _ _ es _ y now Hrun Hkw eq_refl eq_refl Hkept Hwin Hreach Horder Hnow) as [now' Hq].
  - unfold quota_holds, tally, unread, uncharged, acked. cbn. split_and!; [lia|left; lia|done].
  - destruct Hq as (Hlim & _ & Hu). by split.
Qed.
End Runs.

(** ** A concrete keyless deployment

    One broadcast per window and signer. The same transaction is submitted twice,
    and after a ban. *)

Definition demo_keyless_env : boot_env :=
  boot_of (<["ADMIN_API_KEY" := "root"]> (<["MCP_SIGNER_WRITE_RATE" := "1"]> demo_keyless_environ)) no_disk.
Definition demo_key : string := "0x6262626262626262626262626262626262626262".
Definition ban_body : decoders := mkDecoders (λ _, None) (λ _, None) (λ _, None) (λ b, Some (b, "abuse")).
Definition demo_ban : request :=
  mkRequest "POST" "/admin/signer-blacklist" "192.0.2.9:1" {["Authorization" := "Bearer root"]} demo_key false None 0.
Definition ban_administer (d : deployment) (admins : gmap string string)
    : request → system ExactBucket ManagedKeyStore → _ :=
  administer (λ _, None) (λ _, "") ban_body (λ _ _, "") (λ _ _, "") (λ _, None) map_to_list d admins demo_admin_env.
Definition demo_submit (d : deployment) (y : system ExactBucket ManagedKeyStore) : system ExactBucket ManagedKeyStore :=
  (demo_serve d (demo_write "secret") y).2.

(** The keyless settings both theorems ask for, and the two histories as a test. *)
Definition demo_keyless (d : deployment) : bool :=
  match dp_keys d, dp_admin d with
  | Some (FileKeys m), Some admins =>
      let k := keyless (dp_cfg d) in
      let y0 := demo_start d m in
      let y2 := demo_submit d (demo_submit d y0) in
      let '(resp, z1) := ban_administer d admins demo_ban y0 in
      KeylessWrites k && negb (SignerBlacklistFailOpen k) && negb (SignerQuotaFailOpen k) &&
      (SignerBlacklist (Retention k) =? 0) && (SignerQuota (Retention k) =? 0) &&
      (acked demo_key (SignerWriteWindow k) 0 (sys_log y2) =? 1) && (length (sys_log y2) =? 2)%nat &&
      (uncharged demo_key (SignerWriteWindow k) 0 (sys_log y2) =? 0) &&
      (rs_status resp =? StatusOK) && (length (sys_log (demo_submit d z1)) =? 1)%nat
  | _, _ => false
  end.

Lemma demo_keyless_runs : boots_with demo_keyless_env demo_keyless = true.
Proof. vm_compute. reflexivity. Qed.

Lemma demo_keyless_deployment : ∃ d m admins, run demo_keyless_env = Ok d ∧ dp_admin d = Some admins ∧
  let k := keyless (dp_cfg d) in
  let y0 := demo_start d m in
  let y2 := demo_submit d (demo_submit d y0) in
  let z := ban_administer d admins demo_ban y0 in
  KeylessWrites k = true ∧ SignerBlacklistFailOpen k = false ∧ SignerQuotaFailOpen k = false ∧
  SignerBlacklist (Retention k) = 0 ∧ SignerQuota (Retention k) = 0 ∧
  acked demo_key (SignerWriteWindow k) 0 (sys_log y2) = 1 ∧ length (sys_log y2) = 2%nat ∧
  uncharged demo_key (SignerWriteWindow k) 0 (sys_log y2) = 0 ∧
  rs_status z.1 = StatusOK ∧ length (sys_log (demo_submit d z.2)) = 1%nat.
Proof.
  destruct (boots_with_spec _ _ demo_keyless_runs) as (d & Hrun & Ht). unfold demo_keyless in Ht.
  destruct (dp_keys d) as [[m|]|]; [|done..]. destruct (dp_admin d) as [admins|] eqn:Ea; [|done].
  cbv zeta in Ht. destruct (ban_administer d admins demo_ban (demo_start d m)) as [resp z1] eqn:Ez.
  apply andb_true_iff in Ht as [Ht Hz%Nat.eqb_eq]. apply andb_true_iff in Ht as [Ht Hst%Z.eqb_eq].
  apply andb_true_iff in Ht as [Ht Hc%Z.eqb_eq]. apply andb_true_iff in Ht as [Ht Hl%Nat.eqb_eq].
  apply andb_true_iff in Ht as [Ht Ha%Z.eqb_eq]. apply andb_true_iff in Ht as [Ht Hrq%Z.eqb_eq].
  apply andb_true_iff in Ht as [Ht Hrb%Z.eqb_eq]. apply andb_true_iff in Ht as [Ht Hfq%negb_true_iff].
  apply andb_true_iff in Ht as [Hk Hfb%negb_true_iff].
  exists d, m, admins. cbv zeta. rewrite Ez. cbn [fst snd].
  split; [exact Hrun|]. split; [exact Ea|]. split; [exact Hk|]. split; [exact Hfb|]. split; [exact Hfq|].
  split; [exact Hrb|]. split; [exact Hrq|]. split; [exact Ha|]. split; [exact Hl|]. split; [exact Hc|]. split; [exact Hst|exact Hz].
Qed.

Lemma bans_hold_witness :
  ∃ d m admins later, run demo_keyless_env = Ok d ∧
    let z1 := (ban_administer d admins demo_ban (demo_start d m)).2 in
    length (sys_log (demo_submit d z1)) = 1%nat ∧ sys_log (demo_submit d z1) = sys_log z1 ++ later ∧
    Forall (λ t, signer_of t = Some demo_key → refused t) later.
Proof.
  destruct demo_keyless_deployment as (d & m & admins & Hrun & Hadmin & Hk & Hfb & _ & Hrb & _ & _ & _ & _ & Hst & Hlen).
  destruct (bans_hold (E := os_env) (λ _, 10 ^ 9) map_to_list (λ _, true) (λ _ _, None) (λ _, None)
    (λ _, None) (λ _, "") ban_body (λ _ _, "") (λ _ _, "") (λ _, None) map_to_list d demo_keyless_env m (mkDb ∅ ∅ []) []
    (demo_start d m) _ _ _ _ demo_key Hrun Hk Hfb Hrb (steps_nil _ _ _ _ _ _ _ _ _ _ _ _ _)
    (step_admin _ _ _ _ _ _ _ _ _ _ _ _ admins demo_admin_env demo_ban _ Hadmin (demo_no_mints _))
    (conj eq_refl (conj Hst (ex_intro _ demo_key (ex_intro _ "abuse" (conj eq_refl eq_refl)))))
    (steps_cons _ _ _ _ _ _ _ _ _ _ _ _ _ _ _ _ _
       (step_serve _ _ _ _ _ _ _ _ _ _ _ _ demo_env demo_env "u" (demo_mcp d) (demo_write "secret") _ eq_refl
          (demo_mcp_calls_tools d)) (steps_nil _ _ _ _ _ _ _ _ _ _ _ _ _))
    (Forall_cons_2 (λ e, ¬ unbans e demo_key) (Served _ _) _ (λ H, H) (Forall_nil_2 _))) as (later & Hlog & Hl).
  exists d, m, admins, later. split; [exact Hrun|]. split; [exact Hlen|]. split; [exact Hlog|exact Hl].
Defined.

Lemma quota_holds_over_runs_witness :
  ∃ d m, run demo_keyless_env = Ok d ∧
    let y2 := demo_submit d (demo_submit d (demo_start d m)) in
    length (sys_log y2) = 2%nat ∧ acked demo_key (SignerWriteWindow (keyless (dp_cfg d))) 0 (sys_log y2) = 1 ∧
    1 ≤ SignerWriteRate (keyless (dp_cfg d)).
Proof.
  destruct demo_keyless_deployment as (d & m & admins & Hrun & _ & Hk & _ & Hfq & _ & Hrq & Ha & Hlen & Hc & _ & _).
  assert (let W := SignerWriteWindow (keyless (dp_cfg d)) in
    let log := sys_log (demo_submit d (demo_submit d (demo_start d m))) in
    acked demo_key W 0 log ≤ SignerWriteRate (keyless (dp_cfg d)) + unread demo_key W 0 log + uncharged demo_key W 0 log ∧
    (SignerQuotaFailOpen (keyless (dp_cfg d)) = false → unread demo_key W 0 log = 0)) as [H Hclosed].
  { exact (quota_holds_over_runs (E := os_env) (λ _, 10 ^ 9) map_to_list (λ _, true) (λ _ _, None) (λ _, None)
    (λ _, None) (λ _, "") ban_body (λ _ _, "") (λ _ _, "") (λ _, None) map_to_list d demo_keyless_env m (mkDb ∅ ∅ []) _ _
    demo_key 0 Hrun Hk (or_introl Hrq) (Z.le_refl 0)
    (steps_cons _ _ _ _ _ _ _ _ _ _ _ _ _ _ _ _ _
       (step_serve _ _ _ _ _ _ _ _ _ _ _ _ demo_env demo_env "u" (demo_mcp d) (demo_write "secret") _ eq_refl
          (demo_mcp_calls_tools d))
       (steps_cons _ _ _ _ _ _ _ _ _ _ _ _ _ _ _ _ _
          (step_serve _ _ _ _ _ _ _ _ _ _ _ _ demo_env demo_env "u" (demo_mcp d) (demo_write "secret") _ eq_refl
             (demo_mcp_calls_tools d)) (steps_nil _ _ _ _ _ _ _ _ _ _ _ _ _)))
    (SSorted_cons _ (SSorted_cons _ (SSorted_nil _) (Forall_nil_2 _))
       (Forall_cons_2 _ _ _ (Z.le_refl 50) (Forall_nil_2 _)))). }
  exists d, m. split; [exact Hrun|]. split; [exact Hlen|]. split; [exact Ha|].
  pose proof (Hclosed Hfq) as Hu. rewrite Ha, Hu, Hc in H. rewrite !Z.add_0_r in H. exact H.
Defined.
