(* ===== verification/Process.v ===== *)
(** The life of the server process (cmd/nvnm-mcp-server/main.go, run; migrate.go):
    what run opens and starts, in which order, what it defers, and what it closes
    again on every path. The values it computes on the way are Boot's.

    The environment extends Boot's with the outcomes Boot takes as given: of each
    telemetry constructor, of each step that opens and migrates a database, and how
    the transport ended. *)

From S2P Require Import Health.
From S2P Require Import Prelude Fs Http RateLimit GoErrors Auth KeyStore ManagedKeys PgKeyStore.
From S2P Require Import Relay PendingKeys Ledger Telemetry Config Purge Server Boot System.

(** ** The outside world *)

(** Parsing the DSN, and the steps that follow. *)
Record pg_boot := mkPgBoot {
  pb_dsn : bool;
  pb_connect : option error; pb_ping : option error;
  pb_conn : option error; pb_lock : option error; pb_dialect : option error; pb_up : option error
}.

(** The transport returned because of a signal, or by itself (stdin closed, a
    listener that failed). *)
Variant transport_end := Interrupted (e : option error) | Ended (e : option error).

Record process_env := mkProcessEnv {
  pe_boot : boot_env;                          (* but for the three outcomes below *)
  pe_tel : tel_env;
  pe_pg : pool_id → pg_boot;
  pe_transport : transport_end
}.

Definition step_M {A} (e : option error) (label : string) (m : M error A) : M error A :=
  match e with Some e => lift (Err (Wrap (label +:+ ": ") e "")) | None => m end.

(** ** Databases *)

Definition RunMigrations (p : pool_id) (b : pg_boot) : M error unit :=
  scoped (SqlDB p) (
  step_M (pb_conn b) "acquire migration conn" (
  scoped (MigrationConn p) (
  step_M (pb_lock b) "acquire advisory lock" (
  scoped (MigrationLock p) (
  step_M (pb_dialect b) "goose dialect" (
  step_M (pb_up b) "apply migrations" (
  emit [Migrate p] (ret tt)))))))).

Definition pool_name (p : pool_id) : string :=
  match p with KeyStorePool => "postgres key store" | KeylessPool => "keyless pg" end.
Definition dsn_error (p : pool_id) : boot_error :=
  match p with KeyStorePool => BootKeyStoreDSN | KeylessPool => BootKeylessDSN end.

(** The open pool of loadPostgresKeyStore and of loadWriteAudit. *)
Definition open_pool (p : pool_id) (b : pg_boot) : M boot_error unit :=
  if negb (pb_dsn b) then lift (Err (dsn_error p))
  else fail_with BootError (
    step_M (pb_connect b) ("connect " +:+ pool_name p) (
    emit [Open (Pool p)] (
    on_error [Close (Pool p)] (
      step_M (pb_ping b) ("ping " +:+ pool_name p) (
      fail_with (λ e, Wrap ("migrate " +:+ pool_name p +:+ ": ") e "") (RunMigrations p b)))))).

(** What Boot is told of it. *)
Definition pool_result (p : pool_id) (b : pg_boot) : pool_outcome :=
  match (open_pool p b).1 with
  | Ok _ => PoolReady
  | Err (BootError e) => PoolFails e
  | Err _ => PoolBadDSN
  end.

(** ** The start *)

Definition telemetry_config (c : Config) : tel_config :=
  mkTelConfig (OTELServiceName (telemetry c)) Version (OTELEndpoint (telemetry c)) (EnablePrometheus (flags c))
    (EnableStdoutTel (flags c)) (OTELTraceSampleRatio (telemetry c)) (OTLPInsecure (flags c)).

Definition start_telemetry (pe : process_env) (c : Config) : M error Telemetry :=
  fail_with (λ e, Wrap "telemetry init: " e "") (New (pe_tel pe) (telemetry_config c)).

Definition boot (pe : process_env) (c : Config) : boot_env :=
  let b := pe_boot pe in
  mkBootEnv (be_environ b) (be_transport_flag b) (be_now b) (be_os b) (be_keys_disk b) (be_pending_disk b)
    (match (start_telemetry pe c).1 with Err e => Some e | Ok _ => None end)
    (be_jwks b) (pool_result KeyStorePool (pe_pg pe KeyStorePool)) (be_pg b) (be_key_rows b) (be_evm b) (be_bind b)
    (pool_result KeylessPool (pe_pg pe KeylessPool)) (be_selector b) (be_admin_file b).

Definition closing (r : resource) (b : bool) : list act := if b then [Close r] else [].
Definition opening (r : resource) (b : bool) : list act := if b then [Open r] else [].

(** loadAuth, with its cleanup function. *)
Definition start_auth (pe : process_env) (env : boot_env) (c : Config)
    : M boot_error ((option validator * option key_backend) * list act) :=
  if AuthProvider (authConf c) =s "fusionauth" then
    let! a := lift (loadFusionAuth env c) in
    emit [Open JWKSRefresh] (ret (a, [Close JWKSRefresh]))
  else if KeyStoreBackendName (keys c) =s "postgres" then
    let! _ := open_pool KeyStorePool (pe_pg pe KeyStorePool) in
    let! a := on_error [Close (Pool KeyStorePool)] (lift (loadAPIKeys env c)) in
    ret (a, [Close (Pool KeyStorePool)])
  else let! a := lift (loadAPIKeys env c) in ret (a, []).

(** loadWriteAudit, with the pool it may have opened. *)
Definition start_write_audit (pe : process_env) (env : boot_env) (c : Config) : M boot_error (keyless_stores * bool) :=
  if KeylessPGDSN (keyless c) =s "" then lift (loadWriteAudit env c)
  else let! _ := open_pool KeylessPool (pe_pg pe KeylessPool) in lift (loadWriteAudit env c).

Definition is_some {A} (o : option A) : bool := match o with Some _ => true | None => false end.

(** startAuditAndAdmin, with its cleanup function. *)
Definition startAuditAndAdmin (pe : process_env) (env : boot_env) (c : Config) (backend : option key_backend)
    : M boot_error ((keyless_stores * option Purger * option (gmap string string)) * list act) :=
  let! audit := start_write_audit pe env c in
  let writeAuditCleanup := closing (Pool KeylessPool) audit.2 in
  let! purger := on_error writeAuditCleanup (lift (startRetentionPurge env c audit.2)) in
  emit (if is_some purger then [StartPurge] else []) (
  let! admin := on_error writeAuditCleanup (lift (startAdminServer env c backend)) in
  emit (opening AdminAPI (is_some admin)) (
  ret ((audit.1, purger, admin), closing AdminAPI (is_some admin) ++ writeAuditCleanup))).

(** ** run *)

Definition janitors : list resource := [ClientJanitor; AnonJanitor; FailJanitor].

(** The transport serves until it ends; a signal cancels the context first. *)
Definition serve_until (e : transport_end) : M boot_error (option error) :=
  match e with
  | Interrupted e => emit [Open ServeLoop; Cancel; Close ServeLoop] (ret e)
  | Ended e => emit [Open ServeLoop; Close ServeLoop] (ret e)
  end.

(** run from startAuditAndAdmin on, from the EVM client on, and from its start. *)
Definition main_rest (pe : process_env) (c : Config) (auth : (option validator * option key_backend) * list act)
    (pending : option PendingKeyStore * EmailSender) : M boot_error (deployment * transport_call * option error) :=
  let env := boot pe c in
  let! audit := startAuditAndAdmin pe env c auth.1.2 in
  defer audit.2 (
  emit (if Boot.http c then Open <$> janitors else []) (defer (if Boot.http c then Close <$> janitors else []) (
  let! kr := lift (newKeyRequestHandler env c) in
  emit (opening RequestJanitor (is_some kr)) (defer (closing RequestJanitor (is_some kr)) (
  let d := mkDeployment c auth.1.1 auth.1.2 audit.1.2 pending.1 pending.2 audit.1.1.1 audit.1.1.2
             (relay_config c audit.1.1.1) (fst <$> kr) (http_config c auth.1.1 (snd <$> kr)) in
  let! call := lift (runTransport d) in
  let! e := serve_until (pe_transport pe) in
  ret (d, call, e)))))).

Definition main_body (pe : process_env) (c : Config) (auth : (option validator * option key_backend) * list act)
    : M boot_error (deployment * transport_call * option error) :=
  let env := boot pe c in
  let! _ := lift (try (be_evm env)) in
  scoped EvmClient (
  let! _ := lift (try (be_bind env)) in
  scoped HealthServer (
  let! pending := lift (newPendingAndEmail env c) in
  main_rest pe c auth pending)).

Definition main_run (pe : process_env) : M boot_error (deployment * transport_call * option error) :=
  let! c := lift (load_config (pe_boot pe)) in
  emit [Open SignalContext] (defer [Cancel; Close SignalContext] (
  let! tel := fail_with BootError (start_telemetry pe c) in
  defer (Shutdown (pe_tel pe) tel).2 (
  let! auth := start_auth pe (boot pe c) c in
  defer auth.2 (main_body pe c auth)))).

(** ** The values are Boot's *)

Lemma bind_fst {E A B} (m : M E A) (k : A → M E B) : (bind m k).1 = rbind m.1 (λ a, (k a).1).
Proof. unfold bind. by destruct (m.1). Qed.
Lemma lift_bind {E A B} (r : result E A) (k : A → M E B) : (bind (lift r) k).1 = rbind r (λ a, (k a).1).
Proof. apply bind_fst. Qed.
Lemma on_error_fst {E A} l (m : M E A) : (on_error l m).1 = m.1.
Proof. unfold on_error. by destruct (m.1) eqn:E1. Qed.

Lemma rbind_ext {E A B} (r : result E A) (f g : A → result E B) : (∀ a, r = Ok a → f a = g a) → rbind r f = rbind r g.
Proof. destruct r; cbn; auto. Qed.

(** A pool that cannot be opened fails the boot as Boot says. *)
Lemma pool_spec p b : match pool_result p b with
  | PoolReady => (open_pool p b).1 = Ok tt
  | PoolFails e => (open_pool p b).1 = Err (BootError e)
  | PoolBadDSN => (open_pool p b).1 = Err (dsn_error p)
  end.
Proof.
  unfold pool_result, open_pool. destruct (pb_dsn b); cbn [negb]; [|by destruct p].
  unfold fail_with. cbn [fst]. destruct ((step_M _ _ _).1) as [[]|e]; done.
Qed.

Section Values.
Context (pe : process_env) (c : Config).
Abbreviation env := (boot pe c).

(** What the start of the authentication holds. *)
Definition auth_held : list resource :=
  if AuthProvider (authConf c) =s "fusionauth" then [JWKSRefresh]
  else if KeyStoreBackendName (keys c) =s "postgres" then [Pool KeyStorePool] else [].

Lemma start_auth_value : (start_auth pe env c).1 = rbind (loadAuth env c) (λ a, Ok (a, Close <$> auth_held)).
Proof using Type.
  unfold start_auth, loadAuth, auth_held. destruct (AuthProvider _ =s _); [by rewrite lift_bind|].
  destruct (KeyStoreBackendName _ =s _) eqn:Eb; [|by rewrite lift_bind].
  rewrite bind_fst. pose proof (pool_spec KeyStorePool (pe_pg pe KeyStorePool)) as Hp.
  unfold loadAPIKeys. rewrite Eb. cbv zeta. unfold loadPostgresKeyStore at 2. cbn [be_key_pool boot].
  destruct (pool_result _ _) as [|e|] eqn:Ep; rewrite Hp; cbn [rbind]; [done..|].
  rewrite bind_fst, on_error_fst. cbn [lift fst]. unfold loadPostgresKeyStore. cbn [be_key_pool boot]. by rewrite Ep.
Qed.

Lemma start_write_audit_value : (start_write_audit pe env c).1 = loadWriteAudit env c.
Proof using Type.
  unfold start_write_audit, loadWriteAudit. destruct (KeylessPGDSN _ =s _) eqn:Ed; [done|].
  rewrite bind_fst. pose proof (pool_spec KeylessPool (pe_pg pe KeylessPool)) as Hp. cbn [be_keyless_pool boot].
  destruct (pool_result _ _) as [|e|]; rewrite Hp; done.
Qed.

Lemma start_audit_value backend : (startAuditAndAdmin pe env c backend).1 =
  rbind (loadWriteAudit env c) (λ audit, rbind (startRetentionPurge env c audit.2) (λ purger,
  rbind (startAdminServer env c backend) (λ admin,
  Ok ((audit.1, purger, admin), closing AdminAPI (is_some admin) ++ closing (Pool KeylessPool) audit.2)))).
Proof using Type.
  unfold startAuditAndAdmin. rewrite bind_fst, start_write_audit_value. apply rbind_ext. intros audit _.
  rewrite bind_fst, on_error_fst. apply rbind_ext. intros purger _. cbn [emit fst].
  rewrite bind_fst, on_error_fst. by apply rbind_ext.
Qed.
End Values.

Definition ended (e : transport_end) : option error := match e with Interrupted e | Ended e => e end.

(** main's values, from Boot's. *)
Definition main_value (pe : process_env) : result boot_error (deployment * transport_call * option error) :=
  rbind (load_config (pe_boot pe)) (λ c,
  rbind (Boot.run (boot pe c)) (λ d, rbind (runTransport d) (λ call, Ok (d, call, ended (pe_transport pe))))).

Lemma main_run_value pe : (main_run pe).1 = main_value pe.
Proof.
  unfold main_run, main_body, main_rest, main_value. rewrite lift_bind. apply rbind_ext. intros c Hc. cbn [emit defer fst].
  unfold Boot.run at 1. assert (load_config (boot pe c) = Ok c) as -> by exact Hc. cbn [rbind].
  change (be_telemetry (boot pe c)) with (match (start_telemetry pe c).1 with Err e => Some e | Ok _ => None end).
  rewrite bind_fst. unfold fail_with. cbn [fst].
  destruct ((start_telemetry pe c).1) as [tel|e]; cbn [rmap_err rbind try fst defer]; [|done].
  rewrite bind_fst, start_auth_value. destruct (loadAuth (boot pe c) c) as [auth|e]; cbn [rbind fst snd defer]; [|done].
  rewrite lift_bind. change (be_evm (boot pe c)) with (be_evm (pe_boot pe)).
  destruct (try (be_evm _)) as [[]|e]; cbn [rbind scoped emit defer fst snd]; [|done].
  rewrite lift_bind. change (be_bind (boot pe c)) with (be_bind (pe_boot pe)).
  destruct (try (be_bind _)) as [[]|e]; cbn [rbind scoped emit defer fst snd]; [|done].
  rewrite lift_bind. destruct (newPendingAndEmail (boot pe c) c) as [pending|e]; cbn [rbind]; [|done].
  rewrite bind_fst, start_audit_value. destruct (loadWriteAudit (boot pe c) c) as [audit|e]; cbn [rbind]; [|done].
  destruct (startRetentionPurge (boot pe c) c audit.2) as [purger|e]; cbn [rbind]; [|done].
  destruct (startAdminServer (boot pe c) c auth.2) as [admin|e]; cbn [rbind emit defer fst snd]; [|done].
  rewrite lift_bind. destruct (newKeyRequestHandler (boot pe c) c) as [kr|e]; cbn [rbind emit defer fst snd]; [|done].
  rewrite lift_bind. apply rbind_ext. intros call _. rewrite bind_fst. by destruct (pe_transport pe).
Qed.

(** ** The ledger *)

Lemma migrations_tidy p b held : below (pool_rank p) held → tidy (Pool p :: held) (RunMigrations p b).
Proof.
  intros Hb. apply (leaves_frame (pool_rank p + 1) (Pool p :: held) (RunMigrations p b) (λ _, [])).
  - unfold RunMigrations, step_M. destruct p, (pb_conn b), (pb_lock b), (pb_dialect b), (pb_up b); reflexivity.
  - apply below_cons; [cbn [rank]; lia|done].
  - unfold leaves, RunMigrations, step_M. destruct p, (pb_conn b), (pb_lock b), (pb_dialect b), (pb_up b); reflexivity.
Qed.

Lemma open_pool_leaves p b held : below (pool_rank p) held →
  leaves held (open_pool p b) (λ r, match r with Ok _ => [Pool p] | Err _ => [] end ++ held).
Proof.
  intros Hb. unfold open_pool. destruct (pb_dsn b); cbn [negb]; [|done].
  eapply (leaves_fail_with held BootError _ (λ r, match r with Ok _ => [Pool p] | Err _ => [] end ++ held)); [|].
  2: { unfold fail_with. cbn [fst]. by destruct ((step_M _ _ _).1). }
  unfold step_M at 1. destruct (pb_connect b); [done|].
  eapply leaves_emit; [by apply play_open|].
  apply (leaves_on_error _ _ _ (λ _, Pool p :: held)); [|done|intros e _; by apply play_close_top].
  unfold step_M. destruct (pb_ping b); [done|].
  by apply (leaves_fail_with _ _ _ (λ _, Pool p :: held)); [apply migrations_tidy|].
Qed.

Section Ledger.
Context (pe : process_env) (c : Config).
Abbreviation env := (boot pe c).

Lemma start_auth_leaves held : below 10 held →
  leaves held (start_auth pe env c) (λ r, match r with Ok _ => auth_held c | Err _ => [] end ++ held).
Proof using Type.
  intros Hb. unfold start_auth, auth_held. destruct (AuthProvider _ =s _).
  { apply (leaves_bind held _ _ (λ _, held)); [done| |done]. intros a _. unfold leaves, emit. cbn [fst snd ret app].
    apply play_open. eapply below_mono; [|done]. cbn; lia. }
  destruct (KeyStoreBackendName _ =s _); [|by apply (leaves_bind held _ _ (λ _, held))].
  eapply leaves_bind; [by apply open_pool_leaves| |done]. intros [] _. cbn [app].
  apply (leaves_bind _ _ _ (λ r, match r with Ok _ => [Pool KeyStorePool] | Err _ => [] end ++ held)); [|done|done].
  apply (leaves_on_error _ _ _ (λ _, Pool KeyStorePool :: held)); [done|done|]. intros e _. by apply play_close_top.
Qed.

Lemma auth_cleanup held x : below 10 held → (start_auth pe env c).1 = Ok x →
  play uses x.2 (auth_held c ++ held) = Some held.
Proof using Type.
  intros Hb. rewrite start_auth_value. destruct (loadAuth env c); cbn [rbind]; [|done]. intros [= <-]. cbn [snd].
  unfold auth_held. assert (below 15 held) by (eapply below_mono; [|done]; lia).
  destruct (_ =s _); [by apply play_close_top|]. destruct (_ =s _); [by apply play_close_top|done].
Qed.

Lemma auth_below held : below 10 held → below 20 (auth_held c ++ held).
Proof using Type.
  intros Hb. unfold auth_held. destruct (_ =s _); [|destruct (_ =s _)]; cbn [app];
    [apply below_cons; [reflexivity|]..|]; eapply below_mono; try exact Hb; cbn; lia.
Qed.

Definition audit_held (a : keyless_stores * option Purger * option (gmap string string)) : list resource :=
  (if is_some a.2 then [AdminAPI] else []) ++ (if KeylessPGDSN (keyless c) =s "" then [] else [Pool KeylessPool]).

Lemma write_audit_pool audit : loadWriteAudit env c = Ok audit → audit.2 = negb (KeylessPGDSN (keyless c) =s "").
Proof using Type.
  unfold loadWriteAudit. destruct (_ =s _); [by intros [= <-]|]. destruct (be_keyless_pool _); [done..|]. by intros [= <-].
Qed.

Lemma no_purge_without_pool p : startRetentionPurge env c false = Ok p → p = None.
Proof using Type. unfold startRetentionPurge. destruct (negb (Enabled _)); cbn [negb]; congruence. Qed.

Lemma write_audit_leaves held : below 30 held →
  leaves held (start_write_audit pe env c)
    (λ r, match r with Ok a => if a.2 then [Pool KeylessPool] else [] | Err _ => [] end ++ held).
Proof using Type.
  intros Hb. unfold start_write_audit.
  destruct (_ =s _) eqn:Ed.
  { unfold leaves. cbn [fst snd lift]. destruct (loadWriteAudit env c) as [a|e] eqn:Ea; [|done]. apply write_audit_pool in Ea.
    by rewrite Ea, Ed. }
  eapply leaves_bind; [by apply open_pool_leaves| |done]. intros [] Hok. unfold leaves.
  cbn [lift fst snd app play]. assert (is_ok (loadWriteAudit env c) = true) as Hw.
  { unfold loadWriteAudit. rewrite Ed. pose proof (pool_spec KeylessPool (pe_pg pe KeylessPool)) as Hp.
    cbn [be_keyless_pool boot]. by destruct (pool_result _ _); [rewrite Hp in Hok..|]. }
  destruct (loadWriteAudit env c) as [a|e] eqn:Ea; [|done]. apply write_audit_pool in Ea. by rewrite Ea, Ed.
Qed.

Lemma audit_leaves backend held : SignalContext ∈ held → below 30 held →
  leaves held (startAuditAndAdmin pe env c backend)
    (λ r, match r with Ok x => audit_held x.1 | Err _ => [] end ++ held).
Proof using Type.
  intros Hsig Hb. unfold startAuditAndAdmin.
  eapply leaves_bind; [by apply write_audit_leaves| |done]. intros audit Ha. rewrite start_write_audit_value in Ha.
  apply write_audit_pool in Ha. set (pool := if audit.2 then [Pool KeylessPool] else []).
  assert (play uses (closing (Pool KeylessPool) audit.2) (pool ++ held) = Some held) as Hclose.
  { unfold pool. destruct (audit.2); [by apply play_close_top|done]. }
  assert (below 41 (pool ++ held)) as Hb'.
  { unfold pool. destruct (audit.2); cbn [app]; [apply below_cons; [reflexivity|]|]; (eapply below_mono; [|exact Hb]; cbn; lia). }
  apply (leaves_bind _ _ _ (λ r, match r with Ok _ => pool | Err _ => [] end ++ held)); [| |done].
  { apply (leaves_on_error _ _ _ (λ _, pool ++ held)); [done|done|]. by intros e _. }
  intros purger Hpu. rewrite on_error_fst in Hpu. cbn [lift fst] in Hpu.
  apply (leaves_emit _ (pool ++ held)).
  { destruct purger as [p|]; [|done]. cbn [is_some play play_act]. unfold pool. destruct (audit.2).
    - rewrite bool_decide_eq_true_2; [done|]. split; [by right|by left].
    - by apply no_purge_without_pool in Hpu. }
  apply (leaves_bind _ _ _ (λ r, match r with Ok _ => pool | Err _ => [] end ++ held)); [| |done].
  { apply (leaves_on_error _ _ _ (λ _, pool ++ held)); [done|done|]. by intros e _. }
  intros admin _. apply (leaves_emit _ ((if is_some admin then [AdminAPI] else []) ++ pool ++ held)).
  { destruct admin; [by apply play_open|done]. }
  unfold leaves, ret, audit_held, pool. cbn [fst snd play]. by destruct (is_some admin), (_ =s _); rewrite Ha.
Qed.

Lemma audit_cleanup backend held x : below 30 held → (startAuditAndAdmin pe env c backend).1 = Ok x →
  play uses x.2 (audit_held x.1 ++ held) = Some held.
Proof using Type.
  intros Hb. rewrite start_audit_value. destruct (loadWriteAudit env c) as [a|] eqn:Ea; cbn [rbind]; [|done].
  destruct (startRetentionPurge _ _ _); cbn [rbind]; [|done]. destruct (startAdminServer _ _ _) as [admin|]; cbn [rbind]; [|done].
  intros [= <-]. cbn [fst snd audit_held]. apply write_audit_pool in Ea. rewrite Ea.
  assert (below 41 held) as Hb' by (eapply below_mono; [|exact Hb]; lia).
  pose proof (play_close_top (Pool KeylessPool) held Hb) as Hp.
  pose proof (play_close_top AdminAPI (Pool KeylessPool :: held) (below_cons (Pool KeylessPool) 41 held eq_refl Hb)) as Ha.
  pose proof (play_close_top AdminAPI held Hb') as Ha'.
  pose proof (play_app uses [Close AdminAPI] [Close (Pool KeylessPool)] (AdminAPI :: Pool KeylessPool :: held)) as Happ.
  rewrite Ha, Hp in Happ.
  unfold closing, audit_held. destruct (is_some _), (_ =s _); cbn [negb app fst snd]; [exact Ha'|exact Happ|done|exact Hp].
Qed.

Lemma audit_below a held : below 30 held → below 42 (audit_held a ++ held).
Proof using Type.
  intros Hb. unfold audit_held. destruct (is_some _), (_ =s _); cbn [app];
    repeat (apply below_cons; [reflexivity|]); (eapply below_mono; [|exact Hb]; cbn; lia).
Qed.

Lemma serve_tidy e held : SignalContext ∈ held → below 50 held → tidy held (serve_until e).
Proof using Type.
  intros Hsig Hb. pose proof (play_open ServeLoop held Hb) as Ho. pose proof (play_close_top ServeLoop held Hb) as Hc.
  assert (play uses [Cancel] (ServeLoop :: held) = Some (ServeLoop :: held)) as Hcancel.
  { cbn [play play_act]. by rewrite bool_decide_eq_true_2 by (by right). }
  unfold tidy, leaves. destruct e; cbn [serve_until fst snd].
  - pose proof (play_app uses [Open ServeLoop] ([Cancel] ++ [Close ServeLoop]) held) as H.
    assert (play uses ([Cancel] ++ [Close ServeLoop]) (ServeLoop :: held) = Some held) as H2 by (rewrite play_app, Hcancel; exact Hc).
    rewrite Ho in H. exact (eq_trans H H2).
  - pose proof (play_app uses [Open ServeLoop] [Close ServeLoop] held) as H.
    rewrite Ho in H. exact (eq_trans H Hc).
Qed.
End Ledger.

(** ** The process *)

(** The exporters left open: those of a telemetry that failed to start, or that
    its shutdown did not reach. *)
Definition left_open (pe : process_env) : list exporter :=
  match load_config (pe_boot pe) with
  | Err _ => []
  | Ok c =>
      let cfg := telemetry_config c in
      if is_ok (New (pe_tel pe) cfg).1 then reverse (missed (pe_tel pe) (trace_exporters cfg)) else leaked (pe_tel pe) cfg
  end.

Lemma telemetry_below cfg : below 8 (telemetry_held cfg ++ [SignalContext]).
Proof.
  unfold telemetry_held, trace_exporters, metric_exporters, below.
  destruct (otlp cfg), (tc_EnablePrometheus cfg), (tc_EnableStdout cfg); repeat constructor; reflexivity.
Qed.

(** What run does once telemetry is up. *)
Lemma main_inner_tidy pe c held (k : _ → M boot_error (deployment * transport_call * option error)) :
  SignalContext ∈ held → below 10 held →
  (∀ auth held', SignalContext ∈ held' → below 20 held' → tidy held' (k auth)) →
  tidy held (let! auth := start_auth pe (boot pe c) c in defer auth.2 (k auth)).
Proof.
  intros Hsig Hb Hk. apply (tidy_acquire held _ k (λ _, auth_held c)).
  - pose proof (start_auth_leaves pe c held Hb) as H. unfold leaves in *. rewrite H. by destruct ((start_auth _ _ _).1).
  - intros x Hx. split; [by eapply auth_cleanup|]. apply Hk; [rewrite elem_of_app; by right|by apply auth_below].
Qed.

Lemma main_audit_tidy pe c backend held (k : _ → M boot_error (deployment * transport_call * option error)) :
  SignalContext ∈ held → below 30 held →
  (∀ x held', SignalContext ∈ held' → below 42 held' → tidy held' (k x)) →
  tidy held (let! audit := startAuditAndAdmin pe (boot pe c) c backend in defer audit.2 (k audit)).
Proof.
  intros Hsig Hb Hk. apply (tidy_acquire held _ k (audit_held c)).
  - pose proof (audit_leaves pe c backend held Hsig Hb) as H. unfold leaves in *. rewrite H.
    by destruct ((startAuditAndAdmin _ _ _ _).1).
  - intros x Hx. split; [by eapply audit_cleanup|]. apply Hk; [rewrite elem_of_app; by right|by apply audit_below].
Qed.

(** The janitors stop in the order they started. *)
Lemma janitors_tidy {A} (on : bool) held (m : M boot_error A) : below 42 held →
  tidy ((if on then reverse janitors else []) ++ held) m →
  tidy held (emit (if on then Open <$> janitors else []) (defer (if on then Close <$> janitors else []) m)).
Proof.
  intros Hb Hm. eapply leaves_emit; [|eapply leaves_defer; [exact Hm|]]; destruct on; try done.
  - by apply (play_frame 42 (Open <$> janitors) [] (reverse janitors)).
  - by apply (play_frame 42 (Close <$> janitors) (reverse janitors) []).
Qed.

Lemma janitor_tidy {A} (on : bool) held (m : M boot_error A) : below 45 held →
  tidy ((if on then [RequestJanitor] else []) ++ held) m →
  tidy held (emit (opening RequestJanitor on) (defer (closing RequestJanitor on) m)).
Proof.
  intros Hb Hm. eapply leaves_emit; [|eapply leaves_defer; [exact Hm|]]; destruct on; try done.
  - by apply play_open.
  - by apply play_close_top.
Qed.

(** From the EVM client on. *)
Lemma main_body_tidy pe c auth held : SignalContext ∈ held → below 20 held →
  tidy held (main_body pe c auth).
Proof.
  intros Hsig Hb. apply tidy_lift_bind. intros _ _. apply leaves_scoped; [done|]. apply tidy_lift_bind. intros _ _.
  assert (below 21 (EvmClient :: held)) by (by apply below_cons).
  apply leaves_scoped; [done|]. apply tidy_lift_bind. intros pending _.
  apply main_audit_tidy; [by do 2 right|by eapply (below_cons HealthServer 30)|].
  intros audit held1 Hsig1 Hb1. apply janitors_tidy; [done|]. apply tidy_lift_bind. intros kr _.
  change (reverse janitors) with [FailJanitor; AnonJanitor; ClientJanitor].
  assert (below 45 ((if http c then [FailJanitor; AnonJanitor; ClientJanitor] else []) ++ held1)) as Hb2.
  { destruct (http c); cbn [app]; [|eapply below_mono; [|exact Hb1]; lia]. by repeat (apply below_cons; [reflexivity|]). }
  apply janitor_tidy; [done|].
  apply tidy_lift_bind. intros call _.
  apply (leaves_bind _ _ _ (λ _, (if is_some kr then [RequestJanitor] else []) ++
    (if http c then [FailJanitor; AnonJanitor; ClientJanitor] else []) ++ held1)); [|done|done].
  apply serve_tidy.
  - rewrite !elem_of_app. auto.
  - destruct (is_some kr); cbn [app]; [by apply below_cons|]. eapply below_mono; [|exact Hb2]. lia.
Qed.

Lemma main_run_leaves pe : play uses (main_run pe).2 [] = Some (Exporter <$> left_open pe).
Proof.
  unfold main_run, left_open. destruct (load_config (pe_boot pe)) as [c|e] eqn:Ec; [|done].
  cbn [bind lift fst emit snd app]. set (cfg := telemetry_config c).
  assert (∀ xs, play uses [Cancel; Close SignalContext] ((Exporter <$> xs) ++ [SignalContext]) = Some (Exporter <$> xs))
    as Hend.
  { intros xs. cbn [play play_act]. assert (SignalContext ∈ (Exporter <$> xs) ++ [SignalContext]) as Hin
      by (rewrite elem_of_app; right; by left).
    rewrite !bool_decide_eq_true_2 by done. cbn [andb].
    assert (drop_resource SignalContext ((Exporter <$> xs) ++ [SignalContext]) = Exporter <$> xs) as ->; [|].
    { unfold drop_resource. rewrite filter_app. change (filter (λ x, x ≠ SignalContext) [SignalContext]) with (@nil resource).
      rewrite app_nil_r. clear Hin. induction xs as [|x xs IH]; [done|]. rewrite fmap_cons, filter_cons_True by done. by rewrite IH. }
    assert (forallb (λ x, negb (uses x SignalContext)) (Exporter <$> xs) = true) as ->; [|done].
    clear Hin. by induction xs as [|[] xs IH]. }
  assert (below 1 [SignalContext]) as Hb by (constructor; [reflexivity|constructor]).
  set (left := if is_ok (New (pe_tel pe) cfg).1 then _ else _).
  change (leaves [] (emit [Open SignalContext] (defer [Cancel; Close SignalContext] (
    let! tel := fail_with BootError (start_telemetry pe c) in defer (Shutdown (pe_tel pe) tel).2 (
    let! auth := start_auth pe (boot pe c) c in defer auth.2 (main_body pe c auth)))))
    (λ _, Exporter <$> left)).
  apply (leaves_emit [] [SignalContext]); [reflexivity|].
  apply (leaves_defer _ _ _ (λ _, (Exporter <$> left) ++ [SignalContext])); [|apply Hend].
  assert (leaves [SignalContext] (fail_with BootError (start_telemetry pe c))
    (λ r, match r with Ok _ => telemetry_held cfg | Err _ => Exporter <$> leaked (pe_tel pe) cfg end ++ [SignalContext])) as Ht.
  { unfold start_telemetry. pose proof (New_leaves (pe_tel pe) cfg [SignalContext] Hb) as H. unfold leaves, fail_with in *.
    cbn [fst snd]. fold cfg. rewrite H. by destruct ((New _ _).1). }
  eapply leaves_bind; [exact Ht| |].
  - intros tel Hok. assert ((New (pe_tel pe) cfg).1 = Ok tel) as Hnew.
    { revert Hok. unfold start_telemetry, fail_with. cbn [fst]. fold cfg. destruct ((New _ _).1); cbn; congruence. }
    eapply leaves_defer; [apply (main_inner_tidy pe c _ (main_body pe c))|].
    + rewrite elem_of_app. right. by left.
    + eapply below_mono; [|apply telemetry_below]. lia.
    + intros auth held' Hs Hb'. by apply main_body_tidy.
    + unfold left. rewrite Hnew. cbn [is_ok]. by apply Shutdown_leaves.
  - intros e He. unfold left. revert He. unfold start_telemetry, fail_with. cbn [fst]. fold cfg.
    by destruct ((New _ _).1).
Qed.

Lemma open_pool_serves p b : serves (open_pool p b).2 = false.
Proof.
  unfold open_pool, RunMigrations, step_M.
  destruct (pb_dsn b), (pb_connect b), (pb_ping b), (pb_conn b), (pb_lock b), (pb_dialect b), (pb_up b); reflexivity.
Qed.

Lemma bind_quiet {E A B} (m : M E A) (k : A → M E B) :
  serves m.2 = false → (∀ a, serves (k a).2 = false) → serves (bind m k).2 = false.
Proof.
  intros Hm Hk. unfold bind. destruct (m.1); cbn [emit snd]; [|done]. by rewrite serves_app, Hm, Hk.
Qed.

Lemma on_error_quiet {E A} l (m : M E A) : serves l = false → serves m.2 = false → serves (on_error l m).2 = false.
Proof. intros Hl Hm. unfold on_error. destruct (m.1); cbn [snd]; [done|]. by rewrite serves_app, Hm, Hl. Qed.

Lemma start_auth_quiet pe env c : serves (start_auth pe env c).2 = false.
Proof.
  unfold start_auth. destruct (_ =s _); [by apply bind_quiet|]. destruct (_ =s _); [|by apply bind_quiet].
  apply bind_quiet; [apply open_pool_serves|]. intros _. apply bind_quiet; [|done]. by apply on_error_quiet.
Qed.

Lemma audit_quiet pe env c backend : serves (startAuditAndAdmin pe env c backend).2 = false.
Proof.
  unfold startAuditAndAdmin, start_write_audit. apply bind_quiet.
  { destruct (_ =s _); [done|]. apply bind_quiet; [apply open_pool_serves|done]. }
  intros audit. assert (serves (closing (Pool KeylessPool) audit.2) = false) as Hc by (by destruct (audit.2)).
  apply bind_quiet; [by apply on_error_quiet|]. intros purger. cbn [emit snd]. rewrite serves_app.
  assert (serves (if is_some purger then [StartPurge] else []) = false) as -> by (by destruct (is_some purger)). cbn [orb].
  apply bind_quiet; [by apply on_error_quiet|]. intros admin. cbn [emit ret snd]. rewrite app_nil_r. by destruct (is_some admin).
Qed.

Lemma main_run_serves pe : serves_ok (main_run pe).
Proof.
  apply serves_lift_bind. intros c. apply serves_emit; [done|]. apply serves_defer; [done|].
  apply serves_bind; [apply New_serves|]. intros tel _. apply serves_defer; [apply Shutdown_serves|].
  apply serves_bind; [apply start_auth_quiet|]. intros auth Ha. rewrite start_auth_value in Ha.
  apply rbind_ok in Ha as (a & _ & [= <-]). apply serves_defer; [apply serves_closes|].
  unfold main_body. apply serves_lift_bind. intros _. apply serves_scoped; [done|]. apply serves_lift_bind. intros _.
  apply serves_scoped; [done|]. apply serves_lift_bind. intros pending.
  apply serves_bind; [apply audit_quiet|]. intros audit Ha. rewrite start_audit_value in Ha.
  apply rbind_ok in Ha as (x & _ & Ha). apply rbind_ok in Ha as (p & _ & Ha). apply rbind_ok in Ha as (ad & _ & [= <-]).
  apply serves_defer; [by destruct (is_some ad), (x.2)|].
  apply serves_emit; [by destruct (http c)|]. apply serves_defer; [by destruct (http c)|].
  apply serves_lift_bind. intros kr. apply serves_emit; [by destruct (is_some kr)|].
  apply serves_defer; [by destruct (is_some kr)|]. apply serves_lift_bind. intros call.
  by destruct (pe_transport pe).
Qed.

(** *** The purge loop *)

Lemma open_pool_starts p b : starts_purge (open_pool p b).2 = false.
Proof.
  unfold open_pool, RunMigrations, step_M.
  destruct (pb_dsn b), (pb_connect b), (pb_ping b), (pb_conn b), (pb_lock b), (pb_dialect b), (pb_up b); reflexivity.
Qed.

Lemma write_audit_starts pe env c : starts_purge (start_write_audit pe env c).2 = false.
Proof.
  unfold start_write_audit. destruct (_ =s _); [done|]. unfold bind. pose proof (open_pool_starts KeylessPool (pe_pg pe KeylessPool)).
  destruct ((open_pool _ _).1); cbn [emit lift snd]; [by rewrite app_nil_r|done].
Qed.

Lemma start_auth_starts pe env c : starts_purge (start_auth pe env c).2 = false.
Proof.
  unfold start_auth. destruct (_ =s _); [by destruct (loadFusionAuth env c)|]. destruct (_ =s _); [|by destruct (loadAPIKeys env c)].
  unfold bind. pose proof (open_pool_starts KeyStorePool (pe_pg pe KeyStorePool)).
  destruct ((open_pool _ _).1); cbn [emit lift snd on_error ret]; [|done].
  by destruct (loadAPIKeys env c); cbn [on_error lift fst snd emit ret]; rewrite starts_purge_app, H.
Qed.

(** How the loop ends up. *)
Definition purge_end (pe : process_env) (r : result boot_error (deployment * transport_call * option error))
    (started : bool) : purge_state :=
  match r with
  | Ok (d, _, _) =>
      if is_some (dp_purger d)
      then match pe_transport pe with Interrupted _ => PurgeStopping | Ended _ => PurgeOrphaned end
      else NoPurge
  | Err _ => if started then PurgeOrphaned else NoPurge
  end.

Lemma purge_end_settled pe r b : purge_end pe r b ≠ PurgeRunning.
Proof. destruct r as [[[d ?] ?]|]; cbn; [destruct (is_some _), (pe_transport pe); done|by destruct b]. Qed.

Lemma bind_emit {E A B} l (m : M E A) (k : A → M E B) : bind (emit l m) k = emit l (bind m k).
Proof. unfold bind, emit. cbn [fst snd]. destruct (m.1); cbn [fst snd]; [|done]. by rewrite (assoc_L (++)). Qed.

Lemma main_rest_purge pe c auth pending : let m := main_rest pe c auth pending in
  purge_of m.2 = purge_end pe m.1 (starts_purge m.2).
Proof.
  unfold main_rest, startAuditAndAdmin. cbv zeta.
  pose proof (write_audit_starts pe (boot pe c) c) as Hw. pose proof (start_write_audit_value pe c) as Hv.
  destruct (start_write_audit pe (boot pe c) c) as [audit w]. cbn [fst snd] in Hw, Hv.
  assert (∀ l, purge_of (w ++ l) = purge_of l) as Hpre
    by (intros l; unfold purge_of; rewrite foldl_app; by rewrite (purge_settled NoPurge w)).
  assert (∀ l, starts_purge (w ++ l) = starts_purge l) as Hst by (intros l; by rewrite starts_purge_app, Hw).
  destruct audit as [audit|e]; cbn [bind fst snd emit].
  2: { rewrite Hw. unfold purge_end. by apply purge_settled. }
  rewrite bind_emit. cbn [emit fst snd]. rewrite Hpre, Hst.
  destruct (startRetentionPurge (boot pe c) c audit.2) as [purger|e] eqn:Ep; [|by destruct (audit.2)].
  assert (audit.2 = false → purger = None) as Hpool.
  { intros E2. rewrite E2 in Ep. by apply no_purge_without_pool in Ep. }
  unfold purge_end. cbn [on_error lift bind fst snd emit app].
  destruct purger as [p|], (audit.2); try (discriminate (Hpool eq_refl));
    (destruct (startAdminServer (boot pe c) c auth.1.2) as [[admin|]|e]; [| |reflexivity]);
    destruct (http c);
    (destruct (newKeyRequestHandler (boot pe c) c) as [[kr|]|e]; [| |reflexivity]);
    cbn [on_error lift bind fst snd emit is_some app opening closing ret defer];
    (match goal with |- context [runTransport ?d] => destruct (runTransport d) end; [|reflexivity]);
    destruct (pe_transport pe); reflexivity.
Qed.

(** What runs before and after without starting a purge leaves it as it ended. *)
Definition purge_ends (pe : process_env) (m : M boot_error (deployment * transport_call * option error)) : Prop :=
  purge_of m.2 = purge_end pe m.1 (starts_purge m.2).

Lemma ends_emit pe l m : starts_purge l = false → purge_ends pe m → purge_ends pe (emit l m).
Proof.
  unfold purge_ends. cbn [emit fst snd]. intros Hl Hm. rewrite starts_purge_app, Hl. cbn [orb]. rewrite <-Hm.
  unfold purge_of. by rewrite foldl_app, (purge_settled NoPurge l).
Qed.

Lemma ends_defer pe l m : starts_purge l = false → purge_ends pe m → purge_ends pe (defer l m).
Proof.
  unfold purge_ends. cbn [defer fst snd]. intros Hl Hm. rewrite starts_purge_app, Hl, orb_false_r, <-Hm.
  unfold purge_of in *. rewrite foldl_app. apply purge_settled; [|done]. rewrite Hm. apply purge_end_settled.
Qed.

Lemma ends_bind {A} pe (m : M boot_error A) k : starts_purge m.2 = false → (∀ a, m.1 = Ok a → purge_ends pe (k a)) →
  purge_ends pe (bind m k).
Proof.
  intros Hm Hk. unfold bind. destruct (m.1) as [a|e]; [by apply ends_emit; auto|].
  unfold purge_ends. cbn [fst snd]. rewrite Hm. unfold purge_of. by apply purge_settled.
Qed.

Lemma ends_scoped pe r m : purge_ends pe m → purge_ends pe (scoped r m).
Proof. intros Hm. by apply ends_emit; [|by apply ends_defer]. Qed.

Lemma main_run_purge pe : purge_ends pe (main_run pe).
Proof.
  apply ends_bind; [done|]. intros c _. apply ends_emit; [done|]. apply ends_defer; [done|].
  apply ends_bind; [apply New_starts_no_purge|]. intros tel _. apply ends_defer; [apply Shutdown_starts_no_purge|].
  apply ends_bind; [apply start_auth_starts|]. intros auth Ha. rewrite start_auth_value in Ha.
  apply rbind_ok in Ha as (a & _ & [= <-]). apply ends_defer; [apply starts_purge_closes|].
  apply ends_bind; [done|]. intros _ _. apply ends_scoped, ends_bind; [done|]. intros _ _.
  apply ends_scoped, ends_bind; [done|]. intros pending _. apply main_rest_purge.
Qed.

(** C18: The process gives back what it takes. Whatever fails on the way, run
    returns what Boot computes from the same environment, serves exactly when that
    boot succeeds, and every database pool, migration lock and connection, key
    fetcher, client, server and janitor it opened is closed exactly once, none while
    another of them works on it or while the transport serves, migrations only under
    their lock. What can stay open are telemetry exporters, and none do when
    telemetry came up and its shutdown context did not expire. The purge loop, which
    nothing joins, is followed apart: if it was started, it is told to stop before
    the pool it works on is closed exactly when a signal ended a serving transport;
    on every other way out the pool is closed under it. *)
Theorem process_lifecycle pe :
  let '(r, acts) := main_run pe in
  r = main_value pe ∧ serves acts = is_ok r ∧
  play uses acts [] = Some (Exporter <$> left_open pe) ∧
  (∀ c, load_config (pe_boot pe) = Ok c → is_ok (New (pe_tel pe) (telemetry_config c)).1 = true →
     (∀ x, te_expired (pe_tel pe) x = false) → left_open pe = []) ∧
  purge_of acts =
    match r with
    | Ok (d, _, _) =>
        if is_some (dp_purger d)
        then match pe_transport pe with Interrupted _ => PurgeStopping | Ended _ => PurgeOrphaned end
        else NoPurge
    | Err _ => if starts_purge acts then PurgeOrphaned else NoPurge
    end.
Proof.
  pose proof (main_run_value pe) as Hv. pose proof (main_run_serves pe) as Hs. pose proof (main_run_leaves pe) as Hl.
  pose proof (main_run_purge pe) as Hp. unfold serves_ok, purge_ends, purge_end in *.
  destruct (main_run pe) as [r acts]. cbn [fst snd] in *. split; [done|]. split; [done|]. split; [done|]. split; [|exact Hp].
  intros c Hc Hok Hx. unfold left_open. rewrite Hc, Hok.
  assert (∀ xs, missed (pe_tel pe) xs = []) as -> by (induction xs as [|x xs IH]; cbn; [done|by rewrite Hx]). done.
Qed.

(** ** A purge under a closed pool

    The purge loop is told to stop by the signal context, which run cancels last: on
    a transport that ends without a signal the pool is closed first. *)

Definition demo_process (e : transport_end) : process_env :=
  mkProcessEnv (boot_of (<["MCP_SIGNER_QUOTA_RETENTION" := "48h"]> demo_keyless_environ) no_disk) demo_tel_env
    (λ _, mkPgBoot true None None None None None None) e.

Definition purge_acts (l : list act) : list act :=
  List.filter (λ a, match a with StartPurge | Cancel | Close (Pool KeylessPool) => true | _ => false end) l.

Lemma pool_closed_under_purge :
  purge_acts (main_run (demo_process (Ended None))).2 = [StartPurge; Close (Pool KeylessPool); Cancel] ∧
  purge_acts (main_run (demo_process (Interrupted None))).2 = [StartPurge; Cancel; Close (Pool KeylessPool); Cancel].
Proof. vm_compute. split; reflexivity. Qed.
