(* ===== verification/Seed.v ===== *)
(** The seeding command (cmd/seed-test-data): it finds or creates the test registry
    on a live chain and adds its records, each transaction prepared, signed,
    submitted and waited for before the next.

    The chain is a state that reads observe and submissions and waiting change.
    Signing is a third-party library, a class here. Beside the chain the model keeps
    the list of what the command did to it. *)

From stdpp Require Import pretty.
From S2P Require Import Prelude GoErrors Fs Hex Http Ingress Evm Anchor EvmTools AnchorTools.

(** github.com/defiweb/go-eth: a transaction, its wire form, and a wallet key. *)
Class Wallet := {
  wallet_tx : Type;
  DecodeRLP : string → result error wallet_tx;
  SetChainID : Z → wallet_tx → wallet_tx;
  SignTransaction : string → wallet_tx → result error wallet_tx;
  TxRaw : wallet_tx → result error string
}.

(** ** Constants *)

Definition seed_chainID : Z := 787111.
Definition registryName : string := "mcp-test-data".
Definition registryDesc : string := "Test registry seeded by cmd/seed-test-data for MCP server validation".

(** A flat JSON object of strings. *)
Fixpoint json_fields (l : list (string * string)) : string :=
  match l with
  | [] => ""
  | [(k, v)] => quoted k +:+ ":" +:+ quoted v
  | (k, v) :: l => quoted k +:+ ":" +:+ quoted v +:+ "," +:+ json_fields l
  end.
Definition json_object (l : list (string * string)) : string := "{" +:+ json_fields l +:+ "}".

Record testRecord := mkTestRecord { tr_URI : string; tr_Checksum : string; tr_ChecksumAlgo : string; tr_Metadata : string }.

Definition records : list testRecord := [
  mkTestRecord "https://docs.example.com/reports/q1-2026.pdf"
    "a1b2c3d4e5f6a7b8c9d0e1f2a3b4c5d6e7f8a9b0c1d2e3f4a5b6c7d8e9f0a1b2" "sha256"
    (json_object [("type", "quarterly_report"); ("quarter", "Q1-2026")]);
  mkTestRecord "ipfs://QmFakeHash123456789abcdef0123456789abcdef"
    "d4e5f6a7b8c9d0e1f2a3b4c5d6e7f8a9b0c1d2e3f4a5b6c7d8e9f0a1b2c3d4e5" "sha256"
    (json_object [("type", "audit_certificate"); ("auditor", "TestAudit LLC")]);
  mkTestRecord "https://docs.example.com/contracts/nda-001.pdf"
    "789abcde0123456789abcdef0123456789abcdef0123456789abcdef01234567" "sha256"
    (json_object [("type", "legal_contract"); ("classification", "confidential")])].

Definition errTxReverted : error := Opaque "transaction reverted".
Definition errMissingCredField : error := Opaque "file missing Address or PrivateKey fields".
Definition errReceiptTimeout : error := Opaque "timed out waiting for transaction receipt".
Definition errNegativeChainID : error := Opaque "negative chain ID".
Definition errRegistryNotFoundPost : error := Opaque "registry not found after creation".

(** ** Credentials *)

Record credentials := mkCredentials { cr_address : string; cr_privateKey : string }.

Fixpoint split_lines (s : string) : list string :=
  match s with
  | EmptyString => [""]
  | String c s =>
      if Ascii.eqb c "010" then "" :: split_lines s
      else match split_lines s with p :: ps => String c p :: ps | [] => [String c ""] end
  end.

(** strings.CutPrefix, trimmed; the last line with the prefix wins. *)
Definition cut_field (name line : string) (old : string) : string :=
  if has_prefix name line then trim_space (trim_prefix name line) else old.

Definition loadCredentials (path : string) (file : result error string) : result error credentials :=
  let? data := rmap_err (λ e, Wrap ("read " +:+ path +:+ ": ") e "") file in
  let '(address, keyHex) :=
    foldl (λ '(a, k) line, let line := trim_space line in (cut_field "Address:" line a, cut_field "PrivateKey:" line k))
      ("", "") (split_lines data) in
  if (address =s "") || (keyHex =s "") then Err errMissingCredField
  else match hex_decode (trim_prefix "0x" keyHex) with
       | None => Err (Wrap "invalid private key hex: " (Opaque "encoding/hex: invalid byte") "")
       | Some b => Ok (mkCredentials address b)
       end.

Definition signTx `{Wallet} (utx : UnsignedTransaction) (key : string) : result error string :=
  match hex_decode (trim_prefix "0x" (ut_RawTx utx)) with
  | None => Err (Wrap "decode raw tx hex: " (Opaque "encoding/hex: invalid byte") "")
  | Some b =>
      let? tx := rmap_err (λ e, Wrap "unmarshal unsigned tx: " e "") (DecodeRLP b) in
      if ut_ChainID utx <? 0 then Err (Wrap ("chain ID " +:+ pretty (ut_ChainID utx) +:+ ": ") errNegativeChainID "")
      else
        let? tx := rmap_err (λ e, Wrap "sign tx: " e "") (SignTransaction key (SetChainID (ut_ChainID utx) tx)) in
        let? raw := rmap_err (λ e, Wrap "marshal signed tx: " e "") (TxRaw tx) in
        Ok ("0x" +:+ hex_encode raw)
  end.

(** defitypes.HashFromHex without padding. *)
Definition HashFromHex (h : string) : result error hash :=
  match HexToBytes h with
  | None => Err (Opaque "invalid hex string")
  | Some b => if slen b =? 32 then Ok b else Err (Opaque ("invalid hash length " +:+ pretty (slen b)))
  end.

(** ** The scan *)

Definition findRegistryByNameMaxPages : nat := 100.

Definition seed_request (cursorKey : string) : GetRegistriesRequest :=
  mkGetRegistries None (Some (mkPageRequest 0 200 false cursorKey)).

(** First match of a page, or the next page; [k] numbers the call. *)
Fixpoint find_pages (api : anchor_api) (pages k : nat) (cursorKey name : string) : result error (option Registry) :=
  match pages with
  | O => Ok None
  | S pages =>
      let? resp := api_GetRegistries api k (seed_request cursorKey) in
      match List.find (λ r, rg_Name r =s name) (gs_Registries resp) with
      | Some r => Ok (Some r)
      | None =>
          let? nextKey := response_cursor resp in
          if slen nextKey =? 0 then Ok None else find_pages api pages (S k) nextKey name
      end
  end.

Definition findRegistryByName (api : anchor_api) (name : string) : result error (option Registry) :=
  find_pages api findRegistryByNameMaxPages 0 "" name.

(** ** The command *)

(** What happened on the chain: a submission, with what was prepared for it and the
    node's answer, and the receipt of one, with its status. *)
Inductive seed_event :=
  | Submitted (req : prepare_req) (answer : result error string)
  | Mined (req : prepare_req) (status : string).

Section Seed.
Context {W : Type} `{Wallet}.

(** The chain: what the clients read from it, a submission, a receipt, two seconds
    of waiting, and the time since a wait began at each test of its deadline. *)
Record chain := mkChain {
  ch_info : W → result error ChainInfo;
  ch_api : W → anchor_api;
  ch_send : string → W → result error string * W;
  ch_receipt : hash → W → result error NormalizedReceipt;
  ch_sleep : W → W;
  ch_elapsed : nat → Z
}.
Context (c : chain).

Definition seed_st : Type := W * list seed_event.

(** A step: [None] is a panic. *)
Definition S (A : Type) : Type := seed_st → answer A * seed_st.
Definition s_ret {A} (r : result error A) : S A := λ st, (Some r, st).
Definition s_bind {A B} (m : S A) (k : A → S B) : S B := λ st,
  match m st with
  | (Some (Ok a), st) => k a st
  | (Some (Err e), st) => (Some (Err e), st)
  | (None, st) => (None, st)
  end.
Definition s_read {A} (f : W → answer A) : S A := λ st, (f st.1, st).

Notation "'let$' x := m 'in' k" := (s_bind m (λ x, k)) (at level 10, x name, m at level 100, k at level 200) : go_scope.

Definition seconds (n : Z) : Z := n * 10 ^ 9.

(** The wait of one transaction. Each round sleeps two seconds, so that the
    deadline comes within [fuel] rounds (see [wait_enough]). *)
Fixpoint poll (fuel i : nat) (h : hash) (timeout : Z) (txHash : string) : S NormalizedReceipt := λ st,
  match fuel with
  | O => (Some (Err (Wrap ("after 30s for " +:+ txHash +:+ ": ") errReceiptTimeout "")), st)
  | Datatypes.S fuel =>
      if ch_elapsed c i <? timeout then
        let st := (ch_sleep c st.1, st.2) in
        match ch_receipt c h st.1 with
        | Err _ => poll fuel (Datatypes.S i) h timeout txHash st
        | Ok r => (Some (Ok r), st)
        end
      else (Some (Err (Wrap ("after 30s for " +:+ txHash +:+ ": ") errReceiptTimeout "")), st)
  end.

Definition wait_rounds : nat := 16.

Definition waitForReceipt (txHash : string) (timeout : Z) : S NormalizedReceipt :=
  match HashFromHex txHash with
  | Err e => s_ret (Err (Wrap ("invalid tx hash " +:+ txHash +:+ ": ") e ""))
  | Ok h => poll wait_rounds 0 h timeout txHash
  end.

(** SendRawTransaction, and the receipt, remembered. *)
Definition s_send (req : prepare_req) (signed : string) : S string := λ st,
  let '(r, w) := ch_send c signed st.1 in (Some r, (w, st.2 ++ [Submitted req r])).
Definition s_mined (req : prepare_req) (receipt : NormalizedReceipt) : S unit := λ st,
  (Some (Ok tt), (st.1, st.2 ++ [Mined req (nr_Status receipt)])).

Definition s_err {A} (f : error → error) (m : S A) : S A := λ st,
  let '(r, st) := m st in (rmap_err f <$> r, st).

Definition submitPreparedTx (req : prepare_req) (creds : credentials) (label : string) : S unit :=
  let$ utx := s_err (λ e, Wrap ("prepare " +:+ label +:+ ": ") e "") (s_read (λ w, api_Prepare (ch_api c w) req)) in
  let$ signed := s_err (λ e, Wrap ("sign " +:+ label +:+ ": ") e "") (s_ret (signTx utx (cr_privateKey creds))) in
  let$ txHash := s_err (λ e, Wrap ("submit " +:+ label +:+ ": ") e "") (s_send req signed) in
  let$ receipt := s_err (λ e, Wrap (label +:+ " receipt: ") e "") (waitForReceipt txHash (seconds 30)) in
  let$ _ := s_mined req receipt in
  s_ret (if nr_Status receipt =s "success" then Ok tt
         else Err (Wrap (label +:+ " status=" +:+ nr_Status receipt +:+ ": ") errTxReverted "")).

Definition registry_request (creds : credentials) : prepare_req :=
  PAddRegistry (mkAddRegistry (cr_address creds) registryName registryDesc
    (json_object [("seeded_by", "cmd/seed-test-data")]) false).

Definition record_request (creds : credentials) (registryID : Z) (r : testRecord) : prepare_req :=
  PAddRecord (mkAddRecord (cr_address creds) registryID (tr_URI r) (tr_Checksum r) (tr_ChecksumAlgo r) ""
    (tr_Metadata r) false).

(** An error of the first scan counts as absence. *)
Definition ensureRegistry (creds : credentials) : S Z := λ st,
  match findRegistryByName (ch_api c st.1) registryName with
  | Ok (Some r) => (Some (Ok (rg_ID r)), st)
  | _ =>
      (let$ _ := submitPreparedTx (registry_request creds) creds "addRegistry" in
       let$ reg := s_err (λ e, Wrap "resolve created registry: " e "")
                     (s_read (λ w, Some (findRegistryByName (ch_api c w) registryName))) in
       s_ret (match reg with
              | None => Err (Wrap (quoted registryName +:+ ": ") errRegistryNotFoundPost "")
              | Some r => Ok (rg_ID r)
              end)) st
  end.

Fixpoint seed_from (i : nat) (creds : credentials) (registryID : Z) (l : list testRecord) : S unit :=
  match l with
  | [] => s_ret (Ok tt)
  | r :: l =>
      let$ _ := submitPreparedTx (record_request creds registryID r) creds ("addRecord[" +:+ pretty i +:+ "]") in
      seed_from (Datatypes.S i) creds registryID l
  end.
Definition seedRecords (creds : credentials) (registryID : Z) : S unit := seed_from 0 creds registryID records.

Definition verifySeededData (registryID : Z) : S unit :=
  let$ _ := s_err (λ e, Wrap "verify registry: " e "") (s_read (λ w, Some (api_GetRegistry (ch_api c w) registryID))) in
  let$ _ := s_err (λ e, Wrap "verify records: " e "")
    (s_read (λ w, Some (api_GetRecords (ch_api c w)
       (mkGetRecords (Some registryID) None None None (Some (mkPageRequest 0 10 false "")))))) in
  s_ret (Ok tt).

(** run, given the credentials file and the outcome of dialling the node. *)
Definition run (file : result error string) (dial : option error) : S unit :=
  let$ creds := s_err (λ e, Wrap "load credentials: " e "") (s_ret (loadCredentials ".chain_credentials.txt" file)) in
  let$ _ := s_ret (match dial with Some e => Err (Wrap "connect to RPC: " e "") | None => Ok tt end) in
  let$ _ := s_err (λ e, Wrap "chain info: " e "") (s_read (λ w, Some (ch_info c w))) in
  let$ registryID := ensureRegistry creds in
  let$ _ := seedRecords creds registryID in
  verifySeededData registryID.
End Seed.

(** ** What it does *)

(** A transaction that was accepted and mined; and the ways one stops the run. *)
Definition did (req : prepare_req) (l : list seed_event) : Prop :=
  ∃ h, l = [Submitted req (Ok h); Mined req "success"].
Definition stopped (req : prepare_req) (l : list seed_event) : Prop :=
  l = [] ∨ (∃ a, l = [Submitted req a]) ∨ ∃ h s, l = [Submitted req (Ok h); Mined req s] ∧ s ≠ "success".

(** One transaction after the other, as far as it got. *)
Inductive follows : list prepare_req → list seed_event → bool → Prop :=
  | follows_done : follows [] [] true
  | follows_stop req plan l : stopped req l → follows (req :: plan) l false
  | follows_next req plan l1 l2 b : did req l1 → follows plan l2 b → follows (req :: plan) (l1 ++ l2) b.

Lemma follows_empty req plan : follows (req :: plan) [] false.
Proof. apply follows_stop. by left. Qed.

Section Facts.
Context {W : Type} `{Wallet} (c : chain (W := W)).

Definition succeeds {A} (r : answer A) : bool := match r with Some (Ok _) => true | _ => false end.

Lemma s_bind_eq {A B} (m : S (W := W) A) (k : A → S B) st : s_bind m k st =
  match m st with (Some (Ok a), st) => k a st | (Some (Err e), st) => (Some (Err e), st) | (None, st) => (None, st) end.
Proof. done. Qed.

Lemma poll_log fuel i h timeout tx st : (poll c fuel i h timeout tx st).2.2 = st.2.
Proof.
  revert i st. induction fuel as [|fuel IH]; intros i st; [done|]. cbn [poll]. destruct (_ <? _); [|done].
  destruct (ch_receipt _ _ _); [done|]. by rewrite IH.
Qed.

Lemma wait_log tx timeout st : (waitForReceipt c tx timeout st).2.2 = st.2.
Proof. unfold waitForReceipt. destruct (HashFromHex tx); [apply poll_log|done]. Qed.

(** Fifteen rounds reach the deadline. *)
Lemma wait_enough (Hclock : ∀ i, seconds (2 * Z.of_nat i) ≤ ch_elapsed c i) k h tx st :
  poll c (wait_rounds + k) 0 h (seconds 30) tx st = poll c wait_rounds 0 h (seconds 30) tx st.
Proof.
  assert (∀ fuel i st, (16 ≤ fuel + i)%nat → poll c (fuel + k) i h (seconds 30) tx st = poll c fuel i h (seconds 30) tx st)
    as Hgen; [|by apply Hgen].
  induction fuel as [|fuel IH]; intros i st' Hi.
  - destruct k as [|k]; [done|]. cbn [Nat.add poll]. rewrite (proj2 (Z.ltb_ge _ _)); [done|].
    specialize (Hclock i). unfold seconds in *. lia.
  - cbn [Nat.add poll]. destruct (_ <? _); [|done]. destruct (ch_receipt _ _ _); [done|]. apply IH. lia.
Qed.

Lemma submit_spec req creds label st :
  let '(r, st') := submitPreparedTx c req creds label st in
  ∃ l, st'.2 = st.2 ++ l ∧ if succeeds r then did req l else stopped req l.
Proof.
  unfold submitPreparedTx, s_bind, s_err, s_read, s_ret, s_send, s_mined.
  destruct (api_Prepare _ _) as [[utx|e]|]; cbn; [|exists []; rewrite app_nil_r; split; [done|by left]..].
  destruct (signTx _ _) as [signed|e]; cbn; [|exists []; rewrite app_nil_r; split; [done|by left]].
  destruct (ch_send c signed st.1) as [[tx|e] w]; cbn; [|eexists; split; [done|right; left; eauto]].
  pose proof (wait_log tx (seconds 30) (w, st.2 ++ [Submitted req (Ok tx)])) as Hw.
  destruct (waitForReceipt _ _ _ _) as [[[r|e]|] [w' l']]; cbn in *; subst l'; [|eexists; split; [done|right; left; eauto]..].
  exists [Submitted req (Ok tx); Mined req (nr_Status r)]. split; [by rewrite <-(assoc_L (++))|].
  destruct (_ =s _) eqn:Es; bool_to_prop; cbn [succeeds].
  - exists tx. by rewrite Es.
  - right. right. eauto.
Qed.

Lemma seed_spec i creds id l st :
  let '(r, st') := seed_from c i creds id l st in
  ∃ new, st'.2 = st.2 ++ new ∧ follows (record_request creds id <$> l) new (succeeds r).
Proof.
  revert i st. induction l as [|x l IH]; intros i st; cbn [seed_from].
  { exists []. rewrite app_nil_r. split; [done|constructor]. }
  unfold s_bind. pose proof (submit_spec (record_request creds id x) creds ("addRecord[" +:+ pretty i +:+ "]") st) as Hs.
  destruct (submitPreparedTx _ _ _ _ _) as [[[u|e]|] st1]; destruct Hs as (new & Hl & Hn); cbn [succeeds] in *;
    [|exists new; split; [done|by apply follows_stop]..].
  specialize (IH (Datatypes.S i) st1). destruct (seed_from _ _ _ _ _ _) as [r st2]. destruct IH as (new2 & Hl2 & Hf).
  exists (new ++ new2). rewrite Hl2, Hl, (assoc_L (++)). split; [done|]. by apply follows_next.
Qed.

Lemma verify_log id st : (verifySeededData c id st).2 = st.
Proof.
  unfold verifySeededData, s_bind, s_err, s_read, s_ret.
  destruct (api_GetRegistry _ _); cbn; [|done]. by destruct (api_GetRecords _ _).
Qed.

(** What a seeding run does to the chain. It submits nothing, or follows its
    plan transaction by transaction, each submitted only after the one before was
    accepted and mined with success, and stops at the first that is not: the three
    records into the registry its scan found, or, when the scan found none or
    failed, a new registry first. It succeeds only with the whole plan done. *)
Theorem seed_run_effect file dial w :
  let '(r, (_, events)) := run c file dial (w, []) in
  (events = [] ∧ succeeds r = false) ∨
  ∃ creds id done_, (succeeds r = true → done_ = true) ∧
    match findRegistryByName (ch_api c w) registryName with
    | Ok (Some reg) => id = rg_ID reg ∧ follows (record_request creds id <$> records) events done_
    | _ => follows (registry_request creds :: (record_request creds id <$> records)) events done_
    end.
Proof.
  unfold run. rewrite s_bind_eq. unfold s_err at 1, s_ret at 1. destruct (loadCredentials _ _) as [creds|e]; cbn [fmap option_fmap option_map rmap_err]; [|by left].
  rewrite s_bind_eq. unfold s_ret at 1. destruct dial as [e|]; [by left|].
  rewrite s_bind_eq. unfold s_err at 1, s_read at 1. cbn [fst fmap option_fmap option_map].
  destruct (ch_info c w); cbn [rmap_err]; [|by left].
  assert (∀ id st, let '(r, st') := s_bind (seedRecords c creds id) (λ _, verifySeededData c id) st in
    ∃ new b, st'.2 = st.2 ++ new ∧ follows (record_request creds id <$> records) new b ∧ (succeeds r = true → b = true))
    as Hrest.
  { intros id st. rewrite s_bind_eq. pose proof (seed_spec 0 creds id records st) as Hs. unfold seedRecords.
    destruct (seed_from _ _ _ _ _ _) as [[[u|e]|] st1]; destruct Hs as (new & Hl & Hf); [|exists new, false; done..].
    pose proof (verify_log id st1) as Hv. destruct (verifySeededData _ _ _) as [r st2]. cbn in Hv. subst st2.
    exists new, true. done. }
  rewrite s_bind_eq. unfold ensureRegistry. cbn [fst].
  destruct (findRegistryByName (ch_api c w) registryName) as [[reg|]|e] eqn:Ef.
  { specialize (Hrest (rg_ID reg) (w, [])). destruct (s_bind _ _ _) as [r [w' ev]].
    destruct Hrest as (new & b & Hev & Hf & Hr). cbn in Hev. subst ev. right. by exists creds, (rg_ID reg), b. }
  all: rewrite s_bind_eq; pose proof (submit_spec (registry_request creds) creds "addRegistry" (w, [])) as Hs;
    destruct (submitPreparedTx _ _ _ _ _) as [[[u|e1]|] st1]; destruct Hs as (l1 & Hl1 & Hn); cbn [succeeds fst snd app] in *;
    [|destruct st1 as [w1 ev]; cbn in Hl1; subst ev; right; exists creds, 0, false; split; [done|by apply follows_stop]..];
    rewrite s_bind_eq; unfold s_err at 1, s_read at 1, s_ret at 1;
    destruct (findRegistryByName (ch_api c st1.1) registryName) as [[reg|]|e2]; cbn [fmap option_fmap option_map rmap_err];
    [|destruct st1 as [w1 ev]; cbn in Hl1; subst ev; right; exists creds, 0, false; split; [done|];
      rewrite <-(app_nil_r l1); apply follows_next; [done|apply follows_empty]..];
    specialize (Hrest (rg_ID reg) st1); destruct (s_bind _ _ _) as [r [w' ev]];
    destruct Hrest as (new & b & Hev & Hf & Hr); cbn in Hev, Hl1; rewrite Hl1 in Hev; subst ev;
    right; exists creds, (rg_ID reg), b; (split; [done|]); by apply follows_next.
Qed.
End Facts.

(** ** The scan finds the first match *)

Section Scan.
Context (api : anchor_api) (table : list Registry) (count : Z) `{!ServesTable api table count}.

Lemma find_app {A} (f : A → bool) l1 l2 :
  List.find f (l1 ++ l2) = match List.find f l1 with Some x => Some x | None => List.find f l2 end.
Proof using Type. induction l1 as [|x l1 IH]; cbn; [done|]. by destruct (f x). Qed.

(** Over a client that takes an absent registry id for zero, as Anchor's does. *)
Context (Hzero : ∀ k p, api_GetRegistries api k (mkGetRegistries None p) = api_GetRegistries api k (mkGetRegistries (Some 0) p)).

Lemma find_pages_served pages k cursor name p :
  at_position table cursor 0 p → (p ≤ length table)%nat →
  find_pages api pages k cursor name =
    Ok (List.find (λ r, rg_Name r =s name) (take (200 * pages) (drop p table))).
Proof using All.
  revert k cursor p. induction pages as [|pages IH]; intros k cursor p Hpos Hp; cbn [find_pages]; [done|].
  unfold seed_request. rewrite Hzero. fold (list_request (mkPageRequest 0 200 false cursor)).
  rewrite (serve_at api table count cursor 0 p 200 k) by done. cbn [rbind gs_Registries]. change (Z.to_nat 200) with 200%nat.
  replace (200 * Datatypes.S pages)%nat with (200 + 200 * pages)%nat by lia.
  rewrite <-take_take_drop, find_app, drop_drop. destruct (List.find _ (take 200 _)); [done|].
  unfold response_cursor. cbn [gs_Pagination pg_NextKey]. rewrite CursorBytes_Encode. cbn [rbind].
  pose proof (cursor_at_spec api table count (p + 200)) as Hc. destruct (decide _) as [Hlt|Hge].
  - destruct Hc as [Hc8 Hcpos]. rewrite Hc8. change (8 =? 0) with false. cbv iota. apply IH; [done|lia].
  - rewrite Hc. cbn [slen String.length]. change (Z.of_nat 0 =? 0) with true. cbv iota.
    by rewrite drop_ge, take_nil by lia.
Qed.

(** The first registry of the name among the first 20,000 rows, in at most a
    hundred calls. *)
Lemma find_first name : findRegistryByName api name = Ok (List.find (λ r, rg_Name r =s name) (take (200 * 100) table)).
Proof using All.
  unfold findRegistryByName. rewrite (find_pages_served _ _ _ _ 0) by (done || lia). by rewrite drop_0.
Qed.
End Scan.

Lemma client_takes_zero `{EthLib} `{AnchorLib} (c : anchor_client) nodes k p :
  api_GetRegistries (client_api c nodes) k (mkGetRegistries None p) =
  api_GetRegistries (client_api c nodes) k (mkGetRegistries (Some 0) p).
Proof. done. Qed.

(** ** A concrete run *)

#[local] Instance DemoWallet : Wallet := {
  wallet_tx := string; DecodeRLP := Ok; SetChainID _ t := t; SignTransaction _ t := Ok t; TxRaw := Ok
}.

(** A chain that counts submissions: the registry is there after the first. Each
    receipt comes at the second poll. *)
Definition demo_hash : string := "0x" +:+ hex_encode "01234567890123456789012345678901".
Definition demo_utx : UnsignedTransaction :=
  mkUnsigned "0xab" 2 "" "" 0 0 "" "" "" "" seed_chainID (Anchor.mkWallet "" "" "" "" "" "" "" "" "" "").
Definition demo_registries (n : nat) : list Registry :=
  match n with O => [] | _ => [mkRegistry 7 registryName "" "" "" "" ""] end.
Definition demo_seed_api (n : nat) : anchor_api :=
  mkApi (mkInfo "" 0 true 1)
    (λ _, match demo_registries n with r :: _ => Ok r | [] => Err (Opaque "no registry") end)
    (λ _ _, Ok (mkRegistriesResponse (demo_registries n) None))
    (λ _, Ok (mkRecordsResponse [] None)) (λ _, Some (Ok demo_utx)).
Definition demo_chain (status : nat → string) : chain (W := nat * nat) :=
  mkChain (λ _, Ok (mkChainInfo seed_chainID 100)) (λ w, demo_seed_api w.1)
    (λ _ w, (Ok demo_hash, (Datatypes.S w.1, O)))
    (λ _ w, if (w.2 <? 2)%nat then Err (Opaque "pending") else Ok (mkNReceipt demo_hash 100 "" 0 (status w.1) 0 0 None []))
    (λ w, (w.1, Datatypes.S w.2)) (λ i, seconds (2 * Z.of_nat i)).
Definition demo_credentials : string :=
  "# test key" +:+ String "010" ("Address: 0xaa" +:+ String "010" ("PrivateKey: 0x01" +:+ String "010" "")).

(** A first run does the four transactions; a reverted second one ends it. *)
Example first_run :
  let '(r, (_, events)) := run (demo_chain (λ _, "success")) (Ok demo_credentials) None ((O, O), []) in
  r = Some (Ok tt) ∧
  events = concat ((λ q, [Submitted q (Ok demo_hash); Mined q "success"]) <$>
    (registry_request (mkCredentials "0xaa" (String "001" "")) ::
     (record_request (mkCredentials "0xaa" (String "001" "")) 7 <$> records))).
Proof. vm_compute. done. Qed.
Example reverted_run :
  let '(r, (_, events)) :=
    run (demo_chain (λ n, if (n =? 2)%nat then "failed" else "success")) (Ok demo_credentials) None ((O, O), []) in
  r = Some (Err (Wrap "addRecord[0] status=failed: " errTxReverted "")) ∧ length events = 4%nat.
Proof. vm_compute. done. Qed.
