(* ===== verification/Survey.v ===== *)
(** The survey command (cmd/query-anchor): the first page of registries, the records
    of the first twenty of them, and the newest records overall, printed.

    The report is what it prints, as data; [apis] is the client at each of its reads
    (the chain moves between them), and [None] is a panic, of a response without
    pagination. *)

From stdpp Require Import gmap.
From S2P Require Import Prelude GoErrors Evm Anchor AnchorTools.

(** What is printed of one registry with records, or of a failed read. *)
Inductive surveyed :=
  | SurveyError (id : Z) (name : string) (e : error)
  | SurveyRecords (id : Z) (name : string) (count : Z) (rows : list Rec).

Record survey := mkSurvey {
  sv_chain : ChainInfo;
  sv_total : Z;                                    (* registries on the chain *)
  sv_fetched : nat;
  sv_creators : gmap string Z;
  sv_span : option (Registry * Registry);          (* the first and the last of the page *)
  sv_registries : list surveyed;
  sv_surveyed : nat;
  sv_withRecords : Z;
  sv_totalRecords : Z;
  sv_all : result error GetRecordsResponse
}.

(** creators[c]++ over the page. *)
Fixpoint count_creators (l : list Registry) (m : gmap string Z) : gmap string Z :=
  match l with
  | [] => m
  | r :: l => count_creators l (<[rg_Creator r := default 0 (m !! rg_Creator r) + 1]> m)
  end.

(** What the loop carries: the lines printed so far, and its two counters. *)
Record tally := mkTally { ty_lines : list surveyed; ty_records : Z; ty_with : Z }.

Definition survey_registry (api : anchor_api) (reg : Registry) (t : tally) : tally :=
  match api_GetRecords api (mkGetRecords (Some (rg_ID reg)) None None None (Some (mkPageRequest 0 5 false ""))) with
  | Err e => mkTally (ty_lines t ++ [SurveyError (rg_ID reg) (rg_Name reg) e]) (ty_records t) (ty_with t)
  | Ok r =>
      let count := match gd_Pagination r with Some p => pg_Total p | None => 0 end in
      let total := u64 (ty_records t + count) in
      if 0 <? count
      then mkTally (ty_lines t ++ [SurveyRecords (rg_ID reg) (rg_Name reg) count (gd_Records r)]) total (ty_with t + 1)
      else mkTally (ty_lines t) total (ty_with t)
  end.

(** [k] numbers the reads. *)
Fixpoint survey_registries (apis : nat → anchor_api) (k : nat) (l : list Registry) (t : tally) : tally :=
  match l with
  | [] => t
  | reg :: l => survey_registries apis (S k) l (survey_registry (apis k) reg t)
  end.

(** limit *)
Definition survey_count (regs : list Registry) : nat := Nat.min 20 (length regs).
#[global] Arguments survey_count : simpl never.

Definition all_records (api : anchor_api) : option (result error GetRecordsResponse) :=
  match api_GetRecords api (mkGetRecords None None None None (Some (mkPageRequest 0 20 false ""))) with
  | Err e => Some (Err e)
  | Ok r => match gd_Pagination r with Some _ => Some (Ok r) | None => None end
  end.

(** run, given the outcomes of dialling and of GetChainInfo. *)
Definition run (dial : option error) (info : result error ChainInfo) (apis : nat → anchor_api) : answer survey :=
  match dial, info with
  | Some e, _ => Some (Err (Wrap "connect: " e ""))
  | None, Err e => Some (Err (Wrap "chain info: " e ""))
  | None, Ok chainInfo =>
      match api_GetRegistries (apis O) O (mkGetRegistries None (Some (mkPageRequest 0 200 false ""))) with
      | Err e => Some (Err (Wrap "get registries: " e ""))
      | Ok page =>
          match gs_Pagination page with
          | None => None
          | Some p =>
              let regs := gs_Registries page in
              let limit := survey_count regs in
              let t := survey_registries apis 1 (take limit regs) (mkTally [] 0 0) in
              match all_records (apis (S limit)) with
              | None => None
              | Some all =>
                  Some (Ok (mkSurvey chainInfo (pg_Total p) (length regs) (count_creators regs ∅)
                              (match head regs, last regs with Some a, Some b => Some (a, b) | _, _ => None end)
                              (ty_lines t) limit (ty_with t) (ty_records t) all))
              end
          end
      end
  end.

(** ** What the report says *)

(** The records a registry's read counted. *)
Definition counted (x : surveyed) : Z := match x with SurveyRecords _ _ c _ => c | SurveyError _ _ _ => 0 end.
Definition has_records (x : surveyed) : bool := match x with SurveyRecords _ _ _ _ => true | SurveyError _ _ _ => false end.
Definition with_records (l : list surveyed) : Z := Z.of_nat (length (filter (λ x, has_records x = true) l)).
Definition sum_counted (l : list surveyed) : Z := foldr Z.add 0 (counted <$> l).

Lemma sum_counted_app l1 l2 : sum_counted (l1 ++ l2) = sum_counted l1 + sum_counted l2.
Proof.
  unfold sum_counted. rewrite fmap_app. induction l1 as [|x l1 IH]; cbn; [lia|]. cbn in IH. rewrite IH. lia.
Qed.

Lemma with_records_snoc l x : with_records (l ++ [x]) = with_records l + if has_records x then 1 else 0.
Proof.
  unfold with_records.
  rewrite filter_app, length_app, filter_cons, filter_nil.
  destruct (decide (has_records x = true)) as [E|E]; destruct (has_records x); try done; cbn [length]; lia.
Qed.
Lemma sum_counted_snoc l x : sum_counted (l ++ [x]) = sum_counted l + counted x.
Proof. rewrite sum_counted_app. unfold sum_counted. cbn. lia. Qed.

Lemma count_creators_lookup l m c : (∀ c n, m !! c = Some n → 0 < n) →
  count_creators l m !! c =
    let n := default 0 (m !! c) + Z.of_nat (length (filter (λ r, rg_Creator r = c) l)) in
    if 0 <? n then Some n else None.
Proof.
  revert m. induction l as [|r l IH]; intros m Hm; cbn [count_creators].
  { rewrite Z.add_0_r. cbv zeta. destruct (m !! c) as [n|] eqn:E; [|done]. apply Hm in E. cbn.
    by rewrite (proj2 (Z.ltb_lt _ _)). }
  rewrite IH.
  - cbv zeta. rewrite filter_cons. destruct (decide (rg_Creator r = c)) as [<-|Hne].
    + rewrite lookup_insert_eq. cbn [default length from_option id]. 
      replace (default 0 (m !! rg_Creator r) + 1 + Z.of_nat (length (filter (λ r0, rg_Creator r0 = rg_Creator r) l)))
        with (default 0 (m !! rg_Creator r) + Z.of_nat (S (length (filter (λ r0, rg_Creator r0 = rg_Creator r) l)))) by lia.
      done.
    + by rewrite lookup_insert_ne.
  - intros c' n. destruct (decide (rg_Creator r = c')) as [<-|Hne].
    + rewrite lookup_insert_eq. intros [= <-]. destruct (m !! _) as [k|] eqn:E; cbn; [apply Hm in E|]; lia.
    + rewrite lookup_insert_ne by done. apply Hm.
Qed.

Definition tally_ok (k : nat) (t : tally) : Prop :=
  ty_records t = u64 (sum_counted (ty_lines t)) ∧ ty_with t = with_records (ty_lines t) ∧ (length (ty_lines t) ≤ k)%nat.

(** Totals the client decoded are not negative. *)
Definition sane (api : anchor_api) : Prop := ∀ req r p,
  api_GetRecords api req = Ok r → gd_Pagination r = Some p → 0 ≤ pg_Total p.

Lemma u64_add_l a b : u64 (u64 a + b) = u64 (a + b).
Proof. unfold u64. by rewrite Zplus_mod_idemp_l. Qed.

Lemma survey_registry_ok api reg t k : sane api → tally_ok k t → tally_ok (S k) (survey_registry api reg t).
Proof.
  intros Hsane (H1 & H2 & H3). unfold survey_registry, tally_ok.
  destruct (api_GetRecords _ _) as [r|e] eqn:Er; cbn [ty_lines ty_records ty_with].
  - assert (0 ≤ match gd_Pagination r with Some p => pg_Total p | None => 0 end) as Hc.
    { destruct (gd_Pagination r) as [p|] eqn:Ep; [by eapply Hsane|lia]. }
    destruct (0 <? _) eqn:E; cbn [ty_lines ty_records ty_with]; bool_to_prop.
    + rewrite sum_counted_snoc, with_records_snoc, H1, u64_add_l, H2, length_app. cbn [counted has_records length].
      split_and!; [done|done|lia].
    + rewrite H1, u64_add_l, H2. split_and!; [f_equal; lia|done|lia].
  - rewrite sum_counted_snoc, with_records_snoc, H1, H2, length_app. cbn [counted has_records length].
    split_and!; [f_equal; lia|lia|lia].
Qed.

Lemma survey_registries_ok apis k l t j : (∀ i, sane (apis i)) → tally_ok j t →
  tally_ok (j + length l) (survey_registries apis k l t).
Proof.
  intros Hsane. revert k t j. induction l as [|reg l IH]; intros k t j Ht; cbn [survey_registries length].
  { by rewrite Nat.add_0_r. }
  rewrite <-Nat.add_succ_comm. apply IH. by apply survey_registry_ok.
Qed.

(** The report of a run adds up: every creator of the page is listed with the
    number of its registries, and no other; at most twenty registries are surveyed
    and each fills at most one line; the counts are those of the lines; the total is
    their sum, in 64 bits. *)
Theorem survey_adds_up dial info apis s (Hsane : ∀ i, sane (apis i)) (Hrun : run dial info apis = Some (Ok s)) :
  ∃ page, api_GetRegistries (apis O) O (mkGetRegistries None (Some (mkPageRequest 0 200 false ""))) = Ok page ∧
    sv_fetched s = length (gs_Registries page) ∧
    (∀ c n, sv_creators s !! c = Some n ↔
       0 < n ∧ n = Z.of_nat (length (filter (λ r, rg_Creator r = c) (gs_Registries page)))) ∧
    sv_surveyed s = Nat.min 20 (sv_fetched s) ∧ (length (sv_registries s) ≤ sv_surveyed s)%nat ∧
    sv_withRecords s = with_records (sv_registries s) ∧
    sv_totalRecords s = u64 (sum_counted (sv_registries s)).
Proof.
  unfold run in Hrun. destruct dial; [done|]. destruct info; [|done].
  destruct (api_GetRegistries _ _ _) as [page|] eqn:Ep; [|done]. exists page. split; [done|].
  destruct (gs_Pagination page); [|done]. cbv zeta in Hrun. destruct (all_records _); [|done]. injection Hrun as <-.
  cbn [sv_fetched sv_creators sv_surveyed sv_registries sv_withRecords sv_totalRecords].
  destruct (survey_registries_ok apis 1 (take (survey_count (gs_Registries page)) (gs_Registries page))
              (mkTally [] 0 0) 0 Hsane) as (H1 & H2 & H3); [done|].
  rewrite length_take in H3. refine (conj eq_refl (conj _ (conj eq_refl (conj _ (conj H2 H1))))).
  2: lia.
  intros c n. rewrite count_creators_lookup by done. cbv zeta. rewrite lookup_empty. cbn [default from_option].
  rewrite Z.add_0_l. destruct (0 <? _) eqn:E; bool_to_prop.
  - split; [by intros [= <-]|by intros [_ ->]].
  - split; [done|]. intros [Hn ->]. lia.
Qed.

(** Three registries of two creators: one with records, one whose read fails. *)
Example small_survey :
  let reg id creator := mkRegistry id "r" "" creator "" "" "" in
  let rec_ := mkRec 1 1 1 "ab" "sha256" "u" "Active" true "" "" in
  let api := mkApi (mkInfo "" 0 true 1) (λ _, Err (Opaque "unused"))
    (λ _ _, Ok (mkRegistriesResponse [reg 1 "a"; reg 2 "b"; reg 3 "a"] (Some (mkPageResponse 3 ""))))
    (λ req, match gc_RegistryID req with
            | Some 2 => Err (Opaque "timeout")
            | Some 3 => Ok (mkRecordsResponse [] None)
            | _ => Ok (mkRecordsResponse [rec_] (Some (mkPageResponse 5 "")))
            end) (λ _, None) in
  match run None (Ok (mkChainInfo 787111 100)) (λ _, api) with
  | Some (Ok s) =>
      sv_creators s !! "a" = Some 2 ∧ sv_creators s !! "b" = Some 1 ∧ sv_creators s !! "c" = None ∧
      sv_registries s = [SurveyRecords 1 "r" 5 [rec_]; SurveyError 2 "r" (Opaque "timeout")] ∧
      sv_surveyed s = 3%nat ∧ sv_withRecords s = 1 ∧ sv_totalRecords s = 5
  | _ => False
  end.
Proof. vm_compute. done. Qed.
